(* ===== verification/_CoqProject ===== *)
-Q . S2P
Prelude.v
Bytes.v
Utf8.v
FlatBuffers.v
Text.v
FlatBuffersRef.v
FlatBuffersRefLaws.v
Enums.v
Tables.v
Data.v
Send.v
Receive.v
ReceiveCommand.v
BuilderLogic.v
SendFacts.v
CommandFacts.v
ReadFacts.v
ReceiveFacts.v
PeerCommand.v
PeerMessages.v
Wire.v
NativeBuilder.v
NativeTables.v
NativeCommand.v
TestCommands.v
Rejection.v
RoundTrip.v
Protocol.v
Defects.v
Socket.v
Clients.v
ClientFacts.v
Stream.v
Sessions.v
SessionSpec.v
Overhead.v
Graph.v
GraphRef.v
ProcessManager.v
Daemon.v
DaemonFacts.v
World.v
WellFormed.v
EndToEnd.v
CppSend.v
TestDemon.v
Fixture.v
TestC.v
CppReceive.v
CppUser.v
Regression.v
RustSend.v
NativeReports.v
RustDaemon.v
RustFacts.v
RustSessions.v
ProtoClient.v
TestRust.v
