(* ===== verification/Prelude.v ===== *)
(** * Verification of the control daemon and its Python client

    The repository is a control daemon: a process on each machine that launches
    processes, watches files and sockets, and reports over TCP to its users.  The
    daemon exists twice, in C ([src/c]) and in Rust ([src/rust]); the Python code
    under [src/tests_python] is the user's side: the serialization module, the
    code generated from the schema, the client sessions and the measuring client.
    This development models the Python side, the C daemon and the Rust daemon, with
    what they send and what their own clients read, composes them, and proves the
    theorems that make them correct, and the ones that say where they are not.

    ** The parts of the program

    - [tests_python/serialization.py]: dataclasses, and for each message of the
      protocol a function that builds it and a function that decodes it, with two
      dispatchers that name the type of a received message.
    - [tests_python/demon/*.py]: what the FlatBuffers compiler generated from
      [flatbuffer/demon.fbs]: per table a class of accessors and the functions
      that fill it; per enumeration a class of constants.
    - [tests_python/test_demon.py]: the sessions of a client with a daemon, each
      with the verdict its test asserts, and the fixture that starts the daemon.
    - [tests_python/test_overhead.py]: a client that asks for the same process
      again and again, stores the mean times and writes them to a file, and
      [tests_python/generate_overhead_graph.py], the script that shows them.
    - [c/daemon-core.c], [c/daemon-features/*.c]: the daemon, a loop over epoll
      that serves requests, launches processes with [clone], keeps a table of
      them, and reports what happens to them, to files and to sockets.
    - [c/daemon-features/serialize.cpp], [serialize_wrapper.cpp]: the messages of both
      sides in C++, built and read; [c/test/Regression_test.c]: a client in C.
    - [rust/src/bin/main.rs], [rust/src/monitoring_tools/*.rs]: the other daemon, a
      task for each connection that handles one request after the other;
      [rust/src/proto/serialisation.rs]: what it sends;
      [rust/src/bin/proto_client.rs]: an interactive client.
    - the [flatbuffers] runtimes, which all of the above call: third-party.

    A session calls the serialization module, which calls the generated code,
    which calls the runtime; its bytes are requests of the daemon's loop, whose
    reports are the messages the session reads.  The development is layered in
    the same way.

    ** Files

    - Prelude: results ([res], exceptions as values), stateful computations
      ([st]), loops, shared lemmas and tactics.  Bytes: little-endian integers.
      Utf8: [str] as code points, the strict UTF-8 codec, and its round trip.
    - Text: [split] and [join], numbers in decimal, and [os.path].
    - FlatBuffers: the runtime as an interface.  Class [FlatBuffers] has the
      operations the sources call; class [FlatBuffersLaws] has their documented
      behaviour, over an abstract heap of strings, vectors and tables: what a
      builder holds, and that a finished buffer is an image of it
      ([buffer_image]).  FlatBuffersRef, FlatBuffersRefLaws: a runtime on bytes
      that satisfies the laws, so that they are not contradictory and every
      theorem applies to a concrete run.
    - Enums, Tables: [demon/*.py], one Module per file, one Definition per
      function ([End] is [End_]).
    - Data: the dataclasses and enumerations.  Send, Receive: one Definition for
      each [send_*] and [receive_*] function.  ReceiveCommand: [receive_command],
      over dynamically typed values, because it calls methods that the class of
      the object may not have.
    - BuilderLogic: a total-correctness logic for builder programs ([runs]: no
      exception, and what the heap holds after; [raises]) and its automation, for
      any state seen as such a heap (class [Viewed]).
      SendFacts, CommandFacts: what the buffers of the [send_*] functions hold.
      ReadFacts, ReceiveFacts: what the accessors and the decoders read from an
      image.  Rejection: the programs that raise from every state.
    - PeerCommand: the specification of a command message, a reader on the
      generated accessors.  PeerMessages: the messages only the daemons build.
      Wire: what the bytes of each message show, whoever built them.
    - NativeBuilder: the builder of the C++ library and of the Rust crate as an
      interface (class [NativeBuilder], its laws [NativeLaws]), with an instance on
      the reference runtime.  NativeTables: the generated functions that fill a
      table, in the order of the generated code, and the image each message is.
      NativeCommand: a command built natively is one the same reader reads.
    - RoundTrip: what is sent is what is received, for every message the module
      can serialize; and what cannot be represented is not sent.
    - Protocol: dispatch and decoding agree on all bytes, and the messages of the
      daemons are decoded.
    - Defects: functions that never succeed, values lost on the way, results
      without the declared type.
    - Socket, Clients: a TCP connection as a state with the segments that will
      arrive and the write at which it breaks, if it does, and the sessions of
      [test_demon.py].  ClientFacts, Sessions: the
      framing, and the verdict of each session over a transcript of the daemon.
    - Stream: the messages a session can read from any arrivals, as a total
      function.  SessionSpec: the abstract specification of the sessions (search
      the stream, judge, close), that the sessions refine it, when they
      terminate, and the invariant of what they write.
    - Overhead: [boucle_launch_process] and the tests of [test_overhead.py] that
      store measures.  Graph: the test that writes them and the script of the
      graph, over an interface of pandas, numpy and scipy (class [Pandas], its
      documented behaviour in [PandasLaws]); what the script shows of any file,
      and the experiment from the requests to the graph.  GraphRef: a small
      library that satisfies the laws.
    - ProcessManager: [process_manager.c], with the counter of [daemon-core.c];
      what the table holds when processes end in the opposite order of their
      launch, what it loses otherwise, and where it is overrun.
    - Daemon: [events.c], [clone.c], [Detect_socket.c], the reading and writing of
      [Network.c], and each case of the loop of [daemon-core.c].  DaemonFacts:
      what each handler does, errors included, and the threads that search for
      sockets, which share their globals.
    - World: the loop, the threads, the children and the peers that go as a step
      relation; the accounting for the children that [clone] made and the order of
      the reports in all reachable states, and the deaths that are never reported.  WellFormed: the well-formedness of the
      fields of the daemon in all these states.
    - EndToEnd: a session with the C daemon, from the command to the verdict, and
      the session that kills what it launched.
    - CppSend: what [serialize.cpp] sends, to the daemon and to the user.  CppReceive,
      CppUser: its readers, on the side of the daemon and of the user, with the null
      pointers they may follow, and the round trip of the module.  RustSend: what
      [serialisation.rs] sends.  NativeReports: the Python client reads the reports
      of both daemons.  Regression: the tests in C.
    - RustDaemon: the Rust daemon, one Definition per function the daemon calls.
      RustFacts: the command line of a request, the reports on every branch, what
      is not read, the watches, and the invariants of a connection.  RustSessions:
      sessions with it, and that the two daemons agree.  ProtoClient: the
      interactive client, from a line to the end of its session.
    - TestDemon: the test functions of [test_demon.py], and the suite as a function
      of the reports of a daemon.  TestC, TestRust: what the suite concludes with
      each daemon.  Fixture: the daemons that a run of the tests starts and stops,
      among processes that end and fork as they like meanwhile.
    - TestCommands: the commands of the tests, inputs of the witnesses.

    ** How state and operations correspond

    A builder is the state of the runtime's class, threaded through [st]; a
    Python exception is [Err]; [try: ... except Exception: return v] is
    [catch_all _ v].  A [str] is a list of code points and may hold lone
    surrogates; an [int] is unbounded, and it is the runtime that refuses a value
    out of the range of its field.  A parsed table is the pair of its buffer and
    its position.  A result that may not have the declared type is a [pyret].

    The state of the daemon ([Daemon.daemon]) has the locals of [main] (the table,
    the communication socket, the epoll set), the globals [found] and [timeout], a
    [detector] for each thread, what [clone] returned, the connections whose peer is
    gone, and the requests made to the kernel and to clients, in order.  A turn
    ([notification]) is one of the loop, a ready entry of the epoll set with the
    answers of the kernel to the calls of its handler, errors included; one of a
    thread, from a test of its loop to the next; or the handler of the alarm.  A
    computation of the daemon ends ([Next]) or halts it: an exit, a signal (a write to
    a peer that is gone is one), or a step the C standard leaves undefined (a NULL
    dereference, an access out of bounds, an indeterminate value), after which nothing
    is claimed.  C integers are [Z] with the conversions written out ([to_int],
    [to_uint32]).
    The messages of the daemon are values of [report]; [EndToEnd.encodes] says which
    bytes carry one, and CppSend and RustSend that their senders make such bytes.

    A request to the Rust daemon is a computation over the [task] of its
    connection, with what it has sent, killed and launched.  It is done ([Ready]),
    waits for an answer of the kernel that has not come ([Waiting]), or panics
    ([Panicked]), which ends the task and not the daemon.  The script of the graph
    is a computation over its outputs: the lines it prints and the drawing calls
    it makes, which may raise.

    ** Bounds and fuel

    [max_buffer_size] (2^31) is the limit of the runtime on a buffer.  The laws
    hold below it, so a theorem about a message of unbounded text has it as a
    hypothesis: [command_weight] bounds the size of the buffer of a command by
    four bytes for each character and a constant for each object.  The [while]
    loops of the sessions run on fuel, and [OutOfFuel] is no result.  Each read
    takes at least a byte or finds that there are none, so fuel for every byte
    that arrives ([bytes_in]) is enough: with it [sessions_terminate] says exactly
    when a session ends.  The fuel of a connection of the Rust daemon is the
    number of its bytes, of which each request takes four ([rust_connection_safe]
    says that it never lacks).  [Stream.stream] is defined by recursion on that measure.  Nothing else
    needs fuel: the loops of the daemon are over the slots of the table, the
    watches of a command, and what one read of the kernel returned.  The native
    libraries are taken to build buffers up to [native_max] (2^31 - 1), which
    [native_weight] bounds in the same way, and to verify those up to
    [verifier_limit] (2^22), under which their limit on the number of tables cannot
    be reached.

    ** Not modelled

    Console output other than the lines of the scripts of the measures, and the
    text of exceptions; exhaustion of memory, except for the stack of a process,
    whose size a client chooses; clocks (the comparison of an elapsed time with its
    bound, and the readings a measure is made of, are parameters).  The libraries of
    the graph are parameters: what pandas computes with its laws (that a number is
    read back from a file as the same number is none of them), what the drawing
    calls do not at all.  Of the machine of the fixture: the time a daemon takes to
    start or to stop, the pipes of its output, and what happens between two tests,
    which counts as happening during them; what the processes do during a test is a
    parameter, of which only is known what holds of all processes ([lives]).  Of the
    C daemon: the descriptors [main] opens before its loop; what a child does before
    [execve]; an entry that hangs up without being readable, the pipe of an execve
    apart; and, inside a turn of a thread, the interleaving of its accesses with the
    others.  The FlatBuffers libraries are interfaces:
    what is relied on of the accessors and the verifiers of the C++ library and of
    the Rust crate is a hypothesis ([library_reads], [cpp_library],
    [reads_requests], [reads_reports]), satisfied by the accessors of the Python
    side in each witness; what the loop of the C daemon relies on of its readers
    ([reads_commands], [reads_kills]) CppReceive proves from it.  Of the Rust
    daemon: a [socket.write] that writes a part of a message, and the functions of
    its modules that nothing calls.

    ** Plan

    The plan is done: each component of the program that computes something is
    modelled, and the parts above are what is left, each for the reason given with
    it.  The files of the build, the schema and the documents have no behaviour of
    their own. *)
From stdpp Require Export base list gmap strings.
From Stdlib Require Export ZArith Lia.

Global Open Scope Z_scope.

(** ** Exceptions

    The classes of Python exceptions the modelled code can raise or see.
    [RuntimeLibError] stands for whatever the third-party FlatBuffers runtime
    raises; the code never looks at its class. *)
Inductive exn : Type :=
  | AttributeError (name : string)
  | TypeError
  | ValueError
  | UnicodeError
  | OverflowError
  | RuntimeLibError (code : Z)
  | ConnectionRefusedError
  | OSError
  | KeyError
  | UnboundLocalError
  | TimeoutExpired.

#[global] Instance exn_eq_dec : EqDecision exn.
Proof. solve_decision. Defined.

(** ** Results: a value or a raised exception *)
Inductive res (A : Type) : Type :=
  | Ok (a : A)
  | Err (e : exn).
Arguments Ok {A} _.
Arguments Err {A} _.

#[global] Instance res_ret : MRet res := @Ok.
#[global] Instance res_bind : MBind res := fun A B f m =>
  match m with Ok a => f a | Err e => Err e end.
#[global] Instance res_fmap : FMap res := fun A B f m =>
  match m with Ok a => Ok (f a) | Err e => Err e end.

(** [try: m except Exception as e: h e]. *)
Definition catch {A} (m : res A) (h : exn -> res A) : res A :=
  match m with Ok a => Ok a | Err e => h e end.

(** [try: m except Exception: return v]: such a block cannot raise. *)
Definition catch_all {A} (m : res A) (v : A) : A :=
  match m with Ok a => a | Err _ => v end.

Definition is_ok {A} (m : res A) : bool :=
  match m with Ok _ => true | Err _ => false end.

(** ** Stateful computations that may raise *)
Definition st (S A : Type) : Type := S -> res (A * S).

#[global] Instance st_ret S : MRet (st S) := fun A a s => Ok (a, s).
#[global] Instance st_bind S : MBind (st S) := fun A B f m s =>
  match m s with Ok (a, s') => f a s' | Err e => Err e end.

Definition raise {S A} (e : exn) : st S A := fun _ => Err e.
Definition lift {S A} (m : res A) : st S A := fun s =>
  match m with Ok a => Ok (a, s) | Err e => Err e end.

(** Run a computation on a fresh local object and keep its value. *)
Definition run {S A} (m : st S A) (s : S) : res A := fst <$> m s.

(** [for x in l: body x]. *)
Fixpoint for_each {S A} (l : list A) (body : A -> st S unit) : st S unit :=
  match l with
  | [] => mret tt
  | x :: l' => body x ≫= fun _ => for_each l' body
  end.

(** [l = []; for x in xs: l.append(f x) / l += f x]: the list a loop builds,
    each round adding zero or more elements. *)
Fixpoint collect {S A B} (f : A -> st S (list B)) (xs : list A) : st S (list B) :=
  match xs with
  | [] => mret []
  | x :: xs' => f x ≫= fun ys => collect f xs' ≫= fun zs => mret (ys ++ zs)
  end.

(** ** Generic lemmas *)
Lemma res_bind_ok {A B} (f : A -> res B) (a : A) : (Ok a ≫= f) = f a.
Proof. reflexivity. Qed.

Lemma res_bind_err {A B} (f : A -> res B) (e : exn) : (Err e ≫= f) = Err e.
Proof. reflexivity. Qed.

Lemma res_fmap_ok {A B} (f : A -> B) (a : A) : f <$> Ok a = Ok (f a).
Proof. reflexivity. Qed.

Lemma res_fmap_err {A B} (f : A -> B) (e : exn) : f <$> @Err A e = Err e.
Proof. reflexivity. Qed.

Lemma res_bind_inv {A B} (f : A -> res B) (m : res A) (b : B) :
  (m ≫= f) = Ok b -> exists a, m = Ok a /\ f a = Ok b.
Proof. destruct m; [eauto | discriminate]. Qed.

(** A computation all of whose continuations raise, raises. *)
Lemma res_bind_always_err {A B} (f : A -> res B) (m : res A) :
  (forall a, exists e, f a = Err e) -> exists e, (m ≫= f) = Err e.
Proof. intros Hf. destruct m as [a|e]; [apply Hf | by exists e]. Qed.

Lemma catch_all_err {A} (m : res A) (v : A) :
  (exists e, m = Err e) -> catch_all m v = v.
Proof. by intros [e ->]. Qed.

(** Programs that raise from every state. *)
Definition always_raises {S A} (m : st S A) : Prop := forall s, exists e, m s = Err e.

Lemma always_raises_raise {S A} e : always_raises (@raise S A e).
Proof. intros s. by exists e. Qed.

Lemma always_raises_lift {S A} (r : res A) e : r = Err e -> always_raises (@lift S A r).
Proof. intros -> s. by exists e. Qed.

Lemma always_raises_here {S A B} (m : st S A) (f : A -> st S B) :
  always_raises m -> always_raises (m ≫= f).
Proof. intros Hm s. destruct (Hm s) as [e E]. exists e. unfold mbind, st_bind. by rewrite E. Qed.

Lemma always_raises_later {S A B} (m : st S A) (f : A -> st S B) :
  (forall a, always_raises (f a)) -> always_raises (m ≫= f).
Proof.
  intros Hf s. unfold mbind, st_bind. destruct (m s) as [[a s']|e]; [apply Hf | by exists e].
Qed.

Lemma always_raises_lift_ok {S A B} (a : A) (f : A -> st S B) :
  always_raises (f a) -> always_raises (lift (Ok a) ≫= f).
Proof. intros Hf s. apply Hf. Qed.

Lemma always_raises_mapM {S A B} (f : A -> st S B) l :
  Exists (fun x => always_raises (f x)) l -> always_raises (mapM f l).
Proof.
  induction 1 as [x l Hx|x l _ IH]; cbn [mapM]; [by apply always_raises_here|].
  apply always_raises_later. intros y. by apply always_raises_here.
Qed.

Lemma always_raises_collect {S A B} (f : A -> st S (list B)) l :
  Exists (fun x => always_raises (f x)) l -> always_raises (collect f l).
Proof.
  induction 1 as [x l Hx|x l _ IH]; cbn [collect]; [by apply always_raises_here|].
  apply always_raises_later. intros y. by apply always_raises_here.
Qed.

(** Computations that agree on every state, compared after a common prefix. *)
Lemma st_bind_ext {S A B} (m m' : st S A) (f g : A -> st S B) :
  (forall s, m s = m' s) -> (forall a s, f a s = g a s) -> forall s, (m ≫= f) s = (m' ≫= g) s.
Proof.
  intros Hm Hf s. unfold mbind, st_bind. rewrite Hm. by destruct (m' s) as [[a s']|].
Qed.

(** A loop may skip the elements that add nothing. *)
Lemma collect_filter {S A B} (f : A -> st S (list B)) (p : A -> bool) l :
  (forall x, p x = false -> forall s, f x s = Ok ([], s)) ->
  forall s, collect f l s = collect f (List.filter p l) s.
Proof.
  intros Hp. induction l as [|x l IH]; intros s; [done|]. cbn [collect List.filter].
  destruct (p x) eqn:E.
  - cbn [collect]. apply st_bind_ext; [done|]. intros ys. by apply st_bind_ext.
  - unfold mbind, st_bind. rewrite (Hp x E), IH. by destruct (collect f _ s) as [[? ?]|].
Qed.

Create Rewrite HintDb monad.
#[export] Hint Rewrite @res_bind_ok @res_bind_err @res_fmap_ok @res_fmap_err : monad.

(** Evaluate a monadic expression whose calls have known results. *)
Ltac mstep :=
  repeat first
    [ progress autorewrite with monad
    | match goal with
      | H : ?m = Ok _ |- context [?m] => rewrite H
      | H : ?m = Err _ |- context [?m] => rewrite H
      end ].

Lemma in_list_lookup_Z {A} (l : list A) (j : nat) (x : A) :
  l !! j = Some x -> Z.of_nat j < Z.of_nat (length l).
Proof. intros H%lookup_lt_Some. lia. Qed.

(** The sum of [f] over a list. *)
Definition total {A} (f : A -> Z) (l : list A) : Z := foldr (fun x acc => f x + acc) 0 l.

Lemma total_cons {A} (f : A -> Z) x l : total f (x :: l) = f x + total f l.
Proof. reflexivity. Qed.

Lemma total_nonneg {A} (f : A -> Z) l : (forall x, 0 <= f x) -> 0 <= total f l.
Proof.
  intros Hf. induction l as [|x l IH]; [done|]. rewrite total_cons. specialize (Hf x). lia.
Qed.

Lemma total_length {A} (f : A -> Z) k l :
  (forall x, k <= f x) -> k * Z.of_nat (length l) <= total f l.
Proof.
  intros Hf. induction l as [|x l IH]; [cbn; lia|]. rewrite total_cons. specialize (Hf x).
  cbn [length]. lia.
Qed.

(** [mapM] in [res], by its results. *)
Lemma mapM_ok {A B} (f : A -> res B) l k :
  Forall2 (fun x y => f x = Ok y) l k -> mapM f l = Ok k.
Proof.
  induction 1 as [|x y l k Hx _ IH]; [done|]. cbn [mapM]. by rewrite Hx, res_bind_ok, IH.
Qed.

(** A loop over [range(len(l))] that reads the elements of [l] one by one. *)
Lemma mapM_range {A} (f : Z -> res A) (l : list A) n :
  n = Z.of_nat (length l) -> (forall (j : nat) x, l !! j = Some x -> f (Z.of_nat j) = Ok x) ->
  mapM f (seqZ 0 n) = Ok l.
Proof.
  intros -> Hf. apply mapM_ok, Forall2_same_length_lookup_2.
  - rewrite length_seqZ. lia.
  - intros i x y [-> _]%lookup_seqZ Hy. by apply Hf.
Qed.

Lemma forallb_Forall {A} (f : A -> bool) l :
  forallb f l = true <-> Forall (fun x => f x = true) l.
Proof. rewrite forallb_forall, Forall_forall. by setoid_rewrite list_elem_of_In. Qed.

Lemma forallb_Exists {A} (f : A -> bool) l :
  forallb f l = false -> Exists (fun x => f x = false) l.
Proof.
  induction l as [|x l IH]; [done|]. cbn. intros [H|H]%andb_false_iff; [by left | right; auto].
Qed.
