(* ===== verification/Bytes.v ===== *)
(** * Bytes and machine integers

    Python [bytes] as lists of bytes, and the little-endian conversions
    [int.to_bytes(n, byteorder='little')] and
    [int.from_bytes(bs, byteorder='little')] of the standard library. *)
From Stdlib Require Export Init.Byte Strings.Byte.
From S2P Require Import Prelude.

Definition bytes : Type := list byte.

(** The numeric value of a byte, and the byte of a value modulo 256. *)
Definition byte_val (b : byte) : Z := Z.of_N (Byte.to_N b).
Definition byte_of (z : Z) : byte :=
  match Byte.of_N (Z.to_N (z mod 256)) with Some b => b | None => x00 end.

(** Unsigned little-endian decoding and encoding on [n] bytes. *)
Fixpoint from_le (bs : bytes) : Z :=
  match bs with
  | [] => 0
  | b :: bs' => byte_val b + 256 * from_le bs'
  end.

Fixpoint to_le (n : nat) (z : Z) : bytes :=
  match n with
  | O => []
  | S n' => byte_of (z mod 256) :: to_le n' (z / 256)
  end.

(** [z.to_bytes(n, byteorder='little')]: raises for a negative or too large
    integer. *)
Definition int_to_bytes (n : nat) (z : Z) : res bytes :=
  if (0 <=? z) && (z <? 256 ^ Z.of_nat n) then Ok (to_le n z) else Err OverflowError.

(** [len(bs)]. *)
Definition blen (bs : bytes) : Z := Z.of_nat (length bs).

Lemma byte_val_range (b : byte) : 0 <= byte_val b < 256.
Proof. unfold byte_val. pose proof (Byte.to_N_bounded b). lia. Qed.

Lemma byte_val_of (z : Z) : byte_val (byte_of z) = z mod 256.
Proof.
  unfold byte_val, byte_of.
  pose proof (Z.mod_pos_bound z 256 ltac:(lia)).
  destruct (Byte.of_N (Z.to_N (z mod 256))) as [b|] eqn:E.
  - apply Byte.to_of_N in E. rewrite E. lia.
  - apply Byte.of_N_None_iff in E. lia.
Qed.

Lemma byte_of_val (b : byte) : byte_of (byte_val b) = b.
Proof. destruct b; reflexivity. Qed.

Lemma byte_val_inj (a b : byte) : byte_val a = byte_val b -> a = b.
Proof. intros H. by rewrite <- (byte_of_val a), H, byte_of_val. Qed.

Lemma length_to_le (n : nat) (z : Z) : length (to_le n z) = n.
Proof. revert z. induction n; intros z; cbn; congruence. Qed.

Lemma from_to_le (n : nat) (z : Z) : from_le (to_le n z) = z mod 256 ^ Z.of_nat n.
Proof.
  revert z. induction n as [|n IH]; intros z; cbn [to_le from_le].
  - cbn. by rewrite Z.mod_1_r.
  - rewrite byte_val_of, IH, Z.mod_mod by lia.
    rewrite Nat2Z.inj_succ, Z.pow_succ_r by lia.
    rewrite Z.rem_mul_r by lia. lia.
Qed.

Lemma from_to_le_small (n : nat) (z : Z) :
  0 <= z < 256 ^ Z.of_nat n -> from_le (to_le n z) = z.
Proof. intros. rewrite from_to_le. by apply Z.mod_small. Qed.

Lemma from_le_range (bs : bytes) : 0 <= from_le bs < 256 ^ blen bs.
Proof.
  unfold blen. induction bs as [|b bs IH]; cbn [from_le length]; [done|].
  rewrite Nat2Z.inj_succ, Z.pow_succ_r by lia.
  pose proof (byte_val_range b). lia.
Qed.

Lemma blen_app (a b : bytes) : blen (a ++ b) = blen a + blen b.
Proof. unfold blen. rewrite length_app. lia. Qed.

Lemma blen_nonneg (a : bytes) : 0 <= blen a.
Proof. unfold blen. lia. Qed.

Lemma blen_to_le (n : nat) (z : Z) : blen (to_le n z) = Z.of_nat n.
Proof. unfold blen. by rewrite length_to_le. Qed.

Create Rewrite HintDb blen.
#[export] Hint Rewrite blen_app blen_to_le @length_app length_to_le : blen.
