(* ===== verification/Utf8.v ===== *)
(** * Python strings and the UTF-8 codec

    A Python [str] is a list of code points.  [utf8_encode] is the codec of
    [str.encode('utf-8')] in strict mode (a lone surrogate has no encoding) and
    [utf8_decode] the one of [bytes.decode('utf-8')] in strict mode (truncated,
    overlong, surrogate and too large sequences are refused). *)
From Stdlib Require Import Strings.Ascii Strings.String.
From S2P Require Import Prelude Bytes.

Definition pystr : Type := list Z.

(** A literal of the source. *)
Definition str (s : string) : pystr :=
  List.map (fun a => Z.of_N (N_of_ascii a)) (list_ascii_of_string s).

Definition is_surrogate (c : Z) : bool := (55296 <=? c) && (c <=? 57343).

(** Continuation byte carrying the six bits [c mod 64]. *)
Definition cont (c : Z) : byte := byte_of (128 + c mod 64).

Definition encode_point (c : Z) : option bytes :=
  if c <? 0 then None
  else if c <? 128 then Some [byte_of c]
  else if c <? 2048 then Some [byte_of (192 + c / 64); cont c]
  else if is_surrogate c then None
  else if c <? 65536 then Some [byte_of (224 + c / 4096); cont (c / 64); cont c]
  else if c <? 1114112 then
    Some [byte_of (240 + c / 262144); cont (c / 4096); cont (c / 64); cont c]
  else None.

Fixpoint utf8_encode (s : pystr) : option bytes :=
  match s with
  | [] => Some []
  | c :: s' =>
      match encode_point c, utf8_encode s' with
      | Some bs, Some bs' => Some (bs ++ bs')
      | _, _ => None
      end
  end.

(** The six payload bits of a continuation byte. *)
Definition cont_val (b : byte) : option Z :=
  if (128 <=? byte_val b) && (byte_val b <? 192) then Some (byte_val b - 128) else None.

Definition in_bounds (lo hi c : Z) : bool := (lo <=? c) && (c <? hi).

Fixpoint utf8_decode (bs : bytes) : option pystr :=
  match bs with
  | [] => Some []
  | b0 :: r0 =>
      let v := byte_val b0 in
      if v <? 128 then cons v <$> utf8_decode r0
      else if in_bounds 192 224 v then
        match r0 with
        | b1 :: r1 =>
            match cont_val b1 with
            | Some x1 =>
                let c := (v - 192) * 64 + x1 in
                if 128 <=? c then cons c <$> utf8_decode r1 else None
            | None => None
            end
        | [] => None
        end
      else if in_bounds 224 240 v then
        match r0 with
        | b1 :: b2 :: r2 =>
            match cont_val b1, cont_val b2 with
            | Some x1, Some x2 =>
                let c := (v - 224) * 4096 + x1 * 64 + x2 in
                if (2048 <=? c) && negb (is_surrogate c)
                then cons c <$> utf8_decode r2 else None
            | _, _ => None
            end
        | _ => None
        end
      else if in_bounds 240 248 v then
        match r0 with
        | b1 :: b2 :: b3 :: r3 =>
            match cont_val b1, cont_val b2, cont_val b3 with
            | Some x1, Some x2, Some x3 =>
                let c := (v - 240) * 262144 + x1 * 4096 + x2 * 64 + x3 in
                if in_bounds 65536 1114112 c then cons c <$> utf8_decode r3 else None
            | _, _, _ => None
            end
        | _ => None
        end
      else None
  end.

(** [bs.decode('utf-8')]. *)
Definition decode (bs : bytes) : res pystr :=
  match utf8_decode bs with Some s => Ok s | None => Err UnicodeError end.

(** The strings that have an encoding. *)
Definition encodable (s : pystr) : bool :=
  forallb (fun c => (0 <=? c) && (c <? 1114112) && negb (is_surrogate c)) s.

Lemma cont_val_cont (c : Z) : cont_val (cont c) = Some (c mod 64).
Proof.
  unfold cont_val, cont. rewrite byte_val_of.
  pose proof (Z.mod_pos_bound c 64 ltac:(lia)).
  rewrite Z.mod_small by lia.
  replace (128 <=? 128 + c mod 64) with true by lia.
  replace (128 + c mod 64 <? 192) with true by lia.
  cbn. f_equal. lia.
Qed.

Lemma byte_val_of_small (z : Z) : 0 <= z < 256 -> byte_val (byte_of z) = z.
Proof. intros. rewrite byte_val_of. by apply Z.mod_small. Qed.

(** Split a code point into the payloads of its encoding. *)
Lemma point_digits2 (c : Z) : c = c / 64 * 64 + c mod 64.
Proof. pose proof (Z.div_mod c 64). lia. Qed.

Lemma point_digits3 (c : Z) : c = c / 4096 * 4096 + (c / 64) mod 64 * 64 + c mod 64.
Proof.
  rewrite (point_digits2 c) at 1. rewrite (point_digits2 (c / 64)) at 1.
  rewrite Z.div_div by lia. change (64 * 64) with 4096. lia.
Qed.

Lemma point_digits4 (c : Z) :
  c = c / 262144 * 262144 + (c / 4096) mod 64 * 4096 + (c / 64) mod 64 * 64 + c mod 64.
Proof.
  rewrite (point_digits3 c) at 1. rewrite (point_digits2 (c / 4096)) at 1.
  rewrite Z.div_div by lia. change (4096 * 64) with 262144. lia.
Qed.

(** Decide the boolean tests of the codec from arithmetic facts in context. *)
Ltac decide_tests :=
  repeat match goal with
  | |- context [?a <? ?b] =>
      first [ replace (a <? b) with true by (symmetry; apply Z.ltb_lt; lia)
            | replace (a <? b) with false by (symmetry; apply Z.ltb_ge; lia) ]
  | |- context [?a <=? ?b] =>
      first [ replace (a <=? b) with true by (symmetry; apply Z.leb_le; lia)
            | replace (a <=? b) with false by (symmetry; apply Z.leb_gt; lia) ]
  end.

Lemma decode_point_app (c : Z) (bs r : bytes) :
  encode_point c = Some bs -> utf8_decode (bs ++ r) = cons c <$> utf8_decode r.
Proof.
  unfold encode_point. intros H.
  destruct (Z.ltb_spec c 0); [done|].
  destruct (Z.ltb_spec c 128).
  { injection H as <-. cbn [app utf8_decode].
    rewrite byte_val_of_small by lia. by decide_tests. }
  destruct (Z.ltb_spec c 2048).
  { injection H as <-. cbn [app utf8_decode].
    pose proof (point_digits2 c). pose proof (Z.mod_pos_bound c 64 ltac:(lia)).
    rewrite byte_val_of_small, cont_val_cont by lia. unfold in_bounds.
    replace ((192 + c / 64 - 192) * 64 + c mod 64) with c by lia. by decide_tests. }
  destruct (is_surrogate c) eqn:Hs; [done|].
  destruct (Z.ltb_spec c 65536).
  { injection H as <-. cbn [app utf8_decode].
    pose proof (point_digits3 c). pose proof (Z.mod_pos_bound c 64 ltac:(lia)).
    pose proof (Z.mod_pos_bound (c / 64) 64 ltac:(lia)).
    rewrite byte_val_of_small, !cont_val_cont by lia. unfold in_bounds.
    replace ((224 + c / 4096 - 224) * 4096 + (c / 64) mod 64 * 64 + c mod 64) with c by lia.
    rewrite Hs. by decide_tests. }
  destruct (Z.ltb_spec c 1114112); [|done].
  injection H as <-. cbn [app utf8_decode].
  pose proof (point_digits4 c). pose proof (Z.mod_pos_bound c 64 ltac:(lia)).
  pose proof (Z.mod_pos_bound (c / 64) 64 ltac:(lia)).
  pose proof (Z.mod_pos_bound (c / 4096) 64 ltac:(lia)).
  rewrite byte_val_of_small, !cont_val_cont by lia. unfold in_bounds.
  replace ((240 + c / 262144 - 240) * 262144 + (c / 4096) mod 64 * 4096 +
           (c / 64) mod 64 * 64 + c mod 64) with c by lia.
  by decide_tests.
Qed.

(** What is encoded is decoded back. *)
Lemma utf8_decode_encode (s : pystr) (bs : bytes) :
  utf8_encode s = Some bs -> utf8_decode bs = Some s.
Proof.
  revert bs. induction s as [|c s IH]; intros bs; cbn [utf8_encode]; [by intros [= <-]|].
  destruct (encode_point c) as [b|] eqn:E; [|done].
  destruct (utf8_encode s) as [b'|]; [|done]. intros [= <-].
  by rewrite (decode_point_app c b b' E), (IH b').
Qed.

Lemma decode_encode (s : pystr) (bs : bytes) : utf8_encode s = Some bs -> decode bs = Ok s.
Proof. intros H. unfold decode. by rewrite (utf8_decode_encode s bs H). Qed.

Lemma encode_point_ok (c : Z) :
  (0 <=? c) && (c <? 1114112) && negb (is_surrogate c) = true ->
  exists bs, encode_point c = Some bs /\ (length bs <= 4)%nat.
Proof.
  intros [[?%Z.leb_le ?%Z.ltb_lt]%andb_true_iff Hs%negb_true_iff]%andb_true_iff.
  unfold encode_point. rewrite Hs.
  repeat case_match; try lia; eexists; (split; [reflexivity | cbn; lia]).
Qed.

(** Every string without lone surrogates has an encoding, of at most four
    bytes a code point. *)
Lemma encodable_encode (s : pystr) :
  encodable s = true ->
  exists bs, utf8_encode s = Some bs /\ blen bs <= 4 * Z.of_nat (length s).
Proof.
  induction s as [|c s IH]; cbn [encodable forallb utf8_encode].
  - intros _. by exists [].
  - intros [Hc Hs]%andb_true_iff.
    destruct (encode_point_ok c Hc) as (b & -> & Hb).
    destruct (IH Hs) as (b' & -> & Hb').
    exists (b ++ b'). split; [done|]. autorewrite with blen. unfold blen in *.
    cbn [length]. lia.
Qed.

(** The encoding of an encodable string. *)
Definition enc (s : pystr) : bytes := default [] (utf8_encode s).

Lemma encodable_enc (s : pystr) : encodable s = true -> utf8_encode s = Some (enc s).
Proof. intros (bs & E & _)%encodable_encode. unfold enc. by rewrite E. Qed.

Lemma blen_enc (s : pystr) : encodable s = true -> blen (enc s) <= 4 * Z.of_nat (length s).
Proof. intros (bs & E & Hl)%encodable_encode. unfold enc. by rewrite E. Qed.

Lemma decode_enc (s : pystr) : encodable s = true -> decode (enc s) = Ok s.
Proof. intros. by apply decode_encode, encodable_enc. Qed.

(** The other strings have none. *)
Lemma not_encodable_encode (s : pystr) : encodable s = false -> utf8_encode s = None.
Proof.
  intros H%forallb_Exists. induction H as [c s Hc|c s _ IH]; cbn [utf8_encode].
  - assert (encode_point c = None) as ->; [|done]. unfold encode_point.
    apply andb_false_iff in Hc as [[?%Z.leb_gt|?%Z.ltb_ge]%andb_false_iff|Hs%negb_false_iff].
    + by replace (c <? 0) with true by lia.
    + repeat (case_match; [try done; lia |]). done.
    + rewrite Hs. unfold is_surrogate in Hs. apply andb_true_iff in Hs as [?%Z.leb_le ?%Z.leb_le].
      by replace (c <? 0) with false by lia; replace (c <? 128) with false by lia;
         replace (c <? 2048) with false by lia.
  - rewrite IH. by case_match.
Qed.
