(* ===== verification/FlatBuffers.v ===== *)
(** * The FlatBuffers Python runtime, as an interface

    The package [flatbuffers] (its [Builder], [table.Table], [encode] and
    [number_types]) is third-party code.  The development is parametric in it:
    the class [FlatBuffers] lists the operations the sources call, and the class
    [FlatBuffersLaws] states what its documentation promises about them, in
    terms of an abstract [view] of a builder:

    - a builder holds a heap of finished objects (strings, vectors of
      references, tables of slots), addressed by the offsets it handed out;
    - objects are built one at a time ([mode]); a table slot whose value equals
      the default is not stored; vector elements are prepended;
    - a finished buffer is an image of that heap ([buffer_image]): the accessors
      of [table.Table] find in it the objects the heap holds.

    Laws are stated only for well-nested uses within the two-gigabyte limit of a
    buffer; nothing is assumed of the runtime outside of them. *)
From S2P Require Import Prelude Bytes Utf8.

(** The scalar types of the schema ([flatbuffers.number_types]). *)
Inductive scalar : Type := SBool | SUint8 | SInt8 | SUint16 | SInt32 | SUint32.

#[global] Instance scalar_eq_dec : EqDecision scalar.
Proof. solve_decision. Defined.

Definition scalar_min (t : scalar) : Z :=
  match t with
  | SBool | SUint8 | SUint16 | SUint32 => 0
  | SInt8 => - 2 ^ 7
  | SInt32 => - 2 ^ 31
  end.

Definition scalar_max (t : scalar) : Z :=
  match t with
  | SBool => 1
  | SUint8 => 2 ^ 8 - 1
  | SInt8 => 2 ^ 7 - 1
  | SUint16 => 2 ^ 16 - 1
  | SInt32 => 2 ^ 31 - 1
  | SUint32 => 2 ^ 32 - 1
  end.

Definition in_range (t : scalar) (z : Z) : bool :=
  (scalar_min t <=? z) && (z <=? scalar_max t).

(** A table handle: the attributes [Bytes] and [Pos] of [flatbuffers.table.Table]
    that the sources read. *)
Record Table : Type := mkTable { tab_Bytes : bytes; tab_Pos : Z }.

(** ** Operations *)
Class FlatBuffers : Type := {
  builder : Type;
  (* flatbuffers.Builder *)
  Builder : Z -> res builder;
  CreateString : pystr -> st builder Z;
  StartObject : Z -> st builder unit;
  PrependSlot : scalar -> Z -> Z -> Z -> st builder unit;
  PrependUOffsetTRelativeSlot : Z -> Z -> Z -> st builder unit;
  EndObject : st builder Z;
  StartVector : Z -> Z -> Z -> st builder Z;
  PrependUOffsetTRelative : Z -> st builder unit;
  EndVector : st builder Z;
  Finish : Z -> st builder unit;
  Output : st builder bytes;
  (* flatbuffers.number_types.UOffsetTFlags.py_type *)
  UOffsetT_py_type : Z -> Z;
  (* flatbuffers.encode.Get(flatbuffers.packer.uoffset, buf, offset) *)
  encode_Get_uoffset : bytes -> Z -> res Z;
  (* flatbuffers.table.Table *)
  Table_Offset : Table -> Z -> res Z;
  Table_Indirect : Table -> Z -> res Z;
  Table_String : Table -> Z -> res bytes;
  Table_VectorLen : Table -> Z -> res Z;
  Table_Vector : Table -> Z -> res Z;
  Table_Union : Table -> Table -> Z -> res Table;
  Table_Get : scalar -> Table -> Z -> res Z
}.

(** ** Abstract view of a builder *)
Inductive slot : Type :=
  | Scalar (t : scalar) (v : Z)
  | Ref (off : Z).

Inductive obj : Type :=
  | OString (bs : bytes)
  | OVector (refs : list Z)
  | OTable (nfields : Z) (slots : gmap Z slot).

Inductive mode : Type :=
  | Idle
  | InObject (nfields : Z) (slots : gmap Z slot)
  | InVector (nelems : Z) (refs : list Z)
  | Finished (root : Z).

(** [v_size] counts the bytes written so far. *)
Record view : Type := mkView { v_heap : gmap Z obj; v_mode : mode; v_size : Z }.

Definition max_buffer_size : Z := 2 ^ 31.

(** Every operation writes at most this many bytes for its own data, padding
    included; [CreateString] adds the bytes of the string, and [EndObject] at
    most eight bytes for each field of the table. *)
Definition op_cost : Z := 16.

(** Tables whose vtable and inline data can be addressed by 16-bit offsets. *)
Definition valid_nfields (n : Z) : Prop := 0 <= n /\ 8 * n + 4 < 2 ^ 16.

(** ** What a finished buffer shows through the accessors of [Table] *)
Section image.
Context {FB : FlatBuffers}.
Variables (h : gmap Z obj) (pos : Z -> Z) (buf : bytes).

(** The element of a vector stored at [a]. *)
Definition elem_image (t : Table) (a e : Z) : Prop :=
  match h !! e with
  | Some (OString bs) => Table_String t a = Ok bs
  | Some (OTable _ _) => Table_Indirect t a = Ok (pos e)
  | _ => True
  end.

(** The object a reference field at inline offset [f] of table [t] points to. *)
Definition ref_image (t : Table) (f r : Z) : Prop :=
  match h !! r with
  | Some (OString bs) => Table_String t (f + tab_Pos t) = Ok bs
  | Some (OTable _ _) => forall t0, Table_Union t t0 f = Ok (mkTable buf (pos r))
  | Some (OVector refs) =>
      Table_VectorLen t f = Ok (Z.of_nat (length refs)) /\
      exists a, Table_Vector t f = Ok a /\
        forall (j : nat) e, refs !! j = Some e -> elem_image t (a + Z.of_nat j * 4) e
  | None => True
  end.

(** Field number [i] of a table, read through its vtable entry. *)
Definition field_image (t : Table) (i : Z) (o : option slot) : Prop :=
  match o with
  | None => Table_Offset t (4 + 2 * i) = Ok 0
  | Some s => exists f, Table_Offset t (4 + 2 * i) = Ok f /\ f <> 0 /\
      match s with
      | Scalar ty v => Table_Get ty t (f + tab_Pos t) = Ok v
      | Ref r => ref_image t f r
      end
  end.

Definition table_image (p n : Z) (slots : gmap Z slot) : Prop :=
  forall i, 0 <= i < n -> field_image (mkTable buf p) i (slots !! i).

Definition heap_image : Prop :=
  forall off n slots, h !! off = Some (OTable n slots) -> table_image (pos off) n slots.
End image.

Definition buffer_image `{FlatBuffers} (h : gmap Z obj) (root : Z) (buf : bytes) : Prop :=
  exists pos, encode_Get_uoffset buf 0 = Ok (pos root) /\ heap_image h pos buf.

(** ** Laws *)
Class FlatBuffersLaws (FB : FlatBuffers) : Type := {
  has_view : builder -> view -> Prop;

  law_Builder n :
    0 <= n <= max_buffer_size -> exists b, Builder n = Ok b /\ has_view b (mkView ∅ Idle 0);

  (* CreateString stores the UTF-8 encoding of a str *)
  law_CreateString b h sz s bs :
    has_view b (mkView h Idle sz) -> utf8_encode s = Some bs ->
    sz + blen bs + op_cost <= max_buffer_size ->
    exists off b' sz', CreateString s b = Ok (off, b') /\
      has_view b' (mkView (<[off := OString bs]> h) Idle sz') /\
      h !! off = None /\ 0 < off /\ sz <= sz' <= sz + blen bs + op_cost;
  law_CreateString_unencodable b s :
    utf8_encode s = None -> exists e, CreateString s b = Err e;

  law_StartObject b h sz n :
    has_view b (mkView h Idle sz) -> valid_nfields n ->
    exists b', StartObject n b = Ok (tt, b') /\ has_view b' (mkView h (InObject n ∅) sz);

  (* a scalar slot is stored unless it has the default value; a value outside
     the range of its type is refused *)
  law_PrependSlot_default b h sz n slots t i d :
    has_view b (mkView h (InObject n slots) sz) -> in_range t d = true ->
    exists b', PrependSlot t i d d b = Ok (tt, b') /\
      has_view b' (mkView h (InObject n slots) sz);
  law_PrependSlot b h sz n slots t i x d :
    has_view b (mkView h (InObject n slots) sz) -> x <> d -> in_range t x = true ->
    0 <= i < n -> sz + op_cost <= max_buffer_size ->
    exists b' sz', PrependSlot t i x d b = Ok (tt, b') /\
      has_view b' (mkView h (InObject n (<[i := Scalar t x]> slots)) sz') /\
      sz <= sz' <= sz + op_cost;
  law_PrependSlot_range b t i x d :
    x <> d -> in_range t x = false -> exists e, PrependSlot t i x d b = Err e;

  law_PrependUOffsetTRelativeSlot b h sz n slots i off :
    has_view b (mkView h (InObject n slots) sz) -> is_Some (h !! off) ->
    0 <= i < n -> sz + op_cost <= max_buffer_size ->
    exists b' sz', PrependUOffsetTRelativeSlot i off 0 b = Ok (tt, b') /\
      has_view b' (mkView h (InObject n (<[i := Ref off]> slots)) sz') /\
      sz <= sz' <= sz + op_cost;

  law_EndObject b h sz n slots :
    has_view b (mkView h (InObject n slots) sz) ->
    sz + 8 * n + op_cost <= max_buffer_size ->
    exists off b' sz', EndObject b = Ok (off, b') /\
      has_view b' (mkView (<[off := OTable n slots]> h) Idle sz') /\
      h !! off = None /\ 0 < off /\ sz <= sz' <= sz + 8 * n + op_cost;

  (* a vector of n four-byte references, filled from its last element *)
  law_StartVector b h sz n :
    has_view b (mkView h Idle sz) -> 0 <= n -> sz + op_cost <= max_buffer_size ->
    exists r b' sz', StartVector 4 n 4 b = Ok (r, b') /\
      has_view b' (mkView h (InVector n []) sz') /\ sz <= sz' <= sz + op_cost;
  law_PrependUOffsetTRelative b h sz n refs off :
    has_view b (mkView h (InVector n refs) sz) -> is_Some (h !! off) ->
    Z.of_nat (length refs) < n -> sz + op_cost <= max_buffer_size ->
    exists b' sz', PrependUOffsetTRelative off b = Ok (tt, b') /\
      has_view b' (mkView h (InVector n (off :: refs)) sz') /\ sz <= sz' <= sz + op_cost;
  law_EndVector b h sz n refs :
    has_view b (mkView h (InVector n refs) sz) -> Z.of_nat (length refs) = n ->
    sz + op_cost <= max_buffer_size ->
    exists off b' sz', EndVector b = Ok (off, b') /\
      has_view b' (mkView (<[off := OVector refs]> h) Idle sz') /\
      h !! off = None /\ 0 < off /\ sz <= sz' <= sz + op_cost;

  law_Finish b h sz root :
    has_view b (mkView h Idle sz) -> is_Some (h !! root) ->
    sz + op_cost <= max_buffer_size ->
    exists b' sz', Finish root b = Ok (tt, b') /\
      has_view b' (mkView h (Finished root) sz') /\ sz <= sz' <= sz + op_cost;

  law_Output b h sz root :
    has_view b (mkView h (Finished root) sz) ->
    exists buf b', Output b = Ok (buf, b') /\ has_view b' (mkView h (Finished root) sz) /\
      0 < blen buf <= sz /\ buffer_image h root buf;

  law_py_type z : UOffsetT_py_type z = z;

  (* reading a scalar gives a value of its type *)
  law_Get_range t tab o v : Table_Get t tab o = Ok v -> in_range t v = true
}.
