(* ===== verification/Text.v ===== *)
(** * Text, as the sources take it apart

    What is used of the strings of the languages: [split] and [join], numbers in
    decimal with the functions that read them ([str], [atoi], [parse::<u16>]), and
    [os.path].  A string is its code points, in each of the languages. *)
From S2P Require Import Prelude Bytes Utf8 FlatBuffers.

(** ** [s.split(sep)] and [sep.join(l)] *)
Fixpoint split_on (sep : Z) (s : pystr) : list pystr :=
  match s with
  | [] => [[]]
  | c :: s' =>
      if c =? sep then [] :: split_on sep s'
      else match split_on sep s' with
           | x :: xs => (c :: x) :: xs
           | [] => [[c]]
           end
  end.

Fixpoint join_with (sep : pystr) (l : list pystr) : pystr :=
  match l with
  | [] => []
  | [x] => x
  | x :: l' => x ++ sep ++ join_with sep l'
  end.

Lemma split_on_cons_ne sep c s : c <> sep ->
  split_on sep (c :: s) = match split_on sep s with x :: xs => (c :: x) :: xs | [] => [[c]] end.
Proof. intros H. cbn. by rewrite (proj2 (Z.eqb_neq c sep)). Qed.

Lemma split_on_word sep w s : sep ∉ w ->
  split_on sep (w ++ sep :: s) = w :: split_on sep s.
Proof.
  induction w as [|c w IH]; cbn [app]; intros H.
  - cbn. by rewrite Z.eqb_refl.
  - apply not_elem_of_cons in H as [Hc Hw]. by rewrite split_on_cons_ne, (IH Hw) by done.
Qed.

Lemma split_on_single sep w : sep ∉ w -> split_on sep w = [w].
Proof.
  induction w as [|c w IH]; [done|]. intros [Hc Hw]%not_elem_of_cons. by rewrite split_on_cons_ne, (IH Hw).
Qed.

Lemma split_join sep l :
  l <> [] -> Forall (fun w => sep ∉ w) l -> split_on sep (join_with [sep] l) = l.
Proof.
  intros Hne H. induction H as [|w l Hw Hl IH]; [done|]. destruct l as [|w' l]; cbn [join_with app].
  - by apply split_on_single.
  - rewrite split_on_word by done. f_equal. by apply IH.
Qed.

Lemma join_app sep l l' : l <> [] -> l' <> [] ->
  join_with sep (l ++ l') = join_with sep l ++ sep ++ join_with sep l'.
Proof.
  intros Hne Hne'. induction l as [|w l IH]; [done|]. destruct l as [|w' l].
  - by destruct l'.
  - cbn [app join_with]. cbn [app join_with] in IH. by rewrite IH, <- !app_assoc.
Qed.

(** ** Numbers in decimal *)
Definition is_digit (c : Z) : bool := (48 <=? c) && (c <=? 57).
Definition number (digits : pystr) : Z := foldl (fun v c => v * 10 + (c - 48)) 0 digits.

Fixpoint digits_of (fuel : nat) (n : Z) (acc : pystr) : pystr :=
  match fuel with
  | O => acc
  | S fuel => if n <? 10 then (48 + n) :: acc else digits_of fuel (n / 10) ((48 + n mod 10) :: acc)
  end.

(** [str(n)], for a natural number. *)
Definition py_str (n : Z) : pystr := digits_of (S (Z.to_nat (Z.log2 n))) n [].

Lemma digits_of_spec fuel n acc :
  0 <= n < 2 ^ Z.of_nat fuel -> (0 < fuel)%nat -> forallb is_digit acc = true ->
  let s := digits_of fuel n acc in
  s <> [] /\ forallb is_digit s = true /\ number s = foldl (fun v c => v * 10 + (c - 48)) n acc.
Proof.
  revert n acc. induction fuel as [|fuel IH]; intros n acc Hn Hf Hacc; [lia|]. cbn [digits_of].
  destruct (Z.ltb_spec n 10).
  - split; [done|]. cbn [forallb]. rewrite Hacc. unfold is_digit, number. cbn [foldl].
    split; [lia | f_equal; lia].
  - assert (0 <= n / 10 < 2 ^ Z.of_nat fuel).
    { split; [apply Z.div_pos; lia|]. apply Z.div_lt_upper_bound; [lia|].
      rewrite Nat2Z.inj_succ, Z.pow_succ_r in Hn by lia. lia. }
    pose proof (Z.mod_pos_bound n 10 ltac:(lia)) as Hmod.
    destruct (IH (n / 10) ((48 + n mod 10) :: acc)) as (H1 & H2 & H3); [done | | | ].
    + destruct fuel; [|lia]. cbn in *. lia.
    + cbn [forallb]. rewrite Hacc. unfold is_digit. lia.
    + split; [exact H1|]. split; [exact H2|]. rewrite H3. cbn [foldl]. f_equal.
      pose proof (Z.div_mod n 10). lia.
Qed.

Lemma py_str_spec n : 0 <= n ->
  py_str n <> [] /\ forallb is_digit (py_str n) = true /\ number (py_str n) = n.
Proof.
  intros Hn. apply (digits_of_spec _ n []); [|lia|done]. split; [done|].
  rewrite Nat2Z.inj_succ, Z2Nat.id by apply Z.log2_nonneg.
  destruct (Z.eq_dec n 0) as [->|]; [reflexivity|]. apply Z.log2_spec. lia.
Qed.

(** [atoi(s)]: spaces, a sign, and the digits that follow; undefined when the
    number is not an [int]. *)
Fixpoint take_digits (s : pystr) : pystr :=
  match s with
  | c :: s' => if is_digit c then c :: take_digits s' else []
  | [] => []
  end.

Fixpoint skip_spaces (s : pystr) : pystr :=
  match s with
  | c :: s' => if (c =? 32) || ((9 <=? c) && (c <=? 13)) then skip_spaces s' else s
  | [] => []
  end.

Definition atoi (s : pystr) : option Z :=
  let '(sign, digits) :=
    match skip_spaces s with
    | 43 :: s' => (1, s')
    | 45 :: s' => (-1, s')
    | s' => (1, s')
    end in
  let v := sign * number (take_digits digits) in
  if in_range SInt32 v then Some v else None.

(** [s.parse::<u16>()] *)
Definition without_plus (s : pystr) : pystr := match s with 43 :: s' => s' | _ => s end.
Definition parse_u16 (s : pystr) : option Z :=
  let digits := without_plus s in
  match digits with
  | [] => None
  | _ => if forallb is_digit digits && (number digits <? 2 ^ 16) then Some (number digits) else None
  end.

Lemma take_digits_all s : forallb is_digit s = true -> take_digits s = s.
Proof.
  induction s as [|c s IH]; [done|]. cbn [forallb take_digits]. intros [-> Hs]%andb_true_iff. by rewrite IH.
Qed.

(** A number written by one is read by the others. *)
Lemma atoi_str n : 0 <= n < 2 ^ 31 -> atoi (py_str n) = Some n.
Proof.
  intros Hn. destruct (py_str_spec n) as (Hne & Hd & Hv); [lia|]. unfold atoi.
  destruct (py_str n) as [|c s]; [done|]. pose proof Hd as [Hc _]%andb_true_iff.
  assert (48 <= c <= 57) as Hr by (unfold is_digit in Hc; lia).
  cbn [skip_spaces]. replace ((c =? 32) || ((9 <=? c) && (c <=? 13))) with false by lia.
  assert (match c :: s with 43 :: s' => (1, s') | 45 :: s' => (-1, s') | s' => (1, s') end = (1, c :: s)) as ->.
  { destruct c as [|p|p]; [done| |done]. do 6 (destruct p as [p|p|]; try done). }
  rewrite take_digits_all, Hv, Z.mul_1_l by done.
  assert (in_range SInt32 n = true) as -> by (unfold in_range; cbn; lia). done.
Qed.

Lemma parse_u16_str n : 0 <= n < 2 ^ 16 -> parse_u16 (py_str n) = Some n.
Proof.
  intros Hn. destruct (py_str_spec n) as (Hne & Hd & Hv); [lia|]. unfold parse_u16.
  destruct (py_str n) as [|c s]; [done|]. pose proof Hd as [Hc _]%andb_true_iff.
  assert (without_plus (c :: s) = c :: s) as ->.
  { destruct c as [|p|p]; [done| |done]. do 6 (destruct p as [p|p|]; try done). }
  rewrite Hd, Hv. by replace (n <? 2 ^ 16) with true by lia.
Qed.

(** ** [os.path], on POSIX *)
Definition slash : Z := 47.

Fixpoint drop_while (p : Z -> bool) (s : pystr) : pystr :=
  match s with
  | c :: s' => if p c then drop_while p s' else s
  | [] => []
  end.
Definition drop_end_while (p : Z -> bool) (s : pystr) : pystr := reverse (drop_while p (reverse s)).

(** The part up to the last slash, without the slashes at its end unless it has
    nothing else. *)
Definition dirname (p : pystr) : pystr :=
  let head := drop_end_while (fun c => negb (c =? slash)) p in
  if forallb (Z.eqb slash) head then head else drop_end_while (Z.eqb slash) head.

Definition path_join (a b : pystr) : pystr :=
  match b with
  | c :: _ => if c =? slash then b else
      match reverse a with
      | [] => b
      | d :: _ => if d =? slash then a ++ b else a ++ [slash] ++ b
      end
  | [] => match reverse a with
          | [] => []
          | d :: _ => if d =? slash then a else a ++ [slash]
          end
  end.

Definition parent : pystr := str "..".
Definition here : pystr := str ".".

(** One component of [normpath]; [new_comps] is kept from the last to the first. *)
Definition norm_comp (initial_slashes : nat) (new_comps : list pystr) (comp : pystr) : list pystr :=
  if bool_decide (comp = []) || bool_decide (comp = here) then new_comps
  else if negb (bool_decide (comp = parent)) then comp :: new_comps
  else match new_comps with
       | [] => if Nat.eqb initial_slashes 0 then [comp] else []
       | last :: rest => if bool_decide (last = parent) then comp :: new_comps else rest
       end.

Definition normpath (p : pystr) : pystr :=
  let initial_slashes : nat :=
    match p with
    | 47 :: 47 :: 47 :: _ => 1%nat
    | 47 :: 47 :: _ => 2%nat
    | 47 :: _ => 1%nat
    | _ => 0%nat
    end in
  let comps := foldl (norm_comp initial_slashes) [] (split_on slash p) in
  let path := replicate initial_slashes slash ++ join_with [slash] (reverse comps) in
  match path with [] => here | _ => path end.

Definition abspath (cwd p : pystr) : pystr :=
  normpath (match p with
            | c :: _ => if c =? slash then p else path_join cwd p
            | [] => path_join cwd p
            end).

(** A component of a normal path. *)
Definition plain (w : pystr) : bool :=
  negb (bool_decide (w = [])) && negb (bool_decide (w = here)) && negb (bool_decide (w = parent)) &&
  negb (bool_decide (slash ∈ w)).

Lemma plain_inv w : plain w = true -> w <> [] /\ w <> here /\ w <> parent /\ slash ∉ w.
Proof.
  unfold plain. rewrite !andb_true_iff, !negb_true_iff, !bool_decide_eq_false. tauto.
Qed.

(** [/a/b/c] *)
Definition absolute (comps : list pystr) : pystr := slash :: join_with [slash] comps.

Lemma norm_plain k acc comps :
  Forall (fun w => plain w = true) comps ->
  foldl (norm_comp k) acc comps = reverse comps ++ acc.
Proof.
  intros H. revert acc. induction H as [|w comps Hw _ IH]; intros acc; [done|]. cbn [foldl].
  rewrite IH, reverse_cons, <- app_assoc. f_equal. apply plain_inv in Hw as (H1 & H2 & H3 & _).
  unfold norm_comp. by rewrite !bool_decide_eq_false_2 by done.
Qed.

Lemma last_not_slash w : w <> [] -> slash ∉ w -> exists a c, w = a ++ [c] /\ c <> slash.
Proof.
  intros Hne Hs. destruct (exists_last Hne) as (a & c & ->). exists a, c. split; [done|].
  intros ->. apply Hs, elem_of_app. right. by apply list_elem_of_singleton.
Qed.

Lemma drop_end_while_app p s w :
  Forall (fun c => p c = true) w -> drop_end_while p (s ++ w) = drop_end_while p s.
Proof.
  intros H. unfold drop_end_while. f_equal. rewrite reverse_app.
  apply Forall_reverse in H. induction H as [|c w' Hc _ IH]; [done|]. cbn. by rewrite Hc.
Qed.

Lemma drop_end_while_stop p s c : p c = false -> drop_end_while p (s ++ [c]) = s ++ [c].
Proof. intros H. unfold drop_end_while. rewrite reverse_snoc. cbn [drop_while]. by rewrite H, reverse_cons, reverse_involutive. Qed.

(** The directory of a file. *)
Lemma dirname_file d f :
  (exists a c, d = a ++ [c] /\ c <> slash) -> slash ∉ f -> dirname (d ++ slash :: f) = d.
Proof.
  intros (a & c & -> & Hc) Hf. unfold dirname.
  assert (drop_end_while (fun x => negb (x =? slash)) ((a ++ [c]) ++ slash :: f) = (a ++ [c]) ++ [slash]) as ->.
  { change (slash :: f) with ([slash] ++ f). rewrite (app_assoc (a ++ [c]) [slash] f), drop_end_while_app.
    - by apply drop_end_while_stop.
    - apply Forall_forall. intros x Hx. apply negb_true_iff, Z.eqb_neq. by intros ->. }
  assert (forallb (Z.eqb slash) ((a ++ [c]) ++ [slash]) = false) as ->.
  { rewrite !forallb_app. cbn [forallb]. rewrite (proj2 (Z.eqb_neq slash c)) by done. by rewrite !andb_false_r. }
  rewrite drop_end_while_app by by repeat constructor. apply drop_end_while_stop. by apply Z.eqb_neq.
Qed.

Lemma join_plain l : l <> [] -> Forall (fun w => plain w = true) l ->
  exists c s, join_with [slash] l = c :: s /\ c <> slash.
Proof.
  intros Hne H. destruct H as [|w l Hw _]; [done|]. destruct (plain_inv w Hw) as (Hw1 & _ & _ & Hw4).
  destruct w as [|c w]; [done|]. exists c. apply not_elem_of_cons in Hw4 as [Hc _].
  destruct l; cbn [join_with app]; eauto.
Qed.

(** [/root/d/../names] *)
Lemma normpath_sibling root d names :
  Forall (fun w => plain w = true) (root ++ [d]) -> Forall (fun w => plain w = true) names ->
  normpath (absolute ((root ++ [d]) ++ parent :: names)) = absolute (root ++ names).
Proof.
  intros Hroot Hnames. pose proof (proj1 (Forall_app _ _ _) Hroot) as [Hr Hd]. rewrite Forall_singleton in Hd.
  assert (forall l, Forall (fun w => plain w = true) l -> Forall (fun w => slash ∉ w) l) as Hns.
  { intros l H. eapply Forall_impl; [exact H|]. intros w Hw. by apply plain_inv in Hw as (_ & _ & _ & ?). }
  assert (root ++ [d] <> []) as Hne by by destruct root.
  unfold normpath, absolute.
  assert (split_on slash (slash :: join_with [slash] ((root ++ [d]) ++ parent :: names)) =
          [] :: (root ++ [d]) ++ parent :: names) as ->.
  { cbn [split_on]. rewrite Z.eqb_refl. f_equal. apply split_join; [by destruct root|].
    apply Forall_app. split; [by apply Hns|]. constructor; [by apply (bool_decide_eq_false (slash ∈ parent)) | by apply Hns]. }
  assert (match slash :: join_with [slash] ((root ++ [d]) ++ parent :: names) with
    | 47 :: 47 :: 47 :: _ => 1%nat | 47 :: 47 :: _ => 2%nat | 47 :: _ => 1%nat | _ => 0%nat end = 1%nat) as ->.
  { rewrite join_app by done. destruct (join_plain _ Hne Hroot) as (c & s & -> & Hc).
    cbn [app]. unfold slash in *. destruct c as [|p|p]; [done| |done]. do 6 (destruct p as [p|p|]; try done). }
  cbn [foldl]. change (norm_comp 1 [] []) with (@nil pystr). rewrite foldl_app, (norm_plain 1 [] _ Hroot), app_nil_r.
  rewrite reverse_snoc. cbn [foldl].
  change (norm_comp 1 (d :: reverse root) parent)
    with (if bool_decide (d = parent) then parent :: d :: reverse root else reverse root).
  apply plain_inv in Hd as (_ & _ & Hd3 & _).
  by rewrite (bool_decide_eq_false_2 _ Hd3), norm_plain, reverse_app, !reverse_involutive by done.
Qed.

(** [os.path.abspath(os.path.join(os.path.dirname(__file__), '../names'))] *)
Lemma sibling_dir cwd root d f names :
  Forall (fun w => plain w = true) (root ++ [d]) -> slash ∉ f ->
  names <> [] -> Forall (fun w => plain w = true) names ->
  abspath cwd (path_join (dirname (absolute (root ++ [d; f]))) (parent ++ slash :: join_with [slash] names)) =
    absolute (root ++ names).
Proof.
  intros Hroot Hf Hne Hnames. assert (root ++ [d] <> []) as Hrne by by destruct root.
  assert (absolute (root ++ [d; f]) = absolute (root ++ [d]) ++ slash :: f) as ->.
  { unfold absolute. change [d; f] with ([d] ++ [f]). rewrite app_assoc, join_app by done.
    by rewrite <- app_comm_cons. }
  pose proof (proj1 (Forall_app _ _ _) Hroot) as [Hr Hd]. rewrite Forall_singleton in Hd.
  pose proof (plain_inv d Hd) as (Hd1 & _ & _ & Hd4).
  destruct (last_not_slash d Hd1 Hd4) as (a & c & Ha & Hc).
  assert (exists b, absolute (root ++ [d]) = b ++ [c]) as [b Hb].
  { unfold absolute. destruct root as [|w root].
    - exists (slash :: a). cbn. by rewrite Ha.
    - rewrite join_app by done. cbn [join_with]. rewrite Ha. eexists. by rewrite !app_assoc, !app_comm_cons. }
  rewrite dirname_file by eauto. unfold path_join, parent at 1.
  change (str "..") with [46; 46]. cbn [app Z.eqb slash].
  rewrite Hb at 1. rewrite reverse_snoc. rewrite (proj2 (Z.eqb_neq c slash)) by done.
  change (abspath cwd (absolute (root ++ [d]) ++ [slash] ++ [46; 46] ++ [slash] ++ join_with [slash] names) =
          absolute (root ++ names)).
  assert (absolute (root ++ [d]) ++ [slash] ++ [46; 46] ++ [slash] ++ join_with [slash] names =
          absolute ((root ++ [d]) ++ parent :: names)) as ->.
  { unfold absolute. rewrite (join_app _ (root ++ [d]) (parent :: names)) by done. rewrite <- !app_comm_cons. do 3 f_equal.
    change (parent :: names) with ([parent] ++ names). by rewrite join_app. }
  by apply normpath_sibling.
Qed.
