(* ===== verification/FlatBuffersRef.v ===== *)
(** * A concrete runtime satisfying the interface

    A builder that writes the FlatBuffers wire format (without padding and
    without sharing of vtables) and the accessors that read it.  It is here only
    to show that the hypotheses collected in [FlatBuffersLaws] can hold together
    and to let the witnesses of the development compute on real buffers; no
    theorem about the sources depends on it. *)
From S2P Require Import Prelude Bytes Utf8 FlatBuffers.

(** ** Reading *)
Definition read_u (n : nat) (buf : bytes) (p : Z) : res Z :=
  if (0 <=? p) && (p + Z.of_nat n <=? blen buf)
  then Ok (from_le (take n (drop (Z.to_nat p) buf))) else Err (RuntimeLibError 1).

Definition to_signed (n : nat) (z : Z) : Z :=
  if z <? 256 ^ Z.of_nat n / 2 then z else z - 256 ^ Z.of_nat n.

Definition read_scalar (t : scalar) (buf : bytes) (p : Z) : res Z :=
  match t with
  | SBool => (fun z => if z =? 0 then 0 else 1) <$> read_u 1 buf p
  | SUint8 => read_u 1 buf p
  | SInt8 => to_signed 1 <$> read_u 1 buf p
  | SUint16 => read_u 2 buf p
  | SInt32 => to_signed 4 <$> read_u 4 buf p
  | SUint32 => read_u 4 buf p
  end.

Definition scalar_width (t : scalar) : nat :=
  match t with SBool | SUint8 | SInt8 => 1 | SUint16 => 2 | SInt32 | SUint32 => 4 end%nat.

Definition ref_Indirect (t : Table) (off : Z) : res Z :=
  o ← read_u 4 (tab_Bytes t) off; mret (off + o).

Definition ref_Offset (t : Table) (vt : Z) : res Z :=
  d ← read_u 4 (tab_Bytes t) (tab_Pos t);
  let vtable := tab_Pos t - to_signed 4 d in
  sz ← read_u 2 (tab_Bytes t) vtable;
  if vt <? sz then read_u 2 (tab_Bytes t) (vtable + vt) else mret 0.

Definition ref_String (t : Table) (off : Z) : res bytes :=
  start ← ref_Indirect t off;
  n ← read_u 4 (tab_Bytes t) start;
  mret (take (Z.to_nat n) (drop (Z.to_nat (start + 4)) (tab_Bytes t))).

Definition ref_VectorLen (t : Table) (off : Z) : res Z :=
  start ← ref_Indirect t (off + tab_Pos t);
  read_u 4 (tab_Bytes t) start.

Definition ref_Vector (t : Table) (off : Z) : res Z :=
  start ← ref_Indirect t (off + tab_Pos t); mret (start + 4).

Definition ref_Union (t _ : Table) (off : Z) : res Table :=
  p ← ref_Indirect t (off + tab_Pos t); mret (mkTable (tab_Bytes t) p).

(** ** Building: the data grows towards its front, and the offset of an object
    is its distance from the end. *)
Record rbuilder : Type :=
  mkR { rb_data : bytes; rb_heap : gmap Z obj; rb_mode : mode }.

Definition rb_size (b : rbuilder) : Z :=
  blen (rb_data b) +
  match rb_mode b with InVector _ refs => 4 * Z.of_nat (length refs) | _ => 0 end.

(** Write the cells of a list, the first one in front; a cell may depend on its
    own offset. *)
Fixpoint build {A} (k : Z) (f : A -> Z -> bytes) (l : list A) (d : bytes) : bytes :=
  match l with
  | [] => d
  | x :: l' => let d' := build k f l' d in f x (blen d' + k) ++ d'
  end.

Definition elem_cell (e q : Z) : bytes := to_le 4 (q - e).

Definition slot_cell (s : option slot) (q : Z) : bytes :=
  match s with
  | Some (Scalar t v) =>
      to_le (scalar_width t) v ++ replicate (4 - scalar_width t) x00
  | Some (Ref r) => to_le 4 (q - r)
  | None => to_le 4 0
  end.

Definition vt_cell (e _ : Z) : bytes := to_le 2 e.

Definition slot_list (n : Z) (slots : gmap Z slot) : list (option slot) :=
  (fun i => slots !! i) <$> seqZ 0 n.
Definition vt_list (n : Z) (slots : gmap Z slot) : list Z :=
  (fun i => match slots !! i with Some _ => 4 + 4 * i | None => 0 end) <$> seqZ 0 n.

Definition table_body (n : Z) (slots : gmap Z slot) (d : bytes) : bytes :=
  to_le 4 (4 + 2 * n) ++ build 4 slot_cell (slot_list n slots) d.
Definition table_full (n : Z) (slots : gmap Z slot) (d : bytes) : bytes :=
  to_le 2 (4 + 2 * n) ++ to_le 2 (4 + 4 * n) ++
  build 2 vt_cell (vt_list n slots) (table_body n slots d).

Definition guard_size {A} (grow : Z) (b : rbuilder) (r : A * rbuilder) : res (A * rbuilder) :=
  if rb_size b + grow <=? max_buffer_size then Ok r else Err (RuntimeLibError 2).

Definition misuse {A} : res A := Err (RuntimeLibError 3).

Definition alloc (o : obj) (off : Z) (d : bytes) (b : rbuilder) : Z * rbuilder :=
  (off, mkR d (<[off := o]> (rb_heap b)) Idle).

Definition ref_create_string (bs : bytes) : st rbuilder Z := fun b =>
  match rb_mode b with
  | Idle =>
      let d := to_le 4 (blen bs) ++ bs ++ x00 :: rb_data b in
      guard_size (blen bs + 5) b (alloc (OString bs) (blen d) d b)
  | _ => misuse
  end.

Definition ref_CreateString (s : pystr) : st rbuilder Z :=
  match utf8_encode s with Some bs => ref_create_string bs | None => fun _ => misuse end.

Definition ref_StartObject (n : Z) : st rbuilder unit := fun b =>
  match rb_mode b with
  | Idle => Ok (tt, mkR (rb_data b) (rb_heap b) (InObject n ∅))
  | _ => misuse
  end.

Definition set_slot (i : Z) (s : slot) : st rbuilder unit := fun b =>
  match rb_mode b with
  | InObject n slots =>
      if (0 <=? i) && (i <? n)
      then Ok (tt, mkR (rb_data b) (rb_heap b) (InObject n (<[i := s]> slots))) else misuse
  | _ => misuse
  end.

Definition ref_PrependSlot (t : scalar) (i x d : Z) : st rbuilder unit := fun b =>
  if x =? d then Ok (tt, b)
  else if in_range t x then set_slot i (Scalar t x) b else Err TypeError.

Definition ref_PrependUOffsetTRelativeSlot (i off d : Z) : st rbuilder unit := fun b =>
  if off =? d then Ok (tt, b)
  else match rb_heap b !! off with Some _ => set_slot i (Ref off) b | None => misuse end.

Definition ref_EndObject : st rbuilder Z := fun b =>
  match rb_mode b with
  | InObject n slots =>
      guard_size (8 * n + 8) b
        (alloc (OTable n slots) (blen (table_body n slots (rb_data b)))
               (table_full n slots (rb_data b)) b)
  | _ => misuse
  end.

Definition ref_StartVector (_ n _ : Z) : st rbuilder Z := fun b =>
  match rb_mode b with
  | Idle => Ok (rb_size b, mkR (rb_data b) (rb_heap b) (InVector n []))
  | _ => misuse
  end.

Definition ref_PrependUOffsetTRelative (off : Z) : st rbuilder unit := fun b =>
  match rb_mode b, rb_heap b !! off with
  | InVector n refs, Some _ =>
      guard_size 4 b (tt, mkR (rb_data b) (rb_heap b) (InVector n (off :: refs)))
  | _, _ => misuse
  end.

Definition vector_full (refs : list Z) (d : bytes) : bytes :=
  to_le 4 (Z.of_nat (length refs)) ++ build 4 elem_cell refs d.

Definition ref_EndVector : st rbuilder Z := fun b =>
  match rb_mode b with
  | InVector n refs =>
      let d := vector_full refs (rb_data b) in
      guard_size 4 b (alloc (OVector refs) (blen d) d b)
  | _ => misuse
  end.

Definition ref_Finish (root : Z) : st rbuilder unit := fun b =>
  match rb_mode b with
  | Idle =>
      guard_size 4 b
        (tt, mkR (to_le 4 (blen (rb_data b) + 4 - root) ++ rb_data b) (rb_heap b) (Finished root))
  | _ => misuse
  end.

Definition ref_Output : st rbuilder bytes := fun b =>
  match rb_mode b with Finished _ => Ok (rb_data b, b) | _ => misuse end.

#[export] Instance ref_runtime : FlatBuffers := {|
  builder := rbuilder;
  Builder := fun _ => Ok (mkR [] ∅ Idle);
  CreateString := ref_CreateString;
  StartObject := ref_StartObject;
  PrependSlot := ref_PrependSlot;
  PrependUOffsetTRelativeSlot := ref_PrependUOffsetTRelativeSlot;
  EndObject := ref_EndObject;
  StartVector := ref_StartVector;
  PrependUOffsetTRelative := ref_PrependUOffsetTRelative;
  EndVector := ref_EndVector;
  Finish := ref_Finish;
  Output := ref_Output;
  UOffsetT_py_type := fun z => z;
  encode_Get_uoffset := read_u 4;
  Table_Offset := ref_Offset;
  Table_Indirect := ref_Indirect;
  Table_String := ref_String;
  Table_VectorLen := ref_VectorLen;
  Table_Vector := ref_Vector;
  Table_Union := ref_Union;
  Table_Get := fun t tab o => read_scalar t (tab_Bytes tab) o
|}.
