(* ===== verification/FlatBuffersRefLaws.v ===== *)
(** * The concrete runtime satisfies the laws

    A finished object is a set of segments of the data, addressed from the end,
    so it is not disturbed when the data grows at its front. *)
From S2P Require Import Prelude Bytes Utf8 FlatBuffers FlatBuffersRef.

(** [bs] stands in [d], its first byte at distance [q] from the end. *)
Definition seg (d : bytes) (q : Z) (bs : bytes) : Prop :=
  exists pre post, d = pre ++ bs ++ post /\ blen (bs ++ post) = q.

Lemma seg_app x d q bs : seg d q bs -> seg (x ++ d) q bs.
Proof.
  intros (pre & post & -> & <-). exists (x ++ pre), post. by rewrite <- app_assoc.
Qed.

Lemma seg_head bs d q : q = blen (bs ++ d) -> seg (bs ++ d) q bs.
Proof. intros ->. by exists [], d. Qed.

Lemma seg_fst d q a b : seg d q (a ++ b) -> seg d q a.
Proof.
  intros (pre & post & -> & <-). exists pre, (b ++ post). by rewrite <- !app_assoc.
Qed.

Lemma seg_snd d q a b : seg d q (a ++ b) -> seg d (q - blen a) b.
Proof.
  intros (pre & post & -> & <-). exists (pre ++ a), post. rewrite <- !app_assoc.
  split; [done|]. rewrite !blen_app. lia.
Qed.

Lemma seg_bounds d q bs : seg d q bs -> blen bs <= q <= blen d.
Proof.
  intros (pre & post & -> & <-). rewrite !blen_app.
  pose proof (blen_nonneg pre). pose proof (blen_nonneg post). lia.
Qed.

Lemma seg_take d q bs :
  seg d q bs -> take (length bs) (drop (Z.to_nat (blen d - q)) d) = bs.
Proof.
  intros (pre & post & -> & <-).
  replace (Z.to_nat (blen (pre ++ bs ++ post) - blen (bs ++ post))) with (length pre).
  2:{ rewrite !blen_app. unfold blen. lia. }
  by rewrite drop_app_length, take_app_length.
Qed.

Lemma read_u_seg d q bs n p :
  seg d q bs -> length bs = n -> p = blen d - q -> read_u n d p = Ok (from_le bs).
Proof.
  intros Hs <- ->. unfold read_u. pose proof (seg_bounds _ _ _ Hs).
  rewrite (seg_take d q bs Hs). fold (blen bs).
  replace (0 <=? blen d - q) with true by lia.
  by replace (blen d - q + blen bs <=? blen d) with true by lia.
Qed.

Lemma read_u_le d q n z p :
  seg d q (to_le n z) -> p = blen d - q -> 0 <= z < 256 ^ Z.of_nat n ->
  read_u n d p = Ok z.
Proof.
  intros Hs Hp Hz. rewrite (read_u_seg d q (to_le n z) n p Hs) by (auto using length_to_le).
  by rewrite from_to_le_small.
Qed.

(** ** Cells *)
Section build.
Context {A : Type} (k : Z) (f : A -> Z -> bytes).
Hypothesis cell_width : forall x q, blen (f x q) = k.

Lemma blen_build l d : blen (build k f l d) = blen d + k * Z.of_nat (length l).
Proof.
  induction l as [|x l IH]; cbn [build length]; [lia|].
  rewrite blen_app, cell_width, IH. lia.
Qed.

Lemma build_suffix l d : exists pre, build k f l d = pre ++ d.
Proof.
  induction l as [|x l [pre IH]]; cbn [build]; [by exists []|].
  rewrite IH. eexists. by rewrite app_assoc.
Qed.

Lemma build_seg l d (j : nat) x q :
  l !! j = Some x -> q = blen d + k * (Z.of_nat (length l) - Z.of_nat j) ->
  seg (build k f l d) q (f x q).
Proof.
  intros Hl ->. revert j Hl. induction l as [|y l IH]; intros j Hl; [done|].
  destruct j as [|j]; cbn [build].
  - injection Hl as ->. cbn [length].
    replace (blen d + k * (Z.of_nat (S (length l)) - Z.of_nat 0))
      with (blen (build k f l d) + k) by (rewrite blen_build; lia).
    apply seg_head. rewrite blen_app, cell_width. lia.
  - apply seg_app. cbn [length].
    replace (Z.of_nat (S (length l)) - Z.of_nat (S j))
      with (Z.of_nat (length l) - Z.of_nat j) by lia.
    by apply IH.
Qed.
End build.

Lemma elem_cell_width e q : blen (elem_cell e q) = 4.
Proof. unfold elem_cell. by rewrite blen_to_le. Qed.

Lemma vt_cell_width e q : blen (vt_cell e q) = 2.
Proof. unfold vt_cell. by rewrite blen_to_le. Qed.

Lemma slot_cell_width s q : blen (slot_cell s q) = 4.
Proof.
  destruct s as [[t v|r]|]; cbn [slot_cell]; rewrite ?blen_to_le; try done.
  rewrite blen_app, blen_to_le. unfold blen. rewrite length_replicate. by destruct t.
Qed.

(** ** Finished objects *)
Definition slot_ok (h : gmap Z obj) (s : slot) : Prop :=
  match s with Scalar t v => in_range t v = true | Ref r => is_Some (h !! r) end.

Definition cell_enc (h : gmap Z obj) (d : bytes) (q : Z) (o : option slot) : Prop :=
  match o with Some s => slot_ok h s /\ seg d q (slot_cell o q) | None => True end.

Definition obj_enc (h : gmap Z obj) (d : bytes) (off : Z) (o : obj) : Prop :=
  match o with
  | OString bs => seg d off (to_le 4 (blen bs) ++ bs)
  | OVector refs =>
      4 * Z.of_nat (length refs) < off /\
      seg d off (to_le 4 (Z.of_nat (length refs))) /\
      forall (j : nat) e, refs !! j = Some e -> is_Some (h !! e) /\ e <= off - 4 - 4 * Z.of_nat j /\
        seg d (off - 4 - 4 * Z.of_nat j) (elem_cell e (off - 4 - 4 * Z.of_nat j))
  | OTable n slots =>
      valid_nfields n /\ seg d off (to_le 4 (4 + 2 * n)) /\
      seg d (off + 4 + 2 * n) (to_le 2 (4 + 2 * n)) /\
      forall i, 0 <= i < n ->
        seg d (off + 2 * n - 2 * i)
          (to_le 2 (match slots !! i with Some _ => 4 + 4 * i | None => 0 end)) /\
        cell_enc h d (off - 4 - 4 * i) (slots !! i) /\
        match slots !! i with Some (Ref r) => r <= off - 4 - 4 * i | _ => True end
  end.

Definition inv (h : gmap Z obj) (d : bytes) : Prop :=
  forall off o, h !! off = Some o -> 0 < off <= blen d /\ obj_enc h d off o.

Definition mode_inv (h : gmap Z obj) (d : bytes) (m : mode) : Prop :=
  match m with
  | Idle => True
  | InObject n slots => valid_nfields n /\ map_Forall (fun _ s => slot_ok h s) slots
  | InVector _ refs => Forall (fun e => is_Some (h !! e)) refs
  | Finished root => is_Some (h !! root) /\ seg d (blen d) (to_le 4 (blen d - root))
  end.

Definition ref_view (b : rbuilder) (v : view) : Prop :=
  v = mkView (rb_heap b) (rb_mode b) (rb_size b) /\
  inv (rb_heap b) (rb_data b) /\ mode_inv (rb_heap b) (rb_data b) (rb_mode b) /\
  rb_size b <= max_buffer_size.

Lemma slot_ok_mono h h' s : h ⊆ h' -> slot_ok h s -> slot_ok h' s.
Proof. intros Hh. destruct s; cbn; [done|]. intros [o Ho]. eauto using lookup_weaken. Qed.

Lemma is_Some_mono (h h' : gmap Z obj) e : h ⊆ h' -> is_Some (h !! e) -> is_Some (h' !! e).
Proof. intros Hh [o Ho]. eauto using lookup_weaken. Qed.

Lemma obj_enc_mono h h' x d off o :
  h ⊆ h' -> obj_enc h d off o -> obj_enc h' (x ++ d) off o.
Proof.
  intros Hh. destruct o as [bs|refs|n slots]; cbn [obj_enc].
  - apply seg_app.
  - intros (H0 & H1 & H2). split_and!; [done | by apply seg_app |]. intros j e Hj.
    destruct (H2 j e Hj) as (? & ? & ?). eauto using seg_app, is_Some_mono.
  - intros (? & H1 & H2 & H3). split_and!; auto using seg_app.
    intros i Hi. destruct (H3 i Hi) as (? & Hc & ?). split_and!; auto using seg_app.
    destruct (slots !! i) as [s|]; cbn in *; [|done].
    destruct Hc. eauto using slot_ok_mono, seg_app.
Qed.

Lemma inv_app h x d : inv h d -> inv h (x ++ d).
Proof.
  intros H off o Ho. destruct (H off o Ho) as [? ?]. rewrite blen_app.
  pose proof (blen_nonneg x). split; [lia|]. by eapply obj_enc_mono.
Qed.

(** Allocating an object in front of the data. *)
Lemma inv_alloc h x d off o :
  inv h d -> blen d < off <= blen (x ++ d) ->
  (forall h', h ⊆ h' -> obj_enc h' (x ++ d) off o) ->
  h !! off = None /\ inv (<[off := o]> h) (x ++ d).
Proof.
  intros Hi Hoff Ho.
  assert (h !! off = None) as Hn.
  { destruct (h !! off) as [o'|] eqn:E; [|done]. destruct (Hi _ _ E). lia. }
  split; [done|]. intros off' o'.
  assert (h ⊆ <[off := o]> h) by by apply insert_subseteq.
  destruct (decide (off = off')) as [<-|Hne].
  - rewrite lookup_insert_eq. intros [= <-]. pose proof (blen_nonneg d).
    split; [lia|]. by apply Ho.
  - rewrite lookup_insert_ne by done. intros E. destruct (Hi _ _ E).
    rewrite blen_app. pose proof (blen_nonneg x). split; [lia|]. by eapply obj_enc_mono.
Qed.

(** ** What each write encodes *)
Lemma inv_below h d e : inv h d -> is_Some (h !! e) -> 0 < e <= blen d.
Proof. intros Hi [o Ho]. by destruct (Hi _ _ Ho). Qed.

Lemma enc_string h d bs :
  let d' := to_le 4 (blen bs) ++ bs ++ x00 :: d in obj_enc h d' (blen d') (OString bs).
Proof.
  cbn [obj_enc]. exists [], (x00 :: d). by rewrite <- !app_assoc.
Qed.

Lemma enc_vector h h' d refs :
  inv h d -> h ⊆ h' -> Forall (fun e => is_Some (h !! e)) refs ->
  obj_enc h' (vector_full refs d) (blen (vector_full refs d)) (OVector refs).
Proof.
  intros Hi Hh Hf. unfold vector_full. cbn [obj_enc].
  pose proof (blen_nonneg d).
  split_and!; [| by apply seg_head |].
  { rewrite blen_app, blen_to_le, (blen_build 4) by apply elem_cell_width. lia. }
  intros j e Hj. pose proof (in_list_lookup_Z _ _ _ Hj).
  pose proof (proj1 (Forall_lookup _ _) Hf j e Hj) as He.
  pose proof (inv_below _ _ _ Hi He).
  rewrite blen_app, blen_to_le, (blen_build 4) by apply elem_cell_width.
  split_and!; [by eapply is_Some_mono | lia |].
  apply seg_app, (build_seg 4 elem_cell elem_cell_width refs d j); [done | lia].
Qed.

Lemma slot_list_lookup n slots (i : Z) :
  0 <= i < n -> slot_list n slots !! Z.to_nat i = Some (slots !! i).
Proof.
  intros Hi. unfold slot_list. rewrite list_lookup_fmap, fmap_Some.
  exists i. split; [|done]. apply lookup_seqZ. lia.
Qed.

Lemma vt_list_lookup n slots (i : Z) :
  0 <= i < n ->
  vt_list n slots !! Z.to_nat i =
  Some (match slots !! i with Some _ => 4 + 4 * i | None => 0 end).
Proof.
  intros Hi. unfold vt_list. rewrite list_lookup_fmap, fmap_Some.
  exists i. split; [|done]. apply lookup_seqZ. lia.
Qed.

Lemma length_slot_list n slots : 0 <= n -> Z.of_nat (length (slot_list n slots)) = n.
Proof. intros. unfold slot_list. rewrite length_fmap, length_seqZ. lia. Qed.

Lemma length_vt_list n slots : 0 <= n -> Z.of_nat (length (vt_list n slots)) = n.
Proof. intros. unfold vt_list. rewrite length_fmap, length_seqZ. lia. Qed.

Lemma blen_table_body n slots d : 0 <= n -> blen (table_body n slots d) = blen d + 4 * n + 4.
Proof.
  intros. unfold table_body.
  rewrite blen_app, blen_to_le, (blen_build 4), length_slot_list by (done || apply slot_cell_width).
  lia.
Qed.

Lemma blen_table_full n slots d : 0 <= n -> blen (table_full n slots d) = blen d + 6 * n + 8.
Proof.
  intros. unfold table_full.
  rewrite !blen_app, !blen_to_le, (blen_build 2), length_vt_list, blen_table_body
    by (done || apply vt_cell_width).
  lia.
Qed.

(** The full table extends its body, which extends the data. *)
Lemma table_full_body n slots d : exists pre, table_full n slots d = pre ++ table_body n slots d.
Proof.
  unfold table_full.
  destruct (build_suffix 2 vt_cell (vt_list n slots) (table_body n slots d)) as [pre ->].
  eexists. by rewrite !app_assoc.
Qed.

Lemma table_full_suffix n slots d : exists pre, table_full n slots d = pre ++ d.
Proof.
  destruct (table_full_body n slots d) as [pre ->]. unfold table_body.
  destruct (build_suffix 4 slot_cell (slot_list n slots) d) as [pre' ->].
  eexists. by rewrite !app_assoc.
Qed.

Lemma table_body_cell n slots d i :
  0 <= i < n ->
  seg (table_body n slots d) (blen d + 4 * (n - i))
      (slot_cell (slots !! i) (blen d + 4 * (n - i))).
Proof.
  intros Hi. apply seg_app.
  apply (build_seg 4 slot_cell slot_cell_width _ d (Z.to_nat i)); [by apply slot_list_lookup|].
  rewrite length_slot_list by lia. lia.
Qed.

Lemma table_full_vt n slots d i :
  0 <= i < n ->
  seg (table_full n slots d) (blen (table_body n slots d) + 2 * (n - i))
      (to_le 2 (match slots !! i with Some _ => 4 + 4 * i | None => 0 end)).
Proof.
  intros Hi. do 2 apply seg_app.
  apply (build_seg 2 vt_cell vt_cell_width _ _ (Z.to_nat i)
           (match slots !! i with Some _ => 4 + 4 * i | None => 0 end)).
  - by apply vt_list_lookup.
  - rewrite length_vt_list by lia. lia.
Qed.

Lemma enc_table h h' d n slots :
  inv h d -> h ⊆ h' -> valid_nfields n -> map_Forall (fun _ s => slot_ok h s) slots ->
  obj_enc h' (table_full n slots d) (blen (table_body n slots d)) (OTable n slots).
Proof.
  intros Hi Hh Hn Hs. pose proof (proj1 Hn). cbn [obj_enc].
  pose proof (table_full_body n slots d) as [pre Hpre].
  split_and!; [done | | |].
  - rewrite Hpre. apply seg_app, seg_head. reflexivity.
  - apply seg_head. fold (table_full n slots d).
    rewrite blen_table_full, blen_table_body; lia.
  - intros i Hi'. pose proof (table_full_vt n slots d i Hi') as Hvt.
    pose proof (table_body_cell n slots d i Hi') as Hc.
    rewrite (blen_table_body n slots d) in * by lia.
    replace (blen d + 4 * n + 4 + 2 * (n - i))
      with (blen d + 4 * n + 4 + 2 * n - 2 * i) in Hvt by lia.
    replace (blen d + 4 * (n - i)) with (blen d + 4 * n + 4 - 4 - 4 * i) in Hc by lia.
    split_and!; [done | |].
    + destruct (slots !! i) as [s|] eqn:E; [|done]. split.
      * eapply slot_ok_mono; [done|]. by apply (Hs i).
      * rewrite Hpre. by apply seg_app.
    + destruct (slots !! i) as [[|r]|] eqn:E; try done.
      pose proof (inv_below _ _ r Hi (Hs i _ E)). lia.
Qed.

(** ** Reading a finished buffer *)
Section image.
Variables (h : gmap Z obj) (d : bytes).
Hypothesis Hinv : inv h d.
Hypothesis Hsize : blen d <= max_buffer_size.

Let pos (off : Z) : Z := blen d - off.

Lemma below_pow z n : 0 <= z <= max_buffer_size -> (4 <= n)%nat -> 0 <= z < 256 ^ Z.of_nat n.
Proof.
  intros [? Hz] Hn. split; [done|]. unfold max_buffer_size in Hz.
  apply (Z.lt_le_trans _ (256 ^ 4)); [lia | apply Z.pow_le_mono_r; lia].
Qed.

Lemma read_Indirect q r p0 :
  seg d q (to_le 4 (q - r)) -> is_Some (h !! r) -> r <= q ->
  ref_Indirect (mkTable d p0) (blen d - q) = Ok (pos r).
Proof.
  intros Hs Hr Hq. pose proof (inv_below _ _ _ Hinv Hr). pose proof (seg_bounds _ _ _ Hs).
  unfold ref_Indirect, pos. cbn [tab_Bytes].
  erewrite read_u_le; [| done | done | apply below_pow; lia].
  cbn. f_equal. lia.
Qed.

Lemma read_String q r bs p0 :
  seg d q (to_le 4 (q - r)) -> h !! r = Some (OString bs) -> r <= q ->
  ref_String (mkTable d p0) (blen d - q) = Ok bs.
Proof.
  intros Hs Hr Hq. unfold ref_String. rewrite (read_Indirect q r) by eauto.
  destruct (Hinv _ _ Hr) as [? Ho]. cbn [obj_enc] in Ho.
  pose proof (seg_bounds _ _ _ Ho) as Hb. rewrite blen_app, blen_to_le in Hb.
  pose proof (blen_nonneg bs).
  rewrite res_bind_ok. cbn [tab_Bytes]. unfold pos.
  erewrite read_u_le; [| by eapply seg_fst | done | apply below_pow; lia].
  rewrite res_bind_ok. unfold blen at 1. rewrite Nat2Z.id. cbn. f_equal.
  pose proof (seg_snd _ _ _ _ Ho) as Hsnd. rewrite blen_to_le in Hsnd.
  pose proof (seg_take _ _ _ Hsnd) as Ht.
  by replace (blen d - (r - Z.of_nat 4)) with (blen d - r + 4) in Ht by lia.
Qed.

Lemma read_scalar_cell t v q i p :
  seg d q (slot_cell (Some (Scalar t v)) i) -> in_range t v = true -> p = blen d - q ->
  read_scalar t d p = Ok v.
Proof.
  intros Hs [Hlo%Z.leb_le Hhi%Z.leb_le]%andb_true_iff ->.
  cbn [slot_cell] in Hs. apply seg_fst in Hs.
  assert (read_u (scalar_width t) d (blen d - q) =
          Ok (v mod 256 ^ Z.of_nat (scalar_width t))) as Hr.
  { rewrite <- from_to_le. eapply read_u_seg; eauto using length_to_le. }
  destruct t; cbn -[Z.pow Z.modulo] in *; rewrite Hr; cbn -[Z.pow Z.modulo];
    f_equal; unfold to_signed.
  - rewrite Z.mod_small by (cbn; lia). by assert (v = 0 \/ v = 1) as [-> | ->] by lia.
  - apply Z.mod_small. cbn. lia.
  - change (256 ^ Z.of_nat 1) with 256. change (256 / 2) with 128.
    destruct (Z.ltb_spec (v mod 256) 128); Z.div_mod_to_equations; lia.
  - apply Z.mod_small. cbn. lia.
  - change (256 ^ Z.of_nat 4) with (2 ^ 32). change (2 ^ 32 / 2) with (2 ^ 31).
    destruct (Z.ltb_spec (v mod 2 ^ 32) (2 ^ 31)); Z.div_mod_to_equations; lia.
  - apply Z.mod_small. cbn. lia.
Qed.

(** The vtable entry of a field. *)
Lemma read_Offset off n slots i :
  h !! off = Some (OTable n slots) -> 0 <= i < n ->
  ref_Offset (mkTable d (pos off)) (4 + 2 * i) =
  Ok (match slots !! i with Some _ => 4 + 4 * i | None => 0 end).
Proof.
  intros Ho Hi. destruct (Hinv _ _ Ho) as [? (Hn & H1 & H2 & H3)].
  destruct (H3 i Hi) as [Hv _]. unfold valid_nfields in Hn.
  pose proof (seg_bounds _ _ _ H2). unfold ref_Offset, pos. cbn [tab_Bytes tab_Pos].
  rewrite blen_to_le in *.
  rewrite (read_u_le d off 4 (4 + 2 * n)); [| done | done | cbn; lia].
  rewrite res_bind_ok. unfold to_signed.
  change (256 ^ Z.of_nat 4 / 2) with (2 ^ 31).
  replace (4 + 2 * n <? 2 ^ 31) with true by (symmetry; apply Z.ltb_lt; lia).
  cbv iota.
  rewrite (read_u_le d (off + 4 + 2 * n) 2 (4 + 2 * n) (blen d - off - (4 + 2 * n)));
    [| done | lia | cbn; lia].
  rewrite res_bind_ok. replace (4 + 2 * i <? 4 + 2 * n) with true by lia.
  cbv iota. eapply read_u_le; [done | lia |]. cbn. case_match; lia.
Qed.

Lemma ref_heap_image : heap_image (FB := ref_runtime) h pos d.
Proof.
  intros off n slots Ho i Hi. destruct (Hinv _ _ Ho) as [? (Hn & _ & _ & H3)].
  destruct (H3 i Hi) as (_ & Hc & Hr). unfold field_image. cbn [Table_Offset ref_runtime].
  pose proof (read_Offset off n slots i Ho Hi) as Hoff.
  destruct (slots !! i) as [s|] eqn:E; [|done].
  destruct Hc as [Hok Hs]. exists (4 + 4 * i). split_and!; [done | lia |].
  assert (4 + 4 * i + pos off = blen d - (off - 4 - 4 * i)) as Hp by (unfold pos; lia).
  destruct s as [t v|r]; cbn [tab_Pos]; rewrite ?Hp.
  - by eapply read_scalar_cell.
  - cbn [slot_cell] in Hs. unfold ref_image. cbn [tab_Pos]. rewrite Hp.
    cbn [slot_ok] in Hok. pose proof (read_Indirect _ r (pos off) Hs Hok Hr) as Hind.
    destruct (h !! r) as [[bs|refs|n' slots']|] eqn:Er; [| | |done]; cbn.
    + by eapply read_String.
    + unfold ref_VectorLen, ref_Vector. cbn [tab_Pos tab_Bytes].
      rewrite Hp, Hind, !res_bind_ok. destruct (Hinv _ _ Er) as [? (Hn' & Hlen & Hel)].
      split.
      * eapply read_u_le; [done | done |]. apply below_pow; lia.
      * eexists. split; [done|]. intros j e Hj. destruct (Hel j e Hj) as (He & Hle & Hse).
        unfold elem_image, pos.
        replace (blen d - r + 4 + Z.of_nat j * 4) with (blen d - (r - 4 - 4 * Z.of_nat j)) by lia.
        destruct (h !! e) as [[| |]|] eqn:Ee; try done; cbn.
        -- by eapply read_String.
        -- by eapply read_Indirect.
    + intros t0. unfold ref_Union. cbn [tab_Pos tab_Bytes]. by rewrite Hp, Hind.
Qed.
End image.

(** ** The laws *)
Lemma guard_size_ok {A} grow b (r : A * rbuilder) :
  rb_size b + grow <= max_buffer_size -> guard_size grow b r = Ok r.
Proof. intros. unfold guard_size. by rewrite (proj2 (Z.leb_le _ _)). Qed.

Lemma rb_size_plain d h m :
  (forall n refs, m <> InVector n refs) -> rb_size (mkR d h m) = blen d.
Proof. intros Hm. unfold rb_size. cbn. destruct m; try lia. by destruct (Hm nelems refs). Qed.

Lemma set_slot_view b h sz n slots i s :
  ref_view b (mkView h (InObject n slots) sz) -> slot_ok h s -> 0 <= i < n ->
  exists b', set_slot i s b = Ok (tt, b') /\
    ref_view b' (mkView h (InObject n (<[i := s]> slots)) sz).
Proof.
  intros ([= -> Hm ->] & Hi & Hmi & Hsz) Hs Hin. rewrite <- Hm in Hmi.
  unfold set_slot. rewrite <- Hm.
  replace ((0 <=? i) && (i <? n)) with true by lia.
  eexists. split; [done|]. unfold ref_view, rb_size in *. rewrite <- Hm in *. cbn in *.
  split_and!; try done; [apply Hmi|]. by apply map_Forall_insert_2; [|apply Hmi].
Qed.

Ltac open_view H :=
  let Hm := fresh "Hm" in let Hi := fresh "Hi" in let Hmi := fresh "Hmi" in
  let Hsz := fresh "Hsz" in
  destruct H as ([= -> Hm ->] & Hi & Hmi & Hsz); rewrite <- Hm in Hmi.

Lemma law_ref_create_string b h sz bs :
  ref_view b (mkView h Idle sz) -> sz + blen bs + op_cost <= max_buffer_size ->
  exists off b' sz', ref_create_string bs b = Ok (off, b') /\
    ref_view b' (mkView (<[off := OString bs]> h) Idle sz') /\
    h !! off = None /\ 0 < off /\ sz <= sz' <= sz + blen bs + op_cost.
Proof.
  intros H Hle. open_view H. unfold op_cost in Hle. unfold ref_create_string.
  rewrite <- Hm, guard_size_ok by lia. unfold alloc.
  set (d := to_le 4 (blen bs) ++ bs ++ x00 :: rb_data b).
  assert (blen d = blen (rb_data b) + blen bs + 5) as Hd.
  { unfold d. rewrite !blen_app, blen_to_le. unfold blen. cbn [length]. lia. }
  assert (rb_size b = blen (rb_data b)) as Hb by (unfold rb_size; rewrite <- Hm; cbn [rb_mode]; lia).
  assert (d = (to_le 4 (blen bs) ++ bs ++ [x00]) ++ rb_data b) as Hdd.
  { unfold d. by rewrite <- !app_assoc. }
  pose proof (blen_nonneg bs). pose proof (blen_nonneg (rb_data b)).
  destruct (inv_alloc (rb_heap b) (to_le 4 (blen bs) ++ bs ++ [x00]) (rb_data b) (blen d)
              (OString bs) Hi) as [Hn Hinv]; [rewrite <- Hdd; lia | |].
  { intros h' _. rewrite <- Hdd. apply enc_string. }
  rewrite <- Hdd in Hinv.
  eexists _, _, (blen d). split_and!; [done | | done | lia | lia | unfold op_cost; lia].
  split_and!; cbn [rb_heap rb_mode rb_data mode_inv];
    [by rewrite rb_size_plain | done | done |].
  rewrite rb_size_plain by done. lia.
Qed.

Lemma law_ref_EndObject b h sz n slots :
  ref_view b (mkView h (InObject n slots) sz) -> sz + 8 * n + op_cost <= max_buffer_size ->
  exists off b' sz', ref_EndObject b = Ok (off, b') /\
    ref_view b' (mkView (<[off := OTable n slots]> h) Idle sz') /\
    h !! off = None /\ 0 < off /\ sz <= sz' <= sz + 8 * n + op_cost.
Proof.
  intros H Hle. open_view H. unfold op_cost in *. destruct Hmi as [Hn Hs].
  pose proof (proj1 Hn). unfold ref_EndObject. rewrite <- Hm, guard_size_ok by lia.
  assert (rb_size b = blen (rb_data b)) as Hb by (unfold rb_size; rewrite <- Hm; cbn [rb_mode]; lia).
  pose proof (table_full_suffix n slots (rb_data b)) as [pre Hpre].
  pose proof (blen_table_full n slots (rb_data b) ltac:(lia)).
  pose proof (blen_table_body n slots (rb_data b) ltac:(lia)).
  pose proof (blen_nonneg (rb_data b)).
  destruct (inv_alloc (rb_heap b) pre (rb_data b) (blen (table_body n slots (rb_data b)))
              (OTable n slots) Hi) as [Hnone Hinv]; [rewrite <- Hpre; lia | |].
  { intros h' Hh. rewrite <- Hpre. by eapply enc_table. }
  rewrite <- Hpre in Hinv.
  eexists _, _, (blen (table_full n slots (rb_data b))).
  split_and!; [done | | done | lia | lia | lia].
  split_and!; cbn [rb_heap rb_mode rb_data mode_inv];
    [by rewrite rb_size_plain | done | done |].
  rewrite rb_size_plain by done. lia.
Qed.

Lemma law_ref_EndVector b h sz n refs :
  ref_view b (mkView h (InVector n refs) sz) -> Z.of_nat (length refs) = n ->
  sz + op_cost <= max_buffer_size ->
  exists off b' sz', ref_EndVector b = Ok (off, b') /\
    ref_view b' (mkView (<[off := OVector refs]> h) Idle sz') /\
    h !! off = None /\ 0 < off /\ sz <= sz' <= sz + op_cost.
Proof.
  intros H Hlen Hle. open_view H. unfold op_cost in *.
  unfold ref_EndVector. rewrite <- Hm, guard_size_ok by lia. unfold alloc.
  assert (rb_size b = blen (rb_data b) + 4 * Z.of_nat (length refs)) as Hb
    by (unfold rb_size; rewrite <- Hm; cbn [rb_mode]; lia).
  set (d := vector_full refs (rb_data b)).
  assert (blen d = blen (rb_data b) + 4 * Z.of_nat (length refs) + 4) as Hd.
  { unfold d, vector_full.
    rewrite blen_app, blen_to_le, (blen_build 4) by apply elem_cell_width. lia. }
  assert (exists pre, d = pre ++ rb_data b) as [pre Hpre].
  { unfold d, vector_full. destruct (build_suffix 4 elem_cell refs (rb_data b)) as [p ->].
    eexists. by rewrite app_assoc. }
  pose proof (blen_nonneg (rb_data b)).
  destruct (inv_alloc (rb_heap b) pre (rb_data b) (blen d) (OVector refs) Hi)
    as [Hnone Hinv]; [rewrite <- Hpre; lia | |].
  { intros h' Hh. rewrite <- Hpre. by eapply enc_vector. }
  rewrite <- Hpre in Hinv.
  eexists _, _, (blen d). split_and!; [done | | done | lia | lia | lia].
  split_and!; cbn [rb_heap rb_mode rb_data mode_inv];
    [by rewrite rb_size_plain | done | done |].
  rewrite rb_size_plain by done. lia.
Qed.

(** Steps that only change the mode, within a size bound. *)
Lemma ref_view_mode b h m sz m' :
  ref_view b (mkView h m sz) -> mode_inv h (rb_data b) m' ->
  rb_size (mkR (rb_data b) h m') <= max_buffer_size ->
  ref_view (mkR (rb_data b) h m') (mkView h m' (rb_size (mkR (rb_data b) h m'))).
Proof. intros ([= -> Hm ->] & Hi & _ & _) Hmi Hle. by split_and!. Qed.

Lemma law_ref_StartVector b h sz n :
  ref_view b (mkView h Idle sz) -> 0 <= n -> sz + op_cost <= max_buffer_size ->
  exists r b' sz', ref_StartVector 4 n 4 b = Ok (r, b') /\
    ref_view b' (mkView h (InVector n []) sz') /\ sz <= sz' <= sz + op_cost.
Proof.
  intros H Hn Hle. pose proof H as H'. open_view H. unfold ref_StartVector, op_cost in *.
  rewrite <- Hm.
  assert (rb_size (mkR (rb_data b) (rb_heap b) (InVector n [])) = rb_size b) as Hb.
  { unfold rb_size. rewrite <- Hm. cbn. lia. }
  eexists _, _, (rb_size b). split_and!; [done | | lia | lia].
  rewrite <- Hb. eapply ref_view_mode; [done | by constructor | lia].
Qed.

Lemma law_ref_PrependUOffsetTRelative b h sz n refs off :
  ref_view b (mkView h (InVector n refs) sz) -> is_Some (h !! off) ->
  Z.of_nat (length refs) < n -> sz + op_cost <= max_buffer_size ->
  exists b' sz', ref_PrependUOffsetTRelative off b = Ok (tt, b') /\
    ref_view b' (mkView h (InVector n (off :: refs)) sz') /\ sz <= sz' <= sz + op_cost.
Proof.
  intros H [o Ho] Hn Hle. pose proof H as H'. open_view H.
  unfold ref_PrependUOffsetTRelative, op_cost in *. rewrite <- Hm, Ho, guard_size_ok by lia.
  assert (rb_size (mkR (rb_data b) (rb_heap b) (InVector n (off :: refs))) = rb_size b + 4) as Hb.
  { unfold rb_size. rewrite <- Hm. cbn [rb_mode rb_data length]. lia. }
  eexists _, (rb_size b + 4). split_and!; [done | | lia | lia].
  rewrite <- Hb. eapply ref_view_mode; [done | constructor; eauto | lia].
Qed.

Lemma law_ref_Finish b h sz root :
  ref_view b (mkView h Idle sz) -> is_Some (h !! root) -> sz + op_cost <= max_buffer_size ->
  exists b' sz', ref_Finish root b = Ok (tt, b') /\
    ref_view b' (mkView h (Finished root) sz') /\ sz <= sz' <= sz + op_cost.
Proof.
  intros H Hr Hle. open_view H. unfold ref_Finish, op_cost in *.
  rewrite <- Hm, guard_size_ok by lia.
  assert (rb_size b = blen (rb_data b)) as Hb
    by (unfold rb_size; rewrite <- Hm; cbn [rb_mode]; lia).
  eexists _, (rb_size b + 4). split_and!; [done | | lia | lia].
  split_and!; cbn [rb_heap rb_mode rb_data].
  - f_equal. rewrite rb_size_plain, blen_app, blen_to_le by done. lia.
  - by apply inv_app.
  - cbn [mode_inv]. split; [done|]. rewrite blen_app, blen_to_le.
    replace (Z.of_nat 4 + blen (rb_data b) - root) with (blen (rb_data b) + 4 - root) by lia.
    apply seg_head. rewrite blen_app, blen_to_le. lia.
  - rewrite rb_size_plain, blen_app, blen_to_le by done. lia.
Qed.

Lemma law_ref_Output b h sz root :
  ref_view b (mkView h (Finished root) sz) ->
  exists buf b', ref_Output b = Ok (buf, b') /\ ref_view b' (mkView h (Finished root) sz) /\
    0 < blen buf <= sz /\ buffer_image (H := ref_runtime) h root buf.
Proof.
  intros H. pose proof H as H'. open_view H. destruct Hmi as [Hr Hs].
  assert (rb_size b = blen (rb_data b)) as Hb
    by (unfold rb_size; rewrite <- Hm; cbn [rb_mode]; lia).
  pose proof (inv_below _ _ _ Hi Hr). unfold ref_Output. rewrite <- Hm.
  eexists _, b. split_and!; [done | done | lia | lia |].
  exists (fun off => blen (rb_data b) - off). split.
  - cbn. eapply read_u_le; [done | lia | apply below_pow; lia].
  - apply ref_heap_image; [done | lia].
Qed.

Lemma read_u_range n buf p v : read_u n buf p = Ok v -> 0 <= v < 256 ^ Z.of_nat n.
Proof.
  unfold read_u. case_match eqn:E; [|done]. intros [= <-].
  apply andb_true_iff in E as [?%Z.leb_le Hl%Z.leb_le]. unfold blen in Hl.
  set (l := take n _). assert (blen l = Z.of_nat n) as <-.
  { unfold blen, l. rewrite length_take, length_drop. lia. }
  apply from_le_range.
Qed.

Lemma read_scalar_range t buf p v : read_scalar t buf p = Ok v -> in_range t v = true.
Proof.
  unfold in_range. intros H. apply andb_true_iff. rewrite !Z.leb_le.
  destruct t; cbn [read_scalar scalar_min scalar_max] in *;
    try (apply read_u_range in H; cbn in H; lia).
  - destruct (read_u 1 buf p); cbn in H; [|done]. injection H as <-. case_match; lia.
  - destruct (read_u 1 buf p) as [z|] eqn:E; cbn in H; [|done]. injection H as <-.
    apply read_u_range in E. change (256 ^ Z.of_nat 1) with 256 in *.
    unfold to_signed. change (256 ^ Z.of_nat 1) with 256. change (256 / 2) with 128.
    destruct (Z.ltb_spec z 128); lia.
  - destruct (read_u 4 buf p) as [z|] eqn:E; cbn in H; [|done]. injection H as <-.
    apply read_u_range in E. change (256 ^ Z.of_nat 4) with (2 ^ 32) in *.
    unfold to_signed. change (256 ^ Z.of_nat 4) with (2 ^ 32).
    change (2 ^ 32 / 2) with (2 ^ 31). destruct (Z.ltb_spec z (2 ^ 31)); lia.
Qed.

#[export] Instance ref_laws : FlatBuffersLaws ref_runtime.
Proof.
  refine {| has_view := ref_view : @builder ref_runtime -> view -> Prop |}; cbn.
  - intros n _. eexists. split; [done|]. by split_and!.
  - intros b h sz s bs H Hs Hle. unfold ref_CreateString. rewrite Hs. by apply law_ref_create_string.
  - intros b s Hs. unfold ref_CreateString. rewrite Hs. by eexists.
  - intros b h sz n H Hn. pose proof H as H'. open_view H. unfold ref_StartObject.
    rewrite <- Hm. eexists. split; [done|].
    assert (rb_size (mkR (rb_data b) (rb_heap b) (InObject n ∅)) = rb_size b) as <-
      by (unfold rb_size; by rewrite <- Hm).
    eapply ref_view_mode; [done | split; [done | apply map_Forall_empty] |].
    unfold rb_size in *. by rewrite <- Hm in *.
  - intros b h sz n slots t i d H _. unfold ref_PrependSlot. rewrite Z.eqb_refl. eauto.
  - intros b h sz n slots t i x d H Hne Hr Hi Hle. unfold ref_PrependSlot.
    apply Z.eqb_neq in Hne. rewrite Hne, Hr.
    destruct (set_slot_view _ _ _ _ _ i (Scalar t x) H Hr Hi) as (b' & ? & ?).
    exists b', sz. unfold op_cost. split_and!; done || lia.
  - intros b t i x d Hne Hr. unfold ref_PrependSlot.
    apply Z.eqb_neq in Hne. rewrite Hne, Hr. by eexists.
  - intros b h sz n slots i off H Hs Hi Hle. unfold ref_PrependUOffsetTRelativeSlot.
    destruct (set_slot_view _ _ _ _ _ i (Ref off) H Hs Hi) as (b' & ? & ?).
    destruct H as ([= -> Hm ->] & Hinv & _). pose proof (inv_below _ _ _ Hinv Hs).
    replace (off =? 0) with false by lia. destruct Hs as [o Ho]. rewrite Ho.
    exists b', (rb_size b). unfold op_cost. split_and!; done || lia.
  - apply law_ref_EndObject.
  - apply law_ref_StartVector.
  - apply law_ref_PrependUOffsetTRelative.
  - apply law_ref_EndVector.
  - apply law_ref_Finish.
  - apply law_ref_Output.
  - done.
  - intros t tab o v. apply read_scalar_range.
Defined.
