(* ===== verification/Enums.v ===== *)
(** * Wire enumerations

    The classes of integer constants generated from the schema
    ([demon/Event.py], [demon/Surveillance.py], [demon/SocketState.py],
    [demon/InotifyEvent.py]). *)
From S2P Require Import Prelude.

(** ** demon/Event.py *)
Module Event.
Definition NONE : Z := 0.
Definition RunCommand : Z := 1.
Definition KillProcess : Z := 2.
Definition EstablishTCPConnection : Z := 3.
Definition EstablishUnixConnection : Z := 4.
Definition ExecveTerminated : Z := 5.
Definition ProcessLaunched : Z := 6.
Definition ChildCreationError : Z := 7.
Definition ProcessTerminated : Z := 8.
Definition TCPSocketListening : Z := 9.
Definition InotifyPathUpdated : Z := 10.
Definition InotifyWatchListUpdated : Z := 11.
Definition SocketWatched : Z := 12.
Definition SocketWatchTerminated : Z := 13.
End Event.

(** ** demon/Surveillance.py *)
Module Surveillance.
Definition NONE : Z := 0.
Definition Inotify : Z := 1.
Definition TCPSocket : Z := 2.
End Surveillance.

(** ** demon/SocketState.py *)
Module SocketState.
Definition unknown : Z := 0.
Definition created : Z := 1.
Definition listeing : Z := 2.
End SocketState.

(** ** demon/InotifyEvent.py *)
Module InotifyEvent.
Definition modified : Z := 0.
Definition created : Z := 1.
Definition size_reached : Z := 2.
Definition deleted : Z := 3.
Definition accessed : Z := 4.
End InotifyEvent.
