(* ===== verification/Tables.v ===== *)
(** * Generated tables

    The modules [demon/*.py] that the FlatBuffers compiler generated from the
    schema: for each table, its class with the accessors that read a field
    through the vtable, and the functions that build it.  One Module per file;
    Python's [End] is [End_] here. *)
From S2P Require Import Prelude Bytes Utf8 FlatBuffers.

(** ** The accessors' common code

    Every generated accessor has one of these bodies, with its own vtable offset
    [vt], scalar type and default value. *)
Section accessors.
Context `{FB : FlatBuffers}.

(** [o = UOffsetTFlags.py_type(self._tab.Offset(vt))] *)
Definition field_offset (t : Table) (vt : Z) : res Z := UOffsetT_py_type <$> Table_Offset t vt.

(** [if o != 0: return self._tab.Get(flags, o + self._tab.Pos)]; [return 0] *)
Definition scalar_field (ty : scalar) (t : Table) (vt : Z) : res Z :=
  o ← field_offset t vt;
  if o =? 0 then mret 0 else Table_Get ty t (o + tab_Pos t).

(** [if o != 0: return self._tab.String(o + self._tab.Pos)]; [return None] *)
Definition string_field (t : Table) (vt : Z) : res (option bytes) :=
  o ← field_offset t vt;
  if o =? 0 then mret None else Some <$> Table_String t (o + tab_Pos t).

(** [if o != 0: obj = Table(bytearray(), 0); self._tab.Union(obj, o); return obj];
    [return None] *)
Definition union_field (t : Table) (vt : Z) : res (option Table) :=
  o ← field_offset t vt;
  if o =? 0 then mret None else Some <$> Table_Union t (mkTable [] 0) o.

(** [if o != 0: a = self._tab.Vector(o); return self._tab.String(a + py_type(j * 4))];
    [return ""] (a [str], where the other branch gives [bytes]) *)
Definition string_item_field (t : Table) (vt j : Z) : res (bytes + pystr) :=
  o ← field_offset t vt;
  if o =? 0 then mret (inr (str ""))
  else a ← Table_Vector t o; inl <$> Table_String t (a + UOffsetT_py_type (j * 4)).

(** [if o != 0: x = self._tab.Vector(o); x += py_type(j) * 4;
    x = self._tab.Indirect(x); ...]; [return None] *)
Definition table_item_field (t : Table) (vt j : Z) : res (option Z) :=
  o ← field_offset t vt;
  if o =? 0 then mret None
  else x ← Table_Vector t o; Some <$> Table_Indirect t (x + UOffsetT_py_type j * 4).

(** [if o != 0: return self._tab.VectorLen(o)]; [return 0] *)
Definition vector_len_field (t : Table) (vt : Z) : res Z :=
  o ← field_offset t vt; if o =? 0 then mret 0 else Table_VectorLen t o.

(** [return o == 0] *)
Definition is_none_field (t : Table) (vt : Z) : res bool :=
  o ← field_offset t vt; mret (o =? 0).
End accessors.

(** ** demon/TCPSocket.py *)
Module TCPSocket.
Section runtime.
Context `{FB : FlatBuffers}.

Record TCPSocket : Type := mk { _tab : Table }.

Definition Init (buf : bytes) (pos : Z) : TCPSocket := mk (mkTable buf pos).

Definition GetRootAs (buf : bytes) (offset : Z) : res TCPSocket :=
  n ← encode_Get_uoffset buf offset; mret (Init buf (n + offset)).
Definition GetRootAsTCPSocket (buf : bytes) (offset : Z) : res TCPSocket :=
  GetRootAs buf offset.
Definition Destport (self : TCPSocket) : res Z := scalar_field SUint32 (_tab self) 4.

Definition TCPSocketStart : st builder unit := StartObject 1.
Definition Start : st builder unit := TCPSocketStart.
Definition TCPSocketAddDestport (destport : Z) : st builder unit :=
  PrependSlot SUint32 0 destport 0.
Definition AddDestport (destport : Z) : st builder unit := TCPSocketAddDestport destport.
Definition TCPSocketEnd : st builder Z := EndObject.
Definition End_ : st builder Z := TCPSocketEnd.

End runtime.
End TCPSocket.

(** ** demon/Inotify.py *)
Module Inotify.
Section runtime.
Context `{FB : FlatBuffers}.

Record Inotify : Type := mk { _tab : Table }.

Definition Init (buf : bytes) (pos : Z) : Inotify := mk (mkTable buf pos).

Definition GetRootAs (buf : bytes) (offset : Z) : res Inotify :=
  n ← encode_Get_uoffset buf offset; mret (Init buf (n + offset)).
Definition GetRootAsInotify (buf : bytes) (offset : Z) : res Inotify := GetRootAs buf offset.
Definition RootPaths (self : Inotify) : res (option bytes) := string_field (_tab self) 4.
Definition Mask (self : Inotify) : res Z := scalar_field SInt32 (_tab self) 6.
Definition Size (self : Inotify) : res Z := scalar_field SUint32 (_tab self) 8.

Definition InotifyStart : st builder unit := StartObject 3.
Definition Start : st builder unit := InotifyStart.
Definition InotifyAddRootPaths (rootPaths : Z) : st builder unit :=
  PrependUOffsetTRelativeSlot 0 (UOffsetT_py_type rootPaths) 0.
Definition AddRootPaths (rootPaths : Z) : st builder unit := InotifyAddRootPaths rootPaths.
Definition InotifyAddMask (mask : Z) : st builder unit := PrependSlot SInt32 1 mask 0.
Definition AddMask (mask : Z) : st builder unit := InotifyAddMask mask.
Definition InotifyAddSize (size : Z) : st builder unit := PrependSlot SUint32 2 size 0.
Definition AddSize (size : Z) : st builder unit := InotifyAddSize size.
Definition InotifyEnd : st builder Z := EndObject.
Definition End_ : st builder Z := InotifyEnd.

End runtime.
End Inotify.

(** ** demon/SurveillanceEvent.py *)
Module SurveillanceEvent.
Section runtime.
Context `{FB : FlatBuffers}.

Record SurveillanceEvent : Type := mk { _tab : Table }.

Definition Init (buf : bytes) (pos : Z) : SurveillanceEvent := mk (mkTable buf pos).

Definition GetRootAs (buf : bytes) (offset : Z) : res SurveillanceEvent :=
  n ← encode_Get_uoffset buf offset; mret (Init buf (n + offset)).
Definition GetRootAsSurveillanceEvent (buf : bytes) (offset : Z) : res SurveillanceEvent :=
  GetRootAs buf offset.
Definition EventType (self : SurveillanceEvent) : res Z := scalar_field SUint8 (_tab self) 4.
Definition Event (self : SurveillanceEvent) : res (option Table) := union_field (_tab self) 6.

Definition SurveillanceEventStart : st builder unit := StartObject 2.
Definition Start : st builder unit := SurveillanceEventStart.
Definition SurveillanceEventAddEventType (eventType : Z) : st builder unit :=
  PrependSlot SUint8 0 eventType 0.
Definition AddEventType (eventType : Z) : st builder unit :=
  SurveillanceEventAddEventType eventType.
Definition SurveillanceEventAddEvent (event : Z) : st builder unit :=
  PrependUOffsetTRelativeSlot 1 (UOffsetT_py_type event) 0.
Definition AddEvent (event : Z) : st builder unit := SurveillanceEventAddEvent event.
Definition SurveillanceEventEnd : st builder Z := EndObject.
Definition End_ : st builder Z := SurveillanceEventEnd.

End runtime.
End SurveillanceEvent.

(** ** demon/RunCommand.py *)
Module RunCommand.
Section runtime.
Context `{FB : FlatBuffers}.

Record RunCommand : Type := mk { _tab : Table }.

Definition Init (buf : bytes) (pos : Z) : RunCommand := mk (mkTable buf pos).

Definition GetRootAs (buf : bytes) (offset : Z) : res RunCommand :=
  n ← encode_Get_uoffset buf offset; mret (Init buf (n + offset)).
Definition GetRootAsRunCommand (buf : bytes) (offset : Z) : res RunCommand :=
  GetRootAs buf offset.
Definition Path (self : RunCommand) : res (option bytes) := string_field (_tab self) 4.
Definition Args (self : RunCommand) (j : Z) : res (bytes + pystr) :=
  string_item_field (_tab self) 6 j.
Definition ArgsLength (self : RunCommand) : res Z := vector_len_field (_tab self) 6.
Definition ArgsIsNone (self : RunCommand) : res bool := is_none_field (_tab self) 6.
Definition Envp (self : RunCommand) (j : Z) : res (bytes + pystr) :=
  string_item_field (_tab self) 8 j.
Definition EnvpLength (self : RunCommand) : res Z := vector_len_field (_tab self) 8.
Definition EnvpIsNone (self : RunCommand) : res bool := is_none_field (_tab self) 8.
Definition Flags (self : RunCommand) : res Z := scalar_field SUint32 (_tab self) 10.
Definition StackSize (self : RunCommand) : res Z := scalar_field SUint32 (_tab self) 12.
Definition ToWatch (self : RunCommand) (j : Z) : res (option SurveillanceEvent.SurveillanceEvent) :=
  x ← table_item_field (_tab self) 14 j;
  mret (option_map (SurveillanceEvent.Init (tab_Bytes (_tab self))) x).
Definition ToWatchLength (self : RunCommand) : res Z := vector_len_field (_tab self) 14.
Definition ToWatchIsNone (self : RunCommand) : res bool := is_none_field (_tab self) 14.

Definition RunCommandStart : st builder unit := StartObject 6.
Definition Start : st builder unit := RunCommandStart.
Definition RunCommandAddPath (path : Z) : st builder unit :=
  PrependUOffsetTRelativeSlot 0 (UOffsetT_py_type path) 0.
Definition AddPath (path : Z) : st builder unit := RunCommandAddPath path.
Definition RunCommandAddArgs (args : Z) : st builder unit :=
  PrependUOffsetTRelativeSlot 1 (UOffsetT_py_type args) 0.
Definition AddArgs (args : Z) : st builder unit := RunCommandAddArgs args.
Definition RunCommandStartArgsVector (numElems : Z) : st builder Z := StartVector 4 numElems 4.
Definition StartArgsVector (numElems : Z) : st builder Z := RunCommandStartArgsVector numElems.
Definition RunCommandAddEnvp (envp : Z) : st builder unit :=
  PrependUOffsetTRelativeSlot 2 (UOffsetT_py_type envp) 0.
Definition AddEnvp (envp : Z) : st builder unit := RunCommandAddEnvp envp.
Definition RunCommandStartEnvpVector (numElems : Z) : st builder Z := StartVector 4 numElems 4.
Definition StartEnvpVector (numElems : Z) : st builder Z := RunCommandStartEnvpVector numElems.
Definition RunCommandAddFlags (flags : Z) : st builder unit := PrependSlot SUint32 3 flags 0.
Definition AddFlags (flags : Z) : st builder unit := RunCommandAddFlags flags.
Definition RunCommandAddStackSize (stackSize : Z) : st builder unit :=
  PrependSlot SUint32 4 stackSize 0.
Definition AddStackSize (stackSize : Z) : st builder unit := RunCommandAddStackSize stackSize.
Definition RunCommandAddToWatch (toWatch : Z) : st builder unit :=
  PrependUOffsetTRelativeSlot 5 (UOffsetT_py_type toWatch) 0.
Definition AddToWatch (toWatch : Z) : st builder unit := RunCommandAddToWatch toWatch.
Definition RunCommandStartToWatchVector (numElems : Z) : st builder Z :=
  StartVector 4 numElems 4.
Definition StartToWatchVector (numElems : Z) : st builder Z :=
  RunCommandStartToWatchVector numElems.
Definition RunCommandEnd : st builder Z := EndObject.
Definition End_ : st builder Z := RunCommandEnd.

End runtime.
End RunCommand.

(** ** demon/KillProcess.py *)
Module KillProcess.
Section runtime.
Context `{FB : FlatBuffers}.

Record KillProcess : Type := mk { _tab : Table }.

Definition Init (buf : bytes) (pos : Z) : KillProcess := mk (mkTable buf pos).

Definition GetRootAs (buf : bytes) (offset : Z) : res KillProcess :=
  n ← encode_Get_uoffset buf offset; mret (Init buf (n + offset)).
Definition GetRootAsKillProcess (buf : bytes) (offset : Z) : res KillProcess :=
  GetRootAs buf offset.
Definition Pid (self : KillProcess) : res Z := scalar_field SInt32 (_tab self) 4.

Definition KillProcessStart : st builder unit := StartObject 1.
Definition Start : st builder unit := KillProcessStart.
Definition KillProcessAddPid (pid : Z) : st builder unit := PrependSlot SInt32 0 pid 0.
Definition AddPid (pid : Z) : st builder unit := KillProcessAddPid pid.
Definition KillProcessEnd : st builder Z := EndObject.
Definition End_ : st builder Z := KillProcessEnd.

End runtime.
End KillProcess.

(** ** demon/ExecveTerminated.py *)
Module ExecveTerminated.
Section runtime.
Context `{FB : FlatBuffers}.

Record ExecveTerminated : Type := mk { _tab : Table }.

Definition Init (buf : bytes) (pos : Z) : ExecveTerminated := mk (mkTable buf pos).

Definition GetRootAs (buf : bytes) (offset : Z) : res ExecveTerminated :=
  n ← encode_Get_uoffset buf offset; mret (Init buf (n + offset)).
Definition GetRootAsExecveTerminated (buf : bytes) (offset : Z) : res ExecveTerminated :=
  GetRootAs buf offset.
Definition Pid (self : ExecveTerminated) : res Z := scalar_field SInt32 (_tab self) 4.
Definition CommandName (self : ExecveTerminated) : res (option bytes) :=
  string_field (_tab self) 6.
Definition Success (self : ExecveTerminated) : res bool :=
  (fun v => negb (v =? 0)) <$> scalar_field SBool (_tab self) 8.

Definition ExecveTerminatedStart : st builder unit := StartObject 3.
Definition Start : st builder unit := ExecveTerminatedStart.
Definition ExecveTerminatedAddPid (pid : Z) : st builder unit := PrependSlot SInt32 0 pid 0.
Definition AddPid (pid : Z) : st builder unit := ExecveTerminatedAddPid pid.
Definition ExecveTerminatedAddCommandName (commandName : Z) : st builder unit :=
  PrependUOffsetTRelativeSlot 1 (UOffsetT_py_type commandName) 0.
Definition AddCommandName (commandName : Z) : st builder unit :=
  ExecveTerminatedAddCommandName commandName.
Definition ExecveTerminatedAddSuccess (success : Z) : st builder unit :=
  PrependSlot SBool 2 success 0.
Definition AddSuccess (success : Z) : st builder unit := ExecveTerminatedAddSuccess success.
Definition ExecveTerminatedEnd : st builder Z := EndObject.
Definition End_ : st builder Z := ExecveTerminatedEnd.

End runtime.
End ExecveTerminated.

(** ** demon/ProcessLaunched.py *)
Module ProcessLaunched.
Section runtime.
Context `{FB : FlatBuffers}.

Record ProcessLaunched : Type := mk { _tab : Table }.

Definition Init (buf : bytes) (pos : Z) : ProcessLaunched := mk (mkTable buf pos).

Definition GetRootAs (buf : bytes) (offset : Z) : res ProcessLaunched :=
  n ← encode_Get_uoffset buf offset; mret (Init buf (n + offset)).
Definition GetRootAsProcessLaunched (buf : bytes) (offset : Z) : res ProcessLaunched :=
  GetRootAs buf offset.
Definition Pid (self : ProcessLaunched) : res Z := scalar_field SInt32 (_tab self) 4.

Definition ProcessLaunchedStart : st builder unit := StartObject 1.
Definition Start : st builder unit := ProcessLaunchedStart.
Definition ProcessLaunchedAddPid (pid : Z) : st builder unit := PrependSlot SInt32 0 pid 0.
Definition AddPid (pid : Z) : st builder unit := ProcessLaunchedAddPid pid.
Definition ProcessLaunchedEnd : st builder Z := EndObject.
Definition End_ : st builder Z := ProcessLaunchedEnd.

End runtime.
End ProcessLaunched.

(** ** demon/ChildCreationError.py *)
Module ChildCreationError.
Section runtime.
Context `{FB : FlatBuffers}.

Record ChildCreationError : Type := mk { _tab : Table }.

Definition Init (buf : bytes) (pos : Z) : ChildCreationError := mk (mkTable buf pos).

Definition GetRootAs (buf : bytes) (offset : Z) : res ChildCreationError :=
  n ← encode_Get_uoffset buf offset; mret (Init buf (n + offset)).
Definition GetRootAsChildCreationError (buf : bytes) (offset : Z) : res ChildCreationError :=
  GetRootAs buf offset.
Definition ErrorCode (self : ChildCreationError) : res Z := scalar_field SUint32 (_tab self) 4.

Definition ChildCreationErrorStart : st builder unit := StartObject 1.
Definition Start : st builder unit := ChildCreationErrorStart.
Definition ChildCreationErrorAddErrorCode (errorCode : Z) : st builder unit :=
  PrependSlot SUint32 0 errorCode 0.
Definition AddErrorCode (errorCode : Z) : st builder unit :=
  ChildCreationErrorAddErrorCode errorCode.
Definition ChildCreationErrorEnd : st builder Z := EndObject.
Definition End_ : st builder Z := ChildCreationErrorEnd.

End runtime.
End ChildCreationError.

(** ** demon/ProcessTerminated.py *)
Module ProcessTerminated.
Section runtime.
Context `{FB : FlatBuffers}.

Record ProcessTerminated : Type := mk { _tab : Table }.

Definition Init (buf : bytes) (pos : Z) : ProcessTerminated := mk (mkTable buf pos).

Definition GetRootAs (buf : bytes) (offset : Z) : res ProcessTerminated :=
  n ← encode_Get_uoffset buf offset; mret (Init buf (n + offset)).
Definition GetRootAsProcessTerminated (buf : bytes) (offset : Z) : res ProcessTerminated :=
  GetRootAs buf offset.
Definition Pid (self : ProcessTerminated) : res Z := scalar_field SInt32 (_tab self) 4.
Definition ErrorCode (self : ProcessTerminated) : res Z := scalar_field SUint32 (_tab self) 6.

Definition ProcessTerminatedStart : st builder unit := StartObject 2.
Definition Start : st builder unit := ProcessTerminatedStart.
Definition ProcessTerminatedAddPid (pid : Z) : st builder unit := PrependSlot SInt32 0 pid 0.
Definition AddPid (pid : Z) : st builder unit := ProcessTerminatedAddPid pid.
Definition ProcessTerminatedAddErrorCode (errorCode : Z) : st builder unit :=
  PrependSlot SUint32 1 errorCode 0.
Definition AddErrorCode (errorCode : Z) : st builder unit :=
  ProcessTerminatedAddErrorCode errorCode.
Definition ProcessTerminatedEnd : st builder Z := EndObject.
Definition End_ : st builder Z := ProcessTerminatedEnd.

End runtime.
End ProcessTerminated.

(** ** demon/TCPSocketListening.py *)
Module TCPSocketListening.
Section runtime.
Context `{FB : FlatBuffers}.

Record TCPSocketListening : Type := mk { _tab : Table }.

Definition Init (buf : bytes) (pos : Z) : TCPSocketListening := mk (mkTable buf pos).

Definition GetRootAs (buf : bytes) (offset : Z) : res TCPSocketListening :=
  n ← encode_Get_uoffset buf offset; mret (Init buf (n + offset)).
Definition GetRootAsTCPSocketListening (buf : bytes) (offset : Z) : res TCPSocketListening :=
  GetRootAs buf offset.
Definition Port (self : TCPSocketListening) : res Z := scalar_field SUint16 (_tab self) 4.

Definition TCPSocketListeningStart : st builder unit := StartObject 1.
Definition Start : st builder unit := TCPSocketListeningStart.
Definition TCPSocketListeningAddPort (port : Z) : st builder unit :=
  PrependSlot SUint16 0 port 0.
Definition AddPort (port : Z) : st builder unit := TCPSocketListeningAddPort port.
Definition TCPSocketListeningEnd : st builder Z := EndObject.
Definition End_ : st builder Z := TCPSocketListeningEnd.

End runtime.
End TCPSocketListening.

(** ** demon/InotifyPathUpdated.py *)
Module InotifyPathUpdated.
Section runtime.
Context `{FB : FlatBuffers}.

Record InotifyPathUpdated : Type := mk { _tab : Table }.

Definition Init (buf : bytes) (pos : Z) : InotifyPathUpdated := mk (mkTable buf pos).

Definition GetRootAs (buf : bytes) (offset : Z) : res InotifyPathUpdated :=
  n ← encode_Get_uoffset buf offset; mret (Init buf (n + offset)).
Definition GetRootAsInotifyPathUpdated (buf : bytes) (offset : Z) : res InotifyPathUpdated :=
  GetRootAs buf offset.
Definition Path (self : InotifyPathUpdated) : res (option bytes) := string_field (_tab self) 4.
Definition TriggerEvents (self : InotifyPathUpdated) : res Z :=
  scalar_field SInt8 (_tab self) 6.
Definition Size (self : InotifyPathUpdated) : res Z := scalar_field SUint32 (_tab self) 8.
Definition SizeLimit (self : InotifyPathUpdated) : res Z := scalar_field SUint32 (_tab self) 10.

Definition InotifyPathUpdatedStart : st builder unit := StartObject 4.
Definition Start : st builder unit := InotifyPathUpdatedStart.
Definition InotifyPathUpdatedAddPath (path : Z) : st builder unit :=
  PrependUOffsetTRelativeSlot 0 (UOffsetT_py_type path) 0.
Definition AddPath (path : Z) : st builder unit := InotifyPathUpdatedAddPath path.
Definition InotifyPathUpdatedAddTriggerEvents (triggerEvents : Z) : st builder unit :=
  PrependSlot SInt8 1 triggerEvents 0.
Definition AddTriggerEvents (triggerEvents : Z) : st builder unit :=
  InotifyPathUpdatedAddTriggerEvents triggerEvents.
Definition InotifyPathUpdatedAddSize (size : Z) : st builder unit :=
  PrependSlot SUint32 2 size 0.
Definition AddSize (size : Z) : st builder unit := InotifyPathUpdatedAddSize size.
Definition InotifyPathUpdatedAddSizeLimit (sizeLimit : Z) : st builder unit :=
  PrependSlot SUint32 3 sizeLimit 0.
Definition AddSizeLimit (sizeLimit : Z) : st builder unit :=
  InotifyPathUpdatedAddSizeLimit sizeLimit.
Definition InotifyPathUpdatedEnd : st builder Z := EndObject.
Definition End_ : st builder Z := InotifyPathUpdatedEnd.

End runtime.
End InotifyPathUpdated.

(** ** demon/InotifyWatchListUpdated.py *)
Module InotifyWatchListUpdated.
Section runtime.
Context `{FB : FlatBuffers}.

Record InotifyWatchListUpdated : Type := mk { _tab : Table }.

Definition Init (buf : bytes) (pos : Z) : InotifyWatchListUpdated := mk (mkTable buf pos).

Definition GetRootAs (buf : bytes) (offset : Z) : res InotifyWatchListUpdated :=
  n ← encode_Get_uoffset buf offset; mret (Init buf (n + offset)).
Definition GetRootAsInotifyWatchListUpdated (buf : bytes) (offset : Z) : res InotifyWatchListUpdated :=
  GetRootAs buf offset.
Definition Path (self : InotifyWatchListUpdated) : res (option bytes) :=
  string_field (_tab self) 4.

Definition InotifyWatchListUpdatedStart : st builder unit := StartObject 1.
Definition Start : st builder unit := InotifyWatchListUpdatedStart.
Definition InotifyWatchListUpdatedAddPath (path : Z) : st builder unit :=
  PrependUOffsetTRelativeSlot 0 (UOffsetT_py_type path) 0.
Definition AddPath (path : Z) : st builder unit := InotifyWatchListUpdatedAddPath path.
Definition InotifyWatchListUpdatedEnd : st builder Z := EndObject.
Definition End_ : st builder Z := InotifyWatchListUpdatedEnd.

End runtime.
End InotifyWatchListUpdated.

(** ** demon/SocketWatched.py *)
Module SocketWatched.
Section runtime.
Context `{FB : FlatBuffers}.

Record SocketWatched : Type := mk { _tab : Table }.

Definition Init (buf : bytes) (pos : Z) : SocketWatched := mk (mkTable buf pos).

Definition GetRootAs (buf : bytes) (offset : Z) : res SocketWatched :=
  n ← encode_Get_uoffset buf offset; mret (Init buf (n + offset)).
Definition GetRootAsSocketWatched (buf : bytes) (offset : Z) : res SocketWatched :=
  GetRootAs buf offset.
Definition Port (self : SocketWatched) : res Z := scalar_field SInt32 (_tab self) 4.

Definition SocketWatchedStart : st builder unit := StartObject 1.
Definition Start : st builder unit := SocketWatchedStart.
Definition SocketWatchedAddPort (port : Z) : st builder unit := PrependSlot SInt32 0 port 0.
Definition AddPort (port : Z) : st builder unit := SocketWatchedAddPort port.
Definition SocketWatchedEnd : st builder Z := EndObject.
Definition End_ : st builder Z := SocketWatchedEnd.

End runtime.
End SocketWatched.

(** ** demon/SocketWatchTerminated.py *)
Module SocketWatchTerminated.
Section runtime.
Context `{FB : FlatBuffers}.

Record SocketWatchTerminated : Type := mk { _tab : Table }.

Definition Init (buf : bytes) (pos : Z) : SocketWatchTerminated := mk (mkTable buf pos).

Definition GetRootAs (buf : bytes) (offset : Z) : res SocketWatchTerminated :=
  n ← encode_Get_uoffset buf offset; mret (Init buf (n + offset)).
Definition GetRootAsSocketWatchTerminated (buf : bytes) (offset : Z) : res SocketWatchTerminated :=
  GetRootAs buf offset.
Definition Port (self : SocketWatchTerminated) : res Z := scalar_field SInt32 (_tab self) 4.
Definition State (self : SocketWatchTerminated) : res Z := scalar_field SInt8 (_tab self) 6.

Definition SocketWatchTerminatedStart : st builder unit := StartObject 2.
Definition Start : st builder unit := SocketWatchTerminatedStart.
Definition SocketWatchTerminatedAddPort (port : Z) : st builder unit :=
  PrependSlot SInt32 0 port 0.
Definition AddPort (port : Z) : st builder unit := SocketWatchTerminatedAddPort port.
Definition SocketWatchTerminatedAddState (state : Z) : st builder unit :=
  PrependSlot SInt8 1 state 0.
Definition AddState (state : Z) : st builder unit := SocketWatchTerminatedAddState state.
Definition SocketWatchTerminatedEnd : st builder Z := EndObject.
Definition End_ : st builder Z := SocketWatchTerminatedEnd.

End runtime.
End SocketWatchTerminated.

(** ** demon/EstablishTCPConnection.py *)
Module EstablishTCPConnection.
Section runtime.
Context `{FB : FlatBuffers}.

Record EstablishTCPConnection : Type := mk { _tab : Table }.

Definition Init (buf : bytes) (pos : Z) : EstablishTCPConnection := mk (mkTable buf pos).

Definition GetRootAs (buf : bytes) (offset : Z) : res EstablishTCPConnection :=
  n ← encode_Get_uoffset buf offset; mret (Init buf (n + offset)).
Definition GetRootAsEstablishTCPConnection (buf : bytes) (offset : Z) : res EstablishTCPConnection :=
  GetRootAs buf offset.
Definition Destport (self : EstablishTCPConnection) : res Z :=
  scalar_field SUint32 (_tab self) 4.

Definition EstablishTCPConnectionStart : st builder unit := StartObject 1.
Definition Start : st builder unit := EstablishTCPConnectionStart.
Definition EstablishTCPConnectionAddDestport (destport : Z) : st builder unit :=
  PrependSlot SUint32 0 destport 0.
Definition AddDestport (destport : Z) : st builder unit :=
  EstablishTCPConnectionAddDestport destport.
Definition EstablishTCPConnectionEnd : st builder Z := EndObject.
Definition End_ : st builder Z := EstablishTCPConnectionEnd.

End runtime.
End EstablishTCPConnection.

(** ** demon/EstablishUnixConnection.py *)
Module EstablishUnixConnection.
Section runtime.
Context `{FB : FlatBuffers}.

Record EstablishUnixConnection : Type := mk { _tab : Table }.

Definition Init (buf : bytes) (pos : Z) : EstablishUnixConnection := mk (mkTable buf pos).

Definition GetRootAs (buf : bytes) (offset : Z) : res EstablishUnixConnection :=
  n ← encode_Get_uoffset buf offset; mret (Init buf (n + offset)).
Definition GetRootAsEstablishUnixConnection (buf : bytes) (offset : Z) : res EstablishUnixConnection :=
  GetRootAs buf offset.
Definition Path (self : EstablishUnixConnection) : res (option bytes) :=
  string_field (_tab self) 4.

Definition EstablishUnixConnectionStart : st builder unit := StartObject 1.
Definition Start : st builder unit := EstablishUnixConnectionStart.
Definition EstablishUnixConnectionAddPath (path : Z) : st builder unit :=
  PrependUOffsetTRelativeSlot 0 (UOffsetT_py_type path) 0.
Definition AddPath (path : Z) : st builder unit := EstablishUnixConnectionAddPath path.
Definition EstablishUnixConnectionEnd : st builder Z := EndObject.
Definition End_ : st builder Z := EstablishUnixConnectionEnd.

End runtime.
End EstablishUnixConnection.

(** ** demon/Message.py *)
Module Message.
Section runtime.
Context `{FB : FlatBuffers}.

Record Message : Type := mk { _tab : Table }.

Definition Init (buf : bytes) (pos : Z) : Message := mk (mkTable buf pos).

Definition GetRootAs (buf : bytes) (offset : Z) : res Message :=
  n ← encode_Get_uoffset buf offset; mret (Init buf (n + offset)).
Definition GetRootAsMessage (buf : bytes) (offset : Z) : res Message := GetRootAs buf offset.
Definition EventsType (self : Message) : res Z := scalar_field SUint8 (_tab self) 4.
Definition Events (self : Message) : res (option Table) := union_field (_tab self) 6.

Definition MessageStart : st builder unit := StartObject 2.
Definition Start : st builder unit := MessageStart.
Definition MessageAddEventsType (eventsType : Z) : st builder unit :=
  PrependSlot SUint8 0 eventsType 0.
Definition AddEventsType (eventsType : Z) : st builder unit := MessageAddEventsType eventsType.
Definition MessageAddEvents (events : Z) : st builder unit :=
  PrependUOffsetTRelativeSlot 1 (UOffsetT_py_type events) 0.
Definition AddEvents (events : Z) : st builder unit := MessageAddEvents events.
Definition MessageEnd : st builder Z := EndObject.
Definition End_ : st builder Z := MessageEnd.

End runtime.
End Message.

(** Unfold the builder functions of the tables. *)
Create HintDb tables.
#[export] Hint Unfold
  TCPSocket.TCPSocketStart TCPSocket.Start TCPSocket.TCPSocketAddDestport
  TCPSocket.AddDestport TCPSocket.TCPSocketEnd TCPSocket.End_ Inotify.InotifyStart
  Inotify.Start Inotify.InotifyAddRootPaths Inotify.AddRootPaths Inotify.InotifyAddMask
  Inotify.AddMask Inotify.InotifyAddSize Inotify.AddSize Inotify.InotifyEnd Inotify.End_
  SurveillanceEvent.SurveillanceEventStart SurveillanceEvent.Start
  SurveillanceEvent.SurveillanceEventAddEventType SurveillanceEvent.AddEventType
  SurveillanceEvent.SurveillanceEventAddEvent SurveillanceEvent.AddEvent
  SurveillanceEvent.SurveillanceEventEnd SurveillanceEvent.End_
  RunCommand.RunCommandStart RunCommand.Start RunCommand.RunCommandAddPath
  RunCommand.AddPath RunCommand.RunCommandAddArgs RunCommand.AddArgs
  RunCommand.RunCommandStartArgsVector RunCommand.StartArgsVector
  RunCommand.RunCommandAddEnvp RunCommand.AddEnvp RunCommand.RunCommandStartEnvpVector
  RunCommand.StartEnvpVector RunCommand.RunCommandAddFlags RunCommand.AddFlags
  RunCommand.RunCommandAddStackSize RunCommand.AddStackSize
  RunCommand.RunCommandAddToWatch RunCommand.AddToWatch
  RunCommand.RunCommandStartToWatchVector RunCommand.StartToWatchVector
  RunCommand.RunCommandEnd RunCommand.End_ KillProcess.KillProcessStart
  KillProcess.Start KillProcess.KillProcessAddPid KillProcess.AddPid
  KillProcess.KillProcessEnd KillProcess.End_ ExecveTerminated.ExecveTerminatedStart
  ExecveTerminated.Start ExecveTerminated.ExecveTerminatedAddPid ExecveTerminated.AddPid
  ExecveTerminated.ExecveTerminatedAddCommandName ExecveTerminated.AddCommandName
  ExecveTerminated.ExecveTerminatedAddSuccess ExecveTerminated.AddSuccess
  ExecveTerminated.ExecveTerminatedEnd ExecveTerminated.End_
  ProcessLaunched.ProcessLaunchedStart ProcessLaunched.Start
  ProcessLaunched.ProcessLaunchedAddPid ProcessLaunched.AddPid
  ProcessLaunched.ProcessLaunchedEnd ProcessLaunched.End_
  ChildCreationError.ChildCreationErrorStart ChildCreationError.Start
  ChildCreationError.ChildCreationErrorAddErrorCode ChildCreationError.AddErrorCode
  ChildCreationError.ChildCreationErrorEnd ChildCreationError.End_
  ProcessTerminated.ProcessTerminatedStart ProcessTerminated.Start
  ProcessTerminated.ProcessTerminatedAddPid ProcessTerminated.AddPid
  ProcessTerminated.ProcessTerminatedAddErrorCode ProcessTerminated.AddErrorCode
  ProcessTerminated.ProcessTerminatedEnd ProcessTerminated.End_
  TCPSocketListening.TCPSocketListeningStart TCPSocketListening.Start
  TCPSocketListening.TCPSocketListeningAddPort TCPSocketListening.AddPort
  TCPSocketListening.TCPSocketListeningEnd TCPSocketListening.End_
  InotifyPathUpdated.InotifyPathUpdatedStart InotifyPathUpdated.Start
  InotifyPathUpdated.InotifyPathUpdatedAddPath InotifyPathUpdated.AddPath
  InotifyPathUpdated.InotifyPathUpdatedAddTriggerEvents
  InotifyPathUpdated.AddTriggerEvents InotifyPathUpdated.InotifyPathUpdatedAddSize
  InotifyPathUpdated.AddSize InotifyPathUpdated.InotifyPathUpdatedAddSizeLimit
  InotifyPathUpdated.AddSizeLimit InotifyPathUpdated.InotifyPathUpdatedEnd
  InotifyPathUpdated.End_ InotifyWatchListUpdated.InotifyWatchListUpdatedStart
  InotifyWatchListUpdated.Start InotifyWatchListUpdated.InotifyWatchListUpdatedAddPath
  InotifyWatchListUpdated.AddPath InotifyWatchListUpdated.InotifyWatchListUpdatedEnd
  InotifyWatchListUpdated.End_ SocketWatched.SocketWatchedStart SocketWatched.Start
  SocketWatched.SocketWatchedAddPort SocketWatched.AddPort
  SocketWatched.SocketWatchedEnd SocketWatched.End_
  SocketWatchTerminated.SocketWatchTerminatedStart SocketWatchTerminated.Start
  SocketWatchTerminated.SocketWatchTerminatedAddPort SocketWatchTerminated.AddPort
  SocketWatchTerminated.SocketWatchTerminatedAddState SocketWatchTerminated.AddState
  SocketWatchTerminated.SocketWatchTerminatedEnd SocketWatchTerminated.End_
  EstablishTCPConnection.EstablishTCPConnectionStart EstablishTCPConnection.Start
  EstablishTCPConnection.EstablishTCPConnectionAddDestport
  EstablishTCPConnection.AddDestport EstablishTCPConnection.EstablishTCPConnectionEnd
  EstablishTCPConnection.End_ EstablishUnixConnection.EstablishUnixConnectionStart
  EstablishUnixConnection.Start EstablishUnixConnection.EstablishUnixConnectionAddPath
  EstablishUnixConnection.AddPath EstablishUnixConnection.EstablishUnixConnectionEnd
  EstablishUnixConnection.End_ Message.MessageStart Message.Start
  Message.MessageAddEventsType Message.AddEventsType Message.MessageAddEvents
  Message.AddEvents Message.MessageEnd Message.End_ : tables.
