(* ===== verification/Data.v ===== *)
(** * Data of the serialization module

    The dataclasses and enumerations of [tests_python/serialization.py]. *)
From S2P Require Import Prelude Bytes Utf8.

Record TCPSocket : Type := mkTCPSocket { destport : Z }.

Record BufferInfo : Type := mkBufferInfo { bi_buffer : bytes; bi_size : Z }.

Record ExecveInfo : Type :=
  mkExecveInfo { ei_pid : Z; ei_command_name : pystr; ei_success : bool }.

Record ProcessTerminatedInfo : Type :=
  mkProcessTerminatedInfo { pt_pid : Z; pt_error_code : Z }.

(** A Python [Enum] is its members, their [value]s, and the lookup
    [Class(value)], which raises [ValueError] for a value of no member. *)
Inductive SocketState : Type := SOCKET_UNKNOWN | SOCKET_LISTENING | SOCKET_CREATED.

#[global] Instance SocketState_eq_dec : EqDecision SocketState.
Proof. solve_decision. Defined.

Definition SocketState_value (s : SocketState) : Z :=
  match s with SOCKET_UNKNOWN => 0 | SOCKET_LISTENING => 1 | SOCKET_CREATED => 2 end.

Definition SocketState_of (v : Z) : res SocketState :=
  if v =? 0 then Ok SOCKET_UNKNOWN
  else if v =? 1 then Ok SOCKET_LISTENING
  else if v =? 2 then Ok SOCKET_CREATED
  else Err ValueError.

Record SocketWatchInfo : Type := mkSocketWatchInfo { sw_port : Z; sw_state : SocketState }.

Inductive InotifyEvent : Type := MODIFIED | CREATED | SIZE_REACHED | DELETED | ACCESSED.

#[global] Instance InotifyEvent_eq_dec : EqDecision InotifyEvent.
Proof. solve_decision. Defined.

Definition InotifyEvent_value (e : InotifyEvent) : Z :=
  match e with
  | MODIFIED => 0 | CREATED => 1 | SIZE_REACHED => 2 | DELETED => 3 | ACCESSED => 4
  end.

Definition InotifyEvent_of (v : Z) : res InotifyEvent :=
  if v =? 0 then Ok MODIFIED
  else if v =? 1 then Ok CREATED
  else if v =? 2 then Ok SIZE_REACHED
  else if v =? 3 then Ok DELETED
  else if v =? 4 then Ok ACCESSED
  else Err ValueError.

Record InotifyParameters : Type :=
  mkInotifyParameters { ip_root_paths : pystr; ip_mask : Z; ip_size : Z }.

Inductive SurveillanceEventType : Type := INOTIFY | WATCH_SOCKET.

#[global] Instance SurveillanceEventType_eq_dec : EqDecision SurveillanceEventType.
Proof. solve_decision. Defined.

(** The attribute [Surveillance.event] holds a member of the enumeration, or a
    string: [receive_command] stores strings there. *)
Inductive event_value : Type :=
  | EvType (t : SurveillanceEventType)
  | EvStr (s : pystr).

(** [v == SurveillanceEventType.t]: a string equals no member. *)
Definition event_is (v : event_value) (t : SurveillanceEventType) : bool :=
  match v with EvType t' => bool_decide (t' = t) | EvStr _ => false end.

(** The attribute [Surveillance.ptr_event] ([Any]): one of the two dataclasses
    the code puts there. *)
Inductive event_params : Type :=
  | PInotify (p : InotifyParameters)
  | PTCPSocket (p : TCPSocket).

Definition get_root_paths (p : event_params) : res pystr :=
  match p with PInotify p => Ok (ip_root_paths p) | _ => Err (AttributeError "root_paths") end.
Definition get_mask (p : event_params) : res Z :=
  match p with PInotify p => Ok (ip_mask p) | _ => Err (AttributeError "mask") end.
Definition get_size (p : event_params) : res Z :=
  match p with PInotify p => Ok (ip_size p) | _ => Err (AttributeError "size") end.
Definition get_destport (p : event_params) : res Z :=
  match p with PTCPSocket p => Ok (destport p) | _ => Err (AttributeError "destport") end.

Record Surveillance : Type := mkSurveillance { sv_event : event_value; sv_ptr_event : event_params }.

Record InotifyPathUpdated : Type :=
  mkInotifyPathUpdated { pu_path : pystr; pu_event : InotifyEvent; pu_size : Z; pu_size_limit : Z }.

Record Command : Type := mkCommand {
  cmd_path : pystr;
  cmd_args : list pystr;
  cmd_envp : list pystr;
  cmd_flags : Z;
  cmd_stack_size : Z;
  cmd_to_watch : list Surveillance
}.

Inductive Event : Type :=
  | NONE
  | RUN_COMMAND
  | KILL_PROCESS
  | ESTABLISH_TCP_CONNECTION
  | ESTABLISH_UNIX_CONNECTION
  | PROCESS_LAUNCHED
  | CHILD_CREATION_ERROR
  | PROCESS_TERMINATED
  | TCP_SOCKET_LISTENING
  | INOTIFY_PATH_UPDATED
  | INOTIFY_WATCH_LIST_UPDATED
  | SOCKET_WATCHED
  | SOCKET_WATCH_TERMINATED
  | EXECVE_TERMINATED.

#[global] Instance Event_eq_dec : EqDecision Event.
Proof. solve_decision. Defined.

Definition Event_value (e : Event) : Z :=
  match e with
  | NONE => -1
  | RUN_COMMAND => 0
  | KILL_PROCESS => 1
  | ESTABLISH_TCP_CONNECTION => 2
  | ESTABLISH_UNIX_CONNECTION => 3
  | PROCESS_LAUNCHED => 4
  | CHILD_CREATION_ERROR => 5
  | PROCESS_TERMINATED => 6
  | TCP_SOCKET_LISTENING => 7
  | INOTIFY_PATH_UPDATED => 8
  | INOTIFY_WATCH_LIST_UPDATED => 9
  | SOCKET_WATCHED => 10
  | SOCKET_WATCH_TERMINATED => 11
  | EXECVE_TERMINATED => 12
  end.

(** What a function returns that is declared to return an [A] (or nothing) but
    has a branch that returns an integer. *)
Inductive pyret (A : Type) : Type :=
  | RNone
  | RObj (a : A)
  | RInt (z : Z).
Arguments RNone {A}.
Arguments RObj {A} _.
Arguments RInt {A} _.

Lemma SocketState_of_value v s : SocketState_of v = Ok s -> SocketState_value s = v.
Proof.
  unfold SocketState_of. intros H.
  repeat (case_match; [injection H as <-; cbn; lia |]). done.
Qed.

Lemma InotifyEvent_of_value v e : InotifyEvent_of v = Ok e -> InotifyEvent_value e = v.
Proof.
  unfold InotifyEvent_of. intros H.
  repeat (case_match; [injection H as <-; cbn; lia |]). done.
Qed.
