(* ===== verification/Send.v ===== *)
(** * Serialization: the [send_*] functions of [tests_python/serialization.py]

    Each function creates a builder, fills it through the generated functions
    and returns the finished buffer with its length.  Where the source wraps the
    body in [try: ... except Exception: return None], the model returns an
    option under [catch_all]; the creation of the builder is outside of it, as
    in the source. *)
From S2P Require Import Prelude Bytes Utf8 FlatBuffers Enums Tables Data.

Section send.
Context `{FB : FlatBuffers}.

(** The tail common to all of them:
    [builder.Finish(message); buf = builder.Output();
     return BufferInfo(buffer=buf, size=len(buf))]. *)
Definition finish_message (message : Z) : st builder BufferInfo :=
  _ ← Finish message;
  buf ← Output;
  mret (mkBufferInfo buf (blen buf)).

(** One iteration of the loop over [cmd.to_watch]: the offsets it appends. *)
Definition add_surveillance (surv : Surveillance) : st builder (list Z) :=
  if event_is (sv_event surv) INOTIFY then
    let inotify := sv_ptr_event surv in
    root_paths ← lift (get_root_paths inotify);
    root_paths_offset ← CreateString root_paths;
    _ ← Inotify.Start;
    _ ← Inotify.AddRootPaths root_paths_offset;
    mask ← lift (get_mask inotify);
    _ ← Inotify.AddMask mask;
    size ← lift (get_size inotify);
    _ ← Inotify.AddSize size;
    inotify_offset ← Inotify.End_;
    _ ← SurveillanceEvent.Start;
    _ ← SurveillanceEvent.AddEventType Surveillance.Inotify;
    _ ← SurveillanceEvent.AddEvent inotify_offset;
    off ← SurveillanceEvent.End_;
    mret [off]
  else if event_is (sv_event surv) WATCH_SOCKET then
    let socket := sv_ptr_event surv in
    _ ← TCPSocket.Start;
    port ← lift (get_destport socket);
    _ ← TCPSocket.AddDestport port;
    socket_offset ← TCPSocket.End_;
    _ ← SurveillanceEvent.Start;
    _ ← SurveillanceEvent.AddEventType Surveillance.TCPSocket;
    _ ← SurveillanceEvent.AddEvent socket_offset;
    off ← SurveillanceEvent.End_;
    mret [off]
  else mret [].

Definition send_command_to_demon (cmd : Command) : res BufferInfo :=
  b ← Builder 1024;
  run (
    args_offsets ← mapM CreateString (cmd_args cmd);
    envp_offsets ← mapM CreateString (cmd_envp cmd);
    path_offset ← CreateString (cmd_path cmd);
    surveillance_offsets ← collect add_surveillance (cmd_to_watch cmd);
    _ ← RunCommand.RunCommandStartArgsVector (Z.of_nat (length args_offsets));
    _ ← for_each (reverse args_offsets) PrependUOffsetTRelative;
    args_vector ← EndVector;
    _ ← RunCommand.RunCommandStartEnvpVector (Z.of_nat (length envp_offsets));
    _ ← for_each (reverse envp_offsets) PrependUOffsetTRelative;
    envp_vector ← EndVector;
    _ ← RunCommand.RunCommandStartToWatchVector (Z.of_nat (length surveillance_offsets));
    _ ← for_each (reverse surveillance_offsets) PrependUOffsetTRelative;
    surveillance_vector ← EndVector;
    _ ← RunCommand.Start;
    _ ← RunCommand.AddPath path_offset;
    _ ← RunCommand.AddArgs args_vector;
    _ ← RunCommand.AddEnvp envp_vector;
    _ ← RunCommand.AddFlags (cmd_flags cmd);
    _ ← RunCommand.AddStackSize (cmd_stack_size cmd);
    _ ← RunCommand.AddToWatch surveillance_vector;
    run_command ← RunCommand.End_;
    _ ← Message.Start;
    _ ← Message.AddEventsType Event.RunCommand;
    _ ← Message.AddEvents run_command;
    message ← Message.End_;
    finish_message message) b.

Definition send_kill_to_demon (pid : Z) : res BufferInfo :=
  b ← Builder 1024;
  run (
    _ ← KillProcess.Start;
    _ ← KillProcess.AddPid pid;
    kill_process ← KillProcess.End_;
    _ ← Message.Start;
    _ ← Message.AddEventsType Event.KillProcess;
    _ ← Message.AddEvents kill_process;
    message ← Message.End_;
    finish_message message) b.

(** [try: return m] / [except Exception as e: print(...); return None]. *)
Definition try_send (m : st builder BufferInfo) (b : builder) : option BufferInfo :=
  catch_all (Some <$> run m b) None.

Definition send_processlaunched_to_user (pid : Z) : res (option BufferInfo) :=
  b ← Builder 1024;
  mret (try_send (
    _ ← ProcessLaunched.Start;
    _ ← ProcessLaunched.AddPid pid;
    process_launched ← ProcessLaunched.End_;
    _ ← Message.Start;
    _ ← Message.AddEventsType Event.ProcessLaunched;
    _ ← Message.AddEvents process_launched;
    message ← Message.End_;
    finish_message message) b).

Definition send_childcreationerror_to_user (error_code : Z) : res (option BufferInfo) :=
  b ← Builder 1024;
  mret (try_send (
    _ ← ChildCreationError.Start;
    _ ← ChildCreationError.AddErrorCode error_code;
    child_creation_error ← ChildCreationError.End_;
    _ ← Message.Start;
    _ ← Message.AddEventsType Event.ChildCreationError;
    _ ← Message.AddEvents child_creation_error;
    message ← Message.End_;
    finish_message message) b).

Definition send_processterminated_to_user (pid error_code : Z) : res (option BufferInfo) :=
  b ← Builder 1024;
  mret (try_send (
    _ ← ProcessTerminated.Start;
    _ ← ProcessTerminated.AddPid pid;
    _ ← ProcessTerminated.AddErrorCode error_code;
    process_terminated ← ProcessTerminated.End_;
    _ ← Message.Start;
    _ ← Message.AddEventsType Event.ProcessTerminated;
    _ ← Message.AddEvents process_terminated;
    message ← Message.End_;
    finish_message message) b).

Definition send_tcpsocketlistening_to_user (port : Z) : res (option BufferInfo) :=
  b ← Builder 1024;
  mret (try_send (
    _ ← TCPSocketListening.Start;
    _ ← TCPSocketListening.AddPort port;
    tcp_socket_listening ← TCPSocketListening.End_;
    _ ← Message.Start;
    _ ← Message.AddEventsType Event.TCPSocketListening;
    _ ← Message.AddEvents tcp_socket_listening;
    message ← Message.End_;
    finish_message message) b).

(** The names bound in the package [demon] once [serialization.py] has run its
    imports ([demon/__init__.py] is empty): one submodule each. *)
Definition demon_namespace : list string :=
  ["ExecveTerminated"; "RunCommand"; "Message"; "KillProcess"; "ProcessLaunched";
   "ChildCreationError"; "ProcessTerminated"; "TCPSocketListening"; "InotifyPathUpdated";
   "InotifyWatchListUpdated"; "SocketWatched"; "SocketWatchTerminated"; "Event";
   "Inotify"; "Surveillance"; "TCPSocket"; "SurveillanceEvent"]%string.

(** [demon.name]: a module object, or [AttributeError]. *)
Definition demon_getattr (name : string) : res unit :=
  if bool_decide (name ∈ demon_namespace) then Ok tt else Err (AttributeError name).

(** [demon.name(...)]: a module object is not callable. *)
Definition demon_call {A} (name : string) : res A :=
  _ ← demon_getattr name; Err TypeError.

Definition send_inotifypathupdated_to_user (inotify : InotifyPathUpdated)
    : res (option BufferInfo) :=
  b ← Builder 1024;
  mret (try_send (
    path_str ← CreateString (pu_path inotify);
    _ ← InotifyPathUpdated.Start;
    _ ← InotifyPathUpdated.AddPath path_str;
    trigger ← lift (demon_call "InotifyEvent");
    _ ← InotifyPathUpdated.AddTriggerEvents trigger;
    _ ← InotifyPathUpdated.AddSize (pu_size inotify);
    _ ← InotifyPathUpdated.AddSizeLimit (pu_size_limit inotify);
    inotify_path_updated ← InotifyPathUpdated.End_;
    _ ← Message.Start;
    _ ← Message.AddEventsType Event.InotifyPathUpdated;
    _ ← Message.AddEvents inotify_path_updated;
    message ← Message.End_;
    finish_message message) b).

Definition send_inotifywatchlistupdated_to_user (path : pystr) : res (option BufferInfo) :=
  b ← Builder 1024;
  mret (try_send (
    path_str ← CreateString path;
    _ ← InotifyWatchListUpdated.Start;
    _ ← InotifyWatchListUpdated.AddPath path_str;
    inotify_watch_list_updated ← InotifyWatchListUpdated.End_;
    _ ← Message.Start;
    _ ← Message.AddEventsType Event.InotifyWatchListUpdated;
    _ ← Message.AddEvents inotify_watch_list_updated;
    message ← Message.End_;
    finish_message message) b).

Definition send_socketwatched_to_user (port : Z) : res (option BufferInfo) :=
  b ← Builder 1024;
  mret (try_send (
    _ ← SocketWatched.Start;
    _ ← SocketWatched.AddPort port;
    socket_watched ← SocketWatched.End_;
    _ ← Message.Start;
    _ ← Message.AddEventsType Event.SocketWatched;
    _ ← Message.AddEvents socket_watched;
    message ← Message.End_;
    finish_message message) b).

(** [demon.CreateSocketWatchTerminated(builder, socket_info.port,
    demon.SocketState(socket_info.state.value))]: the function is looked up
    first, then the arguments are evaluated, then it is called. *)
Definition call_CreateSocketWatchTerminated (socket_info : SocketWatchInfo) : st builder Z :=
  _ ← lift (demon_getattr "CreateSocketWatchTerminated");
  state ← lift (demon_call (A := Z) "SocketState");
  lift (demon_call "CreateSocketWatchTerminated").

Definition send_socketwatchterminated_to_user (socket_info : SocketWatchInfo)
    : res (option BufferInfo) :=
  b ← Builder 1024;
  mret (try_send (
    socket_watch_terminated ← call_CreateSocketWatchTerminated socket_info;
    _ ← Message.Start;
    _ ← Message.AddEventsType Event.SocketWatchTerminated;
    _ ← Message.AddEvents socket_watch_terminated;
    message ← Message.End_;
    finish_message message) b).
End send.
