(* ===== verification/Receive.v ===== *)
(** * Deserialization: the [receive_*] functions of [tests_python/serialization.py]

    Each function guards against an empty buffer, then decodes inside a [try]
    block whose handler returns a fixed value.  Console output is left out. *)
From S2P Require Import Prelude Bytes Utf8 FlatBuffers Enums Tables Data.

(** [not buffer or size <= 0] *)
Definition no_input (buffer : bytes) (size : Z) : bool :=
  bool_decide (buffer = []) || (size <=? 0).

(** [x.decode('utf-8')] where an accessor returned [x]: [None] has no such
    attribute. *)
Definition decode_field (x : option bytes) : res pystr :=
  match x with Some bs => decode bs | None => Err (AttributeError "decode") end.

(** [x.Bytes], [x.Pos] where [Events()] returned [x]. *)
Definition get_table (x : option Table) : res Table :=
  match x with Some t => Ok t | None => Err (AttributeError "Bytes") end.

Section receive.
Context `{FB : FlatBuffers}.

(** [message.Events().Bytes, message.Events().Pos] *)
Definition events_location (message : Message.Message) : res (bytes * Z) :=
  e1 ← Message.Events message; t1 ← get_table e1;
  e2 ← Message.Events message; t2 ← get_table e2;
  mret (tab_Bytes t1, tab_Pos t2).

Definition receive_kill (buffer : bytes) (size : Z) : Z :=
  if no_input buffer size then -1
  else catch_all (
    message ← Message.GetRootAsMessage buffer 0;
    ty ← Message.EventsType message;
    if negb (ty =? Event.KillProcess) then mret (-1)
    else
      loc ← events_location message;
      let kill_process := KillProcess.Init loc.1 loc.2 in
      KillProcess.Pid kill_process) (-1).

Definition receive_message_from_user (buffer : bytes) (size : Z) : pyret Event :=
  if no_input buffer size then RObj NONE
  else catch_all (
    message ← Message.GetRootAsMessage buffer 0;
    ty1 ← Message.EventsType message;
    if ty1 =? Event.RunCommand then mret (RObj RUN_COMMAND)
    else
      ty2 ← Message.EventsType message;
      if ty2 =? Event.KillProcess then mret (RObj KILL_PROCESS)
      else mret (RObj NONE)) (RInt (-1)).

Definition receive_execveterminated (buffer : bytes) (size : Z) : option ExecveInfo :=
  if no_input buffer size then None
  else catch_all (
    message ← Message.GetRootAsMessage buffer 0;
    ty ← Message.EventsType message;
    if negb (ty =? Event.ExecveTerminated) then mret None
    else
      loc ← events_location message;
      let execve_terminated := ExecveTerminated.Init loc.1 loc.2 in
      pid ← ExecveTerminated.Pid execve_terminated;
      name ← ExecveTerminated.CommandName execve_terminated;
      command_name ← decode_field name;
      success ← ExecveTerminated.Success execve_terminated;
      mret (Some (mkExecveInfo pid command_name success))) None.

Definition receive_processlaunched (buffer : bytes) (size : Z) : Z :=
  if no_input buffer size then -1
  else catch_all (
    message ← Message.GetRootAsMessage buffer 0;
    ty ← Message.EventsType message;
    if negb (ty =? Event.ProcessLaunched) then mret (-1)
    else
      loc ← events_location message;
      let process_launched := ProcessLaunched.Init loc.1 loc.2 in
      ProcessLaunched.Pid process_launched) (-1).

Definition receive_childcreationerror (buffer : bytes) (size : Z) : Z :=
  if no_input buffer size then -1
  else catch_all (
    message ← Message.GetRootAsMessage buffer 0;
    ty ← Message.EventsType message;
    if negb (ty =? Event.ChildCreationError) then mret (-1)
    else
      loc ← events_location message;
      let child_creation_error := ChildCreationError.Init loc.1 loc.2 in
      ChildCreationError.ErrorCode child_creation_error) (-1).

Definition receive_processterminated (buffer : bytes) (size : Z)
    : pyret ProcessTerminatedInfo :=
  if no_input buffer size then RNone
  else catch_all (
    message ← Message.GetRootAsMessage buffer 0;
    ty ← Message.EventsType message;
    if negb (ty =? Event.ProcessTerminated) then mret RNone
    else
      loc ← events_location message;
      let process_terminated := ProcessTerminated.Init loc.1 loc.2 in
      pid ← ProcessTerminated.Pid process_terminated;
      error_code ← ProcessTerminated.ErrorCode process_terminated;
      mret (RObj (mkProcessTerminatedInfo pid error_code))) (RInt (-1)).

Definition receive_TCPSocketListening (buffer : bytes) (size : Z) : Z :=
  if no_input buffer size then -1
  else catch_all (
    message ← Message.GetRootAsMessage buffer 0;
    actual_type ← Message.EventsType message;
    ty ← Message.EventsType message;
    if negb (ty =? Event.TCPSocketListening) then mret (-1)
    else
      loc ← events_location message;
      let tcp_socket_listening := TCPSocketListening.Init loc.1 loc.2 in
      TCPSocketListening.Port tcp_socket_listening) (-1).

Definition receive_inotifypathupdated (buffer : bytes) (size : Z)
    : option InotifyPathUpdated :=
  if no_input buffer size then None
  else catch_all (
    message ← Message.GetRootAsMessage buffer 0;
    actual_type ← Message.EventsType message;
    ty ← Message.EventsType message;
    if negb (ty =? Event.InotifyPathUpdated) then mret None
    else
      loc ← events_location message;
      let inotify_path_updated := InotifyPathUpdated.Init loc.1 loc.2 in
      p ← InotifyPathUpdated.Path inotify_path_updated;
      path ← decode_field p;
      trigger ← InotifyPathUpdated.TriggerEvents inotify_path_updated;
      event ← InotifyEvent_of trigger;
      size ← InotifyPathUpdated.Size inotify_path_updated;
      size_limit ← InotifyPathUpdated.SizeLimit inotify_path_updated;
      mret (Some (mkInotifyPathUpdated path event size size_limit))) None.

Definition receive_inotifywatchlistupdated (buffer : bytes) (size : Z) : option pystr :=
  if no_input buffer size then None
  else catch_all (
    message ← Message.GetRootAsMessage buffer 0;
    actual_type ← Message.EventsType message;
    ty ← Message.EventsType message;
    if negb (ty =? Event.InotifyWatchListUpdated) then mret None
    else
      loc ← events_location message;
      let inotify_watch_list_updated := InotifyWatchListUpdated.Init loc.1 loc.2 in
      p ← InotifyWatchListUpdated.Path inotify_watch_list_updated;
      path ← decode_field p;
      mret (Some path)) None.

Definition receive_socketwatched (buffer : bytes) (size : Z) : Z :=
  if no_input buffer size then -1
  else catch_all (
    message ← Message.GetRootAsMessage buffer 0;
    actual_type ← Message.EventsType message;
    ty ← Message.EventsType message;
    if negb (ty =? Event.SocketWatched) then mret (-1)
    else
      loc ← events_location message;
      let socket_watched := SocketWatched.Init loc.1 loc.2 in
      SocketWatched.Port socket_watched) (-1).

Definition receive_socketwatchterminated (buffer : bytes) (size : Z)
    : option SocketWatchInfo :=
  if no_input buffer size then None
  else catch_all (
    message ← Message.GetRootAsMessage buffer 0;
    actual_type ← Message.EventsType message;
    ty ← Message.EventsType message;
    if negb (ty =? Event.SocketWatchTerminated) then mret None
    else
      loc ← events_location message;
      let socket_watch_terminated := SocketWatchTerminated.Init loc.1 loc.2 in
      port ← SocketWatchTerminated.Port socket_watch_terminated;
      s ← SocketWatchTerminated.State socket_watch_terminated;
      state ← SocketState_of s;
      mret (Some (mkSocketWatchInfo port state))) None.

(** The dictionary [event_map]. *)
Definition event_map : gmap Z Event :=
  list_to_map [
    (Event.ProcessLaunched, PROCESS_LAUNCHED);
    (Event.ChildCreationError, CHILD_CREATION_ERROR);
    (Event.ProcessTerminated, PROCESS_TERMINATED);
    (Event.TCPSocketListening, TCP_SOCKET_LISTENING);
    (Event.InotifyPathUpdated, INOTIFY_PATH_UPDATED);
    (Event.InotifyWatchListUpdated, INOTIFY_WATCH_LIST_UPDATED);
    (Event.SocketWatched, SOCKET_WATCHED);
    (Event.SocketWatchTerminated, SOCKET_WATCH_TERMINATED);
    (Event.ExecveTerminated, EXECVE_TERMINATED)].

Definition receive_message_from_demon (buffer : bytes) (size : Z) : pyret Event :=
  if no_input buffer size then RObj NONE
  else catch_all (
    message ← Message.GetRootAsMessage buffer 0;
    ty ← Message.EventsType message;
    mret (RObj (default NONE (event_map !! ty)))) (RInt (-1)).
End receive.
