(* ===== verification/ReceiveCommand.v ===== *)
(** * [receive_command] of [tests_python/serialization.py]

    This function calls methods by name on objects whose class does not always
    have them, so it is modelled over dynamically typed values: a method call
    looks the name up in the class of the object ([AttributeError] when it is
    not there) and checks the number of arguments ([TypeError]). *)
From S2P Require Import Prelude Bytes Utf8 FlatBuffers Enums Tables Data Receive.

#[local] Set Warnings "-register-all".

Section receive_command.
Context `{FB : FlatBuffers}.

(** The Python values the function handles. *)
Inductive pyval : Type :=
  | VNone
  | VInt (z : Z)
  | VBool (b : bool)
  | VBytes (bs : bytes)
  | VStr (s : pystr)
  | VList (l : list pyval)
  | VTable (t : Table)
  | VRunCommand (r : RunCommand.RunCommand)
  | VSurveillanceEvent (s : SurveillanceEvent.SurveillanceEvent).

Definition of_opt_bytes (x : option bytes) : pyval := from_option VBytes VNone x.
Definition of_item (x : bytes + pystr) : pyval :=
  match x with inl bs => VBytes bs | inr s => VStr s end.
Definition of_opt_event (x : option SurveillanceEvent.SurveillanceEvent) : pyval :=
  from_option VSurveillanceEvent VNone x.

(** A method: its number of arguments (after [self]) and its body. *)
Definition pymethod : Type := (nat * (list Z -> res pyval))%type.

Definition method0 (v : res pyval) : pymethod := (0%nat, fun _ => v).
Definition method1 (f : Z -> res pyval) : pymethod :=
  (1%nat, fun args => match args with [j] => f j | _ => Err TypeError end).

(** The accessors of class [RunCommand], by name. *)
Definition RunCommand_methods (r : RunCommand.RunCommand) : list (string * pymethod) :=
  [("Path", method0 (of_opt_bytes <$> RunCommand.Path r));
   ("Args", method1 (fun j => of_item <$> RunCommand.Args r j));
   ("ArgsLength", method0 (VInt <$> RunCommand.ArgsLength r));
   ("ArgsIsNone", method0 (VBool <$> RunCommand.ArgsIsNone r));
   ("Envp", method1 (fun j => of_item <$> RunCommand.Envp r j));
   ("EnvpLength", method0 (VInt <$> RunCommand.EnvpLength r));
   ("EnvpIsNone", method0 (VBool <$> RunCommand.EnvpIsNone r));
   ("Flags", method0 (VInt <$> RunCommand.Flags r));
   ("StackSize", method0 (VInt <$> RunCommand.StackSize r));
   ("ToWatch", method1 (fun j => of_opt_event <$> RunCommand.ToWatch r j));
   ("ToWatchLength", method0 (VInt <$> RunCommand.ToWatchLength r));
   ("ToWatchIsNone", method0 (VBool <$> RunCommand.ToWatchIsNone r))]%string.

(** The accessors of class [SurveillanceEvent]. *)
Definition SurveillanceEvent_methods (s : SurveillanceEvent.SurveillanceEvent)
    : list (string * pymethod) :=
  [("EventType", method0 (VInt <$> SurveillanceEvent.EventType s));
   ("Event", method0 (from_option VTable VNone <$> SurveillanceEvent.Event s))]%string.

(** Of the names the function calls, [flatbuffers.table.Table] has one: its
    [Get] takes two arguments, so no call of the function gets into its body. *)
Definition Table_methods : list (string * pymethod) :=
  [("Get", (2%nat, fun _ => Err TypeError))]%string.

(** The methods of an object; the values of the other classes have none of the
    names the function calls. *)
Definition methods_of (v : pyval) : list (string * pymethod) :=
  match v with
  | VRunCommand r => RunCommand_methods r
  | VSurveillanceEvent s => SurveillanceEvent_methods s
  | VTable _ => Table_methods
  | _ => []
  end.

Fixpoint find_method (name : string) (l : list (string * pymethod)) : option pymethod :=
  match l with
  | [] => None
  | (n, m) :: l' => if bool_decide (n = name) then Some m else find_method name l'
  end.

(** [v.name(args)] *)
Definition call (v : pyval) (name : string) (args : list Z) : res pyval :=
  match find_method name (methods_of v) with
  | None => Err (AttributeError name)
  | Some (n, f) => if bool_decide (length args = n) then f args else Err TypeError
  end.

(** [v.decode('utf-8')], [for x in v], [range(v)], [if v], [v == z], and the
    integers put in fields declared [int] (which the accessors always give). *)
Definition py_decode (v : pyval) : res pystr :=
  match v with VBytes bs => decode bs | _ => Err (AttributeError "decode") end.
Definition py_iter (v : pyval) : res (list pyval) :=
  match v with
  | VList l => Ok l
  | VBytes bs => Ok (VInt ∘ byte_val <$> bs)
  | VStr s => Ok ((fun c => VStr [c]) <$> s)
  | _ => Err TypeError
  end.
Definition py_range (v : pyval) : res (list Z) :=
  match v with VInt n => Ok (seqZ 0 n) | _ => Err TypeError end.
Definition py_truth (v : pyval) : bool :=
  match v with
  | VNone => false
  | VInt z => negb (z =? 0)
  | VBool b => b
  | VBytes bs => negb (bool_decide (bs = []))
  | VStr s => negb (bool_decide (s = []))
  | VList l => match l with [] => false | _ => true end
  | _ => true
  end.
Definition py_eq_int (v : pyval) (z : Z) : bool :=
  match v with VInt z' => z' =? z | VBool b => Z.b2z b =? z | _ => false end.
Definition py_int (v : pyval) : res Z :=
  match v with VInt z => Ok z | _ => Err TypeError end.

(** The body of [for i in range(surveillances.Length())]: what it appends to
    [final_command.to_watch].  The attribute [event] gets a string. *)
Definition receive_surveillance (surveillances : pyval) (i : Z) : res (list Surveillance) :=
  surveillance_event ← call surveillances "Get" [i];
  ty1 ← call surveillance_event "EventType" [];
  if py_eq_int ty1 Surveillance.Inotify then
    inotify_event ← call surveillance_event "Event" [];
    rp ← call inotify_event "RootPaths" [];
    root_paths ← py_decode rp;
    m ← call inotify_event "Mask" [];
    mask ← py_int m;
    s ← call inotify_event "Size" [];
    size ← py_int s;
    mret [mkSurveillance (EvStr (str "INOTIFY"))
            (PInotify (mkInotifyParameters root_paths mask size))]
  else
    ty2 ← call surveillance_event "EventType" [];
    if py_eq_int ty2 Surveillance.TCPSocket then
      socket_event ← call surveillance_event "Event" [];
      d ← call socket_event "Destport" [];
      port ← py_int d;
      mret [mkSurveillance (EvStr (str "WATCH_SOCKET")) (PTCPSocket (mkTCPSocket port))]
    else mret [].

(** [[x.decode('utf-8') for x in run_command.name()]] *)
Definition decode_all (v : pyval) (name : string) : res (list pystr) :=
  l ← call v name [];
  items ← py_iter l;
  mapM py_decode items.

(** The inner [try] block. *)
Definition read_command (run_command : pyval) : res (option Command) :=
  p ← call run_command "Path" [];
  path ← py_decode p;
  args ← decode_all run_command "ArgsAsNumpy";
  envp ← decode_all run_command "EnvpAsNumpy";
  f ← call run_command "Flags" [];
  flags ← py_int f;
  s ← call run_command "StackSize" [];
  stack_size ← py_int s;
  surveillances ← call run_command "ToWatch" [];
  to_watch ←
    (if py_truth surveillances then
       n ← call surveillances "Length" [];
       indices ← py_range n;
       ws ← mapM (receive_surveillance surveillances) indices;
       mret (concat ws)
     else mret []);
  mret (Some (mkCommand path args envp flags stack_size to_watch)).

Definition receive_command (buffer : bytes) (size : Z) : option Command :=
  if no_input buffer size then None
  else catch_all (
    message ← Message.GetRootAsMessage buffer 0;
    ty ← Message.EventsType message;
    if negb (ty =? Event.RunCommand) then mret None
    else
      loc ← events_location message;
      let run_command := VRunCommand (RunCommand.Init loc.1 loc.2) in
      mret (catch_all (read_command run_command) None)) None.
End receive_command.
