(* ===== verification/BuilderLogic.v ===== *)
(** * Total-correctness rules for builder programs

    [runs m v Q]: from any builder whose view is [v], the program [m] does not
    raise, and ends with a value and a view that satisfy [Q].  One rule for each
    operation of the runtime, derived from its law, and a tactic that runs a
    straight-line program through them. *)
From S2P Require Import Prelude Bytes Utf8 FlatBuffers Enums Tables.

(** A builder of type [S] whose states have a view: the builder of the Python
    runtime, and those of the native libraries (NativeBuilder). *)
Class Viewed (S : Type) : Type := views : S -> view -> Prop.

(** ** Programs over any builder *)
Section programs.
Context {S : Type} {V : Viewed S}.

Definition runs {A} (m : st S A) (v : view) (Q : A -> view -> Prop) : Prop :=
  forall b, views b v -> exists a b' v', m b = Ok (a, b') /\ views b' v' /\ Q a v'.

Lemma runs_ret {A} (a : A) v (Q : A -> view -> Prop) : Q a v -> runs (mret a) v Q.
Proof. intros HQ b Hb. by exists a, b, v. Qed.

Lemma runs_bind {A B} (m : st S A) (f : A -> st S B) v R Q :
  runs m v R -> (forall a v', R a v' -> runs (f a) v' Q) -> runs (m ≫= f) v Q.
Proof.
  intros Hm Hf b Hb. destruct (Hm b Hb) as (a & b1 & v1 & E & Hb1 & HR).
  destruct (Hf a v1 HR b1 Hb1) as (c & b2 & v2 & E2 & Hb2 & HQ).
  exists c, b2, v2. unfold mbind, st_bind. by rewrite E.
Qed.

(** A program inlined in another. *)
Lemma runs_assoc {A B C} (m : st S A) (f : A -> st S B) (g : B -> st S C) v Q :
  runs (m ≫= fun a => f a ≫= g) v Q -> runs ((m ≫= f) ≫= g) v Q.
Proof.
  intros H b Hb. destruct (H b Hb) as (c & b' & v' & E & H'). exists c, b', v'. split; [|exact H'].
  unfold mbind, st_bind in *. by destruct (m b) as [[a b1]|].
Qed.

Lemma runs_ext {A} (m m' : st S A) v Q : (forall b, m b = m' b) -> runs m v Q -> runs m' v Q.
Proof. intros E H b Hb. rewrite <- E. exact (H b Hb). Qed.

Lemma runs_conseq {A} (m : st S A) v (R Q : A -> view -> Prop) :
  runs m v R -> (forall a v', R a v' -> Q a v') -> runs m v Q.
Proof. intros Hm HR b Hb. destruct (Hm b Hb) as (a & b' & v' & ? & ? & ?). eauto 10. Qed.

Lemma runs_lift {A} (r : res A) a v :
  r = Ok a -> runs (lift r) v (fun a' v' => a' = a /\ v' = v).
Proof. intros -> b Hb. by exists a, b, v. Qed.

(** [raises m v]: from any builder whose view is [v], the program raises. *)
Definition raises {A} (m : st S A) (v : view) : Prop :=
  forall b, views b v -> exists e, m b = Err e.

Lemma raises_here {A B} (m : st S A) (f : A -> st S B) v :
  raises m v -> raises (m ≫= f) v.
Proof. intros Hm b Hb. destruct (Hm b Hb) as [e E]. exists e. unfold mbind, st_bind. by rewrite E. Qed.

Lemma raises_later {A B} (m : st S A) (f : A -> st S B) v R :
  runs m v R -> (forall a v', R a v' -> raises (f a) v') -> raises (m ≫= f) v.
Proof.
  intros Hm Hf b Hb. destruct (Hm b Hb) as (a & b1 & v1 & E & Hb1 & HR).
  destruct (Hf a v1 HR b1 Hb1) as [e E']. exists e. unfold mbind, st_bind. by rewrite E.
Qed.

Lemma raises_lift {A} (r : res A) v e : r = Err e -> raises (lift r) v.
Proof. intros -> b _. by exists e. Qed.
End programs.

(** ** Postconditions *)

(** The slots of a table after [PrependSlot ty i v 0]. *)
Definition put_scalar (ty : scalar) (i v : Z) (slots : gmap Z slot) : gmap Z slot :=
  if v =? 0 then slots else <[i := Scalar ty v]> slots.

(** What an operation that stays in the same object does to the size. *)
Definition grows (k : Z) (h : gmap Z obj) (m : mode) (sz : Z) (v : view) : Prop :=
  exists sz', v = mkView h m sz' /\ sz <= sz' <= sz + k.

(** A new object [o] was added to the heap. *)
Definition allocates (k : Z) (h : gmap Z obj) (o : obj) (sz : Z) (off : Z) (v : view) : Prop :=
  exists h' sz', v = mkView h' Idle sz' /\ h ⊆ h' /\ h' !! off = Some o /\ sz <= sz' <= sz + k.

Lemma allocates_insert k h o sz off sz' :
  h !! off = None -> sz <= sz' <= sz + k ->
  allocates k h o sz off (mkView (<[off := o]> h) Idle sz').
Proof.
  intros Hn Hs. exists (<[off := o]> h), sz'.
  split_and!; [done | by apply insert_subseteq | apply lookup_insert_eq | lia | lia].
Qed.

(** ** The Python runtime *)
Section runs.
Context {FB : FlatBuffers} {FBL : FlatBuffersLaws FB}.

#[global] Instance builder_viewed : Viewed builder := has_view.

Lemma runs_CreateString h sz s bs :
  utf8_encode s = Some bs -> sz + blen bs + op_cost <= max_buffer_size ->
  runs (CreateString s) (mkView h Idle sz) (allocates (blen bs + op_cost) h (OString bs) sz).
Proof.
  intros Hs Hle b Hb.
  destruct (law_CreateString b h sz s bs Hb Hs Hle) as (off & b' & sz' & ? & ? & ? & ? & ?).
  eexists off, b', _. split_and!; [done..|]. apply allocates_insert; [done | lia].
Qed.

Lemma runs_StartObject h sz n :
  valid_nfields n -> runs (StartObject n) (mkView h Idle sz) (fun _ => grows 0 h (InObject n ∅) sz).
Proof.
  intros Hn b Hb. destruct (law_StartObject b h sz n Hb Hn) as (b' & ? & ?).
  eexists tt, b', _. split_and!; [done..|]. exists sz. split; [done | lia].
Qed.

Lemma runs_PrependSlot h sz n slots t i x :
  in_range t x = true -> 0 <= i < n -> sz + op_cost <= max_buffer_size ->
  runs (PrependSlot t i x 0) (mkView h (InObject n slots) sz)
    (fun _ => grows op_cost h (InObject n (put_scalar t i x slots)) sz).
Proof.
  intros Hr Hi Hle b Hb. unfold put_scalar. destruct (Z.eqb_spec x 0) as [->|Hne].
  - destruct (law_PrependSlot_default b h sz n slots t i 0 Hb Hr) as (b' & ? & ?).
    eexists tt, b', _. split_and!; [done..|]. exists sz. unfold op_cost. split; [done | lia].
  - destruct (law_PrependSlot b h sz n slots t i x 0 Hb Hne Hr Hi Hle) as (b' & sz' & ? & ? & ?).
    eexists tt, b', _. split_and!; [done..|]. by exists sz'.
Qed.

Lemma runs_PrependUOffsetTRelativeSlot h sz n slots i off :
  is_Some (h !! off) -> 0 <= i < n -> sz + op_cost <= max_buffer_size ->
  runs (PrependUOffsetTRelativeSlot i (UOffsetT_py_type off) 0) (mkView h (InObject n slots) sz)
    (fun _ => grows op_cost h (InObject n (<[i := Ref off]> slots)) sz).
Proof.
  intros Ho Hi Hle b Hb. rewrite law_py_type.
  destruct (law_PrependUOffsetTRelativeSlot b h sz n slots i off Hb Ho Hi Hle)
    as (b' & sz' & ? & ? & ?).
  eexists tt, b', _. split_and!; [done..|]. by exists sz'.
Qed.

Lemma runs_EndObject h sz n slots :
  sz + 8 * n + op_cost <= max_buffer_size ->
  runs EndObject (mkView h (InObject n slots) sz)
    (allocates (8 * n + op_cost) h (OTable n slots) sz).
Proof.
  intros Hle b Hb.
  destruct (law_EndObject b h sz n slots Hb Hle) as (off & b' & sz' & ? & ? & ? & ? & ?).
  eexists off, b', _. split_and!; [done..|]. apply allocates_insert; [done | lia].
Qed.

Lemma runs_StartVector h sz n :
  0 <= n -> sz + op_cost <= max_buffer_size ->
  runs (StartVector 4 n 4) (mkView h Idle sz) (fun _ => grows op_cost h (InVector n []) sz).
Proof.
  intros Hn Hle b Hb. destruct (law_StartVector b h sz n Hb Hn Hle) as (r & b' & sz' & ? & ? & ?).
  eexists r, b', _. split_and!; [done..|]. by exists sz'.
Qed.

Lemma runs_PrependUOffsetTRelative h sz n refs off :
  is_Some (h !! off) -> Z.of_nat (length refs) < n -> sz + op_cost <= max_buffer_size ->
  runs (PrependUOffsetTRelative off) (mkView h (InVector n refs) sz)
    (fun _ => grows op_cost h (InVector n (off :: refs)) sz).
Proof.
  intros Ho Hn Hle b Hb.
  destruct (law_PrependUOffsetTRelative b h sz n refs off Hb Ho Hn Hle) as (b' & sz' & ? & ? & ?).
  eexists tt, b', _. split_and!; [done..|]. by exists sz'.
Qed.

Lemma runs_EndVector h sz n refs :
  Z.of_nat (length refs) = n -> sz + op_cost <= max_buffer_size ->
  runs EndVector (mkView h (InVector n refs) sz) (allocates op_cost h (OVector refs) sz).
Proof.
  intros Hn Hle b Hb.
  destruct (law_EndVector b h sz n refs Hb Hn Hle) as (off & b' & sz' & ? & ? & ? & ? & ?).
  eexists off, b', _. split_and!; [done..|]. by apply allocates_insert.
Qed.

Lemma runs_Finish h sz root :
  is_Some (h !! root) -> sz + op_cost <= max_buffer_size ->
  runs (Finish root) (mkView h Idle sz) (fun _ => grows op_cost h (Finished root) sz).
Proof.
  intros Hr Hle b Hb. destruct (law_Finish b h sz root Hb Hr Hle) as (b' & sz' & ? & ? & ?).
  eexists tt, b', _. split_and!; [done..|]. by exists sz'.
Qed.

Lemma runs_Output h sz root :
  runs Output (mkView h (Finished root) sz)
    (fun buf _ => 0 < blen buf <= sz /\ buffer_image h root buf).
Proof.
  intros b Hb. destruct (law_Output b h sz root Hb) as (buf & b' & ? & ? & ?).
  by eexists buf, b', _.
Qed.

Lemma in_range_0 t : in_range t 0 = true.
Proof. by destruct t. Qed.

Lemma raises_PrependSlot t i x v : in_range t x = false -> raises (PrependSlot t i x 0) v.
Proof.
  intros Hr b _. apply law_PrependSlot_range; [|done].
  intros ->. by rewrite in_range_0 in Hr.
Qed.

Lemma raises_CreateString s v : utf8_encode s = None -> raises (CreateString s) v.
Proof. intros Hs b _. by apply law_CreateString_unencodable. Qed.

Lemma raises_Builder {A} (m : st builder A) :
  raises m (mkView ∅ Idle 0) -> exists b e, Builder 1024 = Ok b /\ run m b = Err e.
Proof.
  intros Hm. destruct (law_Builder 1024) as (b & Hb & Hv); [unfold max_buffer_size; lia|].
  destruct (Hm b Hv) as [e E]. exists b, e. split; [done|]. unfold run. by rewrite E.
Qed.

(** Running a whole program on a fresh builder. *)
Lemma runs_Builder {A} (m : st builder A) Q :
  runs m (mkView ∅ Idle 0) Q ->
  exists b a v, Builder 1024 = Ok b /\ run m b = Ok a /\ Q a v.
Proof.
  intros Hm. destruct (law_Builder 1024) as (b & Hb & Hv); [unfold max_buffer_size; lia|].
  destruct (Hm b Hv) as (a & b' & v' & E & _ & HQ).
  exists b, a, v'. split_and!; try done. unfold run. by rewrite E.
Qed.
End runs.

(** ** Automation

    [brun] runs the next operations of a straight-line program: it applies the
    rule of the operation, proves its side conditions from the context, and
    opens its postcondition, moving what is known of the old heap to the new
    one. *)
Ltac bside :=
  first
    [ eassumption
    | reflexivity
    | unfold valid_nfields, op_cost, max_buffer_size in *; lia
    | eexists; eassumption ].

Ltac brule :=
  first
    [ eapply runs_StartObject; bside
    | eapply runs_PrependSlot; bside
    | eapply runs_PrependUOffsetTRelativeSlot; bside
    | eapply runs_EndObject; bside
    | eapply runs_StartVector; bside
    | eapply runs_EndVector; bside
    | eapply runs_Finish; bside
    | eapply runs_CreateString; bside
    | eapply runs_lift; bside
    | eapply runs_Output ].

(** Move lookups from heap [h] to a larger heap [h']. *)
Ltac heap_mono Hsub :=
  match type of Hsub with
  | ?h ⊆ ?h' =>
      repeat match goal with
      | H : h !! ?x = Some ?y |- _ =>
          apply (fun E => lookup_weaken h h' x y E Hsub) in H
      end
  end.

Ltac bpost :=
  cbv beta;
  match goal with
  | |- forall a v', grows _ _ _ _ v' -> _ =>
      let sz := fresh "sz" in let Hsz := fresh "Hsz" in
      intros ? ? (sz & -> & Hsz)
  | |- forall a v', allocates _ _ _ _ a v' -> _ =>
      let off := fresh "off" in let h := fresh "h" in let sz := fresh "sz" in
      let Hsub := fresh "Hsub" in let Hoff := fresh "Hoff" in let Hsz := fresh "Hsz" in
      intros off ? (h & sz & -> & Hsub & Hoff & Hsz); heap_mono Hsub
  | |- forall a v', a = _ /\ v' = _ -> _ => intros ? ? [-> ->]
  | _ => idtac
  end.

Ltac bstep := eapply runs_bind; [ brule | bpost ].

(** Show that a straight-line program raises: run it up to the operation that
    does. *)
Ltac braise :=
  repeat first
    [ apply raises_here; first [ by apply raises_PrependSlot | by eapply raises_lift
                               | by apply raises_CreateString ]
    | eapply raises_later; [ brule | bpost ] ].
Ltac brun := autounfold with tables; repeat bstep.
