(* ===== verification/SendFacts.v ===== *)
(** * What the buffers built by the [send_*] functions hold

    [is_message bi h tag n slots]: the buffer [bi] is an image of the heap [h],
    its root is a [Message] with the given event type, and its event is a table
    of [n] fields with the given slots. *)
From S2P Require Import Prelude Bytes Utf8 FlatBuffers Enums Tables Data Send BuilderLogic.

Section facts.
Context {FB : FlatBuffers} {FBL : FlatBuffersLaws FB}.

Definition message_slots (tag ev : Z) : gmap Z slot :=
  <[1 := Ref ev]> (put_scalar SUint8 0 tag ∅).

Definition message_image (h : gmap Z obj) (buf : bytes) (tag n : Z) (slots : gmap Z slot) : Prop :=
  exists root ev, buffer_image h root buf /\
    h !! root = Some (OTable 2 (message_slots tag ev)) /\ h !! ev = Some (OTable n slots).

Definition is_message (bi : BufferInfo) (h : gmap Z obj) (tag n : Z) (slots : gmap Z slot) : Prop :=
  bi_size bi = blen (bi_buffer bi) /\ 0 < bi_size bi <= max_buffer_size /\
  message_image h (bi_buffer bi) tag n slots.

(** The tail every function shares: the [Message] table around the event. *)
Lemma runs_message h sz tag ev n slots :
  h !! ev = Some (OTable n slots) -> in_range SUint8 tag = true -> sz + 128 <= max_buffer_size ->
  runs (_ ← Message.Start;
        _ ← Message.AddEventsType tag;
        _ ← Message.AddEvents ev;
        message ← Message.End_;
        finish_message message)
    (mkView h Idle sz)
    (fun bi _ => exists h', h ⊆ h' /\ is_message bi h' tag n slots).
Proof.
  intros Hev Htag Hsz. brun. unfold finish_message. brun.
  intros buf v [Hlen Himg]. apply runs_ret. exists h0. split; [done|].
  unfold is_message, op_cost, max_buffer_size in *. cbn.
  split_and!; [done | lia | lia |]. by exists off, ev.
Qed.

(** [builder = flatbuffers.Builder(1024)] followed by a program that runs. *)
Lemma send_runs (m : st builder BufferInfo) (P : BufferInfo -> Prop) :
  runs m (mkView ∅ Idle 0) (fun bi _ => P bi) ->
  exists bi, (b ← Builder 1024; run m b) = Ok bi /\ P bi.
Proof.
  intros H. destruct (runs_Builder m _ H) as (b & bi & v & Hb & Hm & ?).
  exists bi. by rewrite Hb, res_bind_ok.
Qed.

Lemma try_send_runs (m : st builder BufferInfo) (P : BufferInfo -> Prop) :
  runs m (mkView ∅ Idle 0) (fun bi _ => P bi) ->
  exists bi, (b ← Builder 1024; mret (try_send m b)) = Ok (Some bi) /\ P bi.
Proof.
  intros H. destruct (runs_Builder m _ H) as (b & bi & v & Hb & Hm & ?).
  exists bi. split; [|done]. unfold try_send. by rewrite Hb, res_bind_ok, Hm.
Qed.

Lemma send_raises (m : st builder BufferInfo) :
  raises m (mkView ∅ Idle 0) -> exists e, (b ← Builder 1024; run m b) = Err e.
Proof. intros (b & e & -> & He)%raises_Builder. exists e. by rewrite res_bind_ok. Qed.

Lemma try_send_raises (m : st builder BufferInfo) :
  raises m (mkView ∅ Idle 0) -> (b ← Builder 1024; mret (try_send m b)) = Ok None.
Proof. intros (b & e & -> & He)%raises_Builder. rewrite res_bind_ok. unfold try_send. by rewrite He. Qed.

(** A function that fills one event table: run up to the message, then the tail. *)
Ltac bmessage :=
  repeat first
    [ eapply runs_conseq; [eapply runs_message; bside | intros ? ? (? & _ & ?); eauto]
    | bstep ].

Definition sends (r : res (option BufferInfo)) (P : BufferInfo -> Prop) : Prop :=
  exists bi, r = Ok (Some bi) /\ P bi.

Lemma send_kill_message pid :
  in_range SInt32 pid = true ->
  exists bi, send_kill_to_demon pid = Ok bi /\
    exists h, is_message bi h Event.KillProcess 1 (put_scalar SInt32 0 pid ∅).
Proof. intros Hp. apply send_runs. bmessage. Qed.

Lemma send_processlaunched_message pid :
  in_range SInt32 pid = true ->
  sends (send_processlaunched_to_user pid) (fun bi =>
    exists h, is_message bi h Event.ProcessLaunched 1 (put_scalar SInt32 0 pid ∅)).
Proof. intros Hp. apply try_send_runs. bmessage. Qed.

Lemma send_childcreationerror_message error_code :
  in_range SUint32 error_code = true ->
  sends (send_childcreationerror_to_user error_code) (fun bi =>
    exists h, is_message bi h Event.ChildCreationError 1 (put_scalar SUint32 0 error_code ∅)).
Proof. intros Hp. apply try_send_runs. bmessage. Qed.

Lemma send_processterminated_message pid error_code :
  in_range SInt32 pid = true -> in_range SUint32 error_code = true ->
  sends (send_processterminated_to_user pid error_code) (fun bi =>
    exists h, is_message bi h Event.ProcessTerminated 2
      (put_scalar SUint32 1 error_code (put_scalar SInt32 0 pid ∅))).
Proof. intros Hp He. apply try_send_runs. bmessage. Qed.

Lemma send_tcpsocketlistening_message port :
  in_range SUint16 port = true ->
  sends (send_tcpsocketlistening_to_user port) (fun bi =>
    exists h, is_message bi h Event.TCPSocketListening 1 (put_scalar SUint16 0 port ∅)).
Proof. intros Hp. apply try_send_runs. bmessage. Qed.

Lemma send_socketwatched_message port :
  in_range SInt32 port = true ->
  sends (send_socketwatched_to_user port) (fun bi =>
    exists h, is_message bi h Event.SocketWatched 1 (put_scalar SInt32 0 port ∅)).
Proof. intros Hp. apply try_send_runs. bmessage. Qed.

(** The slots of a table whose only field is a string. *)
Definition string_table (h : gmap Z obj) (slots : gmap Z slot) (bs : bytes) : Prop :=
  exists off, slots = <[0 := Ref off]> ∅ /\ h !! off = Some (OString bs).

Lemma send_inotifywatchlistupdated_message path :
  encodable path = true -> 4 * Z.of_nat (length path) + 256 <= max_buffer_size ->
  sends (send_inotifywatchlistupdated_to_user path) (fun bi =>
    exists h slots, is_message bi h Event.InotifyWatchListUpdated 1 slots /\
      string_table h slots (enc path)).
Proof.
  intros Hp Hl. pose proof (blen_enc path Hp). pose proof (encodable_enc path Hp). apply try_send_runs. do 4 bstep.
  eapply runs_conseq; [eapply runs_message; bside |].
  intros bi v (h' & Hsub' & Hm). eexists h', _. split; [exact Hm|].
  exists off. split; [done|]. by eapply lookup_weaken.
Qed.
End facts.
