(* ===== verification/CommandFacts.v ===== *)
(** * What [send_command_to_demon] builds

    The loops of the function (one string per argument, one table per watched
    resource, one reference per vector element) by induction, then the whole
    function. *)
From S2P Require Import Prelude Bytes Utf8 FlatBuffers Enums Tables Data Send BuilderLogic.
From S2P Require Import SendFacts.

(** What a [Surveillance] asks for: the pairs of an event type and parameters of
    the matching class.  One whose [event] is a string asks for nothing. *)
Inductive watched : Type :=
  | WatchInotify (p : InotifyParameters)
  | WatchSocket (p : TCPSocket).

Definition watched_of (sv : Surveillance) : list watched :=
  match sv_event sv, sv_ptr_event sv with
  | EvType INOTIFY, PInotify p => [WatchInotify p]
  | EvType WATCH_SOCKET, PTCPSocket p => [WatchSocket p]
  | _, _ => []
  end.

(** The surveillances that can be sent: integers in the range of their field,
    text that has an encoding, and parameters of the class the event type
    announces.  One whose event is a string, which the declared type excludes, does
    not prevent the sending: it is dropped without an error ([Defects.string_events_dropped]). *)
Definition surveillance_ok (sv : Surveillance) : bool :=
  match sv_event sv, sv_ptr_event sv with
  | EvType INOTIFY, PInotify p =>
      encodable (ip_root_paths p) && in_range SInt32 (ip_mask p) && in_range SUint32 (ip_size p)
  | EvType WATCH_SOCKET, PTCPSocket p => in_range SUint32 (destport p)
  | EvStr _, _ => true
  | _, _ => false
  end.

Definition surveillance_weight (sv : Surveillance) : Z :=
  match sv_ptr_event sv with
  | PInotify p => 4 * Z.of_nat (length (ip_root_paths p)) + 256
  | PTCPSocket _ => 256
  end.

Definition string_weight (s : pystr) : Z := 4 * Z.of_nat (length s) + 32.

(** A bound on the size of the buffer of a command. *)
Definition command_weight (cmd : Command) : Z :=
  total string_weight (cmd_args cmd) + total string_weight (cmd_envp cmd) +
  string_weight (cmd_path cmd) + total surveillance_weight (cmd_to_watch cmd) + 512.

(** What the format can represent, and what fits a buffer besides. *)
Definition command_representable (cmd : Command) : bool :=
  encodable (cmd_path cmd) && forallb encodable (cmd_args cmd) &&
  forallb encodable (cmd_envp cmd) && in_range SUint32 (cmd_flags cmd) &&
  in_range SUint32 (cmd_stack_size cmd) && forallb surveillance_ok (cmd_to_watch cmd).

Definition command_ok (cmd : Command) : bool :=
  command_representable cmd && (command_weight cmd <=? max_buffer_size).

Lemma string_weight_pos s : 32 <= string_weight s.
Proof. unfold string_weight. lia. Qed.

Lemma surveillance_weight_pos sv : 256 <= surveillance_weight sv.
Proof. unfold surveillance_weight. case_match; lia. Qed.

(** ** What the heap holds afterwards *)
Definition string_at (h : gmap Z obj) (off : Z) (s : pystr) : Prop :=
  h !! off = Some (OString (enc s)).

Definition watched_at (h : gmap Z obj) (off : Z) (w : watched) : Prop :=
  match w with
  | WatchInotify p => exists o s,
      h !! off = Some (OTable 2 (message_slots Surveillance.Inotify o)) /\
      h !! o = Some (OTable 3 (put_scalar SUint32 2 (ip_size p)
                                 (put_scalar SInt32 1 (ip_mask p) (<[0 := Ref s]> ∅)))) /\
      string_at h s (ip_root_paths p)
  | WatchSocket p => exists o,
      h !! off = Some (OTable 2 (message_slots Surveillance.TCPSocket o)) /\
      h !! o = Some (OTable 1 (put_scalar SUint32 0 (destport p) ∅))
  end.

Definition command_slots (cmd : Command) (path args envp watch : Z) : gmap Z slot :=
  <[5 := Ref watch]>
    (put_scalar SUint32 4 (cmd_stack_size cmd)
       (put_scalar SUint32 3 (cmd_flags cmd)
          (<[2 := Ref envp]> (<[1 := Ref args]> (<[0 := Ref path]> ∅))))).

(** The slots of the [RunCommand] table of a command, with the objects they
    refer to. *)
Definition command_at (h : gmap Z obj) (slots : gmap Z slot) (cmd : Command) : Prop :=
  exists path args envp watch args_offs envp_offs watch_offs,
    slots = command_slots cmd path args envp watch /\
    string_at h path (cmd_path cmd) /\
    h !! args = Some (OVector args_offs) /\ Forall2 (string_at h) args_offs (cmd_args cmd) /\
    h !! envp = Some (OVector envp_offs) /\ Forall2 (string_at h) envp_offs (cmd_envp cmd) /\
    h !! watch = Some (OVector watch_offs) /\
    Forall2 (watched_at h) watch_offs (cmd_to_watch cmd ≫= watched_of).

Lemma string_at_mono h h' off s : h ⊆ h' -> string_at h off s -> string_at h' off s.
Proof. unfold string_at. eauto using lookup_weaken. Qed.

Lemma watched_at_mono h h' off w : h ⊆ h' -> watched_at h off w -> watched_at h' off w.
Proof.
  intros Hh. destruct w as [p|p]; cbn [watched_at].
  - intros (o & s & ? & ? & ?). exists o, s.
    split_and!; eauto using lookup_weaken, string_at_mono.
  - intros (o & ? & ?). exists o. eauto using lookup_weaken.
Qed.

Lemma Forall2_string_at_mono h h' offs ss :
  h ⊆ h' -> Forall2 (string_at h) offs ss -> Forall2 (string_at h') offs ss.
Proof. intros Hh H. eapply Forall2_impl; [exact H | eauto using string_at_mono]. Qed.

Lemma Forall2_watched_at_mono h h' offs ws :
  h ⊆ h' -> Forall2 (watched_at h) offs ws -> Forall2 (watched_at h') offs ws.
Proof. intros Hh H. eapply Forall2_impl; [exact H | eauto using watched_at_mono]. Qed.

Lemma strings_in_heap h offs ss :
  Forall2 (string_at h) offs ss -> Forall (fun o => is_Some (h !! o)) offs.
Proof. induction 1; constructor; [by eexists | done]. Qed.

Lemma watched_in_heap h offs ws :
  Forall2 (watched_at h) offs ws -> Forall (fun o => is_Some (h !! o)) offs.
Proof.
  induction 1 as [|off w offs ws H]; constructor; [|done].
  destruct w; cbn in H; [destruct H as (? & ? & ? & _) | destruct H as (? & ? & _)]; by eexists.
Qed.

Create HintDb heap.
#[export] Hint Resolve Forall2_string_at_mono Forall2_watched_at_mono string_at_mono
  lookup_weaken strings_in_heap watched_in_heap : heap.

(** ** The loops *)
Section loops.
Context {FB : FlatBuffers} {FBL : FlatBuffersLaws FB}.

(** The heap grew to [h'] and [P h' a] holds of the value. *)
Definition extends {A} (k : Z) (h : gmap Z obj) (sz : Z) (P : gmap Z obj -> A -> Prop)
    (a : A) (v : view) : Prop :=
  exists h' sz', v = mkView h' Idle sz' /\ h ⊆ h' /\ sz <= sz' <= sz + k /\ P h' a.

Lemma runs_strings ss h sz :
  forallb encodable ss = true -> sz + total string_weight ss <= max_buffer_size ->
  runs (mapM CreateString ss) (mkView h Idle sz)
    (extends (total string_weight ss - 16 * Z.of_nat (length ss)) h sz
       (fun h' offs => Forall2 (string_at h') offs ss)).
Proof.
  revert h sz. induction ss as [|s ss IH]; intros h sz; cbn [forallb mapM].
  - intros _ _. apply runs_ret. exists h, sz. split_and!; [done..|cbn; lia|constructor].
  - intros [Hs Hss]%andb_true_iff. rewrite total_cons. intros Hle.
    pose proof (blen_enc s Hs). pose proof (encodable_enc s Hs).
    assert (string_weight s = 4 * Z.of_nat (length s) + 32) as Hw by reflexivity.
    pose proof (total_nonneg string_weight ss ltac:(intros x; unfold string_weight; lia)).
    bstep. eapply runs_bind.
    { apply IH; [done|]. unfold op_cost in *. lia. }
    intros offs v' (h' & sz' & -> & Hh' & Hsz' & HF). apply runs_ret.
    exists h', sz'. unfold op_cost in *. cbn [length].
    split_and!; [done | by etrans | lia | lia |].
    constructor; [by eapply lookup_weaken | done].
Qed.

(** The table of a parameter and the [SurveillanceEvent] around it. *)
Lemma runs_add_surveillance sv h sz :
  surveillance_ok sv = true -> sz + surveillance_weight sv <= max_buffer_size ->
  runs (add_surveillance sv) (mkView h Idle sz)
    (extends (surveillance_weight sv - 32) h sz
       (fun h' offs => Forall2 (watched_at h') offs (watched_of sv))).
Proof.
  destruct sv as [[[|]|s] [p|p]]; unfold surveillance_ok, add_surveillance, watched_of,
    surveillance_weight; cbn [sv_event sv_ptr_event event_is]; intros Hok Hle; try done.
  - apply andb_true_iff in Hok as [[He Hm]%andb_true_iff Hs].
    pose proof (blen_enc _ He). pose proof (encodable_enc _ He).
    pose proof (Zle_0_nat (length (ip_root_paths p))).
    cbn [bool_decide]. repeat bstep. apply runs_ret.
    eexists _, _. split; [reflexivity|]. unfold op_cost in *.
    split_and!; [by repeat (etrans; [eassumption|]) | lia | lia |].
    repeat constructor. exists off0, off. by split_and!.
  - cbn [bool_decide]. repeat bstep. apply runs_ret.
    eexists _, _. split; [reflexivity|]. unfold op_cost in *.
    split_and!; [by repeat (etrans; [eassumption|]) | lia | lia |].
    repeat constructor. by exists off.
  - apply runs_ret. exists h, sz. pose proof (Zle_0_nat (length (ip_root_paths p))).
    split_and!; [done..|lia|constructor].
  - apply runs_ret. exists h, sz. split_and!; [done..|lia|constructor].
Qed.

Lemma length_watched_of svs :
  Z.of_nat (length (svs ≫= watched_of)) <= Z.of_nat (length svs).
Proof.
  induction svs as [|sv svs IH]; [done|]. cbn. rewrite length_app.
  enough (length (watched_of sv) <= 1)%nat by lia.
  unfold watched_of. repeat case_match; cbn; lia.
Qed.

Lemma runs_surveillances svs h sz :
  forallb surveillance_ok svs = true -> sz + total surveillance_weight svs <= max_buffer_size ->
  runs (collect add_surveillance svs) (mkView h Idle sz)
    (extends (total surveillance_weight svs - 32 * Z.of_nat (length svs)) h sz
       (fun h' offs => Forall2 (watched_at h') offs (svs ≫= watched_of))).
Proof.
  revert h sz. induction svs as [|sv svs IH]; intros h sz; cbn [forallb collect mbind list_bind].
  - intros _ _. apply runs_ret. exists h, sz. split_and!; [done..|cbn; lia|constructor].
  - intros [Hs Hss]%andb_true_iff. rewrite total_cons. intros Hle.
    pose proof (surveillance_weight_pos sv).
    pose proof (total_length surveillance_weight 32 svs
      ltac:(intros x; pose proof (surveillance_weight_pos x); lia)).
    eapply runs_bind; [apply runs_add_surveillance; [done | lia]|].
    intros offs v (h1 & sz1 & -> & Hh1 & Hsz1 & HF1).
    eapply runs_bind; [apply IH; [done | lia]|].
    intros offs' v' (h2 & sz2 & -> & Hh2 & Hsz2 & HF2). apply runs_ret.
    exists h2, sz2. cbn [length]. split_and!; [done | by etrans | lia | lia |].
    apply Forall2_app; eauto with heap.
Qed.

(** A vector is filled from its last element, so it holds the references in order. *)
Lemma runs_prepend_all l h n refs sz :
  Forall (fun o => is_Some (h !! o)) l ->
  Z.of_nat (length l) + Z.of_nat (length refs) <= n ->
  sz + 16 * Z.of_nat (length l) <= max_buffer_size ->
  runs (for_each l PrependUOffsetTRelative) (mkView h (InVector n refs) sz)
    (fun _ => grows (16 * Z.of_nat (length l)) h (InVector n (reverse l ++ refs)) sz).
Proof.
  intros Hl. revert refs sz. induction Hl as [|o l Ho Hl IH]; intros refs sz Hn Hsz;
    cbn [for_each length] in *.
  - apply runs_ret. exists sz. split; [done | lia].
  - eapply runs_bind.
    { eapply runs_PrependUOffsetTRelative; [done | lia | unfold op_cost; lia]. }
    intros ? ? (sz' & -> & Hsz'). unfold op_cost in Hsz'.
    eapply runs_conseq; [apply IH; cbn [length]; lia|].
    intros ? ? (sz'' & -> & Hsz''). exists sz''. split; [|lia].
    by rewrite reverse_cons, <- app_assoc.
Qed.

Lemma runs_vector {B} offs (k : Z -> st builder B) h sz Q :
  Forall (fun o => is_Some (h !! o)) offs ->
  sz + 32 + 16 * Z.of_nat (length offs) <= max_buffer_size ->
  (forall off h' sz', h ⊆ h' -> h' !! off = Some (OVector offs) ->
     sz <= sz' <= sz + 32 + 16 * Z.of_nat (length offs) -> runs (k off) (mkView h' Idle sz') Q) ->
  runs (_ ← StartVector 4 (Z.of_nat (length offs)) 4;
        _ ← for_each (reverse offs) PrependUOffsetTRelative;
        off ← EndVector; k off) (mkView h Idle sz) Q.
Proof.
  intros Ho Hsz Hk. bstep. eapply runs_bind.
  { apply runs_prepend_all; [by apply Forall_reverse | rewrite length_reverse; cbn; lia |].
    rewrite length_reverse. unfold op_cost in *. lia. }
  intros ? ? (sz1 & -> & Hsz1). rewrite length_reverse in Hsz1.
  rewrite reverse_involutive, app_nil_r. unfold op_cost in *.
  eapply runs_bind; [apply runs_EndVector; [done | unfold op_cost; lia]|].
  intros off ? (h' & sz2 & -> & Hsub & Hoff & Hsz2). unfold op_cost in *.
  apply Hk; [done..|lia].
Qed.
End loops.

Section command.
Context {FB : FlatBuffers} {FBL : FlatBuffersLaws FB}.

(** From the vectors to the finished message. *)
Lemma runs_command_table cmd h sz args_offs envp_offs watch_offs path :
  in_range SUint32 (cmd_flags cmd) = true -> in_range SUint32 (cmd_stack_size cmd) = true ->
  Forall2 (string_at h) args_offs (cmd_args cmd) ->
  Forall2 (string_at h) envp_offs (cmd_envp cmd) ->
  string_at h path (cmd_path cmd) ->
  Forall2 (watched_at h) watch_offs (cmd_to_watch cmd ≫= watched_of) ->
  sz + 16 * Z.of_nat (length args_offs) + 16 * Z.of_nat (length envp_offs) +
    16 * Z.of_nat (length watch_offs) + 480 <= max_buffer_size ->
  runs (
    _ ← RunCommand.RunCommandStartArgsVector (Z.of_nat (length args_offs));
    _ ← for_each (reverse args_offs) PrependUOffsetTRelative;
    args_vector ← EndVector;
    _ ← RunCommand.RunCommandStartEnvpVector (Z.of_nat (length envp_offs));
    _ ← for_each (reverse envp_offs) PrependUOffsetTRelative;
    envp_vector ← EndVector;
    _ ← RunCommand.RunCommandStartToWatchVector (Z.of_nat (length watch_offs));
    _ ← for_each (reverse watch_offs) PrependUOffsetTRelative;
    surveillance_vector ← EndVector;
    _ ← RunCommand.Start;
    _ ← RunCommand.AddPath path;
    _ ← RunCommand.AddArgs args_vector;
    _ ← RunCommand.AddEnvp envp_vector;
    _ ← RunCommand.AddFlags (cmd_flags cmd);
    _ ← RunCommand.AddStackSize (cmd_stack_size cmd);
    _ ← RunCommand.AddToWatch surveillance_vector;
    run_command ← RunCommand.End_;
    _ ← Message.Start;
    _ ← Message.AddEventsType Event.RunCommand;
    _ ← Message.AddEvents run_command;
    message ← Message.End_;
    finish_message message) (mkView h Idle sz)
    (fun bi _ => exists h slots,
       is_message bi h Event.RunCommand 6 slots /\ command_at h slots cmd).
Proof.
  intros Hf Hs HA HE HP HW Hle.
  apply runs_vector; [by eauto with heap | lia |]. intros args h1 sz1 Hh1 Hargs Hsz1.
  apply (Forall2_string_at_mono _ _ _ _ Hh1) in HA, HE.
  apply (string_at_mono _ _ _ _ Hh1) in HP. apply (Forall2_watched_at_mono _ _ _ _ Hh1) in HW.
  apply runs_vector; [by eauto with heap | lia |]. intros envp h2 sz2 Hh2 Henvp Hsz2.
  apply (Forall2_string_at_mono _ _ _ _ Hh2) in HA, HE. heap_mono Hh2.
  apply (string_at_mono _ _ _ _ Hh2) in HP. apply (Forall2_watched_at_mono _ _ _ _ Hh2) in HW.
  apply runs_vector; [by eauto with heap | lia |]. intros watch h3 sz3 Hh3 Hwatch Hsz3.
  apply (Forall2_string_at_mono _ _ _ _ Hh3) in HA, HE. heap_mono Hh3.
  apply (string_at_mono _ _ _ _ Hh3) in HP. apply (Forall2_watched_at_mono _ _ _ _ Hh3) in HW.
  unfold string_at in HP. do 8 bstep.
  eapply runs_conseq; [eapply runs_message; bside|].
  intros bi v (h5 & Hh5 & Hm). eexists h5, _. split; [exact Hm|].
  assert (h3 ⊆ h5) by by etrans. heap_mono Hh5.
  exists path, args, envp, watch, args_offs, envp_offs, watch_offs.
  split_and!; [reflexivity|..]; eauto with heap.
Qed.

Lemma send_command_message cmd :
  command_ok cmd = true ->
  exists bi, send_command_to_demon cmd = Ok bi /\
    exists h slots, is_message bi h Event.RunCommand 6 slots /\ command_at h slots cmd.
Proof.
  unfold command_ok, command_representable. rewrite !andb_true_iff, Z.leb_le.
  intros ((((((Hp & Ha) & He) & Hf) & Hs) & Hw) & Hle).
  unfold command_weight in Hle.
  pose proof (blen_enc _ Hp). pose proof (encodable_enc _ Hp).
  assert (string_weight (cmd_path cmd) = 4 * Z.of_nat (length (cmd_path cmd)) + 32)
    as Hpw by reflexivity.
  assert (forall l, 32 * Z.of_nat (length l) <= total string_weight l) as Hsl
    by (intros l; apply total_length, string_weight_pos).
  assert (256 * Z.of_nat (length (cmd_to_watch cmd)) <=
          total surveillance_weight (cmd_to_watch cmd)) as Hsv
    by apply total_length, surveillance_weight_pos.
  pose proof (Hsl (cmd_args cmd)). pose proof (Hsl (cmd_envp cmd)).
  pose proof (length_watched_of (cmd_to_watch cmd)) as Hlw.
  apply send_runs.
  eapply runs_bind; [apply runs_strings; [done | lia]|].
  intros args_offs ? (h1 & sz1 & -> & Hh1 & Hsz1 & HA).
  eapply runs_bind; [apply runs_strings; [done | lia]|].
  intros envp_offs ? (h2 & sz2 & -> & Hh2 & Hsz2 & HE).
  eapply runs_bind; [apply runs_CreateString; [done | unfold op_cost; lia]|].
  intros path ? (h3 & sz3 & -> & Hh3 & HP & Hsz3).
  eapply runs_bind; [apply runs_surveillances; [done | unfold op_cost in *; lia]|].
  intros watch_offs ? (h4 & sz4 & -> & Hh4 & Hsz4 & HW).
  assert (h2 ⊆ h4) by by etrans. assert (h1 ⊆ h4) by by etrans.
  apply runs_command_table; eauto with heap.
  apply Forall2_length in HA, HE, HW. unfold op_cost in *. rewrite HA, HE, HW. lia.
Qed.
End command.
