(* ===== verification/ReadFacts.v ===== *)
(** * What the generated accessors and the [receive_*] functions read from an image

    One lemma for each kind of accessor, on a table that is an image of some
    slots, then the root [Message] of a buffer. *)
From S2P Require Import Prelude Bytes Utf8 FlatBuffers Enums Tables Data Send Receive.
From S2P Require Import BuilderLogic SendFacts.

(** The slot of a scalar field of value [v]: nothing for the default. *)
Definition scalar_slot (ty : scalar) (v : Z) : option slot :=
  if v =? 0 then None else Some (Scalar ty v).

Lemma lookup_put_scalar_eq ty i v slots :
  slots !! i = None -> put_scalar ty i v slots !! i = scalar_slot ty v.
Proof.
  intros Hn. unfold put_scalar, scalar_slot. destruct (v =? 0); [done|]. by simplify_map_eq.
Qed.

Lemma lookup_put_scalar_ne ty i j v slots : i <> j -> put_scalar ty i v slots !! j = slots !! j.
Proof. intros Hn. unfold put_scalar. destruct (v =? 0); [done|]. by simplify_map_eq. Qed.

(** Compute a lookup in the slots of a concrete table. *)
Ltac slot_lookup :=
  unfold message_slots;
  repeat first
    [ rewrite lookup_insert_eq
    | rewrite lookup_insert_ne by lia
    | rewrite lookup_put_scalar_ne by lia
    | rewrite lookup_put_scalar_eq
    | rewrite lookup_empty ];
  try reflexivity.

Section read.
Context {FB : FlatBuffers} {FBL : FlatBuffersLaws FB}.
Context (h : gmap Z obj) (pos : Z -> Z) (buf : bytes).

Section table.
Context (p n : Z) (slots : gmap Z slot).
Hypothesis Himg : table_image h pos buf p n slots.

Lemma field_offset_absent vt i :
  0 <= i < n -> vt = 4 + 2 * i -> slots !! i = None -> field_offset (mkTable buf p) vt = Ok 0.
Proof.
  intros Hi -> Hs. specialize (Himg i Hi). rewrite Hs in Himg. cbn in Himg.
  unfold field_offset. by rewrite Himg, res_fmap_ok, law_py_type.
Qed.

Lemma field_offset_present vt i s :
  0 <= i < n -> vt = 4 + 2 * i -> slots !! i = Some s ->
  exists f, field_offset (mkTable buf p) vt = Ok f /\ (f =? 0) = false /\
    match s with
    | Scalar ty v => Table_Get ty (mkTable buf p) (f + p) = Ok v
    | Ref r => ref_image h pos buf (mkTable buf p) f r
    end.
Proof.
  intros Hi -> Hs. specialize (Himg i Hi). rewrite Hs in Himg.
  destruct Himg as (f & Hf & Hne & Hv). exists f. unfold field_offset.
  rewrite Hf, res_fmap_ok, law_py_type. split_and!; [done | lia | by destruct s].
Qed.

Lemma scalar_field_read ty vt i v :
  0 <= i < n -> vt = 4 + 2 * i -> slots !! i = scalar_slot ty v ->
  scalar_field ty (mkTable buf p) vt = Ok v.
Proof.
  intros Hi Hvt Hs. unfold scalar_field, scalar_slot in *.
  destruct (Z.eqb_spec v 0) as [->|].
  - by rewrite (field_offset_absent vt i).
  - destruct (field_offset_present vt i _ Hi Hvt Hs) as (f & -> & Hf & Hv).
    by rewrite res_bind_ok, Hf.
Qed.

Lemma string_field_absent vt i :
  0 <= i < n -> vt = 4 + 2 * i -> slots !! i = None ->
  string_field (mkTable buf p) vt = Ok None.
Proof. intros. unfold string_field. by rewrite (field_offset_absent vt i). Qed.

Lemma string_field_read vt i r bs :
  0 <= i < n -> vt = 4 + 2 * i -> slots !! i = Some (Ref r) -> h !! r = Some (OString bs) ->
  string_field (mkTable buf p) vt = Ok (Some bs).
Proof.
  intros Hi Hvt Hs Hr. unfold string_field.
  destruct (field_offset_present vt i _ Hi Hvt Hs) as (f & -> & Hf & Hv).
  unfold ref_image in Hv. rewrite Hr in Hv. cbn [tab_Pos] in *. by rewrite res_bind_ok, Hf, Hv.
Qed.

Lemma union_field_absent vt i :
  0 <= i < n -> vt = 4 + 2 * i -> slots !! i = None ->
  union_field (mkTable buf p) vt = Ok None.
Proof. intros. unfold union_field. by rewrite (field_offset_absent vt i). Qed.

Lemma union_field_read vt i r n' slots' :
  0 <= i < n -> vt = 4 + 2 * i -> slots !! i = Some (Ref r) ->
  h !! r = Some (OTable n' slots') ->
  union_field (mkTable buf p) vt = Ok (Some (mkTable buf (pos r))).
Proof.
  intros Hi Hvt Hs Hr. unfold union_field.
  destruct (field_offset_present vt i _ Hi Hvt Hs) as (f & -> & Hf & Hv).
  unfold ref_image in Hv. rewrite Hr in Hv. by rewrite res_bind_ok, Hf, Hv.
Qed.

Lemma vector_len_read vt i r refs :
  0 <= i < n -> vt = 4 + 2 * i -> slots !! i = Some (Ref r) -> h !! r = Some (OVector refs) ->
  vector_len_field (mkTable buf p) vt = Ok (Z.of_nat (length refs)).
Proof.
  intros Hi Hvt Hs Hr. unfold vector_len_field.
  destruct (field_offset_present vt i _ Hi Hvt Hs) as (f & -> & Hf & Hv).
  unfold ref_image in Hv. rewrite Hr in Hv. destruct Hv as [Hl _].
  by rewrite res_bind_ok, Hf.
Qed.

Lemma string_item_read vt i r refs (j : nat) e bs :
  0 <= i < n -> vt = 4 + 2 * i -> slots !! i = Some (Ref r) -> h !! r = Some (OVector refs) ->
  refs !! j = Some e -> h !! e = Some (OString bs) ->
  string_item_field (mkTable buf p) vt (Z.of_nat j) = Ok (inl bs).
Proof.
  intros Hi Hvt Hs Hr Hj He. unfold string_item_field.
  destruct (field_offset_present vt i _ Hi Hvt Hs) as (f & -> & Hf & Hv).
  unfold ref_image in Hv. rewrite Hr in Hv. destruct Hv as (_ & a & Ha & Hel).
  specialize (Hel j e Hj). unfold elem_image in Hel. rewrite He in Hel.
  by rewrite res_bind_ok, Hf, Ha, res_bind_ok, law_py_type, Hel.
Qed.

Lemma table_item_read vt i r refs (j : nat) e n' slots' :
  0 <= i < n -> vt = 4 + 2 * i -> slots !! i = Some (Ref r) -> h !! r = Some (OVector refs) ->
  refs !! j = Some e -> h !! e = Some (OTable n' slots') ->
  table_item_field (mkTable buf p) vt (Z.of_nat j) = Ok (Some (pos e)).
Proof.
  intros Hi Hvt Hs Hr Hj He. unfold table_item_field.
  destruct (field_offset_present vt i _ Hi Hvt Hs) as (f & -> & Hf & Hv).
  unfold ref_image in Hv. rewrite Hr in Hv. destruct Hv as (_ & a & Ha & Hel).
  specialize (Hel j e Hj). unfold elem_image in Hel. rewrite He in Hel.
  by rewrite res_bind_ok, Hf, Ha, res_bind_ok, law_py_type, Hel.
Qed.
End table.
End read.

(** ** The root of a message *)
Section message.
Context {FB : FlatBuffers} {FBL : FlatBuffersLaws FB}.

(** [loc] is where the event table of the message in [buf] is. *)
Record message_at (h : gmap Z obj) (buf : bytes) (tag n : Z) (slots : gmap Z slot)
    (m : Message.Message) (pos : Z -> Z) (p : Z) : Prop := {
  ma_root : Message.GetRootAsMessage buf 0 = Ok m;
  ma_type : Message.EventsType m = Ok tag;
  ma_loc : events_location m = Ok (buf, p);
  ma_image : heap_image h pos buf;
  ma_table : table_image h pos buf p n slots
}.

Lemma message_read h buf tag n slots :
  message_image h buf tag n slots -> exists m pos p, message_at h buf tag n slots m pos p.
Proof.
  intros (root & ev & (pos & Hroot & Himg) & Hr & Hev).
  pose proof (Himg _ _ _ Hr) as Ht.
  exists (Message.Init buf (pos root)), pos, (pos ev). split.
  - unfold Message.GetRootAsMessage, Message.GetRootAs.
    rewrite Hroot, res_bind_ok, Z.add_0_r. reflexivity.
  - eapply (scalar_field_read h pos buf _ _ _ Ht SUint8 4 0); [lia | lia |]. slot_lookup.
  - assert (Message.Events (Message.Init buf (pos root)) = Ok (Some (mkTable buf (pos ev)))) as HE.
    { eapply (union_field_read h pos buf _ _ _ Ht 6 1); [lia | lia | slot_lookup | done]. }
    unfold events_location. by rewrite HE.
  - done.
  - by apply (Himg _ _ _ Hev).
Qed.

Lemma is_message_input bi h tag n slots :
  is_message bi h tag n slots -> no_input (bi_buffer bi) (bi_size bi) = false.
Proof.
  intros (Hlen & Hpos & _). unfold no_input. apply orb_false_iff. split; [|lia].
  apply bool_decide_eq_false. intros E. rewrite Hlen, E in Hpos. unfold blen in Hpos. cbn in Hpos. lia.
Qed.

Lemma is_message_read bi h tag n slots :
  is_message bi h tag n slots ->
  no_input (bi_buffer bi) (bi_size bi) = false /\
  exists m pos p, message_at h (bi_buffer bi) tag n slots m pos p.
Proof.
  intros H. split; [by eapply is_message_input|]. apply message_read. by destruct H as (_ & _ & ?).
Qed.
End message.

(** Open a message and evaluate a receiver up to its event table. *)
Ltac open_message H :=
  let Hin := fresh "Hin" in let m := fresh "m" in let pos := fresh "pos" in
  let p := fresh "p" in let Hroot := fresh "Hroot" in let Htype := fresh "Htype" in
  let Hloc := fresh "Hloc" in let Himg := fresh "Himg" in let Htab := fresh "Htab" in
  destruct (is_message_read _ _ _ _ _ H) as [Hin (m & pos & p & [Hroot Htype Hloc Himg Htab])];
  rewrite ?Hin; mstep.
