(* ===== verification/ReceiveFacts.v ===== *)
(** * What each [receive_*] function returns on a message

    Per function: its value on a message of its own type, in terms of the slots
    of the event table, and its value on a message of another type. *)
From S2P Require Import Prelude Bytes Utf8 FlatBuffers Enums Tables Data Send Receive.
From S2P Require Import BuilderLogic SendFacts ReadFacts.

Section facts.
Context {FB : FlatBuffers} {FBL : FlatBuffersLaws FB}.
Context (bi : BufferInfo) (h : gmap Z obj) (slots : gmap Z slot).

Abbreviation buf := (bi_buffer bi).
Abbreviation len := (bi_size bi).

(** A string field holding the encoding of [s], in slot [i]. *)
Definition string_slot (i : Z) (s : pystr) : Prop :=
  encodable s = true /\ exists r, slots !! i = Some (Ref r) /\ h !! r = Some (OString (enc s)).

Lemma decode_string_slot p pos i vt s n :
  table_image h pos buf p n slots -> string_slot i s -> 0 <= i < n -> vt = 4 + 2 * i ->
  (x ← string_field (mkTable buf p) vt; decode_field x) = Ok s.
Proof.
  intros Ht (He & r & Hs & Hr) Hi Hvt.
  rewrite (string_field_read h pos buf p n slots Ht vt i r (enc s)), res_bind_ok by done.
  by apply decode_enc.
Qed.

Lemma receive_kill_read pid :
  is_message bi h Event.KillProcess 1 slots -> slots !! 0 = scalar_slot SInt32 pid ->
  receive_kill buf len = pid.
Proof.
  intros H Hs. unfold receive_kill. open_message H.
  unfold KillProcess.Pid. cbn. by rewrite (scalar_field_read h pos buf p 1 slots Htab SInt32 4 0 pid).
Qed.

Lemma receive_processlaunched_read pid :
  is_message bi h Event.ProcessLaunched 1 slots -> slots !! 0 = scalar_slot SInt32 pid ->
  receive_processlaunched buf len = pid.
Proof.
  intros H Hs. unfold receive_processlaunched. open_message H.
  unfold ProcessLaunched.Pid. cbn.
  by rewrite (scalar_field_read h pos buf p 1 slots Htab SInt32 4 0 pid).
Qed.

Lemma receive_childcreationerror_read code :
  is_message bi h Event.ChildCreationError 1 slots -> slots !! 0 = scalar_slot SUint32 code ->
  receive_childcreationerror buf len = code.
Proof.
  intros H Hs. unfold receive_childcreationerror. open_message H.
  unfold ChildCreationError.ErrorCode. cbn.
  by rewrite (scalar_field_read h pos buf p 1 slots Htab SUint32 4 0 code).
Qed.

Lemma receive_processterminated_read pid code :
  is_message bi h Event.ProcessTerminated 2 slots ->
  slots !! 0 = scalar_slot SInt32 pid -> slots !! 1 = scalar_slot SUint32 code ->
  receive_processterminated buf len = RObj (mkProcessTerminatedInfo pid code).
Proof.
  intros H Hs Hs1. unfold receive_processterminated. open_message H.
  unfold ProcessTerminated.Pid, ProcessTerminated.ErrorCode. cbn.
  rewrite (scalar_field_read h pos buf p 2 slots Htab SInt32 4 0 pid) by done.
  by rewrite res_bind_ok, (scalar_field_read h pos buf p 2 slots Htab SUint32 6 1 code).
Qed.

Lemma receive_TCPSocketListening_read port :
  is_message bi h Event.TCPSocketListening 1 slots -> slots !! 0 = scalar_slot SUint16 port ->
  receive_TCPSocketListening buf len = port.
Proof.
  intros H Hs. unfold receive_TCPSocketListening. open_message H.
  unfold TCPSocketListening.Port. cbn.
  by rewrite (scalar_field_read h pos buf p 1 slots Htab SUint16 4 0 port).
Qed.

Lemma receive_socketwatched_read port :
  is_message bi h Event.SocketWatched 1 slots -> slots !! 0 = scalar_slot SInt32 port ->
  receive_socketwatched buf len = port.
Proof.
  intros H Hs. unfold receive_socketwatched. open_message H.
  unfold SocketWatched.Port. cbn.
  by rewrite (scalar_field_read h pos buf p 1 slots Htab SInt32 4 0 port).
Qed.

Lemma receive_inotifywatchlistupdated_read path :
  is_message bi h Event.InotifyWatchListUpdated 1 slots -> string_slot 0 path ->
  receive_inotifywatchlistupdated buf len = Some path.
Proof.
  intros H Hs. unfold receive_inotifywatchlistupdated. open_message H.
  unfold InotifyWatchListUpdated.Path. cbn.
  pose proof (decode_string_slot p pos 0 4 path 1 Htab Hs ltac:(lia) ltac:(lia)) as Hd.
  destruct (string_field (mkTable buf p) 4) as [x|e]; [|done].
  cbn in Hd |- *. by rewrite Hd.
Qed.

Lemma receive_execveterminated_read pid name success :
  is_message bi h Event.ExecveTerminated 3 slots ->
  slots !! 0 = scalar_slot SInt32 pid -> string_slot 1 name ->
  slots !! 2 = scalar_slot SBool (Z.b2z success) ->
  receive_execveterminated buf len = Some (mkExecveInfo pid name success).
Proof.
  intros H Hp Hn Hs. unfold receive_execveterminated. open_message H.
  unfold ExecveTerminated.Pid, ExecveTerminated.CommandName, ExecveTerminated.Success. cbn.
  rewrite (scalar_field_read h pos buf p 3 slots Htab SInt32 4 0 pid) by done.
  pose proof (decode_string_slot p pos 1 6 name 3 Htab Hn ltac:(lia) ltac:(lia)) as Hd.
  destruct (string_field (mkTable buf p) 6) as [x|e]; [|done].
  cbn in Hd |- *. rewrite Hd. cbn.
  rewrite (scalar_field_read h pos buf p 3 slots Htab SBool 8 2 (Z.b2z success)) by done.
  by destruct success.
Qed.

Lemma receive_execveterminated_noname n :
  is_message bi h Event.ExecveTerminated n slots -> 2 <= n -> slots !! 1 = None ->
  receive_execveterminated buf len = None.
Proof.
  intros H Hn Hs. unfold receive_execveterminated. open_message H.
  destruct (ExecveTerminated.Pid _); [|reflexivity]. rewrite res_bind_ok.
  unfold ExecveTerminated.CommandName. cbn.
  by rewrite (string_field_absent h pos buf p n slots Htab 6 1) by (done || lia).
Qed.

(** A trigger outside the enumeration is an error. *)
Lemma receive_inotifypathupdated_read path trigger size limit :
  is_message bi h Event.InotifyPathUpdated 4 slots -> string_slot 0 path ->
  slots !! 1 = scalar_slot SInt8 trigger -> slots !! 2 = scalar_slot SUint32 size ->
  slots !! 3 = scalar_slot SUint32 limit ->
  receive_inotifypathupdated buf len =
  match InotifyEvent_of trigger with
  | Ok e => Some (mkInotifyPathUpdated path e size limit)
  | Err _ => None
  end.
Proof.
  intros H Hp Ht Hs Hl. unfold receive_inotifypathupdated. open_message H.
  unfold InotifyPathUpdated.Path, InotifyPathUpdated.TriggerEvents,
    InotifyPathUpdated.Size, InotifyPathUpdated.SizeLimit. cbn.
  pose proof (decode_string_slot p pos 0 4 path 4 Htab Hp ltac:(lia) ltac:(lia)) as Hd.
  destruct (string_field (mkTable buf p) 4) as [x|e]; [|done].
  cbn in Hd |- *. rewrite Hd. cbn.
  rewrite (scalar_field_read h pos buf p 4 slots Htab SInt8 6 1 trigger) by done. cbn.
  destruct (InotifyEvent_of trigger) as [e|]; [|done]. cbn.
  rewrite (scalar_field_read h pos buf p 4 slots Htab SUint32 8 2 size) by done. cbn.
  by rewrite (scalar_field_read h pos buf p 4 slots Htab SUint32 10 3 limit).
Qed.

Lemma receive_socketwatchterminated_read port state :
  is_message bi h Event.SocketWatchTerminated 2 slots ->
  slots !! 0 = scalar_slot SInt32 port -> slots !! 1 = scalar_slot SInt8 state ->
  receive_socketwatchterminated buf len =
  match SocketState_of state with
  | Ok s => Some (mkSocketWatchInfo port s)
  | Err _ => None
  end.
Proof.
  intros H Hp Hs. unfold receive_socketwatchterminated. open_message H.
  unfold SocketWatchTerminated.Port, SocketWatchTerminated.State. cbn.
  rewrite (scalar_field_read h pos buf p 2 slots Htab SInt32 4 0 port) by done. cbn.
  rewrite (scalar_field_read h pos buf p 2 slots Htab SInt8 6 1 state) by done. cbn.
  by destruct (SocketState_of state).
Qed.

Lemma receive_message_from_demon_read tag n :
  is_message bi h tag n slots ->
  receive_message_from_demon buf len = RObj (default NONE (event_map !! tag)).
Proof. intros H. unfold receive_message_from_demon. by open_message H. Qed.

Lemma receive_message_from_user_read tag n :
  is_message bi h tag n slots ->
  receive_message_from_user buf len =
  RObj (if tag =? Event.RunCommand then RUN_COMMAND
        else if tag =? Event.KillProcess then KILL_PROCESS else NONE).
Proof.
  intros H. unfold receive_message_from_user. open_message H.
  destruct (tag =? Event.RunCommand); [done|]. mstep. by destruct (tag =? Event.KillProcess).
Qed.
End facts.

(** ** The dispatchers and the decoders look at the same event type

    On any buffer whatever, for any runtime. *)
Section any_buffer.
Context {FB : FlatBuffers}.

(** The event type a decoder sees, when it sees one. *)
Definition event_type (buffer : bytes) (size : Z) : option Z :=
  if no_input buffer size then None
  else catch_all (
    message ← Message.GetRootAsMessage buffer 0;
    Some <$> Message.EventsType message) None.

Lemma receive_message_from_demon_type buffer size :
  receive_message_from_demon buffer size =
  if no_input buffer size then RObj NONE
  else match event_type buffer size with
       | Some ty => RObj (default NONE (event_map !! ty))
       | None => RInt (-1)
       end.
Proof.
  unfold receive_message_from_demon, event_type.
  destruct (no_input buffer size); [done|].
  destruct (Message.GetRootAsMessage buffer 0) as [m|]; [|done]. rewrite !res_bind_ok.
  by destruct (Message.EventsType m).
Qed.

(** A decoder with a guard on the event type fails on every other type. *)
Lemma guarded_decoder {A} (tag : Z) (err : A) (body : Message.Message -> res A) buffer size :
  event_type buffer size <> Some tag ->
  (if no_input buffer size then err
   else catch_all (
     message ← Message.GetRootAsMessage buffer 0;
     ty ← Message.EventsType message;
     if negb (ty =? tag) then mret err else body message) err) = err.
Proof.
  unfold event_type. destruct (no_input buffer size); [done|].
  destruct (Message.GetRootAsMessage buffer 0) as [m|]; [|done]. rewrite !res_bind_ok.
  destruct (Message.EventsType m) as [ty|]; [|done]. rewrite res_bind_ok. cbn. intros Hne.
  destruct (Z.eqb_spec ty tag) as [->|]; [done | reflexivity].
Qed.
End any_buffer.

(** ** Delivery of a notification *)
Section delivery.
Context {FB : FlatBuffers} {FBL : FlatBuffersLaws FB}.

(** [r] is a buffer the user's dispatcher takes for event [e], with [P] of it. *)
Definition delivered (r : res (option BufferInfo)) (e : Event)
    (P : bytes -> Z -> Prop) : Prop :=
  exists bi, r = Ok (Some bi) /\ bi_size bi = blen (bi_buffer bi) /\
    receive_message_from_demon (bi_buffer bi) (bi_size bi) = RObj e /\
    P (bi_buffer bi) (bi_size bi).

Lemma delivered_intro r tag n h slots bi e (P : bytes -> Z -> Prop) :
  r = Ok (Some bi) -> is_message bi h tag n slots -> event_map !! tag = Some e ->
  P (bi_buffer bi) (bi_size bi) -> delivered r e P.
Proof.
  intros Hr Hm He HP. exists bi. split_and!; [done | by destruct Hm | | done].
  by rewrite (receive_message_from_demon_read _ _ _ _ _ Hm), He.
Qed.
End delivery.
