(* ===== verification/PeerCommand.v ===== *)
(** * Reading a [RunCommand] message through the generated accessors

    [receive_command] of [serialization.py] never gets to a command (see
    Defects.v), so what a message holds is stated with a reference reader: it
    uses the accessors of the generated classes as they are meant to be used
    (an item accessor per index below the length).  It is the specification
    [send_command_to_demon] is proved against. *)
From S2P Require Import Prelude Bytes Utf8 FlatBuffers Enums Tables Data Send Receive.
From S2P Require Import BuilderLogic SendFacts CommandFacts ReadFacts ReceiveFacts.

(** A command as the peer sees it. *)
Record peer_command : Type := mkPeer {
  peer_path : pystr;
  peer_args : list pystr;
  peer_envp : list pystr;
  peer_flags : Z;
  peer_stack_size : Z;
  peer_watched : list watched
}.

(** What [cmd] asks the peer for. *)
Definition peer_view (cmd : Command) : peer_command :=
  mkPeer (cmd_path cmd) (cmd_args cmd) (cmd_envp cmd) (cmd_flags cmd) (cmd_stack_size cmd)
    (cmd_to_watch cmd ≫= watched_of).

Section read.
Context {FB : FlatBuffers}.

Definition decode_item (x : bytes + pystr) : res pystr :=
  match x with inl bs => decode bs | inr _ => Err (AttributeError "decode") end.

Definition read_strings (len : res Z) (item : Z -> res (bytes + pystr)) : res (list pystr) :=
  n ← len; mapM (fun j => x ← item j; decode_item x) (seqZ 0 n).

Definition read_watched (rc : RunCommand.RunCommand) (j : Z) : res watched :=
  o ← RunCommand.ToWatch rc j;
  match o with
  | None => Err TypeError
  | Some sv =>
      ty ← SurveillanceEvent.EventType sv;
      ev ← SurveillanceEvent.Event sv;
      t ← get_table ev;
      if ty =? Surveillance.Inotify then
        let i := Inotify.Init (tab_Bytes t) (tab_Pos t) in
        rp ← Inotify.RootPaths i; root_paths ← decode_field rp;
        mask ← Inotify.Mask i;
        size ← Inotify.Size i;
        mret (WatchInotify (mkInotifyParameters root_paths mask size))
      else if ty =? Surveillance.TCPSocket then
        port ← TCPSocket.Destport (TCPSocket.Init (tab_Bytes t) (tab_Pos t));
        mret (WatchSocket (mkTCPSocket port))
      else Err ValueError
  end.

Definition peer_read (buffer : bytes) : res peer_command :=
  message ← Message.GetRootAsMessage buffer 0;
  ty ← Message.EventsType message;
  if negb (ty =? Event.RunCommand) then Err ValueError
  else
    loc ← events_location message;
    let rc := RunCommand.Init loc.1 loc.2 in
    p ← RunCommand.Path rc; path ← decode_field p;
    args ← read_strings (RunCommand.ArgsLength rc) (RunCommand.Args rc);
    envp ← read_strings (RunCommand.EnvpLength rc) (RunCommand.Envp rc);
    flags ← RunCommand.Flags rc;
    stack_size ← RunCommand.StackSize rc;
    n ← RunCommand.ToWatchLength rc;
    ws ← mapM (read_watched rc) (seqZ 0 n);
    mret (mkPeer path args envp flags stack_size ws).
End read.

Section facts.
Context {FB : FlatBuffers} {FBL : FlatBuffersLaws FB}.
Context (h : gmap Z obj) (pos : Z -> Z) (buf : bytes).
Hypothesis Hheap : heap_image h pos buf.

Definition all_encodable (ss : list pystr) : Prop := Forall (fun s => encodable s = true) ss.

Lemma read_strings_ok p n slots vt i r offs ss :
  table_image h pos buf p n slots -> 0 <= i < n -> vt = 4 + 2 * i ->
  slots !! i = Some (Ref r) -> h !! r = Some (OVector offs) ->
  Forall2 (string_at h) offs ss -> all_encodable ss ->
  read_strings (vector_len_field (mkTable buf p) vt) (string_item_field (mkTable buf p) vt) = Ok ss.
Proof.
  intros Ht Hi Hvt Hs Hr HF He. unfold read_strings.
  rewrite (vector_len_read h pos buf p n slots Ht vt i r offs), res_bind_ok by done.
  apply mapM_range; [by rewrite (Forall2_length _ _ _ HF)|].
  intros j s Hj. destruct (Forall2_lookup_r _ _ _ _ _ HF Hj) as (e & Hoff & Hat).
  rewrite (string_item_read h pos buf p n slots Ht vt i r offs j e (enc s)), res_bind_ok by done.
  apply decode_enc. by eapply (proj1 (Forall_lookup _ _) He).
Qed.

(** The two tables of a watched resource. *)
Definition watched_encodable (w : watched) : bool :=
  match w with WatchInotify p => encodable (ip_root_paths p) | WatchSocket _ => true end.

Lemma read_surveillance_table off ty ev n slots :
  h !! off = Some (OTable 2 (message_slots ty ev)) -> h !! ev = Some (OTable n slots) ->
  SurveillanceEvent.EventType (SurveillanceEvent.Init buf (pos off)) = Ok ty /\
  SurveillanceEvent.Event (SurveillanceEvent.Init buf (pos off)) =
    Ok (Some (mkTable buf (pos ev))).
Proof.
  intros Ho Hev. pose proof (Hheap _ _ _ Ho) as Ht. split.
  - eapply (scalar_field_read h pos buf _ _ _ Ht SUint8 4 0); [lia | lia |]. slot_lookup.
  - eapply (union_field_read h pos buf _ _ _ Ht 6 1); [lia | lia | slot_lookup | done].
Qed.

Lemma read_watch_item p n slots r offs (j : nat) off ty ev n' slots' :
  table_image h pos buf p n slots -> 5 < n ->
  slots !! 5 = Some (Ref r) -> h !! r = Some (OVector offs) -> offs !! j = Some off ->
  h !! off = Some (OTable 2 (message_slots ty ev)) -> h !! ev = Some (OTable n' slots') ->
  exists sv, RunCommand.ToWatch (RunCommand.Init buf p) (Z.of_nat j) = Ok (Some sv) /\
    SurveillanceEvent.EventType sv = Ok ty /\
    SurveillanceEvent.Event sv = Ok (Some (mkTable buf (pos ev))) /\
    table_image h pos buf (pos ev) n' slots'.
Proof.
  intros Ht Hn Hs Hr Hj Hoff Hev.
  exists (SurveillanceEvent.Init buf (pos off)). unfold RunCommand.ToWatch.
  cbn [RunCommand._tab RunCommand.Init].
  rewrite (table_item_read h pos buf p n slots Ht 14 5 r offs j off 2 (message_slots ty ev))
    by (done || lia).
  destruct (read_surveillance_table _ _ _ _ _ Hoff Hev). split_and!; try done.
  by apply (Hheap _ _ _ Hev).
Qed.

Lemma read_watched_ok p n slots r offs (j : nat) off w :
  table_image h pos buf p n slots -> 5 < n ->
  slots !! 5 = Some (Ref r) -> h !! r = Some (OVector offs) ->
  offs !! j = Some off -> watched_at h off w -> watched_encodable w = true ->
  read_watched (RunCommand.Init buf p) (Z.of_nat j) = Ok w.
Proof.
  intros Ht Hn Hs Hr Hj Hw He. unfold read_watched. destruct w as [ip|tcp].
  - destruct Hw as (o & s & Hoff & Ho & Hstr).
    destruct (read_watch_item p n slots r offs j off _ _ _ _ Ht Hn Hs Hr Hj Hoff Ho)
      as (sv & -> & Hty & Hev & Hi).
    mstep. cbn. unfold Inotify.RootPaths, Inotify.Mask, Inotify.Size. cbn.
    rewrite (string_field_read h pos buf _ _ _ Hi 4 0 s (enc (ip_root_paths ip)))
      by (done || lia || slot_lookup). cbn. rewrite decode_enc by done. cbn.
    rewrite (scalar_field_read h pos buf _ _ _ Hi SInt32 6 1 (ip_mask ip))
      by (done || lia || slot_lookup). cbn.
    rewrite (scalar_field_read h pos buf _ _ _ Hi SUint32 8 2 (ip_size ip))
      by (done || lia || slot_lookup). cbn. by destruct ip.
  - destruct Hw as (o & Hoff & Ho).
    destruct (read_watch_item p n slots r offs j off _ _ _ _ Ht Hn Hs Hr Hj Hoff Ho)
      as (sv & -> & Hty & Hev & Hi).
    mstep. cbn. unfold TCPSocket.Destport. cbn.
    rewrite (scalar_field_read h pos buf _ _ _ Hi SUint32 4 0 (destport tcp))
      by (done || lia || slot_lookup). cbn. by destruct tcp.
Qed.
End facts.

Section command.
Context {FB : FlatBuffers} {FBL : FlatBuffersLaws FB}.

Lemma command_ok_parts cmd :
  command_ok cmd = true ->
  encodable (cmd_path cmd) = true /\ all_encodable (cmd_args cmd) /\
  all_encodable (cmd_envp cmd) /\
  Forall (fun w => watched_encodable w = true) (cmd_to_watch cmd ≫= watched_of).
Proof.
  unfold command_ok, command_representable. rewrite !andb_true_iff.
  intros ((((((Hp & Ha) & He) & _) & _) & Hw) & _).
  apply forallb_Forall in Ha, He, Hw. split_and!; [done..|].
  apply Forall_forall. intros w (sv & Hw' & Hin)%list_elem_of_bind.
  apply (proj1 (Forall_forall _ _) Hw) in Hin. revert Hin Hw'.
  unfold surveillance_ok, watched_of, watched_encodable.
  destruct (sv_event sv) as [[|]|]; destruct (sv_ptr_event sv);
    rewrite ?list_elem_of_singleton, ?elem_of_nil; try done; intros Hin ->; [|done].
  by apply andb_true_iff in Hin as [[? _]%andb_true_iff _].
Qed.

Lemma peer_read_ok bi h slots cmd :
  is_message bi h Event.RunCommand 6 slots -> command_at h slots cmd -> command_ok cmd = true ->
  peer_read (bi_buffer bi) = Ok (peer_view cmd).
Proof.
  intros Hm (path & args & envp & watch & ao & eo & wo & -> & HP & Har & HA & Hen & HE & Hwa & HW) Hok.
  destruct (command_ok_parts cmd Hok) as (Hep & Hea & Hee & Hew).
  unfold peer_read. open_message Hm. cbn [negb Z.eqb].
  set (rc := RunCommand.Init (bi_buffer bi) p). unfold command_slots in *.
  assert (RunCommand.Path rc = Ok (Some (enc (cmd_path cmd)))) as E0.
  { eapply (string_field_read h pos _ _ _ _ Htab 4 0 path); done || lia || slot_lookup. }
  assert (read_strings (RunCommand.ArgsLength rc) (RunCommand.Args rc) = Ok (cmd_args cmd)) as E1.
  { eapply (read_strings_ok h pos _ p 6 _ 6 1 args ao _ Htab); done || lia || slot_lookup. }
  assert (read_strings (RunCommand.EnvpLength rc) (RunCommand.Envp rc) = Ok (cmd_envp cmd)) as E2.
  { eapply (read_strings_ok h pos _ p 6 _ 8 2 envp eo _ Htab); done || lia || slot_lookup. }
  assert (RunCommand.Flags rc = Ok (cmd_flags cmd)) as E3.
  { eapply (scalar_field_read h pos _ _ _ _ Htab SUint32 10 3); done || lia || slot_lookup. }
  assert (RunCommand.StackSize rc = Ok (cmd_stack_size cmd)) as E4.
  { eapply (scalar_field_read h pos _ _ _ _ Htab SUint32 12 4); done || lia || slot_lookup. }
  assert (RunCommand.ToWatchLength rc = Ok (Z.of_nat (length wo))) as E5.
  { eapply (vector_len_read h pos _ _ _ _ Htab 14 5 watch); done || lia || slot_lookup. }
  cbn [fst snd]. fold rc. rewrite E0, res_bind_ok. cbn [decode_field]. rewrite decode_enc by done.
  mstep.
  rewrite (mapM_range _ (cmd_to_watch cmd ≫= watched_of)); [done | |].
  - by rewrite (Forall2_length _ _ _ HW).
  - intros j w Hj. destruct (Forall2_lookup_r _ _ _ _ _ HW Hj) as (off & Hoff & Hat).
    eapply (read_watched_ok h pos _ Himg p 6 _ watch wo); eauto; [lia | slot_lookup |].
    by eapply (proj1 (Forall_lookup _ _) Hew).
Qed.
End command.
