(* ===== verification/PeerMessages.v ===== *)
(** * The messages only the daemons build

    [serialization.py] decodes three messages it cannot build (see Defects.v):
    ExecveTerminated, InotifyPathUpdated and SocketWatchTerminated.  These
    builders make them through the generated functions, field by field, the way
    a peer does; the decoders are proved against them. *)
From S2P Require Import Prelude Bytes Utf8 FlatBuffers Enums Tables Data Send Receive.
From S2P Require Import BuilderLogic SendFacts ReadFacts ReceiveFacts.

Section peer.
Context {FB : FlatBuffers}.

Definition peer_execveterminated (pid : Z) (name : pystr) (success : bool)
    : res (option BufferInfo) :=
  b ← Builder 1024;
  mret (try_send (
    s ← CreateString name;
    _ ← ExecveTerminated.Start;
    _ ← ExecveTerminated.AddPid pid;
    _ ← ExecveTerminated.AddCommandName s;
    _ ← ExecveTerminated.AddSuccess (Z.b2z success);
    ev ← ExecveTerminated.End_;
    _ ← Message.Start;
    _ ← Message.AddEventsType Event.ExecveTerminated;
    _ ← Message.AddEvents ev;
    message ← Message.End_;
    finish_message message) b).

Definition peer_inotifypathupdated (path : pystr) (trigger size limit : Z)
    : res (option BufferInfo) :=
  b ← Builder 1024;
  mret (try_send (
    s ← CreateString path;
    _ ← InotifyPathUpdated.Start;
    _ ← InotifyPathUpdated.AddPath s;
    _ ← InotifyPathUpdated.AddTriggerEvents trigger;
    _ ← InotifyPathUpdated.AddSize size;
    _ ← InotifyPathUpdated.AddSizeLimit limit;
    ev ← InotifyPathUpdated.End_;
    _ ← Message.Start;
    _ ← Message.AddEventsType Event.InotifyPathUpdated;
    _ ← Message.AddEvents ev;
    message ← Message.End_;
    finish_message message) b).

Definition peer_socketwatchterminated (port state : Z) : res (option BufferInfo) :=
  b ← Builder 1024;
  mret (try_send (
    _ ← SocketWatchTerminated.Start;
    _ ← SocketWatchTerminated.AddPort port;
    _ ← SocketWatchTerminated.AddState state;
    ev ← SocketWatchTerminated.End_;
    _ ← Message.Start;
    _ ← Message.AddEventsType Event.SocketWatchTerminated;
    _ ← Message.AddEvents ev;
    message ← Message.End_;
    finish_message message) b).

(** The two requests for a connection: in the schema, and in the client's [Event],
    but without a function in [serialization.py]. *)
Definition peer_establishtcpconnection (destport : Z) : res (option BufferInfo) :=
  b ← Builder 1024;
  mret (try_send (
    _ ← EstablishTCPConnection.Start;
    _ ← EstablishTCPConnection.AddDestport destport;
    ev ← EstablishTCPConnection.End_;
    _ ← Message.Start;
    _ ← Message.AddEventsType Event.EstablishTCPConnection;
    _ ← Message.AddEvents ev;
    message ← Message.End_;
    finish_message message) b).

Definition peer_establishunixconnection (path : pystr) : res (option BufferInfo) :=
  b ← Builder 1024;
  mret (try_send (
    s ← CreateString path;
    _ ← EstablishUnixConnection.Start;
    _ ← EstablishUnixConnection.AddPath s;
    ev ← EstablishUnixConnection.End_;
    _ ← Message.Start;
    _ ← Message.AddEventsType Event.EstablishUnixConnection;
    _ ← Message.AddEvents ev;
    message ← Message.End_;
    finish_message message) b).

(** The event table of a message, through the generated accessors. *)
Definition read_event {A} (buf : bytes) (f : bytes -> Z -> res A) : res A :=
  message ← Message.GetRootAsMessage buf 0;
  loc ← events_location message;
  f loc.1 loc.2.
End peer.

Section facts.
Context {FB : FlatBuffers} {FBL : FlatBuffersLaws FB}.

(** The limit on the text of these messages. *)
Definition text_ok (s : pystr) : Prop :=
  encodable s = true /\ 4 * Z.of_nat (length s) + 512 <= max_buffer_size.

Lemma peer_execveterminated_message pid name success :
  in_range SInt32 pid = true -> text_ok name ->
  sends (peer_execveterminated pid name success) (fun bi =>
    exists h slots, is_message bi h Event.ExecveTerminated 3 slots /\
      slots !! 0 = scalar_slot SInt32 pid /\ string_slot h slots 1 name /\
      slots !! 2 = scalar_slot SBool (Z.b2z success)).
Proof.
  intros Hp [He Hl]. pose proof (blen_enc name He). pose proof (encodable_enc name He).
  assert (in_range SBool (Z.b2z success) = true) by by destruct success.
  apply try_send_runs. do 6 bstep.
  eapply runs_conseq; [eapply runs_message; bside |].
  intros bi v (h' & Hsub' & Hm). eexists h', _.
  split_and!; [exact Hm | slot_lookup | | slot_lookup].
  split; [done|]. exists off. split; [slot_lookup | by eapply lookup_weaken].
Qed.

Lemma peer_inotifypathupdated_message path trigger size limit :
  text_ok path -> in_range SInt8 trigger = true ->
  in_range SUint32 size = true -> in_range SUint32 limit = true ->
  sends (peer_inotifypathupdated path trigger size limit) (fun bi =>
    exists h slots, is_message bi h Event.InotifyPathUpdated 4 slots /\
      string_slot h slots 0 path /\ slots !! 1 = scalar_slot SInt8 trigger /\
      slots !! 2 = scalar_slot SUint32 size /\ slots !! 3 = scalar_slot SUint32 limit).
Proof.
  intros [He Hl] Ht Hs Hm. pose proof (blen_enc path He). pose proof (encodable_enc path He).
  apply try_send_runs. do 7 bstep.
  eapply runs_conseq; [eapply runs_message; bside |].
  intros bi v (h' & Hsub' & Hmsg). eexists h', _.
  split_and!; [exact Hmsg | | slot_lookup..].
  split; [done|]. exists off. split; [slot_lookup | by eapply lookup_weaken].
Qed.

Lemma peer_socketwatchterminated_message port state :
  in_range SInt32 port = true -> in_range SInt8 state = true ->
  sends (peer_socketwatchterminated port state) (fun bi =>
    exists h slots, is_message bi h Event.SocketWatchTerminated 2 slots /\
      slots !! 0 = scalar_slot SInt32 port /\ slots !! 1 = scalar_slot SInt8 state).
Proof.
  intros Hp Hs. apply try_send_runs. do 4 bstep.
  eapply runs_conseq; [eapply runs_message; bside |].
  intros bi v (h' & Hsub' & Hm). eexists h', _. split_and!; [exact Hm | slot_lookup..].
Qed.

Lemma peer_establishtcpconnection_message destport :
  in_range SUint32 destport = true ->
  sends (peer_establishtcpconnection destport) (fun bi =>
    exists h slots, is_message bi h Event.EstablishTCPConnection 1 slots /\
      slots !! 0 = scalar_slot SUint32 destport).
Proof.
  intros Hp. apply try_send_runs. do 3 bstep.
  eapply runs_conseq; [eapply runs_message; bside |].
  intros bi v (h' & Hsub' & Hm). eexists h', _. split; [exact Hm | slot_lookup].
Qed.

Lemma peer_establishunixconnection_message path :
  text_ok path ->
  sends (peer_establishunixconnection path) (fun bi =>
    exists h slots, is_message bi h Event.EstablishUnixConnection 1 slots /\
      string_slot h slots 0 path).
Proof.
  intros [He Hl]. pose proof (blen_enc path He). pose proof (encodable_enc path He).
  apply try_send_runs. do 4 bstep.
  eapply runs_conseq; [eapply runs_message; bside |].
  intros bi v (h' & Hsub' & Hm). eexists h', _. split; [exact Hm|].
  split; [done|]. exists off. split; [slot_lookup | by eapply lookup_weaken].
Qed.

(** Both dispatchers pass over a message whose tag is none of theirs. *)
Lemma undispatched bi h tag n slots :
  is_message bi h tag n slots -> event_map !! tag = None ->
  (tag =? Event.RunCommand) = false -> (tag =? Event.KillProcess) = false ->
  receive_message_from_demon (bi_buffer bi) (bi_size bi) = RObj NONE /\
  receive_message_from_user (bi_buffer bi) (bi_size bi) = RObj NONE.
Proof.
  intros Hm He H1 H2. split.
  - by rewrite (receive_message_from_demon_read _ _ _ _ _ Hm), He.
  - by rewrite (receive_message_from_user_read _ _ _ _ _ Hm), H1, H2.
Qed.
End facts.
