(* ===== verification/Wire.v ===== *)
(** * Messages on the wire, whoever built them

    [shows msg tag n P]: the bytes [msg] are an image of a [Message] of type [tag]
    whose event is a table of [n] fields with slots in [P].  One predicate for each
    message of a daemon; what the Python builders make satisfies it, and the
    dispatcher and the decoders of the client find in it what it shows. *)
From S2P Require Import Prelude Bytes Utf8 FlatBuffers Enums Tables Data Send Receive.
From S2P Require Import BuilderLogic SendFacts CommandFacts ReadFacts ReceiveFacts PeerMessages.

Section wire.
Context {FB : FlatBuffers}.

(** A buffer with its length. *)
Definition sized (msg : bytes) : BufferInfo := mkBufferInfo msg (blen msg).

Definition shows (msg : bytes) (tag n : Z) (P : gmap Z obj -> gmap Z slot -> Prop) : Prop :=
  exists h slots, is_message (sized msg) h tag n slots /\ P h slots.

Definition shows_port (port : Z) (msg : bytes) : Prop :=
  in_range SUint16 port = true /\
  shows msg Event.TCPSocketListening 1 (fun _ slots => slots !! 0 = scalar_slot SUint16 port).
Definition shows_launched (pid : Z) (msg : bytes) : Prop :=
  in_range SInt32 pid = true /\
  shows msg Event.ProcessLaunched 1 (fun _ slots => slots !! 0 = scalar_slot SInt32 pid).
Definition shows_creation_error (code : Z) (msg : bytes) : Prop :=
  in_range SUint32 code = true /\
  shows msg Event.ChildCreationError 1 (fun _ slots => slots !! 0 = scalar_slot SUint32 code).
Definition shows_terminated (pid code : Z) (msg : bytes) : Prop :=
  (in_range SInt32 pid = true /\ in_range SUint32 code = true) /\
  shows msg Event.ProcessTerminated 2 (fun _ slots =>
    slots !! 0 = scalar_slot SInt32 pid /\ slots !! 1 = scalar_slot SUint32 code).
Definition shows_execve (pid : Z) (name : pystr) (success : bool) (msg : bytes) : Prop :=
  in_range SInt32 pid = true /\
  shows msg Event.ExecveTerminated 3 (fun h slots =>
    slots !! 0 = scalar_slot SInt32 pid /\ string_slot h slots 1 name /\
    slots !! 2 = scalar_slot SBool (Z.b2z success)).
Definition shows_update (path : pystr) (trigger size limit : Z) (msg : bytes) : Prop :=
  (in_range SUint32 size = true /\ in_range SUint32 limit = true) /\
  shows msg Event.InotifyPathUpdated 4 (fun h slots =>
    string_slot h slots 0 path /\ slots !! 1 = scalar_slot SInt8 trigger /\
    slots !! 2 = scalar_slot SUint32 size /\ slots !! 3 = scalar_slot SUint32 limit).
Definition shows_watch_list (path : pystr) (msg : bytes) : Prop :=
  shows msg Event.InotifyWatchListUpdated 1 (fun h slots => string_slot h slots 0 path).
Definition shows_watched (port : Z) (msg : bytes) : Prop :=
  in_range SInt32 port = true /\
  shows msg Event.SocketWatched 1 (fun _ slots => slots !! 0 = scalar_slot SInt32 port).
Definition shows_watch_end (port state : Z) (msg : bytes) : Prop :=
  in_range SInt32 port = true /\
  shows msg Event.SocketWatchTerminated 2 (fun _ slots =>
    slots !! 0 = scalar_slot SInt32 port /\ slots !! 1 = scalar_slot SInt8 state).

(** What is sent by a [try_send] function, as bytes. *)
Definition notifies (r : res (option BufferInfo)) (msg : bytes) : Prop :=
  exists bi, r = Ok (Some bi) /\ bi_buffer bi = msg.
End wire.

Section facts.
Context {FB : FlatBuffers} {FBL : FlatBuffersLaws FB}.

Lemma is_message_sized bi h tag n slots : is_message bi h tag n slots -> sized (bi_buffer bi) = bi.
Proof. intros (Hs & _). destruct bi. unfold sized. cbn in *. by subst. Qed.

Lemma shows_intro bi h tag n slots (P : gmap Z obj -> gmap Z slot -> Prop) :
  is_message bi h tag n slots -> P h slots -> shows (bi_buffer bi) tag n P.
Proof. intros Hm HP. exists h, slots. by rewrite (is_message_sized _ _ _ _ _ Hm). Qed.

Lemma notifies_inv r msg P : notifies r msg -> sends r P -> exists bi, P bi /\ bi_buffer bi = msg.
Proof. intros (bi & -> & <-) (bi' & [= <-] & HP). eauto. Qed.

Lemma notifies_shows r msg P tag n Q :
  notifies r msg -> sends r P ->
  (forall bi, P bi -> exists h slots, is_message bi h tag n slots /\ Q h slots) -> shows msg tag n Q.
Proof.
  intros Hn Hs HP. destruct (notifies_inv _ _ _ Hn Hs) as (bi & H & <-).
  destruct (HP bi H) as (h & slots & Hm & HQ). by eapply shows_intro.
Qed.

(** *** The builders of the Python side *)
Lemma notifies_port port msg :
  in_range SUint16 port = true -> notifies (send_tcpsocketlistening_to_user port) msg -> shows_port port msg.
Proof.
  intros Hp Hn. split; [done|]. eapply notifies_shows; [done | by apply send_tcpsocketlistening_message |].
  intros bi [h Hm]. eexists h, _. split; [exact Hm | slot_lookup].
Qed.

Lemma notifies_launched pid msg :
  in_range SInt32 pid = true -> notifies (send_processlaunched_to_user pid) msg -> shows_launched pid msg.
Proof.
  intros Hp Hn. split; [done|]. eapply notifies_shows; [done | by apply send_processlaunched_message |].
  intros bi [h Hm]. eexists h, _. split; [exact Hm | slot_lookup].
Qed.

Lemma notifies_creation_error code msg :
  in_range SUint32 code = true -> notifies (send_childcreationerror_to_user code) msg ->
  shows_creation_error code msg.
Proof.
  intros Hp Hn. split; [done|]. eapply notifies_shows; [done | by apply send_childcreationerror_message |].
  intros bi [h Hm]. eexists h, _. split; [exact Hm | slot_lookup].
Qed.

Lemma notifies_terminated pid code msg :
  in_range SInt32 pid = true -> in_range SUint32 code = true ->
  notifies (send_processterminated_to_user pid code) msg -> shows_terminated pid code msg.
Proof.
  intros Hp Hc Hn. split; [done|]. eapply notifies_shows; [done | by apply send_processterminated_message |].
  intros bi [h Hm]. eexists h, _. split; [exact Hm | split; slot_lookup].
Qed.

Lemma notifies_execve pid name success msg :
  in_range SInt32 pid = true -> text_ok name ->
  notifies (peer_execveterminated pid name success) msg -> shows_execve pid name success msg.
Proof.
  intros Hp Ht Hn. split; [done|].
  by eapply notifies_shows; [done | by apply peer_execveterminated_message |].
Qed.

Lemma notifies_update path trigger size limit msg :
  text_ok path -> in_range SInt8 trigger = true ->
  in_range SUint32 size = true -> in_range SUint32 limit = true ->
  notifies (peer_inotifypathupdated path trigger size limit) msg -> shows_update path trigger size limit msg.
Proof.
  intros Ht Htr Hs Hl Hn. split; [done|].
  by eapply notifies_shows; [done | by apply peer_inotifypathupdated_message |].
Qed.

Lemma notifies_watch_list path msg :
  text_ok path -> notifies (send_inotifywatchlistupdated_to_user path) msg -> shows_watch_list path msg.
Proof.
  intros [He Hl] Hn.
  eapply notifies_shows; [done | apply send_inotifywatchlistupdated_message; [done | lia] |].
  intros bi (h & slots & Hm & off & -> & Hoff). eexists h, _. split; [exact Hm|].
  split; [done|]. exists off. split; [slot_lookup | done].
Qed.

Lemma notifies_watched port msg :
  in_range SInt32 port = true -> notifies (send_socketwatched_to_user port) msg -> shows_watched port msg.
Proof.
  intros Hp Hn. split; [done|]. eapply notifies_shows; [done | by apply send_socketwatched_message |].
  intros bi [h Hm]. eexists h, _. split; [exact Hm | slot_lookup].
Qed.

Lemma notifies_watch_end port state msg :
  in_range SInt32 port = true -> in_range SInt8 state = true ->
  notifies (peer_socketwatchterminated port state) msg -> shows_watch_end port state msg.
Proof.
  intros Hp Hs Hn. split; [done|].
  by eapply notifies_shows; [done | by apply peer_socketwatchterminated_message |].
Qed.

(** *** The client's side *)
Lemma shows_dispatched msg tag n P :
  shows msg tag n P -> receive_message_from_demon msg (blen msg) = RObj (default NONE (event_map !! tag)).
Proof. intros (h & slots & Hm & _). apply (receive_message_from_demon_read (sized msg) _ _ _ _ Hm). Qed.

Lemma port_decoded port msg : shows_port port msg -> receive_TCPSocketListening msg (blen msg) = port.
Proof. intros (_ & h & slots & Hm & H). apply (receive_TCPSocketListening_read (sized msg) _ _ _ Hm H). Qed.

Lemma launched_decoded pid msg : shows_launched pid msg -> receive_processlaunched msg (blen msg) = pid.
Proof. intros (_ & h & slots & Hm & H). apply (receive_processlaunched_read (sized msg) _ _ _ Hm H). Qed.

Lemma creation_error_decoded code msg :
  shows_creation_error code msg -> receive_childcreationerror msg (blen msg) = code.
Proof. intros (_ & h & slots & Hm & H). apply (receive_childcreationerror_read (sized msg) _ _ _ Hm H). Qed.

Lemma terminated_decoded pid code msg :
  shows_terminated pid code msg ->
  receive_processterminated msg (blen msg) = RObj (mkProcessTerminatedInfo pid code).
Proof.
  intros (_ & h & slots & Hm & H0 & H1). apply (receive_processterminated_read (sized msg) _ _ _ _ Hm H0 H1).
Qed.

Lemma execve_decoded pid name success msg :
  shows_execve pid name success msg ->
  receive_execveterminated msg (blen msg) = Some (mkExecveInfo pid name success).
Proof.
  intros (_ & h & slots & Hm & H0 & H1 & H2).
  apply (receive_execveterminated_read (sized msg) _ _ _ _ _ Hm H0 H1 H2).
Qed.

Lemma update_decoded path trigger size limit msg :
  shows_update path trigger size limit msg ->
  receive_inotifypathupdated msg (blen msg) =
  match InotifyEvent_of trigger with
  | Ok e => Some (mkInotifyPathUpdated path e size limit)
  | Err _ => None
  end.
Proof.
  intros (_ & h & slots & Hm & H0 & H1 & H2 & H3).
  apply (receive_inotifypathupdated_read (sized msg) _ _ _ _ _ _ Hm H0 H1 H2 H3).
Qed.

Lemma watch_list_decoded path msg :
  shows_watch_list path msg -> receive_inotifywatchlistupdated msg (blen msg) = Some path.
Proof. intros (h & slots & Hm & H). apply (receive_inotifywatchlistupdated_read (sized msg) _ _ _ Hm H). Qed.

Lemma watched_decoded port msg : shows_watched port msg -> receive_socketwatched msg (blen msg) = port.
Proof. intros (_ & h & slots & Hm & H). apply (receive_socketwatched_read (sized msg) _ _ _ Hm H). Qed.

Lemma watch_end_decoded port state msg :
  shows_watch_end port state msg ->
  receive_socketwatchterminated msg (blen msg) =
  match SocketState_of state with
  | Ok s => Some (mkSocketWatchInfo port s)
  | Err _ => None
  end.
Proof.
  intros (_ & h & slots & Hm & H0 & H1).
  apply (receive_socketwatchterminated_read (sized msg) _ _ _ _ Hm H0 H1).
Qed.
End facts.
