(* ===== verification/NativeBuilder.v ===== *)
(** * The builders of the native FlatBuffers libraries, as an interface

    The daemons build their messages with the C++ library (class
    [FlatBufferBuilder] of [flatbuffers.h]) and with the Rust crate
    ([flatbuffers::FlatBufferBuilder]): third-party code with the same operations
    and one wire format.  [NativeBuilder] has the operations the generated code and
    the senders call; [NativeLaws] states what is relied on of them, over the
    [view] of a builder and the images of a buffer of FlatBuffers: the buffer a
    native builder finishes is read by the accessors of the Python runtime, which
    is what the format is for.

    A table is started without the number of its fields, so its view may be taken
    with any number: a field that was not stored is absent for every reader. *)
From S2P Require Import Prelude Bytes Utf8 FlatBuffers FlatBuffersRef FlatBuffersRefLaws.
From S2P Require Import Enums Tables Data Send BuilderLogic SendFacts CommandFacts.

(** The libraries refuse a buffer of 2^31 - 1 bytes or more. *)
Definition native_max : Z := 2 ^ 31 - 1.

(** The laws are for tables of at most so many fields; the schema has six. *)
Definition max_fields : Z := 8.

(** The most [end_table] and [create_vector] write for their own data. *)
Definition table_cost : Z := 8 * max_fields + op_cost.
Definition vector_cost (n : nat) : Z := 32 + 16 * Z.of_nat n.

(** ** Operations, by the names of the C++ library and of the Rust crate *)
Class NativeBuilder : Type := {
  nbuilder : Type;
  (* FlatBufferBuilder(initial_size); FlatBufferBuilder::new() *)
  new_builder : Z -> nbuilder;
  (* Clear; reset *)
  reset : st nbuilder unit;
  (* CreateString; create_string *)
  create_string : bytes -> st nbuilder Z;
  (* StartTable; start_table *)
  start_table : st nbuilder unit;
  (* AddElement<T>(vt, value, default); push_slot::<T>(vt, value, default) *)
  push_slot : scalar -> Z -> Z -> Z -> st nbuilder unit;
  (* AddOffset(vt, offset); push_slot_always::<WIPOffset<_>>(vt, offset) *)
  push_offset : Z -> Z -> st nbuilder unit;
  (* EndTable; end_table *)
  end_table : st nbuilder Z;
  (* CreateVector; create_vector *)
  create_vector : list Z -> st nbuilder Z;
  (* Finish; finish(root, None) *)
  finish : Z -> st nbuilder unit;
  (* GetBufferPointer and GetSize; finished_data *)
  finished_data : st nbuilder bytes
}.

(** ** Laws *)
Class NativeLaws (FB : FlatBuffers) (NB : NativeBuilder) : Type := {
  native_view :: Viewed nbuilder;

  law_new n : views (new_builder n) (mkView ∅ Idle 0);
  law_reset b v : views b v -> exists b', reset b = Ok (tt, b') /\ views b' (mkView ∅ Idle 0);

  law_create_string b h sz bs :
    views b (mkView h Idle sz) -> sz + blen bs + op_cost <= native_max ->
    exists off b' sz', create_string bs b = Ok (off, b') /\
      views b' (mkView (<[off := OString bs]> h) Idle sz') /\
      h !! off = None /\ 0 < off /\ sz <= sz' <= sz + blen bs + op_cost;

  law_start_table b h sz n :
    views b (mkView h Idle sz) -> 0 <= n <= max_fields ->
    exists b', start_table b = Ok (tt, b') /\ views b' (mkView h (InObject n ∅) sz);

  law_push_slot_default b h sz n slots t i d :
    views b (mkView h (InObject n slots) sz) -> in_range t d = true ->
    exists b', push_slot t (4 + 2 * i) d d b = Ok (tt, b') /\
      views b' (mkView h (InObject n slots) sz);
  law_push_slot b h sz n slots t i x d :
    views b (mkView h (InObject n slots) sz) -> x <> d -> in_range t x = true ->
    0 <= i < n -> sz + op_cost <= native_max ->
    exists b' sz', push_slot t (4 + 2 * i) x d b = Ok (tt, b') /\
      views b' (mkView h (InObject n (<[i := Scalar t x]> slots)) sz') /\
      sz <= sz' <= sz + op_cost;

  (* one byte 1: a reader may take it for a boolean *)
  law_push_slot_true b h sz n slots i :
    views b (mkView h (InObject n slots) sz) -> 0 <= i < n -> sz + op_cost <= native_max ->
    exists b' sz', push_slot SUint8 (4 + 2 * i) 1 0 b = Ok (tt, b') /\
      views b' (mkView h (InObject n (<[i := Scalar SBool 1]> slots)) sz') /\
      sz <= sz' <= sz + op_cost;

  law_push_offset b h sz n slots i off :
    views b (mkView h (InObject n slots) sz) -> is_Some (h !! off) ->
    0 <= i < n -> sz + op_cost <= native_max ->
    exists b' sz', push_offset (4 + 2 * i) off b = Ok (tt, b') /\
      views b' (mkView h (InObject n (<[i := Ref off]> slots)) sz') /\
      sz <= sz' <= sz + op_cost;

  law_end_table b h sz n slots :
    views b (mkView h (InObject n slots) sz) -> sz + table_cost <= native_max ->
    exists off b' sz', end_table b = Ok (off, b') /\
      views b' (mkView (<[off := OTable n slots]> h) Idle sz') /\
      h !! off = None /\ 0 < off /\ sz <= sz' <= sz + table_cost;

  law_create_vector b h sz offs :
    views b (mkView h Idle sz) -> Forall (fun o => is_Some (h !! o)) offs ->
    sz + vector_cost (length offs) <= native_max ->
    exists off b' sz', create_vector offs b = Ok (off, b') /\
      views b' (mkView (<[off := OVector offs]> h) Idle sz') /\
      h !! off = None /\ 0 < off /\ sz <= sz' <= sz + vector_cost (length offs);

  law_finish b h sz root :
    views b (mkView h Idle sz) -> is_Some (h !! root) -> sz + op_cost <= native_max ->
    exists b' sz', finish root b = Ok (tt, b') /\
      views b' (mkView h (Finished root) sz') /\ sz <= sz' <= sz + op_cost;

  law_finished_data b h sz root :
    views b (mkView h (Finished root) sz) ->
    exists buf b', finished_data b = Ok (buf, b') /\ views b' (mkView h (Finished root) sz) /\
      0 < blen buf <= sz /\ buffer_image h root buf
}.

(** ** Rules, for the logic of BuilderLogic *)
Section rules.
Context {FB : FlatBuffers} {NB : NativeBuilder} {NL : NativeLaws FB NB}.

(** The tail of every sender: [Finish] and a copy of the buffer. *)
Definition finish_buffer (root : Z) : st nbuilder bytes := _ ← finish root; finished_data.

Lemma runs_reset v : runs reset v (fun _ v' => v' = mkView ∅ Idle 0).
Proof. intros b Hb. destruct (law_reset b v Hb) as (b' & ? & ?). by eexists tt, b', _. Qed.

Lemma runs_create_string h sz bs :
  sz + blen bs + op_cost <= native_max ->
  runs (create_string bs) (mkView h Idle sz) (allocates (blen bs + op_cost) h (OString bs) sz).
Proof.
  intros Hle b Hb. destruct (law_create_string b h sz bs Hb Hle) as (off & b' & sz' & ? & ? & ? & ? & ?).
  eexists off, b', _. split_and!; [done..|]. apply allocates_insert; [done | lia].
Qed.

Lemma runs_start_table n h sz :
  0 <= n <= max_fields -> runs start_table (mkView h Idle sz) (fun _ => grows 0 h (InObject n ∅) sz).
Proof.
  intros Hn b Hb. destruct (law_start_table b h sz n Hb Hn) as (b' & ? & ?).
  eexists tt, b', _. split_and!; [done..|]. exists sz. split; [done | lia].
Qed.

Lemma runs_push_slot i h sz n slots t vt x :
  vt = 4 + 2 * i -> in_range t x = true -> 0 <= i < n -> sz + op_cost <= native_max ->
  runs (push_slot t vt x 0) (mkView h (InObject n slots) sz)
    (fun _ => grows op_cost h (InObject n (put_scalar t i x slots)) sz).
Proof.
  intros -> Hr Hi Hle b Hb. unfold put_scalar. destruct (Z.eqb_spec x 0) as [->|Hne].
  - destruct (law_push_slot_default b h sz n slots t i 0 Hb Hr) as (b' & ? & ?).
    eexists tt, b', _. split_and!; [done..|]. exists sz. unfold op_cost. split; [done | lia].
  - destruct (law_push_slot b h sz n slots t i x 0 Hb Hne Hr Hi Hle) as (b' & sz' & ? & ? & ?).
    eexists tt, b', _. split_and!; [done..|]. by exists sz'.
Qed.

Lemma runs_push_bool i h sz n slots vt (x : bool) :
  vt = 4 + 2 * i -> 0 <= i < n -> sz + op_cost <= native_max ->
  runs (push_slot SUint8 vt (Z.b2z x) 0) (mkView h (InObject n slots) sz)
    (fun _ => grows op_cost h (InObject n (put_scalar SBool i (Z.b2z x) slots)) sz).
Proof.
  intros -> Hi Hle b Hb. destruct x; cbn [Z.b2z].
  - destruct (law_push_slot_true b h sz n slots i Hb Hi Hle) as (b' & sz' & ? & ? & ?).
    eexists tt, b', _. split_and!; [done..|]. by exists sz'.
  - destruct (law_push_slot_default b h sz n slots SUint8 i 0 Hb eq_refl) as (b' & ? & ?).
    eexists tt, b', _. split_and!; [done..|]. exists sz. unfold op_cost. split; [done | lia].
Qed.

Lemma runs_push_offset i h sz n slots vt off :
  vt = 4 + 2 * i -> is_Some (h !! off) -> 0 <= i < n -> sz + op_cost <= native_max ->
  runs (push_offset vt off) (mkView h (InObject n slots) sz)
    (fun _ => grows op_cost h (InObject n (<[i := Ref off]> slots)) sz).
Proof.
  intros -> Ho Hi Hle b Hb.
  destruct (law_push_offset b h sz n slots i off Hb Ho Hi Hle) as (b' & sz' & ? & ? & ?).
  eexists tt, b', _. split_and!; [done..|]. by exists sz'.
Qed.

Lemma runs_end_table h sz n slots :
  sz + table_cost <= native_max ->
  runs end_table (mkView h (InObject n slots) sz) (allocates table_cost h (OTable n slots) sz).
Proof.
  intros Hle b Hb. destruct (law_end_table b h sz n slots Hb Hle) as (off & b' & sz' & ? & ? & ? & ? & ?).
  eexists off, b', _. split_and!; [done..|]. by apply allocates_insert.
Qed.

Lemma runs_create_vector offs h sz :
  Forall (fun o => is_Some (h !! o)) offs -> sz + vector_cost (length offs) <= native_max ->
  runs (create_vector offs) (mkView h Idle sz)
    (allocates (vector_cost (length offs)) h (OVector offs) sz).
Proof.
  intros Ho Hle b Hb.
  destruct (law_create_vector b h sz offs Hb Ho Hle) as (off & b' & sz' & ? & ? & ? & ? & ?).
  eexists off, b', _. split_and!; [done..|]. by apply allocates_insert.
Qed.

(** A buffer that a builder has finished. *)
Definition built (buf : bytes) : Prop :=
  exists b b' h root sz, views b (mkView h (Finished root) sz) /\ finished_data b = Ok (buf, b').

Lemma runs_finish_buffer h sz root :
  is_Some (h !! root) -> sz + op_cost <= native_max ->
  runs (finish_buffer root) (mkView h Idle sz)
    (fun buf _ => (0 < blen buf <= sz + op_cost /\ built buf) /\ buffer_image h root buf).
Proof.
  intros Hr Hle b Hb. destruct (law_finish b h sz root Hb Hr Hle) as (b1 & sz1 & E & Hb1 & Hs).
  destruct (law_finished_data b1 h sz1 root Hb1) as (buf & b2 & E2 & Hb2 & Hlen & Himg).
  eexists buf, b2, _. unfold finish_buffer, mbind, st_bind. rewrite E.
  split_and!; [done | exact Hb2 | lia | lia | by exists b1, b2, h, root, sz1 | exact Himg].
Qed.

(** A program on a fresh builder. *)
Lemma runs_new {A} n (m : st nbuilder A) Q :
  runs m (mkView ∅ Idle 0) Q -> exists a v, run m (new_builder n) = Ok a /\ Q a v.
Proof.
  intros Hm. destruct (Hm _ (law_new n)) as (a & b' & v & E & _ & HQ).
  exists a, v. split; [|done]. unfold run. by rewrite E.
Qed.
End rules.

(** ** Automation

    [nrun n] runs a program that builds tables of [n] fields; [nstep] one
    operation, its side conditions proved from the context. *)
Ltac nside :=
  first
    [ eassumption
    | reflexivity
    | unfold table_cost, vector_cost, op_cost, max_fields, native_max in *; lia
    | eexists; eassumption ].

Ltac nrule n :=
  match goal with
  | |- runs start_table _ _ => eapply (runs_start_table n); nside
  | |- runs (push_slot SUint8 ?vt (Z.b2z _) _) _ _ =>
      let i := eval vm_compute in ((vt - 4) / 2) in eapply (runs_push_bool i); nside
  | |- runs (push_slot _ ?vt _ _) _ _ =>
      let i := eval vm_compute in ((vt - 4) / 2) in eapply (runs_push_slot i); nside
  | |- runs (push_offset ?vt _) _ _ =>
      let i := eval vm_compute in ((vt - 4) / 2) in eapply (runs_push_offset i); nside
  | |- runs end_table _ _ => eapply runs_end_table; nside
  | |- runs (create_string _) _ _ => eapply runs_create_string; nside
  | |- runs (create_vector _) _ _ => eapply runs_create_vector; nside
  | |- runs reset _ _ => apply runs_reset
  end.

Create HintDb native.
Ltac nassoc := repeat match goal with |- runs ((_ ≫= _) ≫= _) _ _ => apply runs_assoc end.
Ltac nstep n :=
  nassoc; match goal with |- runs (_ ≫= _) _ _ => idtac end; eapply runs_bind; [ nrule n | bpost ].
Ltac nrun n := autounfold with native; repeat (nstep n).

(** ** A builder that satisfies the laws

    The builder of FlatBuffersRef, with room for [max_fields] fields in each
    table. *)
#[export] Instance ref_native : NativeBuilder := {|
  nbuilder := rbuilder;
  new_builder := fun _ => mkR [] ∅ Idle;
  reset := fun _ => Ok (tt, mkR [] ∅ Idle);
  create_string := ref_create_string;
  start_table := ref_StartObject max_fields;
  push_slot := fun t vt x d => ref_PrependSlot t ((vt - 4) / 2) x d;
  push_offset := fun vt off => ref_PrependUOffsetTRelativeSlot ((vt - 4) / 2) off 0;
  end_table := ref_EndObject;
  create_vector := fun offs =>
    _ ← ref_StartVector 4 (Z.of_nat (length offs)) 4;
    _ ← for_each (reverse offs) ref_PrependUOffsetTRelative;
    ref_EndVector;
  finish := ref_Finish;
  finished_data := ref_Output
|}.

(** The view with less room in its tables, and some bytes taken for booleans. *)
Definition narrow_slot (s0 s : slot) : Prop :=
  s0 = s \/ (s0 = Scalar SUint8 1 /\ s = Scalar SBool 1).

Definition retyped (slots0 slots : gmap Z slot) : Prop :=
  forall i, option_Forall2 narrow_slot (slots0 !! i) (slots !! i).

Definition narrow_obj (o0 o : obj) : Prop :=
  match o0, o with
  | OTable m slots0, OTable n slots => n <= m /\ retyped slots0 slots
  | _, _ => o0 = o
  end.

Definition narrow_mode (m0 m : mode) : Prop :=
  match m0, m with
  | InObject k slots0, InObject n slots => n <= k <= max_fields /\ retyped slots0 slots
  | _, _ => m0 = m
  end.

Definition narrow_heap (h0 h : gmap Z obj) : Prop :=
  forall off, option_Forall2 narrow_obj (h0 !! off) (h !! off).

(** The view of the builder, but for that. *)
Definition narrow_view (b : rbuilder) (v : view) : Prop :=
  exists h0 m0, ref_view b (mkView h0 m0 (v_size v)) /\ narrow_heap h0 (v_heap v) /\
    narrow_mode m0 (v_mode v).

Lemma retyped_refl slots : retyped slots slots.
Proof. intros i. destruct (slots !! i); constructor. by left. Qed.

Lemma retyped_insert slots0 slots i s0 s :
  retyped slots0 slots -> narrow_slot s0 s -> retyped (<[i := s0]> slots0) (<[i := s]> slots).
Proof.
  intros H Hs j. destruct (decide (i = j)) as [->|Hne].
  - rewrite !lookup_insert_eq. by constructor.
  - by rewrite !lookup_insert_ne.
Qed.

Lemma narrow_empty : narrow_heap ∅ ∅.
Proof. intros off. rewrite lookup_empty. constructor. Qed.

Lemma narrow_heap_none h0 h off : narrow_heap h0 h -> h0 !! off = None -> h !! off = None.
Proof. intros H E. specialize (H off). rewrite E in H. by inversion H. Qed.

Lemma narrow_heap_some h0 h off : narrow_heap h0 h -> is_Some (h !! off) -> is_Some (h0 !! off).
Proof. intros H [o E]. specialize (H off). rewrite E in H. inversion H; subst. by eexists. Qed.

Lemma narrow_heap_insert h0 h off o0 o :
  narrow_heap h0 h -> narrow_obj o0 o -> narrow_heap (<[off := o0]> h0) (<[off := o]> h).
Proof.
  intros H Ho off'. destruct (decide (off = off')) as [->|Hne].
  - rewrite !lookup_insert_eq. by constructor.
  - by rewrite !lookup_insert_ne.
Qed.

Lemma narrow_heap_lookup h0 h off :
  narrow_heap h0 h ->
  match h0 !! off, h !! off with
  | Some o0, Some o => narrow_obj o0 o
  | None, None => True
  | _, _ => False
  end.
Proof. intros H. specialize (H off). by inversion H. Qed.

Lemma read_true tab p :
  read_scalar SUint8 (tab_Bytes tab) p = Ok 1 -> read_scalar SBool (tab_Bytes tab) p = Ok 1.
Proof. cbn. by intros ->. Qed.

(** A reader of fewer fields finds what the wider table holds. *)
Lemma narrow_image h0 h root buf :
  narrow_heap h0 h -> buffer_image (H := ref_runtime) h0 root buf ->
  buffer_image (H := ref_runtime) h root buf.
Proof.
  intros Hh (pos & Hroot & Himg). exists pos. split; [exact Hroot|].
  assert (forall t a e, elem_image (FB := ref_runtime) h0 pos t a e ->
                        elem_image (FB := ref_runtime) h pos t a e) as Helem.
  { intros t a e. unfold elem_image. pose proof (narrow_heap_lookup _ _ e Hh) as He.
    destruct (h0 !! e) as [[]|], (h !! e) as [[]|]; by simplify_eq/=. }
  intros off n slots E i Hi. pose proof (narrow_heap_lookup _ _ off Hh) as Hoff. rewrite E in Hoff.
  destruct (h0 !! off) as [[| |m slots0]|] eqn:E0; simplify_eq/=; try done.
  destruct Hoff as [Hn Hty]. pose proof (Himg off m slots0 E0 i ltac:(lia)) as Hf.
  unfold field_image in *. specialize (Hty i).
  destruct (slots0 !! i) as [s0|], (slots !! i) as [s|]; [|by inversion Hty..|exact Hf].
  inversion Hty as [? ? Hs|]; subst. destruct Hf as (f & Hf & Hne & Hr).
  exists f. split_and!; [done..|]. destruct Hs as [->|[-> ->]]; [|by apply read_true].
  destruct s as [t v|r]; [exact Hr|].
  unfold ref_image in *. pose proof (narrow_heap_lookup _ _ r Hh) as Hro.
  destruct (h0 !! r) as [[]|], (h !! r) as [[]|]; simplify_eq/=; try done.
  destruct Hr as (Hlen & a & Ha & Hel). split; [done|]. exists a. split; [done|].
  intros j e Hj. by apply Helem, Hel.
Qed.

(** *** The laws *)
Lemma ref_create_vector b h sz offs :
  ref_view b (mkView h Idle sz) -> Forall (fun o => is_Some (h !! o)) offs ->
  sz + vector_cost (length offs) <= max_buffer_size ->
  exists off b' sz', create_vector (NativeBuilder := ref_native) offs b = Ok (off, b') /\
    ref_view b' (mkView (<[off := OVector offs]> h) Idle sz') /\
    h !! off = None /\ 0 < off /\ sz <= sz' <= sz + vector_cost (length offs).
Proof.
  intros Hb Ho Hle. unfold vector_cost in *.
  destruct (law_ref_StartVector b h sz (Z.of_nat (length offs)) Hb ltac:(lia)) as (r & b1 & sz1 & E1 & H1 & Hs1);
    [unfold op_cost; lia|].
  unfold op_cost in Hs1.
  destruct (runs_prepend_all (FB := ref_runtime) (FBL := ref_laws) (reverse offs) h (Z.of_nat (length offs)) [] sz1) with (b := b1)
    as ([] & b2 & v2 & E2 & H2 & sz2 & -> & Hs2);
    [by apply Forall_reverse | rewrite length_reverse; cbn; lia | rewrite length_reverse; lia | exact H1 |].
  rewrite reverse_involutive, app_nil_r in H2. rewrite length_reverse in Hs2.
  destruct (law_ref_EndVector b2 h sz2 _ offs H2 eq_refl) as (off & b3 & sz3 & E3 & H3 & Hn & Hp & Hs3);
    [unfold op_cost; lia|].
  unfold op_cost in Hs3. exists off, b3, sz3. cbn [create_vector ref_native].
  unfold mbind, st_bind. rewrite E1. cbn in E2. rewrite E2, E3. split_and!; done || lia.
Qed.

Ltac open_narrow H :=
  let h0 := fresh "h0" in let m0 := fresh "m0" in let Hv := fresh "Hv" in
  let Hh := fresh "Hh" in let Hm := fresh "Hm" in
  destruct H as (h0 & m0 & Hv & Hh & Hm); cbn [v_size v_heap v_mode] in *;
  destruct m0; simplify_eq/=; try done.

(** A law of the builder is one of its narrowed view. *)
Ltac narrowed := eexists _, _; split_and!; cbn [v_size v_heap v_mode]; [eassumption | | done].

Lemma narrow_alloc b h0 h o0 o off sz :
  narrow_heap h0 h -> narrow_obj o0 o ->
  ref_view b (mkView (<[off := o0]> h0) Idle sz) -> h0 !! off = None ->
  narrow_view b (mkView (<[off := o]> h) Idle sz) /\ h !! off = None.
Proof.
  intros Hh Ho Hv Hn. split; [|by eapply narrow_heap_none].
  narrowed. by apply narrow_heap_insert.
Qed.

Lemma narrow_slots b h0 h k n slots0 slots sz :
  narrow_heap h0 h -> n <= k <= max_fields -> retyped slots0 slots ->
  ref_view b (mkView h0 (InObject k slots0) sz) -> narrow_view b (mkView h (InObject n slots) sz).
Proof. intros Hh Hk Hs Hv. exists h0, (InObject k slots0). by split_and!. Qed.

Lemma vt_slot i : (4 + 2 * i - 4) / 2 = i.
Proof. rewrite Z.add_simpl_l, Z.mul_comm. by apply Z.div_mul. Qed.

#[export] Instance ref_native_laws : NativeLaws ref_runtime ref_native.
Proof.
  assert (native_max <= max_buffer_size) as Hmax by done.
  refine {| native_view := narrow_view : Viewed (@nbuilder ref_native) |}; unfold views;
    cbn [create_string start_table push_slot push_offset end_table create_vector finish finished_data
         new_builder reset ref_native].
  - intros n. exists ∅, Idle. split_and!; [by split_and! | apply narrow_empty | done].
  - intros b v _. eexists. split; [done|]. exists ∅, Idle.
    split_and!; [by split_and! | apply narrow_empty | done].
  - intros b h sz bs H Hle. open_narrow H.
    destruct (law_ref_create_string b h0 sz bs Hv) as (off & b' & sz' & E & Hv' & Hn & ?); [lia|].
    destruct (narrow_alloc b' h0 h (OString bs) (OString bs) off sz' Hh eq_refl Hv' Hn). by exists off, b', sz'.
  - intros b h sz n H Hn. open_narrow H.
    destruct (law_StartObject (FlatBuffersLaws := ref_laws) b h0 sz max_fields Hv) as (b' & E & Hv');
      [by split|].
    exists b'. split; [exact E|].
    apply (narrow_slots b' h0 h max_fields n ∅ ∅); [done | lia | apply retyped_refl | exact Hv'].
  - intros b h sz n slots t i d H Hd. open_narrow H. destruct Hm as [Hk Hty]. rewrite vt_slot.
    unfold ref_PrependSlot. rewrite Z.eqb_refl. exists b. split; [done|].
    by eapply narrow_slots; [..| exact Hv].
  - intros b h sz n slots t i x d H Hne Hr Hi Hle. open_narrow H. destruct Hm as [Hk Hty]. rewrite vt_slot.
    destruct (law_PrependSlot (FlatBuffersLaws := ref_laws) b h0 sz nfields slots0 t i x d Hv Hne Hr)
      as (b' & sz' & E & Hv' & Hs); [lia..|].
    exists b', sz'. split; [exact E|]. split; [|exact Hs].
    eapply narrow_slots; [done | exact Hk | | exact Hv']. apply retyped_insert; [done | by left].
  - intros b h sz n slots i H Hi Hle. open_narrow H. destruct Hm as [Hk Hty]. rewrite vt_slot.
    destruct (law_PrependSlot (FlatBuffersLaws := ref_laws) b h0 sz nfields slots0 SUint8 i 1 0 Hv)
      as (b' & sz' & E & Hv' & Hs); [done | done | lia.. |].
    exists b', sz'. split; [exact E|]. split; [|exact Hs].
    eapply narrow_slots; [done | exact Hk | | exact Hv']. apply retyped_insert; [done | by right].
  - intros b h sz n slots i off H Ho Hi Hle. open_narrow H. destruct Hm as [Hk Hty]. rewrite vt_slot.
    destruct (law_PrependUOffsetTRelativeSlot (FlatBuffersLaws := ref_laws) b h0 sz nfields slots0 i off Hv)
      as (b' & sz' & E & Hv' & Hs); [by eapply narrow_heap_some | lia..|].
    exists b', sz'. split; [exact E|]. split; [|exact Hs].
    eapply narrow_slots; [done | exact Hk | | exact Hv']. apply retyped_insert; [done | by left].
  - intros b h sz n slots H Hle. open_narrow H. destruct Hm as [Hk Hty]. unfold table_cost in *.
    destruct (law_ref_EndObject b h0 sz nfields slots0 Hv) as (off & b' & sz' & E & Hv' & Hn & Hp & Hs); [lia|].
    destruct (narrow_alloc b' h0 h (OTable nfields slots0) (OTable n slots) off sz' Hh (conj (proj1 Hk) Hty) Hv' Hn).
    exists off, b', sz'. split_and!; done || lia.
  - intros b h sz offs H Ho Hle. open_narrow H.
    destruct (ref_create_vector b h0 sz offs Hv) as (off & b' & sz' & E & Hv' & Hn & ?);
      [eapply Forall_impl; [exact Ho | intros x; by eapply narrow_heap_some] | lia |].
    destruct (narrow_alloc b' h0 h (OVector offs) (OVector offs) off sz' Hh eq_refl Hv' Hn). by exists off, b', sz'.
  - intros b h sz root H Hr Hle. open_narrow H.
    destruct (law_ref_Finish b h0 sz root Hv) as (b' & sz' & E & Hv' & Hs); [by eapply narrow_heap_some | lia |].
    exists b', sz'. split; [exact E|]. split; [by exists h0, (Finished root) | exact Hs].
  - intros b h sz root H. open_narrow H.
    destruct (law_ref_Output b h0 sz root Hv) as (buf & b' & E & Hv' & Hlen & Himg).
    exists buf, b'. split_and!; [exact E | by exists h0, (Finished root) | lia | lia |].
    by eapply narrow_image.
Qed.
