(* ===== verification/NativeTables.v ===== *)
(** * The generated builders of the native languages

    [c/include/demon_generated.h] and [rust/src/proto/demon_generated.rs]: for a
    table [X], the function [CreateX] of the header and [X::create] of the Rust
    module.  The FlatBuffers compiler generates the same calls in the same order
    in both languages, from the largest field to the smallest, so one definition
    is both: where the Rust argument is an [Option], [AddOffset] skips the null
    offset.  Where the languages differ (the type of a boolean) there are two. *)
From S2P Require Import Prelude Bytes Utf8 FlatBuffers Enums Tables Data Send BuilderLogic.
From S2P Require Import SendFacts CommandFacts ReadFacts ReceiveFacts PeerMessages Wire NativeBuilder.

Section generated.
Context {NB : NativeBuilder}.

(** [if let Some(x) = ... { builder.add_...(x) }]; [if (off.IsNull()) return;]. *)
Definition push_reference (vt : Z) (off : option Z) : st nbuilder unit :=
  match off with Some off => push_offset vt off | None => mret tt end.

Definition CreateInotify (root_paths : option Z) (mask size : Z) : st nbuilder Z :=
  _ ← start_table;
  _ ← push_slot SUint32 8 size 0;
  _ ← push_slot SInt32 6 mask 0;
  _ ← push_reference 4 root_paths;
  end_table.

Definition CreateTCPSocket (destport : Z) : st nbuilder Z :=
  _ ← start_table;
  _ ← push_slot SUint32 4 destport 0;
  end_table.

Definition CreateSurveillanceEvent (event_type : Z) (event : option Z) : st nbuilder Z :=
  _ ← start_table;
  _ ← push_reference 6 event;
  _ ← push_slot SUint8 4 event_type 0;
  end_table.

Definition CreateRunCommand (path args envp : option Z) (flags stack_size : Z) (to_watch : option Z)
    : st nbuilder Z :=
  _ ← start_table;
  _ ← push_reference 14 to_watch;
  _ ← push_slot SUint32 12 stack_size 0;
  _ ← push_slot SUint32 10 flags 0;
  _ ← push_reference 8 envp;
  _ ← push_reference 6 args;
  _ ← push_reference 4 path;
  end_table.

Definition CreateKillProcess (pid : Z) : st nbuilder Z :=
  _ ← start_table;
  _ ← push_slot SInt32 4 pid 0;
  end_table.

(** The header stores a boolean as a [uint8_t]. *)
Definition CreateExecveTerminated (pid : Z) (command_name : option Z) (success : bool) : st nbuilder Z :=
  _ ← start_table;
  _ ← push_reference 6 command_name;
  _ ← push_slot SInt32 4 pid 0;
  _ ← push_slot SUint8 8 (Z.b2z success) 0;
  end_table.

(** [ExecveTerminated::create]: the crate has booleans. *)
Definition ExecveTerminated_create (pid : Z) (command_name : option Z) (success : bool) : st nbuilder Z :=
  _ ← start_table;
  _ ← push_reference 6 command_name;
  _ ← push_slot SInt32 4 pid 0;
  _ ← push_slot SBool 8 (Z.b2z success) 0;
  end_table.

Definition CreateProcessLaunched (pid : Z) : st nbuilder Z :=
  _ ← start_table;
  _ ← push_slot SInt32 4 pid 0;
  end_table.

Definition CreateChildCreationError (error_code : Z) : st nbuilder Z :=
  _ ← start_table;
  _ ← push_slot SUint32 4 error_code 0;
  end_table.

Definition CreateProcessTerminated (pid error_code : Z) : st nbuilder Z :=
  _ ← start_table;
  _ ← push_slot SUint32 6 error_code 0;
  _ ← push_slot SInt32 4 pid 0;
  end_table.

Definition CreateTCPSocketListening (port : Z) : st nbuilder Z :=
  _ ← start_table;
  _ ← push_slot SUint16 4 port 0;
  end_table.

Definition CreateInotifyPathUpdated (path : option Z) (trigger_events size size_limit : Z) : st nbuilder Z :=
  _ ← start_table;
  _ ← push_slot SUint32 10 size_limit 0;
  _ ← push_slot SUint32 8 size 0;
  _ ← push_reference 4 path;
  _ ← push_slot SInt8 6 trigger_events 0;
  end_table.

Definition CreateInotifyWatchListUpdated (path : option Z) : st nbuilder Z :=
  _ ← start_table;
  _ ← push_reference 4 path;
  end_table.

Definition CreateSocketWatched (port : Z) : st nbuilder Z :=
  _ ← start_table;
  _ ← push_slot SInt32 4 port 0;
  end_table.

Definition CreateSocketWatchTerminated (port state : Z) : st nbuilder Z :=
  _ ← start_table;
  _ ← push_slot SInt32 4 port 0;
  _ ← push_slot SInt8 6 state 0;
  end_table.

Definition CreateMessage (events_type : Z) (events : option Z) : st nbuilder Z :=
  _ ← start_table;
  _ ← push_reference 6 events;
  _ ← push_slot SUint8 4 events_type 0;
  end_table.
End generated.

#[export] Hint Unfold push_reference CreateInotify CreateTCPSocket CreateRunCommand
  CreateKillProcess CreateExecveTerminated ExecveTerminated_create CreateProcessLaunched
  CreateChildCreationError CreateProcessTerminated CreateTCPSocketListening CreateInotifyPathUpdated
  CreateInotifyWatchListUpdated CreateSocketWatched CreateSocketWatchTerminated : native.

(** ** What they build *)
Section facts.
Context {FB : FlatBuffers} {NB : NativeBuilder} {NL : NativeLaws FB NB}.

Lemma put_scalar_insert t i v j s slots :
  i <> j -> put_scalar t i v (<[j := s]> slots) = <[j := s]> (put_scalar t i v slots).
Proof. intros Hne. unfold put_scalar. destruct (v =? 0); [done|]. by rewrite insert_insert_ne. Qed.

(** The tail every sender shares: the [Message] around the event. *)
Lemma runs_create_message h sz tag ev n slots :
  h !! ev = Some (OTable n slots) -> in_range SUint8 tag = true -> sz + 128 <= native_max ->
  runs (message ← CreateMessage tag (Some ev); finish_buffer message) (mkView h Idle sz)
    (fun buf _ => (blen buf <= native_max /\ built buf) /\ exists h', h ⊆ h' /\ is_message (sized buf) h' tag n slots).
Proof.
  intros Hev Htag Hsz. unfold CreateMessage, push_reference. do 4 nstep 2. unfold table_cost, op_cost, max_fields in *.
  eapply runs_conseq; [apply runs_finish_buffer; [by eexists | unfold op_cost; lia]|].
  intros buf v [[Hlen Hbuilt] Himg]. unfold op_cost in *. split; [split; [lia | exact Hbuilt]|]. exists h0. split; [done|].
  unfold native_max, max_buffer_size in *.
  split_and!; cbn; [done | lia | unfold max_buffer_size; lia |].
  exists off, ev. split_and!; [done | | done].
  unfold message_slots. by rewrite put_scalar_insert in Hoff.
Qed.
(** *** The notifications

    Each is a program both languages have; the buffer it finishes shows what it was
    given. *)
Definition sends_image (m : st nbuilder bytes) (P : bytes -> Prop) : Prop :=
  runs m (mkView ∅ Idle 0) (fun buf _ => (blen buf <= native_max /\ built buf) /\ P buf).

(** Text that can be sent: UTF-8, within the limit of a buffer. *)
Definition sendable (bs : bytes) (s : pystr) : Prop :=
  encodable s = true /\ enc s = bs /\ blen bs + 512 <= native_max.

Ltac sent_message n :=
  nrun n; eapply runs_conseq; [eapply runs_create_message; nside|];
  intros buf v [Hlen (h' & Hsub' & Hm)]; split; [exact Hlen|];
  repeat match goal with |- _ /\ shows _ _ _ _ => split; [done|] end;
  eexists _, _; split; [exact Hm|].

Lemma sends_port port :
  in_range SUint16 port = true ->
  sends_image (ev ← CreateTCPSocketListening port; message ← CreateMessage Event.TCPSocketListening (Some ev);
               finish_buffer message) (shows_port port).
Proof. intros Hp. unfold sends_image, shows_port. sent_message 1. slot_lookup. Qed.

Lemma sends_launched pid :
  in_range SInt32 pid = true ->
  sends_image (ev ← CreateProcessLaunched pid; message ← CreateMessage Event.ProcessLaunched (Some ev);
               finish_buffer message) (shows_launched pid).
Proof. intros Hp. unfold sends_image, shows_launched. sent_message 1. slot_lookup. Qed.

Lemma sends_creation_error code :
  in_range SUint32 code = true ->
  sends_image (ev ← CreateChildCreationError code; message ← CreateMessage Event.ChildCreationError (Some ev);
               finish_buffer message) (shows_creation_error code).
Proof. intros Hp. unfold sends_image, shows_creation_error. sent_message 1. slot_lookup. Qed.

Lemma sends_terminated pid code :
  in_range SInt32 pid = true -> in_range SUint32 code = true ->
  sends_image (ev ← CreateProcessTerminated pid code; message ← CreateMessage Event.ProcessTerminated (Some ev);
               finish_buffer message) (shows_terminated pid code).
Proof. intros Hp Hc. unfold sends_image, shows_terminated. sent_message 2. split; slot_lookup. Qed.

Lemma sends_watched port :
  in_range SInt32 port = true ->
  sends_image (ev ← CreateSocketWatched port; message ← CreateMessage Event.SocketWatched (Some ev);
               finish_buffer message) (shows_watched port).
Proof. intros Hp. unfold sends_image, shows_watched. sent_message 1. slot_lookup. Qed.

Lemma sends_watch_end port state :
  in_range SInt32 port = true -> in_range SInt8 state = true ->
  sends_image (ev ← CreateSocketWatchTerminated port state;
               message ← CreateMessage Event.SocketWatchTerminated (Some ev);
               finish_buffer message) (shows_watch_end port state).
Proof. intros Hp Hs. unfold sends_image, shows_watch_end. sent_message 2. split; slot_lookup. Qed.

Lemma sends_watch_list bs path :
  sendable bs path ->
  sends_image (off ← create_string bs; ev ← CreateInotifyWatchListUpdated (Some off);
               message ← CreateMessage Event.InotifyWatchListUpdated (Some ev);
               finish_buffer message) (shows_watch_list path).
Proof.
  intros (He & <- & Hl). unfold sends_image, shows_watch_list. sent_message 1.
  split; [done|]. exists off. split; [slot_lookup | by eapply lookup_weaken].
Qed.
Lemma sends_update bs path trigger size limit :
  sendable bs path -> in_range SInt8 trigger = true ->
  in_range SUint32 size = true -> in_range SUint32 limit = true ->
  sends_image (off ← create_string bs; ev ← CreateInotifyPathUpdated (Some off) trigger size limit;
               message ← CreateMessage Event.InotifyPathUpdated (Some ev);
               finish_buffer message) (shows_update path trigger size limit).
Proof.
  intros (He & <- & Hl) Ht Hs Hlim. unfold sends_image, shows_update. sent_message 4.
  split_and!; [|slot_lookup..].
  split; [done|]. exists off. split; [slot_lookup | by eapply lookup_weaken].
Qed.

Lemma sends_execve_cpp bs name pid success :
  sendable bs name -> in_range SInt32 pid = true ->
  sends_image (off ← create_string bs; ev ← CreateExecveTerminated pid (Some off) success;
               message ← CreateMessage Event.ExecveTerminated (Some ev);
               finish_buffer message) (shows_execve pid name success).
Proof.
  intros (He & <- & Hl) Hp. unfold sends_image, shows_execve. sent_message 3.
  split_and!; [slot_lookup | | slot_lookup].
  split; [done|]. exists off. split; [slot_lookup | by eapply lookup_weaken].
Qed.

Lemma sends_execve_rust bs name pid success :
  sendable bs name -> in_range SInt32 pid = true ->
  sends_image (off ← create_string bs; ev ← ExecveTerminated_create pid (Some off) success;
               message ← CreateMessage Event.ExecveTerminated (Some ev);
               finish_buffer message) (shows_execve pid name success).
Proof.
  intros (He & <- & Hl) Hp. assert (in_range SBool (Z.b2z success) = true) by by destruct success.
  unfold sends_image, shows_execve. sent_message 3.
  split_and!; [slot_lookup | | slot_lookup].
  split; [done|]. exists off. split; [slot_lookup | by eapply lookup_weaken].
Qed.
End facts.
