(* ===== verification/NativeCommand.v ===== *)
(** * A command through a native builder

    What the loops that serialize a command build (C++ and Rust), in the terms of
    CommandFacts: so that a [RunCommand] a native client sends is read by the same
    reference reader as one of the Python client. *)
From S2P Require Import Prelude Bytes Utf8 FlatBuffers Enums Tables Data Send Receive.
From S2P Require Import BuilderLogic SendFacts CommandFacts ReadFacts ReceiveFacts PeerCommand PeerMessages.
From S2P Require Import Wire NativeBuilder NativeTables.

(** ** The command a peer would see, as one of the Python client *)
Definition asking (w : watched) : Surveillance :=
  match w with
  | WatchInotify p => mkSurveillance (EvType INOTIFY) (PInotify p)
  | WatchSocket p => mkSurveillance (EvType WATCH_SOCKET) (PTCPSocket p)
  end.

Definition as_command (pc : peer_command) : Command :=
  mkCommand (peer_path pc) (peer_args pc) (peer_envp pc) (peer_flags pc) (peer_stack_size pc)
    (asking <$> peer_watched pc).

Lemma watched_asking ws : (asking <$> ws) ≫= watched_of = ws.
Proof. induction ws as [|[p|p] ws IH]; [done|..]; cbn; by rewrite <- IH at 2. Qed.

Lemma peer_view_as_command pc : peer_view (as_command pc) = pc.
Proof. unfold peer_view, as_command. cbn. rewrite watched_asking. by destruct pc. Qed.

Section facts.
Context {FB : FlatBuffers} {NB : NativeBuilder} {NL : NativeLaws FB NB}.

Lemma put_scalar_comm t i v t' j w slots :
  i <> j -> put_scalar t i v (put_scalar t' j w slots) = put_scalar t' j w (put_scalar t i v slots).
Proof.
  intros Hne. unfold put_scalar. destruct (v =? 0), (w =? 0); [done..|]. by rewrite insert_insert_ne.
Qed.

(** ** The strings *)
Definition text_weight (bs : bytes) : Z := blen bs + 32.

Lemma text_weight_pos bs : 32 <= text_weight bs.
Proof. unfold text_weight. pose proof (blen_nonneg bs). lia. Qed.

Lemma text_weight_enc s : encodable s = true -> text_weight (enc s) <= string_weight s.
Proof. intros H%blen_enc. unfold text_weight, string_weight. lia. Qed.

Lemma runs_native_strings ss h sz :
  forallb encodable ss = true -> sz + total string_weight ss <= native_max ->
  runs (mapM create_string (enc <$> ss)) (mkView h Idle sz)
    (extends (total string_weight ss - 16 * Z.of_nat (length ss)) h sz
       (fun h' offs => Forall2 (string_at h') offs ss)).
Proof.
  revert h sz. induction ss as [|s ss IH]; intros h sz; cbn [forallb mapM fmap list_fmap].
  - intros _ _. apply runs_ret. exists h, sz. split_and!; [done..|cbn; lia|constructor].
  - intros [Hs Hss]%andb_true_iff. rewrite total_cons. intros Hle.
    pose proof (blen_enc s Hs).
    assert (string_weight s = 4 * Z.of_nat (length s) + 32) as Hw by reflexivity.
    pose proof (total_nonneg string_weight ss ltac:(intros x; unfold string_weight; lia)).
    nstep 0. eapply runs_bind.
    { apply IH; [done|]. unfold op_cost in *. lia. }
    intros offs v' (h' & sz' & -> & Hh' & Hsz' & HF). apply runs_ret.
    exists h', sz'. unfold op_cost in *. cbn [length].
    split_and!; [done | by etrans | lia | lia |].
    constructor; [by eapply lookup_weaken | done].
Qed.

(** ** The watched resources *)
Definition watched_weight (w : watched) : Z :=
  match w with WatchInotify p => 4 * Z.of_nat (length (ip_root_paths p)) + 320 | WatchSocket _ => 320 end.

Definition watched_ok (w : watched) : bool := surveillance_ok (asking w).

(** The program for one of them. *)
Definition native_watch (w : watched) : st nbuilder Z :=
  match w with
  | WatchInotify p =>
      root_paths ← create_string (enc (ip_root_paths p));
      event_data ← CreateInotify (Some root_paths) (ip_mask p) (ip_size p);
      CreateSurveillanceEvent Surveillance.Inotify (Some event_data)
  | WatchSocket p =>
      event_data ← CreateTCPSocket (destport p);
      CreateSurveillanceEvent Surveillance.TCPSocket (Some event_data)
  end.

(** The table around the parameters [o]. *)
Lemma runs_surveillance_event h sz tag o :
  is_Some (h !! o) -> in_range SUint8 tag = true -> sz + 112 <= native_max ->
  runs (CreateSurveillanceEvent tag (Some o)) (mkView h Idle sz)
    (allocates 112 h (OTable 2 (message_slots tag o)) sz).
Proof.
  intros Ho Htag Hle. unfold CreateSurveillanceEvent, push_reference. do 3 nstep 2.
  eapply runs_conseq; [eapply runs_end_table; nside|].
  intros off v (h' & sz' & -> & Hsub & Hoff & Hszf). unfold table_cost, op_cost, max_fields in *.
  exists h', sz'. split_and!; [done | done | | lia | lia].
  unfold message_slots. by rewrite put_scalar_insert in Hoff.
Qed.

Lemma runs_native_watch w h sz :
  watched_ok w = true -> sz + watched_weight w <= native_max ->
  runs (native_watch w) (mkView h Idle sz)
    (extends (watched_weight w - 32) h sz (fun h' off => watched_at h' off w)).
Proof.
  destruct w as [p|p]; unfold watched_ok, surveillance_ok, native_watch, watched_weight; cbn [asking sv_event sv_ptr_event].
  - intros [[He Hm]%andb_true_iff Hs]%andb_true_iff Hle. pose proof (blen_enc _ He).
    nrun 3. eapply runs_conseq; [apply runs_surveillance_event; nside|].
    intros off1 v (h' & sz' & -> & Hsub' & Hoff' & Hsz'). unfold table_cost, op_cost, max_fields in *.
    eexists _, _. split; [reflexivity|]. split_and!; [by repeat (etrans; [eassumption|]) | lia | lia |].
    exists off0, off. split_and!; [done | | by eapply lookup_weaken].
    rewrite (lookup_weaken _ _ _ _ Hoff0 Hsub'). do 2 f_equal.
    by rewrite put_scalar_comm, !put_scalar_insert by done.
  - intros Hd Hle. nrun 1. eapply runs_conseq; [apply runs_surveillance_event; nside|].
    intros off1 v (h' & sz' & -> & Hsub' & Hoff' & Hsz'). unfold table_cost, op_cost, max_fields in *.
    eexists _, _. split; [reflexivity|]. split_and!; [by repeat (etrans; [eassumption|]) | lia | lia |].
    exists off. split; [done | by eapply lookup_weaken].
Qed.
(** ** The whole request *)
Definition shows_command (pc : peer_command) (msg : bytes) : Prop :=
  shows msg Event.RunCommand 6 (fun h slots => command_at h slots (as_command pc)).

Lemma command_slots_order cmd path args envp watch :
  <[0 := Ref path]> (<[1 := Ref args]> (<[2 := Ref envp]>
    (put_scalar SUint32 3 (cmd_flags cmd) (put_scalar SUint32 4 (cmd_stack_size cmd) (<[5 := Ref watch]> ∅)))))
  = command_slots cmd path args envp watch.
Proof.
  unfold command_slots. rewrite (put_scalar_comm _ 3) by done. rewrite !put_scalar_insert by done.
  rewrite (insert_insert_ne _ 2 5), (insert_insert_ne _ 1 5), (insert_insert_ne _ 0 5) by done.
  by rewrite (insert_insert_ne _ 0 1), (insert_insert_ne _ 0 2), (insert_insert_ne _ 1 2) by done.
Qed.

Lemma runs_native_request pc h sz path args envp args_offs envp_offs watch_offs :
  in_range SUint32 (peer_flags pc) = true -> in_range SUint32 (peer_stack_size pc) = true ->
  string_at h path (peer_path pc) ->
  h !! args = Some (OVector args_offs) -> Forall2 (string_at h) args_offs (peer_args pc) ->
  h !! envp = Some (OVector envp_offs) -> Forall2 (string_at h) envp_offs (peer_envp pc) ->
  Forall2 (watched_at h) watch_offs (peer_watched pc) ->
  sz + 16 * Z.of_nat (length watch_offs) + 512 <= native_max ->
  runs (to_watch ← create_vector watch_offs;
        run_command ← CreateRunCommand (Some path) (Some args) (Some envp) (peer_flags pc) (peer_stack_size pc)
                        (Some to_watch);
        message ← CreateMessage Event.RunCommand (Some run_command);
        finish_buffer message) (mkView h Idle sz)
    (fun buf _ => (blen buf <= native_max /\ built buf) /\ shows_command pc buf).
Proof.
  intros Hf Hs HP Har HA Hen HE HW Hle. unfold string_at in HP.
  pose proof (watched_in_heap _ _ _ HW) as Hin. autounfold with native.
  nstep 0. do 8 nstep 6.
  eapply runs_conseq; [eapply runs_create_message; nside|].
  intros buf v [Hlen (h' & Hsub' & Hm)]. split; [exact Hlen|]. eexists _, _. split; [exact Hm|].
  heap_mono Hsub'. assert (h ⊆ h') by by repeat (etrans; [eassumption|]).
  exists path, args, envp, off, args_offs, envp_offs, watch_offs.
  rewrite <- command_slots_order. cbn. rewrite watched_asking.
  split_and!; [reflexivity|..]; eauto with heap.
Qed.
(** What a native command must satisfy. *)
Definition native_weight (pc : peer_command) : Z :=
  total string_weight (peer_args pc) + total string_weight (peer_envp pc) +
  string_weight (peer_path pc) + total watched_weight (peer_watched pc) + 1024.

Definition peer_ok (pc : peer_command) : bool :=
  command_representable (as_command pc) && (native_weight pc <=? native_max).

Lemma watched_weight_pos w : 320 <= watched_weight w.
Proof. unfold watched_weight. case_match; lia. Qed.

Lemma runs_native_watches ws h sz :
  forallb watched_ok ws = true -> sz + total watched_weight ws <= native_max ->
  runs (mapM native_watch ws) (mkView h Idle sz)
    (extends (total watched_weight ws - 32 * Z.of_nat (length ws)) h sz
       (fun h' offs => Forall2 (watched_at h') offs ws)).
Proof.
  revert h sz. induction ws as [|w ws IH]; intros h sz; cbn [forallb mapM].
  - intros _ _. apply runs_ret. exists h, sz. split_and!; [done..|cbn; lia|constructor].
  - intros [Hw Hws]%andb_true_iff. rewrite total_cons. intros Hle.
    pose proof (watched_weight_pos w).
    pose proof (total_length watched_weight 32 ws
      ltac:(intros x; pose proof (watched_weight_pos x); lia)).
    eapply runs_bind; [apply runs_native_watch; [done | lia]|].
    intros off v (h1 & sz1 & -> & Hh1 & Hsz1 & HF1).
    eapply runs_bind; [apply IH; [done | lia]|].
    intros offs v' (h2 & sz2 & -> & Hh2 & Hsz2 & HF2). apply runs_ret.
    exists h2, sz2. cbn [length]. split_and!; [done | by etrans | lia | lia |].
    constructor; eauto using watched_at_mono.
Qed.

(** A command that can be sent natively can be read as one of the Python client. *)
Lemma peer_ok_parts pc :
  peer_ok pc = true ->
  encodable (peer_path pc) = true /\ forallb encodable (peer_args pc) = true /\
  forallb encodable (peer_envp pc) = true /\ in_range SUint32 (peer_flags pc) = true /\
  in_range SUint32 (peer_stack_size pc) = true /\ forallb watched_ok (peer_watched pc) = true /\
  native_weight pc <= native_max.
Proof.
  unfold peer_ok, command_representable, as_command. cbn. rewrite !andb_true_iff, Z.leb_le.
  intros ((((((? & ?) & ?) & ?) & ?) & Hw) & ?). split_and!; try done.
  apply forallb_Forall, Forall_fmap in Hw. by apply forallb_Forall.
Qed.

Lemma peer_ok_command pc : peer_ok pc = true -> command_ok (as_command pc) = true.
Proof.
  unfold peer_ok, command_ok. intros [Hr Hle]%andb_true_iff. rewrite Hr.
  apply Z.leb_le in Hle. apply Z.leb_le. unfold native_weight in Hle. unfold command_weight, as_command.
  cbn [cmd_args cmd_envp cmd_path cmd_to_watch].
  assert (total surveillance_weight (asking <$> peer_watched pc) <= total watched_weight (peer_watched pc)).
  { clear. induction (peer_watched pc) as [|w ws IH]; [done|].
    rewrite fmap_cons, !total_cons. enough (surveillance_weight (asking w) <= watched_weight w) by lia.
    destruct w; unfold surveillance_weight, watched_weight; cbn [asking sv_ptr_event]; lia. }
  unfold native_max, max_buffer_size in *. lia.
Qed.

(** What is read of the message of a native client, by the dispatcher of the daemon's
    side and by the reference reader. *)
Lemma native_command_received {FBL : FlatBuffersLaws FB} pc msg :
  peer_ok pc = true -> shows_command pc msg ->
  receive_message_from_user msg (blen msg) = RObj RUN_COMMAND /\ peer_read msg = Ok pc.
Proof.
  intros Hok (h & slots & Hm & Hc). split.
  - apply (receive_message_from_user_read (sized msg) _ _ _ _ Hm).
  - rewrite <- (peer_view_as_command pc). apply (peer_read_ok (sized msg) _ _ _ Hm Hc (peer_ok_command _ Hok)).
Qed.
End facts.
