(* ===== verification/TestCommands.v ===== *)
(** * Concrete inputs

    The commands of [tests_python/test_demon.py], used where a theorem is applied
    at a concrete input, and the runtime it is applied to. *)
From S2P Require Import Prelude Bytes Utf8 FlatBuffers FlatBuffersRef FlatBuffersRefLaws.
From S2P Require Import Data Send CommandFacts ReceiveFacts PeerMessages.

Definition stack_size : Z := 1024 * 1024.

(** [test_receiving_launch_process], [test_echo], [test_kill_process] *)
Definition ls_command : Command :=
  mkCommand (str "/bin/ls") [str "ls"; str "-l"] [] 0 stack_size [].
Definition echo_command (to_watch : list Surveillance) : Command :=
  mkCommand (str "/bin/echo") [str "echo"; str "bonjour"] [] 0 stack_size to_watch.
Definition sleep_command : Command :=
  mkCommand (str "/bin/sleep") [str "sleep"; str "10"] [] 0 stack_size [].

(** [test_socket_listening] *)
Definition socket_command (port : Z) : Command :=
  mkCommand [] [] [] 0 stack_size [mkSurveillance (EvType WATCH_SOCKET) (PTCPSocket (mkTCPSocket port))].

(** [test_inotify_event] *)
Definition IN_MODIFY : Z := 0x2.
Definition IN_CREATE : Z := 0x100.
Definition IN_ACCESS : Z := 0x1.
Definition inotify_surveillance : Surveillance :=
  mkSurveillance (EvType INOTIFY)
    (PInotify (mkInotifyParameters (str "/bin/")
                 (Z.lor (Z.lor IN_MODIFY IN_CREATE) IN_ACCESS) 128)).

(** The same, in the form [receive_command] would build. *)
Definition untyped_surveillance : Surveillance :=
  mkSurveillance (EvStr (str "INOTIFY")) (sv_ptr_event inotify_surveillance).
Definition wrong_surveillance : Surveillance :=
  mkSurveillance (EvType INOTIFY) (PTCPSocket (mkTCPSocket 8080)).

(** The bytes of a message that was sent. *)
Definition message_of (r : res (option BufferInfo)) : bytes :=
  match r with Ok (Some bi) => bi_buffer bi | _ => [] end.

Definition decode_ok (s : pystr) : bool := encodable s && (4 * Z.of_nat (length s) + 512 <=? max_buffer_size).

Lemma text_ok_bool s : decode_ok s = true -> text_ok s.
Proof. unfold decode_ok, text_ok. rewrite andb_true_iff, Z.leb_le. done. Qed.

(** Two messages of the reference runtime. *)
Definition ref_kill : BufferInfo :=
  match @send_kill_to_demon ref_runtime 4242 with Ok bi => bi | Err _ => mkBufferInfo [] 0 end.

Lemma ref_kill_sent : @send_kill_to_demon ref_runtime 4242 = Ok ref_kill.
Proof. vm_compute. reflexivity. Qed.
