(* ===== verification/Rejection.v ===== *)
(** * When nothing is sent

    The programs of the [send_*] functions that raise from every state of the
    builder, whatever the runtime: the tests on their arguments that end in an
    exception. *)
From S2P Require Import Prelude Bytes Utf8 FlatBuffers Enums Tables Data Send.
From S2P Require Import BuilderLogic SendFacts CommandFacts.

Section any_runtime.
Context {FB : FlatBuffers}.

Lemma always_raises_run {A} (m : st builder A) b : always_raises m -> exists e, run m b = Err e.
Proof. intros Hm. destruct (Hm b) as [e E]. exists e. unfold run. by rewrite E. Qed.

Lemma send_always_raises (m : st builder BufferInfo) :
  always_raises m -> exists e, (b ← Builder 1024; run m b) = Err e.
Proof. intros Hm. apply res_bind_always_err. intros b. by apply always_raises_run. Qed.

Lemma try_send_always_raises (m : st builder BufferInfo) b :
  always_raises m -> try_send m b = None.
Proof. intros Hm. destruct (always_raises_run m b Hm) as [e E]. unfold try_send. by rewrite E. Qed.

(** [demon.name] where the package has no such name. *)
Lemma always_raises_call {A} name :
  name ∉ demon_namespace -> always_raises (@lift builder A (demon_call name)).
Proof.
  intros Hn. unfold demon_call, demon_getattr. rewrite bool_decide_eq_false_2 by done.
  by eapply always_raises_lift.
Qed.

(** A surveillance whose parameters are of the other class. *)
Definition mismatched (sv : Surveillance) : bool :=
  match sv_event sv, sv_ptr_event sv with
  | EvType INOTIFY, PTCPSocket _ | EvType WATCH_SOCKET, PInotify _ => true
  | _, _ => false
  end.

Lemma mismatched_raises sv : mismatched sv = true -> always_raises (add_surveillance sv).
Proof.
  destruct sv as [[[|]|s] [p|p]]; try done; intros _.
  - apply always_raises_here. by eapply always_raises_lift.
  - apply always_raises_later. intros _. apply always_raises_here. by eapply always_raises_lift.
Qed.
End any_runtime.

Section laws.
Context {FB : FlatBuffers} {FBL : FlatBuffersLaws FB}.

Lemma out_of_range_raises t i x : in_range t x = false -> always_raises (PrependSlot t i x 0).
Proof.
  intros Hr b. apply law_PrependSlot_range; [|done]. intros ->. by rewrite in_range_0 in Hr.
Qed.

Lemma unencodable_raises s : encodable s = false -> always_raises (CreateString s).
Proof. intros Hs b. by apply law_CreateString_unencodable, not_encodable_encode. Qed.

(** Find the operation that raises in a straight-line program. *)
Ltac raising :=
  repeat first
    [ apply always_raises_here;
      first [ by apply out_of_range_raises | by apply unencodable_raises
            | by apply mismatched_raises ]
    | apply always_raises_lift_ok
    | apply always_raises_later; intros ? ].

Lemma surveillance_raises sv : surveillance_ok sv = false -> always_raises (add_surveillance sv).
Proof.
  destruct (mismatched sv) eqn:Hm; [intros _; by apply mismatched_raises|].
  destruct sv as [[[|]|s] [p|p]]; try done;
    unfold surveillance_ok, add_surveillance; cbn [sv_event sv_ptr_event event_is bool_decide];
    intros Hok.
  - apply andb_false_iff in Hok as [[Hok|Hok]%andb_false_iff|Hok]; raising.
  - raising.
Qed.

Lemma strings_raise l : forallb encodable l = false -> always_raises (mapM CreateString l).
Proof.
  intros H%forallb_Exists.
  eapply always_raises_mapM, Exists_impl; [exact H | apply unencodable_raises].
Qed.

Lemma surveillances_raise l :
  forallb surveillance_ok l = false -> always_raises (collect add_surveillance l).
Proof.
  intros H%forallb_Exists.
  eapply always_raises_collect, Exists_impl; [exact H | apply surveillance_raises].
Qed.

Lemma command_raises cmd :
  command_representable cmd = false -> exists e, send_command_to_demon cmd = Err e.
Proof.
  intros Hr. apply send_always_raises.
  destruct (forallb encodable (cmd_args cmd)) eqn:Ha;
    [|by apply always_raises_here, strings_raise].
  apply always_raises_later; intros ?.
  destruct (forallb encodable (cmd_envp cmd)) eqn:He;
    [|by apply always_raises_here, strings_raise].
  apply always_raises_later; intros ?.
  destruct (encodable (cmd_path cmd)) eqn:Hp; [|raising].
  apply always_raises_later; intros ?.
  destruct (forallb surveillance_ok (cmd_to_watch cmd)) eqn:Hw;
    [|by apply always_raises_here, surveillances_raise].
  apply always_raises_later; intros ?.
  unfold command_representable in Hr. rewrite Ha, He, Hp, Hw, andb_true_r in Hr.
  apply andb_false_iff in Hr as [Hr|Hr]; raising.
Qed.
End laws.
