(* ===== verification/RoundTrip.v ===== *)
(** * What is sent is what is received

    For every message type the module can serialize: the sender returns a
    buffer, the dispatcher of the other side recognises it, and the decoder
    gives back what was sent; and what cannot be represented is not sent. *)
From S2P Require Import Prelude Bytes Utf8 FlatBuffers FlatBuffersRef FlatBuffersRefLaws.
From S2P Require Import Enums Tables Data Send Receive BuilderLogic SendFacts CommandFacts.
From S2P Require Import ReadFacts ReceiveFacts PeerCommand Rejection PeerMessages TestCommands.

Section roundtrip.
Context {FB : FlatBuffers} {FBL : FlatBuffersLaws FB}.

(** C1. A command within the field ranges and the buffer limit is serialized to
    a buffer that announces its own length, that the dispatcher of user messages
    takes for a RUN_COMMAND, and from which the generated accessors read back the
    path, every argument and environment string in order, the flags, the stack
    size, and the watched resources in order. *)
Theorem command_roundtrip cmd :
  command_ok cmd = true ->
  exists bi, send_command_to_demon cmd = Ok bi /\
    bi_size bi = blen (bi_buffer bi) /\
    receive_message_from_user (bi_buffer bi) (bi_size bi) = RObj RUN_COMMAND /\
    peer_read (bi_buffer bi) = Ok (peer_view cmd).
Proof.
  intros Hok. destruct (send_command_message cmd Hok) as (bi & Hs & h & slots & Hm & Hc).
  exists bi. split_and!; [done | by destruct Hm | | by eapply peer_read_ok].
  by rewrite (receive_message_from_user_read _ _ _ _ _ Hm).
Qed.

(** Two commands that serialize to the same bytes ask for the same thing. *)
Lemma command_encoding_injective cmd1 cmd2 bi1 bi2 :
  command_ok cmd1 = true -> command_ok cmd2 = true ->
  send_command_to_demon cmd1 = Ok bi1 -> send_command_to_demon cmd2 = Ok bi2 ->
  bi_buffer bi1 = bi_buffer bi2 -> peer_view cmd1 = peer_view cmd2.
Proof.
  intros H1 H2 E1 E2 Hb.
  destruct (send_command_message cmd1 H1) as (b1 & S1 & h1 & sl1 & M1 & C1).
  destruct (send_command_message cmd2 H2) as (b2 & S2 & h2 & sl2 & M2 & C2).
  rewrite E1 in S1. rewrite E2 in S2. injection S1 as <-. injection S2 as <-.
  pose proof (peer_read_ok _ _ _ _ M1 C1 H1) as R1.
  pose proof (peer_read_ok _ _ _ _ M2 C2 H2) as R2.
  rewrite Hb, R2 in R1. congruence.
Qed.

(** A kill request for a 32-bit pid is recognised as KILL_PROCESS and decoded
    to the same pid. *)
Lemma kill_roundtrip pid :
  in_range SInt32 pid = true ->
  exists bi, send_kill_to_demon pid = Ok bi /\
    bi_size bi = blen (bi_buffer bi) /\
    receive_message_from_user (bi_buffer bi) (bi_size bi) = RObj KILL_PROCESS /\
    receive_kill (bi_buffer bi) (bi_size bi) = pid.
Proof.
  intros Hp. destruct (send_kill_message pid Hp) as (bi & Hs & h & Hm).
  exists bi. split_and!; [done | by destruct Hm | |].
  - by rewrite (receive_message_from_user_read _ _ _ _ _ Hm).
  - eapply receive_kill_read; [done | slot_lookup].
Qed.

(** A process-launched notification delivers its 32-bit pid. *)
Lemma processlaunched_roundtrip pid :
  in_range SInt32 pid = true ->
  delivered (send_processlaunched_to_user pid) PROCESS_LAUNCHED
    (fun buf len => receive_processlaunched buf len = pid).
Proof.
  intros Hp. destruct (send_processlaunched_message pid Hp) as (bi & Hs & h & Hm).
  eapply delivered_intro; [done | exact Hm | reflexivity |].
  eapply receive_processlaunched_read; [done | slot_lookup].
Qed.

(** A child-creation-error notification delivers its 32-bit unsigned code. *)
Lemma childcreationerror_roundtrip error_code :
  in_range SUint32 error_code = true ->
  delivered (send_childcreationerror_to_user error_code) CHILD_CREATION_ERROR
    (fun buf len => receive_childcreationerror buf len = error_code).
Proof.
  intros Hp. destruct (send_childcreationerror_message error_code Hp) as (bi & Hs & h & Hm).
  eapply delivered_intro; [done | exact Hm | reflexivity |].
  eapply receive_childcreationerror_read; [done | slot_lookup].
Qed.

(** A process-terminated notification delivers its pid and its error code. *)
Lemma processterminated_roundtrip pid error_code :
  in_range SInt32 pid = true -> in_range SUint32 error_code = true ->
  delivered (send_processterminated_to_user pid error_code) PROCESS_TERMINATED
    (fun buf len =>
       receive_processterminated buf len = RObj (mkProcessTerminatedInfo pid error_code)).
Proof.
  intros Hp He. destruct (send_processterminated_message pid error_code Hp He) as (bi & Hs & h & Hm).
  eapply delivered_intro; [done | exact Hm | reflexivity |].
  eapply receive_processterminated_read; [done | slot_lookup..].
Qed.

(** A listening notification delivers its 16-bit port. *)
Lemma tcpsocketlistening_roundtrip port :
  in_range SUint16 port = true ->
  delivered (send_tcpsocketlistening_to_user port) TCP_SOCKET_LISTENING
    (fun buf len => receive_TCPSocketListening buf len = port).
Proof.
  intros Hp. destruct (send_tcpsocketlistening_message port Hp) as (bi & Hs & h & Hm).
  eapply delivered_intro; [done | exact Hm | reflexivity |].
  eapply receive_TCPSocketListening_read; [done | slot_lookup].
Qed.

(** A socket-watched notification delivers its port. *)
Lemma socketwatched_roundtrip port :
  in_range SInt32 port = true ->
  delivered (send_socketwatched_to_user port) SOCKET_WATCHED
    (fun buf len => receive_socketwatched buf len = port).
Proof.
  intros Hp. destruct (send_socketwatched_message port Hp) as (bi & Hs & h & Hm).
  eapply delivered_intro; [done | exact Hm | reflexivity |].
  eapply receive_socketwatched_read; [done | slot_lookup].
Qed.

(** A watch-list notification delivers its path, whatever characters it has
    (lone surrogates aside) within the buffer limit. *)
Lemma inotifywatchlist_roundtrip path :
  encodable path = true -> 4 * Z.of_nat (length path) + 256 <= max_buffer_size ->
  delivered (send_inotifywatchlistupdated_to_user path) INOTIFY_WATCH_LIST_UPDATED
    (fun buf len => receive_inotifywatchlistupdated buf len = Some path).
Proof.
  intros Hp Hl.
  destruct (send_inotifywatchlistupdated_message path Hp Hl)
    as (bi & Hs & h & slots & Hm & off & -> & Hoff).
  eapply delivered_intro; [done | exact Hm | reflexivity |].
  eapply receive_inotifywatchlistupdated_read; [done|]. split; [done|].
  exists off. split; [slot_lookup | done].
Qed.

(** C16. Every message of fixed form is delivered: a kill request to the daemon, and
    to the user, the notifications of a launch, a failed launch, an end, the
    listening port, a watched path and a watched socket, each for all values of
    the range of its field (and all text that has an encoding, within the buffer
    limit), are recognised by the dispatcher and decoded to what was sent. *)
Theorem messages_roundtrip :
  (forall pid, in_range SInt32 pid = true ->
     exists bi, send_kill_to_demon pid = Ok bi /\
       bi_size bi = blen (bi_buffer bi) /\
       receive_message_from_user (bi_buffer bi) (bi_size bi) = RObj KILL_PROCESS /\
       receive_kill (bi_buffer bi) (bi_size bi) = pid) /\
  (forall pid, in_range SInt32 pid = true ->
     delivered (send_processlaunched_to_user pid) PROCESS_LAUNCHED
       (fun buf len => receive_processlaunched buf len = pid)) /\
  (forall error_code, in_range SUint32 error_code = true ->
     delivered (send_childcreationerror_to_user error_code) CHILD_CREATION_ERROR
       (fun buf len => receive_childcreationerror buf len = error_code)) /\
  (forall pid error_code, in_range SInt32 pid = true -> in_range SUint32 error_code = true ->
     delivered (send_processterminated_to_user pid error_code) PROCESS_TERMINATED
       (fun buf len => receive_processterminated buf len = RObj (mkProcessTerminatedInfo pid error_code))) /\
  (forall port, in_range SUint16 port = true ->
     delivered (send_tcpsocketlistening_to_user port) TCP_SOCKET_LISTENING
       (fun buf len => receive_TCPSocketListening buf len = port)) /\
  (forall path, encodable path = true -> 4 * Z.of_nat (length path) + 256 <= max_buffer_size ->
     delivered (send_inotifywatchlistupdated_to_user path) INOTIFY_WATCH_LIST_UPDATED
       (fun buf len => receive_inotifywatchlistupdated buf len = Some path)) /\
  (forall port, in_range SInt32 port = true ->
     delivered (send_socketwatched_to_user port) SOCKET_WATCHED
       (fun buf len => receive_socketwatched buf len = port)).
Proof.
  split_and!; [apply kill_roundtrip | apply processlaunched_roundtrip | apply childcreationerror_roundtrip
              | apply processterminated_roundtrip | apply tcpsocketlistening_roundtrip
              | apply inotifywatchlist_roundtrip | apply socketwatched_roundtrip].
Qed.

(** C2. Within the buffer limit, a command is serialized exactly when the format
    can represent it: UTF-8 text, unsigned 32-bit numbers, a signed 32-bit mask,
    and parameters of the class the event type announces.  Otherwise the
    function raises: no representable command is refused, and no value is
    silently truncated.  A watch whose event is a string, which its declared type
    excludes, is dropped without an error and counts for nothing. *)
Theorem command_sent_iff_representable cmd :
  command_weight cmd <= max_buffer_size ->
  is_ok (send_command_to_demon cmd) = command_representable cmd.
Proof.
  intros Hw. destruct (command_representable cmd) eqn:Hr.
  - assert (command_ok cmd = true) as Hok.
    { unfold command_ok. rewrite Hr. by apply Z.leb_le. }
    by destruct (send_command_message cmd Hok) as (bi & -> & _).
  - by destruct (command_raises cmd Hr) as [e ->].
Qed.

(** A kill request is serialized exactly when the pid is a 32-bit integer;
    otherwise the function raises (it has no handler). *)
Lemma kill_sent_iff_in_range pid :
  is_ok (send_kill_to_demon pid) = in_range SInt32 pid.
Proof.
  destruct (in_range SInt32 pid) eqn:Hr.
  - by destruct (send_kill_message pid Hr) as (bi & -> & _).
  - unfold send_kill_to_demon. edestruct send_raises as [e ->]; [|done]. braise.
Qed.

(** C39. A value outside of the range of its field, or a path that has no UTF-8
    encoding, is never sent: the notifications return None, and a kill request,
    which has no handler, raises; it is sent exactly for 32-bit pids. *)
Theorem unrepresentable_not_sent :
  (forall pid, is_ok (send_kill_to_demon pid) = in_range SInt32 pid) /\
  (forall pid, in_range SInt32 pid = false -> send_processlaunched_to_user pid = Ok None) /\
  (forall code, in_range SUint32 code = false -> send_childcreationerror_to_user code = Ok None) /\
  (forall pid code, in_range SInt32 pid = false \/ in_range SUint32 code = false ->
     send_processterminated_to_user pid code = Ok None) /\
  (forall port, in_range SUint16 port = false -> send_tcpsocketlistening_to_user port = Ok None) /\
  (forall port, in_range SInt32 port = false -> send_socketwatched_to_user port = Ok None) /\
  (forall path, utf8_encode path = None -> send_inotifywatchlistupdated_to_user path = Ok None).
Proof.
  split; [apply kill_sent_iff_in_range|]. split_and!; intros; apply try_send_raises; try braise.
  destruct (in_range SInt32 pid) eqn:Hp; [|braise].
  assert (in_range SUint32 code = false) by by destruct H. braise.
Qed.
End roundtrip.

(** ** The theorems at concrete inputs, on the reference runtime *)
Section witnesses.
#[local] Existing Instance ref_runtime.
#[local] Existing Instance ref_laws.

Definition inotify_command : Command := echo_command [inotify_surveillance].

Lemma command_roundtrip_witness :
  command_ok inotify_command = true /\
  exists bi, send_command_to_demon inotify_command = Ok bi /\
    bi_size bi = blen (bi_buffer bi) /\
    receive_message_from_user (bi_buffer bi) (bi_size bi) = RObj RUN_COMMAND /\
    peer_read (bi_buffer bi) = Ok (peer_view inotify_command).
Proof. split; [reflexivity | apply command_roundtrip; reflexivity]. Defined.

Lemma command_encoding_injective_witness :
  peer_view (echo_command [untyped_surveillance]) = peer_view (echo_command []).
Proof.
  eapply command_encoding_injective;
    [reflexivity | reflexivity | vm_compute; reflexivity | vm_compute; reflexivity | reflexivity].
Defined.

Lemma command_sent_iff_representable_witness :
  is_ok (send_command_to_demon (socket_command (2 ^ 32))) = false /\
  is_ok (send_command_to_demon (socket_command 8080)) = true.
Proof.
  split; rewrite command_sent_iff_representable; vm_compute; done.
Defined.

(** A path with characters of one to four bytes. *)
Definition some_path : pystr := str "/tmp/" ++ [233; 8364; 128512].

Lemma messages_roundtrip_witness :
  delivered (send_processterminated_to_user 4242 9) PROCESS_TERMINATED
    (fun buf len => receive_processterminated buf len = RObj (mkProcessTerminatedInfo 4242 9)) /\
  delivered (send_inotifywatchlistupdated_to_user some_path) INOTIFY_WATCH_LIST_UPDATED
    (fun buf len => receive_inotifywatchlistupdated buf len = Some some_path).
Proof.
  destruct messages_roundtrip as (_ & _ & _ & H & _ & H' & _).
  split; [apply H; reflexivity | apply H'; [reflexivity | vm_compute; done]].
Defined.

Lemma unrepresentable_not_sent_witness :
  send_processterminated_to_user 4242 (-1) = Ok None /\
  send_inotifywatchlistupdated_to_user [55296] = Ok None.
Proof.
  destruct unrepresentable_not_sent as (_ & _ & _ & H & _ & _ & H').
  split; [apply H; by right | apply H'; reflexivity].
Defined.
End witnesses.
