(* ===== verification/Protocol.v ===== *)
(** * The protocol as the client sees it

    Dispatch and decoding agree; decoders refuse what is not theirs, on any
    bytes, and their results stay in the ranges of their fields; the messages only the
    daemons build are decoded field by field. *)
From S2P Require Import Prelude Bytes Utf8 FlatBuffers FlatBuffersRef FlatBuffersRefLaws.
From S2P Require Import Enums Tables Data Send Receive BuilderLogic SendFacts.
From S2P Require Import ReadFacts ReceiveFacts ReceiveCommand PeerMessages TestCommands.

(** The enumerations of the client: [Class(value)] is the member of that
    value, and raises [ValueError] on every other integer; the inotify events are
    numbered as in the schema. *)
Lemma enumeration_lookups :
  (forall v s, SocketState_of v = Ok s <-> SocketState_value s = v) /\
  (forall v, (forall s, SocketState_value s <> v) <-> SocketState_of v = Err ValueError) /\
  (forall v e, InotifyEvent_of v = Ok e <-> InotifyEvent_value e = v) /\
  (forall v, (forall e, InotifyEvent_value e <> v) <-> InotifyEvent_of v = Err ValueError) /\
  InotifyEvent_value <$> [MODIFIED; CREATED; SIZE_REACHED; DELETED; ACCESSED] =
    [InotifyEvent.modified; InotifyEvent.created; InotifyEvent.size_reached;
     InotifyEvent.deleted; InotifyEvent.accessed].
Proof.
  split_and!; [| | | |reflexivity].
  - intros v s. split; [apply SocketState_of_value | by intros <-; destruct s].
  - intros v. split.
    + intros H. destruct (SocketState_of v) as [s|e] eqn:E.
      * by apply SocketState_of_value, H in E.
      * unfold SocketState_of in E. by repeat case_match; simplify_eq.
    + intros H s <-. by destruct s.
  - intros v e. split; [apply InotifyEvent_of_value | by intros <-; destruct e].
  - intros v. split.
    + intros H. destruct (InotifyEvent_of v) as [s|e] eqn:E.
      * by apply InotifyEvent_of_value, H in E.
      * unfold InotifyEvent_of in E. by repeat case_match; simplify_eq.
    + intros H s <-. by destruct s.
Qed.

(** The wire tag of the messages a daemon sends, by the event the client uses
    for them. *)
Definition daemon_tag (e : Event) : option Z :=
  match e with
  | PROCESS_LAUNCHED => Some Event.ProcessLaunched
  | CHILD_CREATION_ERROR => Some Event.ChildCreationError
  | PROCESS_TERMINATED => Some Event.ProcessTerminated
  | TCP_SOCKET_LISTENING => Some Event.TCPSocketListening
  | INOTIFY_PATH_UPDATED => Some Event.InotifyPathUpdated
  | INOTIFY_WATCH_LIST_UPDATED => Some Event.InotifyWatchListUpdated
  | SOCKET_WATCHED => Some Event.SocketWatched
  | SOCKET_WATCH_TERMINATED => Some Event.SocketWatchTerminated
  | EXECVE_TERMINATED => Some Event.ExecveTerminated
  | _ => None
  end.

Lemma event_map_spec ty e : event_map !! ty = Some e <-> daemon_tag e = Some ty.
Proof.
  split.
  - unfold event_map. intros H. apply elem_of_list_to_map_2 in H.
    repeat (apply elem_of_cons in H; destruct H as [H|H]; [by inversion H|]).
    by apply elem_of_nil in H.
  - intros H. destruct e; cbn in H; try done; injection H as <-; reflexivity.
Qed.

Section any_buffer.
Context {FB : FlatBuffers}.

Lemma dispatched_as buffer size e :
  event_type buffer size = daemon_tag e -> daemon_tag e <> None ->
  receive_message_from_demon buffer size = RObj e.
Proof.
  intros Ht He. rewrite receive_message_from_demon_type.
  destruct (no_input buffer size) eqn:Hin.
  { unfold event_type in Ht. rewrite Hin in Ht. congruence. }
  rewrite Ht. destruct (daemon_tag e) as [ty|] eqn:E; [|done].
  by rewrite (proj2 (event_map_spec ty e) E).
Qed.

(** The decoders that print the event type read it twice, with the same result. *)
Lemma guarded_decoder_twice {A} (tag : Z) (err : A) (body : Message.Message -> res A) buffer size :
  event_type buffer size <> Some tag ->
  (if no_input buffer size then err
   else catch_all (
     message ← Message.GetRootAsMessage buffer 0;
     actual_type ← Message.EventsType message;
     ty ← Message.EventsType message;
     if negb (ty =? tag) then mret err else body message) err) = err.
Proof.
  intros Hne. rewrite <- (guarded_decoder tag err body buffer size Hne) at 3.
  destruct (no_input buffer size); [done|].
  destruct (Message.GetRootAsMessage buffer 0) as [m|]; [|done]. rewrite !res_bind_ok.
  by destruct (Message.EventsType m).
Qed.

Lemma not_tag_or_dispatched buffer size e ty :
  daemon_tag e = Some ty ->
  event_type buffer size <> Some ty \/ receive_message_from_demon buffer size = RObj e.
Proof.
  intros He. destruct (decide (event_type buffer size = Some ty)) as [H|]; [right | by left].
  apply dispatched_as; congruence.
Qed.

(** Prove one line of the theorem below, for event [e]. *)
Ltac guarded e :=
  let buffer := fresh "buffer" in let size := fresh "size" in let Hty := fresh "Hty" in
  intros buffer size;
  destruct (not_tag_or_dispatched buffer size e _ eq_refl) as [Hty|Hty]; [left | by right];
  first [ exact (guarded_decoder _ _ _ _ _ Hty) | exact (guarded_decoder_twice _ _ _ _ _ Hty) ].

(** C19. On any bytes and any announced size, a decoder gives its error value
    unless the dispatcher says the message is of its type: no decoder
    misreads a message of another type. *)
Theorem decoders_respect_dispatch :
  (forall buf len, receive_processlaunched buf len = -1 \/
     receive_message_from_demon buf len = RObj PROCESS_LAUNCHED) /\
  (forall buf len, receive_childcreationerror buf len = -1 \/
     receive_message_from_demon buf len = RObj CHILD_CREATION_ERROR) /\
  (forall buf len, receive_TCPSocketListening buf len = -1 \/
     receive_message_from_demon buf len = RObj TCP_SOCKET_LISTENING) /\
  (forall buf len, receive_socketwatched buf len = -1 \/
     receive_message_from_demon buf len = RObj SOCKET_WATCHED) /\
  (forall buf len, receive_execveterminated buf len = None \/
     receive_message_from_demon buf len = RObj EXECVE_TERMINATED) /\
  (forall buf len, receive_inotifypathupdated buf len = None \/
     receive_message_from_demon buf len = RObj INOTIFY_PATH_UPDATED) /\
  (forall buf len, receive_inotifywatchlistupdated buf len = None \/
     receive_message_from_demon buf len = RObj INOTIFY_WATCH_LIST_UPDATED) /\
  (forall buf len, receive_socketwatchterminated buf len = None \/
     receive_message_from_demon buf len = RObj SOCKET_WATCH_TERMINATED).
Proof.
  split_and!.
  - guarded PROCESS_LAUNCHED.
  - guarded CHILD_CREATION_ERROR.
  - guarded TCP_SOCKET_LISTENING.
  - guarded SOCKET_WATCHED.
  - guarded EXECVE_TERMINATED.
  - guarded INOTIFY_PATH_UPDATED.
  - guarded INOTIFY_WATCH_LIST_UPDATED.
  - guarded SOCKET_WATCH_TERMINATED.
Qed.

(** An empty buffer, or a size that is not positive, is refused by every
    function before it is looked at. *)
Lemma no_input_refused buf len :
  buf = [] \/ len <= 0 ->
  receive_message_from_demon buf len = RObj NONE /\
  receive_message_from_user buf len = RObj NONE /\
  receive_command buf len = None /\ receive_kill buf len = -1 /\
  receive_execveterminated buf len = None /\ receive_processlaunched buf len = -1 /\
  receive_childcreationerror buf len = -1 /\ receive_processterminated buf len = RNone /\
  receive_TCPSocketListening buf len = -1 /\ receive_inotifypathupdated buf len = None /\
  receive_inotifywatchlistupdated buf len = None /\ receive_socketwatched buf len = -1 /\
  receive_socketwatchterminated buf len = None.
Proof.
  intros H. assert (no_input buf len = true) as Hin.
  { unfold no_input. apply orb_true_iff. rewrite bool_decide_eq_true. destruct H; [by left | right; lia]. }
  unfold receive_message_from_demon, receive_message_from_user, receive_command, receive_kill,
    receive_execveterminated, receive_processlaunched, receive_childcreationerror,
    receive_processterminated, receive_TCPSocketListening, receive_inotifypathupdated,
    receive_inotifywatchlistupdated, receive_socketwatched, receive_socketwatchterminated.
  by rewrite Hin.
Qed.

(** Of the size a caller announces, only the sign matters: no function
    compares it with the length of the buffer. *)
Lemma announced_size_not_checked buf len len' :
  0 < len -> 0 < len' ->
  receive_message_from_demon buf len = receive_message_from_demon buf len' /\
  receive_message_from_user buf len = receive_message_from_user buf len' /\
  receive_kill buf len = receive_kill buf len' /\
  receive_execveterminated buf len = receive_execveterminated buf len' /\
  receive_processlaunched buf len = receive_processlaunched buf len' /\
  receive_childcreationerror buf len = receive_childcreationerror buf len' /\
  receive_processterminated buf len = receive_processterminated buf len' /\
  receive_TCPSocketListening buf len = receive_TCPSocketListening buf len' /\
  receive_inotifypathupdated buf len = receive_inotifypathupdated buf len' /\
  receive_inotifywatchlistupdated buf len = receive_inotifywatchlistupdated buf len' /\
  receive_socketwatched buf len = receive_socketwatched buf len' /\
  receive_socketwatchterminated buf len = receive_socketwatchterminated buf len'.
Proof.
  intros H H'. assert (no_input buf len = no_input buf len') as E.
  { unfold no_input. by rewrite (proj2 (Z.leb_gt len 0)), (proj2 (Z.leb_gt len' 0)) by lia. }
  unfold receive_message_from_demon, receive_message_from_user, receive_kill,
    receive_execveterminated, receive_processlaunched, receive_childcreationerror,
    receive_processterminated, receive_TCPSocketListening, receive_inotifypathupdated,
    receive_inotifywatchlistupdated, receive_socketwatched, receive_socketwatchterminated.
  by rewrite E.
Qed.
End any_buffer.

Section laws.
Context {FB : FlatBuffers} {FBL : FlatBuffersLaws FB}.

(** The dispatcher of daemon messages names every message type of the
    daemons, each by its own event, and nothing else: on a message with tag
    [tag] it returns the event whose tag this is, or NONE when there is none. *)
Lemma dispatcher_correct bi h tag n slots :
  is_message bi h tag n slots ->
  exists e, receive_message_from_demon (bi_buffer bi) (bi_size bi) = RObj e /\
    (e <> NONE -> daemon_tag e = Some tag) /\
    (forall e', daemon_tag e' = Some tag -> e = e').
Proof.
  intros H. exists (default NONE (event_map !! tag)).
  split; [by apply (receive_message_from_demon_read bi h slots tag n)|].
  split.
  - destruct (event_map !! tag) as [e|] eqn:E; [|done]. intros _. by apply event_map_spec.
  - intros e' He'. by rewrite (proj2 (event_map_spec tag e') He').
Qed.

(** The dispatcher of user messages: RUN_COMMAND and KILL_PROCESS by their
    tags, NONE for every other message. *)
Lemma user_dispatcher_correct bi h tag n slots :
  is_message bi h tag n slots ->
  receive_message_from_user (bi_buffer bi) (bi_size bi) =
  RObj (if decide (tag = Event.RunCommand) then RUN_COMMAND
        else if decide (tag = Event.KillProcess) then KILL_PROCESS else NONE).
Proof.
  intros H. rewrite (receive_message_from_user_read bi h slots tag n H). f_equal.
  destruct (Z.eqb_spec tag Event.RunCommand), (decide (tag = Event.RunCommand)); try done.
  by destruct (Z.eqb_spec tag Event.KillProcess), (decide (tag = Event.KillProcess)).
Qed.

(** C20. The two dispatchers name a message by its tag, and nothing else: the one
    for daemon messages gives the event whose tag it is, or NONE when there is
    none; the one for user messages knows commands and kill requests only. *)
Theorem dispatchers_correct bi h tag n slots :
  is_message bi h tag n slots ->
  (exists e, receive_message_from_demon (bi_buffer bi) (bi_size bi) = RObj e /\
     (e <> NONE -> daemon_tag e = Some tag) /\ (forall e', daemon_tag e' = Some tag -> e = e')) /\
  receive_message_from_user (bi_buffer bi) (bi_size bi) =
  RObj (if decide (tag = Event.RunCommand) then RUN_COMMAND
        else if decide (tag = Event.KillProcess) then KILL_PROCESS else NONE).
Proof. intros H. split; [by eapply dispatcher_correct | by eapply user_dispatcher_correct]. Qed.

(** The outcome of an execve, built field by field by a peer, is decoded to
    its pid, the name of the command and whether it succeeded. *)
Lemma execveterminated_decoded pid name success :
  in_range SInt32 pid = true -> text_ok name ->
  delivered (peer_execveterminated pid name success) EXECVE_TERMINATED
    (fun buf len => receive_execveterminated buf len = Some (mkExecveInfo pid name success)).
Proof.
  intros Hp Hn.
  destruct (peer_execveterminated_message pid name success Hp Hn)
    as (bi & Hs & h & slots & Hm & H0 & H1 & H2).
  eapply delivered_intro; [done | exact Hm | reflexivity |].
  by eapply receive_execveterminated_read.
Qed.

(** A path update is decoded to its path, its sizes and the event whose
    number its trigger is; a trigger that is the number of no event makes the
    decoder return None. *)
Lemma inotifypathupdated_decoded path trigger size limit :
  text_ok path -> in_range SInt8 trigger = true ->
  in_range SUint32 size = true -> in_range SUint32 limit = true ->
  delivered (peer_inotifypathupdated path trigger size limit) INOTIFY_PATH_UPDATED
    (fun buf len =>
       (forall e, InotifyEvent_value e = trigger ->
          receive_inotifypathupdated buf len = Some (mkInotifyPathUpdated path e size limit)) /\
       ((forall e, InotifyEvent_value e <> trigger) ->
          receive_inotifypathupdated buf len = None)).
Proof.
  intros Hp Ht Hs Hl.
  destruct (peer_inotifypathupdated_message path trigger size limit Hp Ht Hs Hl)
    as (bi & Hb & h & slots & Hm & H0 & H1 & H2 & H3).
  eapply delivered_intro; [done | exact Hm | reflexivity |].
  rewrite (receive_inotifypathupdated_read _ _ _ path trigger size limit) by done. split.
  - intros e <-. by destruct e.
  - intros Hne. destruct (InotifyEvent_of trigger) as [e|] eqn:E; [|done].
    destruct (Hne e). by apply InotifyEvent_of_value.
Qed.

(** The end of a socket watch is decoded to its port and the client's state
    of the same number; a number without a state makes the decoder return None. *)
Lemma socketwatchterminated_decoded port state :
  in_range SInt32 port = true -> in_range SInt8 state = true ->
  delivered (peer_socketwatchterminated port state) SOCKET_WATCH_TERMINATED
    (fun buf len =>
       (forall s, SocketState_value s = state ->
          receive_socketwatchterminated buf len = Some (mkSocketWatchInfo port s)) /\
       ((forall s, SocketState_value s <> state) ->
          receive_socketwatchterminated buf len = None)).
Proof.
  intros Hp Ht.
  destruct (peer_socketwatchterminated_message port state Hp Ht)
    as (bi & Hb & h & slots & Hm & H0 & H1).
  eapply delivered_intro; [done | exact Hm | reflexivity |].
  rewrite (receive_socketwatchterminated_read _ _ _ port state) by done. split.
  - intros s <-. by destruct s.
  - intros Hne. destruct (SocketState_of state) as [s|] eqn:E; [|done].
    destruct (Hne s). by apply SocketState_of_value.
Qed.

(** The messages only a daemon builds, field by field, are recognised and
    decoded: the outcome of an execve; a path update, to the event its trigger
    numbers, or to None when it numbers none; the end of a socket watch, to the
    client's state of the same number, or None. *)
Lemma peer_messages_decoded :
  (forall pid name success, in_range SInt32 pid = true -> text_ok name ->
     delivered (peer_execveterminated pid name success) EXECVE_TERMINATED
       (fun buf len => receive_execveterminated buf len = Some (mkExecveInfo pid name success))) /\
  (forall path trigger size limit, text_ok path -> in_range SInt8 trigger = true ->
     in_range SUint32 size = true -> in_range SUint32 limit = true ->
     delivered (peer_inotifypathupdated path trigger size limit) INOTIFY_PATH_UPDATED
       (fun buf len =>
          (forall e, InotifyEvent_value e = trigger ->
             receive_inotifypathupdated buf len = Some (mkInotifyPathUpdated path e size limit)) /\
          ((forall e, InotifyEvent_value e <> trigger) -> receive_inotifypathupdated buf len = None))) /\
  (forall port state, in_range SInt32 port = true -> in_range SInt8 state = true ->
     delivered (peer_socketwatchterminated port state) SOCKET_WATCH_TERMINATED
       (fun buf len =>
          (forall s, SocketState_value s = state ->
             receive_socketwatchterminated buf len = Some (mkSocketWatchInfo port s)) /\
          ((forall s, SocketState_value s <> state) -> receive_socketwatchterminated buf len = None))).
Proof.
  split_and!; [apply execveterminated_decoded | apply inotifypathupdated_decoded
              | apply socketwatchterminated_decoded].
Qed.

(** The two requests for a connection: the generated code carries their port
    and their path, but both dispatchers take them for no event, although the
    client's [Event] has a member for each. *)
Lemma connection_requests_not_dispatched destport path :
  in_range SUint32 destport = true -> text_ok path ->
  exists tcp unix,
    peer_establishtcpconnection destport = Ok (Some tcp) /\
    peer_establishunixconnection path = Ok (Some unix) /\
    read_event (bi_buffer tcp) (fun b p =>
      EstablishTCPConnection.Destport (EstablishTCPConnection.Init b p)) = Ok destport /\
    read_event (bi_buffer unix) (fun b p =>
      x ← EstablishUnixConnection.Path (EstablishUnixConnection.Init b p);
      decode_field x) = Ok path /\
    Forall (fun bi => receive_message_from_demon (bi_buffer bi) (bi_size bi) = RObj NONE /\
                      receive_message_from_user (bi_buffer bi) (bi_size bi) = RObj NONE)
      [tcp; unix].
Proof.
  intros Hp Hpath.
  destruct (peer_establishtcpconnection_message destport Hp) as (tcp & Ht & h & slots & Hm & H0).
  destruct (peer_establishunixconnection_message path Hpath)
    as (unix & Hu & h' & slots' & Hm' & He & off & Hoff & Hstr).
  exists tcp, unix. split_and!; [done | done | | |].
  - destruct Hm as (_ & _ & (m & pos & p & [Hr _ Hl _ Htab])%message_read).
    unfold read_event. rewrite Hr, res_bind_ok, Hl, res_bind_ok.
    by apply (scalar_field_read h pos _ _ _ _ Htab SUint32 4 0).
  - destruct Hm' as (_ & _ & (m & pos & p & [Hr _ Hl _ Htab])%message_read).
    unfold read_event. rewrite Hr, res_bind_ok, Hl, res_bind_ok.
    unfold EstablishUnixConnection.Path. cbn.
    rewrite (string_field_read h' pos _ _ _ _ Htab 4 0 off (enc path)) by done. cbn.
    by apply decode_enc.
  - repeat constructor; cbn; eapply undispatched; done || reflexivity.
Qed.

(** What an integer decoder returns, whatever it is given: its error value, or a
    value of the scalar field it reads. *)
Definition field_value (ty : scalar) (r : Z) : Prop := r = -1 \/ in_range ty r = true.

Lemma scalar_field_range ty t vt v : scalar_field ty t vt = Ok v -> in_range ty v = true.
Proof.
  intros (o & _ & H)%res_bind_inv. destruct (o =? 0); [|by apply law_Get_range in H].
  injection H as <-. apply in_range_0.
Qed.

Lemma guarded_field_value ty (tag : Z) (body : Message.Message -> res Z) buf len :
  (forall m v, body m = Ok v -> in_range ty v = true) ->
  field_value ty (if no_input buf len then -1
   else catch_all (
     message ← Message.GetRootAsMessage buf 0;
     ty ← Message.EventsType message;
     if negb (ty =? tag) then mret (-1) else body message) (-1)).
Proof.
  intros Hb. destruct (no_input buf len); [by left|].
  destruct (Message.GetRootAsMessage buf 0) as [m|]; [|by left]. rewrite res_bind_ok.
  destruct (Message.EventsType m) as [z|]; [|by left]. rewrite res_bind_ok.
  destruct (negb (z =? tag)); [by left|].
  destruct (body m) as [v|] eqn:E; [|by left]. right. by apply (Hb m).
Qed.

Lemma guarded_field_value_twice ty (tag : Z) (body : Message.Message -> res Z) buf len :
  (forall m v, body m = Ok v -> in_range ty v = true) ->
  field_value ty (if no_input buf len then -1
   else catch_all (
     message ← Message.GetRootAsMessage buf 0;
     actual_type ← Message.EventsType message;
     ty ← Message.EventsType message;
     if negb (ty =? tag) then mret (-1) else body message) (-1)).
Proof.
  intros Hb. pose proof (guarded_field_value ty tag body buf len Hb) as H.
  destruct (no_input buf len); [done|].
  destruct (Message.GetRootAsMessage buf 0) as [m|]; [|done]. rewrite !res_bind_ok in *.
  by destruct (Message.EventsType m).
Qed.

(** On any bytes, the integer a decoder returns is its error value or a
    value of the field it decodes: a pid fits 32 bits, an error code is unsigned
    and so never the error value itself, a listening port fits 16 bits. *)
Lemma decoded_integers_in_range buf len :
  field_value SInt32 (receive_kill buf len) /\
  field_value SInt32 (receive_processlaunched buf len) /\
  field_value SInt32 (receive_socketwatched buf len) /\
  field_value SUint32 (receive_childcreationerror buf len) /\
  field_value SUint16 (receive_TCPSocketListening buf len).
Proof.
  split_and!;
    first [ refine (guarded_field_value _ _ _ _ _ _)
          | refine (guarded_field_value_twice _ _ _ _ _ _) ];
    intros m v (loc & _ & H)%res_bind_inv; by eapply scalar_field_range.
Qed.
End laws.

(** ** The theorems at concrete inputs, on the reference runtime *)
Section witnesses.
#[local] Existing Instance ref_runtime.
#[local] Existing Instance ref_laws.

Lemma decoders_respect_dispatch_witness :
  receive_processlaunched (bi_buffer ref_kill) (bi_size ref_kill) = -1.
Proof.
  destruct decoders_respect_dispatch as [H _].
  destruct (H (bi_buffer ref_kill) (bi_size ref_kill)) as [E|E]; [exact E|].
  exfalso. revert E. vm_compute. discriminate.
Defined.

Lemma ref_kill_message :
  exists h slots, is_message ref_kill h Event.KillProcess 1 slots.
Proof.
  destruct (send_kill_message 4242 eq_refl) as (bi & Hs & h & Hm).
  rewrite ref_kill_sent in Hs. injection Hs as <-. eauto.
Qed.

Lemma dispatchers_correct_witness :
  receive_message_from_user (bi_buffer ref_kill) (bi_size ref_kill) = RObj KILL_PROCESS.
Proof.
  destruct ref_kill_message as (h & slots & Hm).
  destruct (dispatchers_correct _ _ _ _ _ Hm) as [_ H]. exact H.
Defined.

Lemma peer_messages_decoded_witness :
  delivered (peer_execveterminated 4242 (str "echo") true) EXECVE_TERMINATED
    (fun buf len => receive_execveterminated buf len = Some (mkExecveInfo 4242 (str "echo") true)).
Proof.
  destruct peer_messages_decoded as (H & _). apply H; [reflexivity | by apply text_ok_bool].
Defined.
End witnesses.
