(* ===== verification/Defects.v ===== *)
(** * Where the code does not do what it means to

    Functions that never succeed, values that are lost, and results that do not
    have the declared type.  Each is a theorem about the definitions as they are
    translated. *)
From S2P Require Import Prelude Bytes Utf8 FlatBuffers FlatBuffersRef FlatBuffersRefLaws.
From S2P Require Import Enums Tables Data Send Receive ReceiveCommand BuilderLogic SendFacts.
From S2P Require Import CommandFacts ReadFacts ReceiveFacts PeerMessages Rejection TestCommands.

(** ** [receive_command] *)
Section receive_command.
Context {FB : FlatBuffers}.

(** The generated class has no [ArgsAsNumpy]: the schema has a vector of strings. *)
Lemma no_ArgsAsNumpy r : decode_all (VRunCommand r) "ArgsAsNumpy" = Err (AttributeError "ArgsAsNumpy").
Proof. reflexivity. Qed.

(** The list [ToWatch()] is meant to give needs an index. *)
Lemma ToWatch_needs_index r : call (VRunCommand r) "ToWatch" [] = Err TypeError.
Proof. reflexivity. Qed.

Lemma read_command_raises r : exists e, read_command (VRunCommand r) = Err e.
Proof.
  unfold read_command.
  apply res_bind_always_err. intros p. apply res_bind_always_err. intros path.
  rewrite no_ArgsAsNumpy. by eexists.
Qed.

(** [receive_command] never returns a command: on any bytes it gives None,
    because its first loop calls an accessor the generated class does not have. *)
Lemma receive_command_never_succeeds buf len : receive_command buf len = None.
Proof.
  unfold receive_command. destruct (no_input buf len); [done|].
  destruct (Message.GetRootAsMessage buf 0) as [m|]; [|done]. rewrite res_bind_ok.
  destruct (Message.EventsType m) as [ty|]; [|done]. rewrite res_bind_ok.
  destruct (negb (ty =? Event.RunCommand)); [done|].
  destruct (events_location m) as [loc|]; [|done]. rewrite res_bind_ok. cbn.
  by destruct (read_command_raises (RunCommand.Init loc.1 loc.2)) as [e ->].
Qed.

(** A buffer that has bytes but no readable event type makes three functions
    return the integer -1 where they declare an [Event] or an optional record
    (and document None); the other decoders give their error value. *)
Lemma malformed_buffer_gives_integer buf len :
  no_input buf len = false -> event_type buf len = None ->
  receive_message_from_demon buf len = RInt (-1) /\
  receive_message_from_user buf len = RInt (-1) /\
  receive_processterminated buf len = RInt (-1) /\
  receive_kill buf len = -1 /\ receive_processlaunched buf len = -1 /\
  receive_execveterminated buf len = None /\ receive_inotifywatchlistupdated buf len = None.
Proof.
  unfold event_type, receive_message_from_demon, receive_message_from_user,
    receive_processterminated, receive_kill, receive_processlaunched, receive_execveterminated,
    receive_inotifywatchlistupdated.
  intros -> He. destruct (Message.GetRootAsMessage buf 0) as [m|]; [|done].
  rewrite !res_bind_ok in *. by destruct (Message.EventsType m).
Qed.
End receive_command.

(** ** Senders that never send *)
Section never_sent.
Context {FB : FlatBuffers} {FBL : FlatBuffersLaws FB}.

Lemma try_send_fresh (m : st builder BufferInfo) :
  always_raises m -> (b ← Builder 1024; mret (try_send m b)) = Ok None.
Proof.
  intros Hm. destruct (law_Builder 1024) as (b & -> & _); [unfold max_buffer_size; lia|].
  rewrite res_bind_ok. by rewrite try_send_always_raises.
Qed.

(** No path update is ever sent: the function names [demon.InotifyEvent], a
    module nobody imports, so it returns None for every argument. *)
Lemma inotifypathupdated_never_sent u : send_inotifypathupdated_to_user u = Ok None.
Proof.
  apply try_send_fresh. do 3 (apply always_raises_later; intros ?).
  apply always_raises_here, always_raises_call. by compute_done.
Qed.

(** No end of a socket watch is ever sent: the function calls
    [demon.CreateSocketWatchTerminated], which does not exist (the schema has a
    table, not a struct), so it returns None for every argument. *)
Lemma socketwatchterminated_never_sent w : send_socketwatchterminated_to_user w = Ok None.
Proof.
  apply try_send_fresh. apply always_raises_here, always_raises_here.
  eapply always_raises_lift. reflexivity.
Qed.

(** Two notifications are never sent, whatever their arguments: the senders of
    path updates and of ends of socket watches call names their module does not
    have, and return None. *)
Lemma never_sent u w :
  send_inotifypathupdated_to_user u = Ok None /\ send_socketwatchterminated_to_user w = Ok None.
Proof. split; [apply inotifypathupdated_never_sent | apply socketwatchterminated_never_sent]. Qed.

(** C37. Three functions never succeed, whatever their arguments.  [receive_command]
    gives None on any bytes, because its first loop calls an accessor the
    generated class does not have; the senders of path updates and of ends of
    socket watches call names their module does not have, and return None. *)
Theorem functions_never_succeed buf len u w :
  receive_command buf len = None /\
  send_inotifypathupdated_to_user u = Ok None /\ send_socketwatchterminated_to_user w = Ok None.
Proof. split; [apply receive_command_never_succeeds | apply never_sent]. Qed.
End never_sent.

(** ** Surveillances that are not sent *)
Section surveillances.
Context {FB : FlatBuffers}.

(** The event is a member of the enumeration, not a string. *)
Definition typed_event (sv : Surveillance) : bool :=
  match sv_event sv with EvType _ => true | EvStr _ => false end.

Definition with_watches (cmd : Command) (ws : list Surveillance) : Command :=
  mkCommand (cmd_path cmd) (cmd_args cmd) (cmd_envp cmd) (cmd_flags cmd) (cmd_stack_size cmd) ws.

(** A surveillance whose event is a string, the form [receive_command]
    builds, is dropped without an error: the command is serialized as if it were
    not there. *)
Lemma string_events_dropped cmd :
  send_command_to_demon cmd =
  send_command_to_demon (with_watches cmd (List.filter typed_event (cmd_to_watch cmd))).
Proof.
  unfold send_command_to_demon. destruct (Builder 1024) as [b|]; [|done]. rewrite !res_bind_ok.
  unfold run. f_equal. apply st_bind_ext; [done|]. intros args s1.
  apply st_bind_ext; [done|]. intros envp s2. apply st_bind_ext; [done|]. intros path s3.
  apply st_bind_ext; [|done]. apply collect_filter.
  intros [[t|v] p]; [done | reflexivity].
Qed.

(** A surveillance whose parameters are of the wrong class makes the whole
    command raise; the function has no handler, so the caller sees it. *)
Lemma mismatched_parameters_raise cmd :
  existsb mismatched (cmd_to_watch cmd) = true -> exists e, send_command_to_demon cmd = Err e.
Proof.
  intros (sv & Hin & Hm)%existsb_exists. apply send_always_raises.
  do 3 (apply always_raises_later; intros ?).
  apply always_raises_here, always_raises_collect. apply Exists_exists.
  exists sv. split; [by apply list_elem_of_In | by apply mismatched_raises].
Qed.
End surveillances.

(** ** Two numberings of the state of a socket *)
Section socket_state.
Context {FB : FlatBuffers} {FBL : FlatBuffersLaws FB}.

(** The client numbers the states of a socket differently from the schema: a
    watch that ended because the socket is created is reported as listening, and
    one whose socket is listening as created.  Only "unknown" agrees. *)
Lemma socket_states_swapped port :
  in_range SInt32 port = true ->
  let reported wire state :=
    delivered (peer_socketwatchterminated port wire) SOCKET_WATCH_TERMINATED
      (fun buf len => receive_socketwatchterminated buf len = Some (mkSocketWatchInfo port state)) in
  reported SocketState.created SOCKET_LISTENING /\
  reported SocketState.listeing SOCKET_CREATED /\
  reported SocketState.unknown SOCKET_UNKNOWN.
Proof.
  intros Hp reported.
  assert (forall wire state, in_range SInt8 wire = true -> SocketState_value state = wire ->
            reported wire state) as H; [|by split_and!; apply H].
  intros wire state Hw Hs. unfold reported.
  destruct (peer_socketwatchterminated_message port wire Hp Hw)
    as (bi & Hb & h & slots & Hm & H0 & H1).
  eapply delivered_intro; [done | exact Hm | reflexivity |].
  rewrite (receive_socketwatchterminated_read _ _ _ port wire) by done.
  rewrite <- Hs. by destruct state.
Qed.
End socket_state.

(** ** The theorems at concrete inputs, on the reference runtime *)
Section witnesses.
#[local] Existing Instance ref_runtime.
#[local] Existing Instance ref_laws.

Lemma receive_command_never_succeeds_witness :
  receive_command (bi_buffer ref_kill) (bi_size ref_kill) = None.
Proof. apply receive_command_never_succeeds. Defined.

Lemma malformed_buffer_gives_integer_witness :
  no_input [x00; x01] 2 = false /\ receive_processterminated [x00; x01] 2 = RInt (-1).
Proof.
  split; [reflexivity | apply (malformed_buffer_gives_integer [x00; x01] 2); reflexivity].
Defined.

Lemma never_sent_witness :
  send_inotifypathupdated_to_user (mkInotifyPathUpdated (str "/bin/") ACCESSED 128 256) = Ok None /\
  send_socketwatchterminated_to_user (mkSocketWatchInfo 8080 SOCKET_LISTENING) = Ok None.
Proof. apply never_sent. Defined.

Lemma string_events_dropped_witness :
  send_command_to_demon (echo_command [untyped_surveillance; inotify_surveillance]) =
  send_command_to_demon (echo_command [inotify_surveillance]).
Proof. apply string_events_dropped. Defined.

Lemma socket_states_swapped_witness :
  delivered (peer_socketwatchterminated 8080 SocketState.listeing) SOCKET_WATCH_TERMINATED
    (fun buf len =>
       receive_socketwatchterminated buf len = Some (mkSocketWatchInfo 8080 SOCKET_CREATED)).
Proof. apply (socket_states_swapped 8080). reflexivity. Defined.
End witnesses.
