(* ===== verification/Socket.v ===== *)
(** * The client's end of a TCP connection

    What the sources use of the module [socket] of the standard library, as a
    state: the bytes that will arrive, cut into the segments in which the kernel
    delivers them, the bytes written so far, and whether a write to come fails, after
    an unknown part of its bytes.  A program on a connection may
    raise, and its unbounded loops run on fuel; [OutOfFuel] is kept apart from
    every result and exception. *)
From S2P Require Import Prelude Bytes.

(** What arrives next: bytes, or an error of the connection (a reset). *)
Inductive arrival : Type := Segment (bs : bytes) | Failure.

(** What becomes of what is written: all of it goes out, or the connection breaks after
    some more bytes. *)
Inductive writing : Type := Writable | Breaks (after : nat).

Record sock : Type := mkSock {
  sk_in : list arrival;   (* after the last one: the peer has closed *)
  sk_out : bytes;         (* what was written *)
  sk_writing : writing;
  sk_closed : bool        (* [close] was called *)
}.

Inductive outcome (A : Type) : Type :=
  | Done (a : A) (s : sock)
  | Raised (e : exn) (s : sock)
  | OutOfFuel.
Arguments Done {A} _ _.
Arguments Raised {A} _ _.
Arguments OutOfFuel {A}.

Definition io (A : Type) : Type := sock -> outcome A.

#[global] Instance io_ret : MRet io := fun A a s => Done a s.
#[global] Instance io_bind : MBind io := fun A B f m s =>
  match m s with
  | Done a s' => f a s'
  | Raised e s' => Raised e s'
  | OutOfFuel => OutOfFuel
  end.

(** An expression without effect on the connection. *)
Definition of_res {A} (r : res A) : io A := fun s =>
  match r with Ok a => Done a s | Err e => Raised e s end.

Definition diverge {A} : io A := fun _ => OutOfFuel.

(** [client.recv(n)]: at most [n] bytes, of the first segment that has some; no
    bytes when [n] is 0 or the peer has closed. *)
Fixpoint take_segment (n : nat) (l : list arrival) : option (bytes * list arrival) :=
  match l with
  | [] => Some ([], [])
  | Failure :: _ => None
  | Segment [] :: l' => take_segment n l'
  | Segment bs :: l' =>
      Some (take n bs, if bool_decide (length bs <= n)%nat then l' else Segment (drop n bs) :: l')
  end.

Definition recv (n : Z) : io bytes := fun s =>
  if n =? 0 then Done [] s
  else match take_segment (Z.to_nat n) (sk_in s) with
       | Some (bs, l) => Done bs (mkSock l (sk_out s) (sk_writing s) (sk_closed s))
       | None => Raised OSError s
       end.

(** [client.sendall(bs)]: when it raises, some of the bytes have been sent, or none. *)
Definition sendall (bs : bytes) : io unit := fun s =>
  match sk_writing s with
  | Writable => Done tt (mkSock (sk_in s) (sk_out s ++ bs) Writable (sk_closed s))
  | Breaks n =>
      if bool_decide (length bs <= n)%nat
      then Done tt (mkSock (sk_in s) (sk_out s ++ bs) (Breaks (n - length bs)) (sk_closed s))
      else Raised OSError (mkSock (sk_in s) (sk_out s ++ take n bs) (Breaks 0) (sk_closed s))
  end.

(** [client.close()] *)
Definition close : io unit := fun s =>
  Done tt (mkSock (sk_in s) (sk_out s) (sk_writing s) true).

(** What [socket.socket(...)] and [client.connect((address, port))] find. *)
Inductive network : Type :=
  | Refused
  | Unreachable
  | Connected (arrivals : list arrival) (w : writing).

(** The socket before [connect]. *)
Definition fresh_sock : sock := mkSock [] [] (Breaks 0) false.

Definition connect (net : network) : io unit := fun s =>
  match net with
  | Refused => Raised ConnectionRefusedError s
  | Unreachable => Raised OSError s
  | Connected arrivals w => Done tt (mkSock arrivals [] w false)
  end.

(** [try: m except ConnectionRefusedError: return v except socket.error: return v]:
    every other exception goes through. *)
Definition socket_errors_give {A} (v : A) (m : io A) : io A := fun s =>
  match m s with
  | Raised ConnectionRefusedError s' | Raised OSError s' => Done v s'
  | o => o
  end.

(** ** Lemmas *)
Lemma io_bind_done {A B} (m : io A) (f : A -> io B) s a s' :
  m s = Done a s' -> (m ≫= f) s = f a s'.
Proof. intros H. unfold mbind, io_bind. by rewrite H. Qed.

Lemma io_bind_raised {A B} (m : io A) (f : A -> io B) s e s' :
  m s = Raised e s' -> (m ≫= f) s = Raised e s'.
Proof. intros H. unfold mbind, io_bind. by rewrite H. Qed.

Lemma io_bind_fuel {A B} (m : io A) (f : A -> io B) s :
  m s = OutOfFuel -> (m ≫= f) s = OutOfFuel.
Proof. intros H. unfold mbind, io_bind. by rewrite H. Qed.

Lemma of_res_bind {A B} (r : res A) (f : A -> io B) a : r = Ok a -> (of_res r ≫= f) = f a.
Proof. by intros ->. Qed.

(** Segment by segment: a whole segment, the front of one. *)
Lemma blen_cons_nonzero b bs : (blen (b :: bs) =? 0) = false.
Proof. apply Z.eqb_neq. unfold blen. rewrite length_cons. lia. Qed.

Lemma recv_upto n bs l out w c :
  bs <> [] -> blen bs <= n ->
  recv n (mkSock (Segment bs :: l) out w c) = Done bs (mkSock l out w c).
Proof.
  intros Hne Hn. destruct bs as [|b bs]; [done|]. unfold recv. unfold blen in Hn.
  rewrite (proj2 (Z.eqb_neq n 0)) by (cbn [length] in Hn; lia).
  cbn [sk_in take_segment].
  by rewrite firstn_all2, bool_decide_eq_true_2 by lia.
Qed.

Lemma recv_segment bs l out w c :
  bs <> [] ->
  recv (blen bs) (mkSock (Segment bs :: l) out w c) = Done bs (mkSock l out w c).
Proof. intros Hne. by apply recv_upto. Qed.

Lemma recv_front bs bs' l out w c :
  bs <> [] -> bs' <> [] ->
  recv (blen bs) (mkSock (Segment (bs ++ bs') :: l) out w c) =
  Done bs (mkSock (Segment bs' :: l) out w c).
Proof.
  intros Hne Hne'. destruct bs as [|b bs]; [done|]. unfold recv. rewrite blen_cons_nonzero.
  unfold blen. cbn [sk_in app take_segment]. rewrite Nat2Z.id. change (b :: bs ++ bs') with ((b :: bs) ++ bs').
  rewrite take_app_length, drop_app_length, bool_decide_eq_false_2; [done|].
  rewrite length_app. destruct bs'; [done | cbn; lia].
Qed.

(** Nothing arrives after the peer has closed. *)
Lemma recv_eof n s : sk_in s = [] -> recv n s = Done [] s.
Proof.
  intros H. unfold recv. destruct (n =? 0); [done|]. rewrite H. cbn. by destruct s; cbn in *; subst.
Qed.
