(* ===== verification/Clients.v ===== *)
(** * The client sessions of [tests_python/test_demon.py]

    Each session connects, sends a command as a frame (a four-byte little-endian
    length, then the message), and reads frames until the message it is about
    arrives.  Console output is left out; the time a session measures is a
    parameter ([in_time]: the comparison of [end-start] with its bound).  The
    [while] loops run on fuel. *)
From S2P Require Import Prelude Bytes Utf8 FlatBuffers Enums Tables Data Send Receive Socket.

(** [v == Event.e], [v != None], and the attributes of a result that may not be
    the record they belong to. *)
Definition is_event (v : pyret Event) (e : Event) : bool :=
  match v with RObj e' => bool_decide (e' = e) | _ => false end.

Definition obj_of {A} (name : string) (v : option A) : res A :=
  match v with Some a => Ok a | None => Err (AttributeError name) end.

Definition ret_of {A} (name : string) (v : pyret A) : res A :=
  match v with RObj a => Ok a | _ => Err (AttributeError name) end.

Section clients.
Context `{FB : FlatBuffers}.

(** [size_bytes = client.recv(4); size = int.from_bytes(size_bytes,
    byteorder='little'); res = client.recv(int(size))] *)
Definition recv_message : io (bytes * Z) :=
  size_bytes ← recv 4;
  let size := from_le size_bytes in
  res ← recv size;
  mret (res, size).

(** [header = buf.size.to_bytes(4, byteorder='little');
    client.sendall(header + buf.buffer)] *)
Definition send_message (buf : BufferInfo) : io unit :=
  header ← of_res (int_to_bytes 4 (bi_size buf));
  sendall (header ++ bi_buffer buf).

Definition send_command (command : Command) : io unit :=
  buf ← of_res (send_command_to_demon command);
  send_message buf.

(** [while(receive_message_from_demon(res,size)!=event): recv_message] *)
Fixpoint await (fuel : nat) (event : Event) (msg : bytes * Z) : io (bytes * Z) :=
  match fuel with
  | O => diverge
  | S fuel =>
      if is_event (receive_message_from_demon msg.1 msg.2) event then mret msg
      else next ← recv_message; await fuel event next
  end.

(** From [client = socket.socket(...)] to the end of the loop. *)
Definition session (fuel : nat) (net : network) (command : Command) (event : Event)
    : io (bytes * Z) :=
  _ ← connect net;
  _ ← send_command command;
  msg ← recv_message;
  await fuel event msg.

(** [client.close(); return v] *)
Definition close_and {A} (v : A) : io A := _ ← close; mret v.

Definition connect_to_daemon (net : network) (port : Z) : io (option Z) :=
  socket_errors_give (Some (-1)) (
    _ ← connect net;
    msg ← recv_message;
    let res_port := receive_TCPSocketListening msg.1 msg.2 in
    if res_port =? port then close_and (Some 1) else close_and (Some (-1))).

Definition launch_process (fuel : nat) (net : network) (command : Command) : io (option Z) :=
  socket_errors_give (Some (-1)) (
    msg ← session fuel net command PROCESS_LAUNCHED;
    let data := receive_processlaunched msg.1 msg.2 in
    if data <? 0 then close_and (Some (-1)) else close_and (Some 1)).

Definition execve_executed (fuel : nat) (net : network) (command : Command) : io (option Z) :=
  socket_errors_give (Some (-1)) (
    msg ← session fuel net command EXECVE_TERMINATED;
    data ← of_res (obj_of "pid" (receive_execveterminated msg.1 msg.2));
    if ei_success data && (0 <? ei_pid data) then close_and (Some 1) else close_and (Some (-1))).

(** Its first branch has no [return]. *)
Definition fail_launch_process (fuel : nat) (net : network) (command : Command) : io (option Z) :=
  socket_errors_give (Some (-1)) (
    msg ← session fuel net command EXECVE_TERMINATED;
    data ← of_res (obj_of "pid" (receive_execveterminated msg.1 msg.2));
    if negb (ei_success data) && (0 <? ei_pid data) then close_and None else close_and (Some (-1))).

Definition process_terminated (fuel : nat) (net : network) (command : Command) : io (option Z) :=
  socket_errors_give (Some (-1)) (
    msg ← session fuel net command PROCESS_TERMINATED;
    info ← of_res (ret_of "error_code" (receive_processterminated msg.1 msg.2));
    if (0 <=? pt_pid info) && (pt_error_code info =? 0)
    then close_and (Some 1) else close_and (Some (-1))).

Definition inotify_watchlist_updated (fuel : nat) (net : network) (command : Command)
    : io (option Z) :=
  socket_errors_give (Some (-1)) (
    msg ← session fuel net command INOTIFY_WATCH_LIST_UPDATED;
    match receive_inotifywatchlistupdated msg.1 msg.2 with
    | Some path => close_and (Some 1)
    | None => close_and (Some (-1))
    end).

(** [info.path != None]: the path of a decoded update is a [str]. *)
Definition inotify_event (fuel : nat) (net : network) (command : Command) : io (option Z) :=
  socket_errors_give (Some (-1)) (
    msg ← session fuel net command INOTIFY_PATH_UPDATED;
    info ← of_res (obj_of "path" (receive_inotifypathupdated msg.1 msg.2));
    close_and (Some 1)).

Definition response_time (fuel : nat) (in_time : bool) (net : network) (command : Command)
    : io (option Z) :=
  socket_errors_give (Some (-1)) (
    _ ← connect net;
    _ ← recv_message;
    _ ← send_command command;
    first ← recv_message;
    msg ← await fuel PROCESS_TERMINATED first;
    info ← of_res (ret_of "error_code" (receive_processterminated msg.1 msg.2));
    if (0 <? pt_pid info) && (pt_error_code info =? 0) && in_time
    then close_and (Some 1) else close_and (Some (-1))).

(** The handlers of this one and the next have no [return]. *)
Definition watching_socket (fuel : nat) (net : network) (command : Command) : io (option Z) :=
  socket_errors_give None (
    msg ← session fuel net command SOCKET_WATCHED;
    let port_res := receive_socketwatched msg.1 msg.2 in
    _ ← close;
    if 0 <? port_res then mret (Some 1) else mret (Some (-1))).

Definition socket_listening (fuel : nat) (net : network) (command : Command) : io (option Z) :=
  socket_errors_give None (
    msg ← session fuel net command SOCKET_WATCH_TERMINATED;
    info ← of_res (obj_of "port" (receive_socketwatchterminated msg.1 msg.2));
    if 0 <? sw_port info then close_and (Some 1) else close_and (Some (-1))).

(** The loop of [kill_process]: it asks for the end of each process whose execve
    is reported. *)
Fixpoint await_killing (fuel : nat) (msg : bytes * Z) : io (bytes * Z) :=
  match fuel with
  | O => diverge
  | S fuel =>
      if is_event (receive_message_from_demon msg.1 msg.2) PROCESS_TERMINATED then mret msg
      else
        _ ← (if is_event (receive_message_from_demon msg.1 msg.2) EXECVE_TERMINATED then
               data ← of_res (obj_of "pid" (receive_execveterminated msg.1 msg.2));
               buf ← of_res (send_kill_to_demon (ei_pid data));
               send_message buf
             else mret tt);
        next ← recv_message; await_killing fuel next
  end.

Definition kill_process (fuel : nat) (in_time : bool) (net : network) (command : Command)
    : io (option Z) :=
  socket_errors_give (Some (-1)) (
    _ ← connect net;
    _ ← send_command command;
    first ← recv_message;
    msg ← await_killing fuel first;
    info ← of_res (ret_of "error_code" (receive_processterminated msg.1 msg.2));
    if (0 <? pt_pid info) && (0 <? pt_error_code info) && in_time
    then close_and (Some 1) else close_and (Some (-1))).

(** [assert res != -1] *)
Definition test_passes (o : outcome (option Z)) : bool :=
  match o with Done v _ => negb (bool_decide (v = Some (-1))) | _ => false end.
End clients.
