(* ===== verification/ClientFacts.v ===== *)
(** * Frames and transcripts

    What a session reads from a stream of frames, however the kernel cuts the
    stream between frames, and what it does over a transcript of messages. *)
From S2P Require Import Prelude Bytes Utf8 FlatBuffers Enums Tables Data Send Receive.
From S2P Require Import BuilderLogic SendFacts CommandFacts ReadFacts ReceiveFacts Socket Clients.

(** A message on the wire. *)
Definition frame (msg : bytes) : bytes := to_le 4 (blen msg) ++ msg.

(** The lengths a frame can announce. *)
Definition framable (msg : bytes) : Prop := 0 < blen msg < 2 ^ 32.

Section frames.
Context {FB : FlatBuffers}.

(** The next [recv_message] gives all of [msg], and leaves [l']. *)
Definition next_message (l : list arrival) (msg : bytes) (l' : list arrival) : Prop :=
  forall out w c, recv_message (mkSock l out w c) = Done (msg, blen msg) (mkSock l' out w c).

(** [l] brings the messages [msgs], each read whole, and leaves [l']. *)
Inductive carries : list arrival -> list bytes -> list arrival -> Prop :=
  | carries_nil l : carries l [] l
  | carries_cons l msg l1 msgs l' :
      next_message l msg l1 -> carries l1 msgs l' -> carries l (msg :: msgs) l'.

Lemma carries_app l msgs l1 msgs' l' :
  carries l msgs l1 -> carries l1 msgs' l' -> carries l (msgs ++ msgs') l'.
Proof. induction 1; [done|]. intros. econstructor; [done | auto]. Qed.

Lemma carries_app_inv l msgs msgs' l' :
  carries l (msgs ++ msgs') l' -> exists l1, carries l msgs l1 /\ carries l1 msgs' l'.
Proof.
  revert l. induction msgs as [|m msgs IH]; intros l H; [eexists; split; [constructor | done]|].
  inversion H as [|? ? l1 ? ? Hn Hc]; subst. destruct (IH _ Hc) as (l2 & ? & ?).
  exists l2. split; [by econstructor | done].
Qed.

Lemma nonempty_framable msg : framable msg -> msg <> [].
Proof. intros H ->. unfold framable, blen in H. cbn in H. lia. Qed.

Lemma to_le4_length z : blen (to_le 4 z) = 4.
Proof. apply blen_to_le. Qed.

Lemma to_le4_nonempty z : to_le 4 z <> [].
Proof. done. Qed.

Lemma framed_length msg : framable msg -> from_le (to_le 4 (blen msg)) = blen msg.
Proof. intros [? ?]. apply from_to_le_small. cbn. lia. Qed.

(** The length and the message in segments of their own. *)
Lemma next_message_split msg l :
  framable msg -> next_message (Segment (to_le 4 (blen msg)) :: Segment msg :: l) msg l.
Proof.
  intros Hf out w c. unfold recv_message. rewrite <- (to_le4_length (blen msg)) at 1.
  rewrite (io_bind_done _ _ _ _ _ (recv_segment _ _ _ _ _ (to_le4_nonempty _))).
  rewrite framed_length by done.
  by rewrite (io_bind_done _ _ _ _ _ (recv_segment _ _ _ _ _ (nonempty_framable _ Hf))).
Qed.

(** The frame in front of a segment. *)
Lemma next_message_front msg more l :
  framable msg -> more <> [] ->
  next_message (Segment (frame msg ++ more) :: l) msg (Segment more :: l).
Proof.
  intros Hf Hm out w c. unfold recv_message, frame. rewrite <- app_assoc.
  rewrite <- (to_le4_length (blen msg)) at 1.
  pose proof (nonempty_framable _ Hf) as Hne.
  rewrite (io_bind_done _ _ _ _ _ (recv_front _ (msg ++ more) _ _ _ _ (to_le4_nonempty _)
             ltac:(intros [? ?]%app_eq_nil; done))).
  rewrite framed_length by done.
  by rewrite (io_bind_done _ _ _ _ _ (recv_front _ _ _ _ _ _ Hne Hm)).
Qed.

Lemma next_message_whole msg l : framable msg -> next_message (Segment (frame msg) :: l) msg l.
Proof.
  intros Hf out w c. unfold recv_message, frame.
  rewrite <- (to_le4_length (blen msg)) at 1.
  pose proof (nonempty_framable _ Hf) as Hne.
  rewrite (io_bind_done _ _ _ _ _ (recv_front _ _ _ _ _ _ (to_le4_nonempty _) Hne)).
  rewrite framed_length by done.
  by rewrite (io_bind_done _ _ _ _ _ (recv_segment _ _ _ _ _ Hne)).
Qed.

(** Any number of whole frames in one segment. *)
Definition frames (msgs : list bytes) : bytes := msgs ≫= frame.

Lemma carries_segment msgs l :
  msgs <> [] -> Forall framable msgs -> carries (Segment (frames msgs) :: l) msgs l.
Proof.
  intros Hne HF. revert Hne. induction HF as [|m msgs Hm HF IH]; [done|]. intros _.
  destruct msgs as [|m' msgs].
  - unfold frames. cbn. rewrite app_nil_r. econstructor; [by apply next_message_whole | constructor].
  - econstructor; [|by apply IH]. apply next_message_front; [done|].
    unfold frames, frame. cbn. done.
Qed.

(** ** The loop *)
Definition sees (event : Event) (msg : bytes) : bool :=
  is_event (receive_message_from_demon msg (blen msg)) event.

Lemma await_finds fuel event l msgs final l' msg out w c :
  carries l (msgs ++ [final]) l' ->
  sees event msg = false -> Forall (fun m => sees event m = false) msgs ->
  sees event final = true -> (length msgs + 1 < fuel)%nat ->
  await fuel event (msg, blen msg) (mkSock l out w c) =
  Done (final, blen final) (mkSock l' out w c).
Proof.
  intros Hc Hmsg Hms Hfin. revert l msg fuel Hc Hmsg.
  induction Hms as [|m msgs Hm Hms IH]; intros l msg [|fuel] Hc Hmsg Hlt; try (cbn in *; lia);
    inversion Hc as [|? ? l1 ? ? Hn Hc']; subst; cbn [await fst snd];
    unfold sees in Hmsg; rewrite Hmsg, (io_bind_done _ _ _ _ _ (Hn out w c)).
  - inversion Hc'; subst. destruct fuel as [|fuel]; [cbn in *; lia|]. cbn [await fst snd].
    unfold sees in Hfin. by rewrite Hfin.
  - apply IH; [done..|]. cbn [length] in *. lia.
Qed.

Lemma first_then_await fuel event l msgs final l' out w c :
  carries l (msgs ++ [final]) l' -> Forall (fun m => sees event m = false) msgs ->
  sees event final = true -> (length msgs < fuel)%nat ->
  (msg ← recv_message; await fuel event msg) (mkSock l out w c) =
  Done (final, blen final) (mkSock l' out w c).
Proof.
  intros Hc Hms Hfin Hlt. destruct msgs as [|m msgs].
  - inversion Hc as [|? ? l1 ? ? Hn Hc']; subst. inversion Hc'; subst.
    rewrite (io_bind_done _ _ _ _ _ (Hn out w c)). destruct fuel as [|fuel]; [cbn in *; lia|].
    cbn [await fst snd]. unfold sees in Hfin. by rewrite Hfin.
  - inversion Hc as [|? ? l1 ? ? Hn Hc']; subst. inversion Hms; subst.
    rewrite (io_bind_done _ _ _ _ _ (Hn out w c)).
    eapply await_finds; [done..|]. cbn [length] in *. lia.
Qed.

(** After the peer has closed, the loop finds nothing and does not end. *)
Lemma recv_message_eof out w c :
  recv_message (mkSock [] out w c) = Done ([], 0) (mkSock [] out w c).
Proof. reflexivity. Qed.

Lemma await_eof fuel event out w c :
  event <> NONE -> await fuel event ([], 0) (mkSock [] out w c) = OutOfFuel.
Proof.
  intros He. induction fuel as [|fuel IH]; [done|]. cbn [await fst snd].
  replace (is_event _ event) with false.
  - by rewrite (io_bind_done _ _ _ _ _ (recv_message_eof out w c)).
  - cbn. symmetry. by apply bool_decide_eq_false.
Qed.

Lemma await_never fuel event l msgs msg out w c :
  event <> NONE -> carries l msgs [] ->
  sees event msg = false -> Forall (fun m => sees event m = false) msgs ->
  await fuel event (msg, blen msg) (mkSock l out w c) = OutOfFuel.
Proof.
  intros He Hc Hmsg Hms. revert fuel l msg Hc Hmsg.
  induction Hms as [|m msgs Hm Hms IH]; intros [|fuel] l msg Hc Hmsg; try done;
    inversion Hc as [|? ? l1 ? ? Hn Hc']; subst; cbn [await fst snd];
    unfold sees in Hmsg; rewrite Hmsg.
  - rewrite (io_bind_done _ _ _ _ _ (recv_message_eof out w c)). by apply await_eof.
  - rewrite (io_bind_done _ _ _ _ _ (Hn out w c)). by apply IH.
Qed.

Lemma first_then_await_never fuel event l msgs out w c :
  event <> NONE -> carries l msgs [] -> Forall (fun m => sees event m = false) msgs ->
  (msg ← recv_message; await fuel event msg) (mkSock l out w c) = OutOfFuel.
Proof.
  intros He Hc Hms. destruct Hms as [|m msgs Hm Hms];
    inversion Hc as [|? ? l1 ? ? Hn Hc']; subst.
  - rewrite (io_bind_done _ _ _ _ _ (recv_message_eof out w c)). by apply await_eof.
  - rewrite (io_bind_done _ _ _ _ _ (Hn out w c)). by eapply await_never.
Qed.
End frames.

(** ** The session up to the loop *)
Section session.
Context {FB : FlatBuffers} {FBL : FlatBuffersLaws FB}.

Lemma send_message_frame bi l out c :
  bi_size bi = blen (bi_buffer bi) -> bi_size bi <= max_buffer_size ->
  send_message bi (mkSock l out Writable c) =
  Done tt (mkSock l (out ++ frame (bi_buffer bi)) Writable c).
Proof.
  intros Hs Hle. unfold send_message, int_to_bytes.
  assert (0 <= bi_size bi) by (rewrite Hs; apply blen_nonneg).
  replace ((0 <=? bi_size bi) && (bi_size bi <? 256 ^ Z.of_nat 4)) with true.
  - rewrite (of_res_bind _ _ _ eq_refl), Hs. reflexivity.
  - symmetry. apply andb_true_iff. unfold max_buffer_size in *.
    change (256 ^ Z.of_nat 4) with (2 ^ 32). lia.
Qed.

Lemma send_command_frame cmd l out c :
  command_ok cmd = true ->
  exists bi, send_command_to_demon cmd = Ok bi /\
    send_command cmd (mkSock l out Writable c) =
    Done tt (mkSock l (out ++ frame (bi_buffer bi)) Writable c).
Proof.
  intros Hok. destruct (send_command_message cmd Hok) as (bi & Hb & h & slots & (Hs & Hlen & _) & _).
  exists bi. split; [done|]. unfold send_command. rewrite (of_res_bind _ _ _ Hb).
  apply send_message_frame; [done | lia].
Qed.

Lemma session_finds fuel cmd event l msgs final l' :
  command_ok cmd = true -> carries l (msgs ++ [final]) l' ->
  Forall (fun m => sees event m = false) msgs -> sees event final = true ->
  (length msgs < fuel)%nat ->
  exists bi, send_command_to_demon cmd = Ok bi /\
    session fuel (Connected l Writable) cmd event fresh_sock =
    Done (final, blen final) (mkSock l' (frame (bi_buffer bi)) Writable false).
Proof.
  intros Hok Hc Hms Hfin Hlt. destruct (send_command_frame cmd l [] false Hok) as (bi & Hb & Hsend).
  exists bi. split; [done|]. unfold session.
  rewrite (io_bind_done _ _ _ tt (mkSock l [] Writable false)) by reflexivity.
  rewrite (io_bind_done _ _ _ _ _ Hsend). by apply (first_then_await fuel event l msgs).
Qed.

Lemma session_never fuel cmd event l msgs :
  command_ok cmd = true -> event <> NONE -> carries l msgs [] ->
  Forall (fun m => sees event m = false) msgs ->
  session fuel (Connected l Writable) cmd event fresh_sock = OutOfFuel.
Proof.
  intros Hok He Hc Hms. destruct (send_command_frame cmd l [] false Hok) as (bi & Hb & Hsend).
  unfold session. rewrite (io_bind_done _ _ _ tt (mkSock l [] Writable false)) by reflexivity.
  rewrite (io_bind_done _ _ _ _ _ Hsend). by eapply first_then_await_never.
Qed.

(** A message of a peer is seen as its event, and can be framed. *)
Lemma message_seen bi h tag n slots event :
  is_message bi h tag n slots -> event_map !! tag = Some event ->
  forall event', sees event' (bi_buffer bi) = bool_decide (event = event').
Proof.
  intros Hm He event'. unfold sees. destruct Hm as (Hs & Hm') eqn:E. rewrite <- Hs.
  rewrite (receive_message_from_demon_read _ _ _ _ _ Hm), He. done.
Qed.

Lemma message_framable bi h tag n slots : is_message bi h tag n slots -> framable (bi_buffer bi).
Proof. intros (Hs & Hl & _). unfold framable, max_buffer_size in *. lia. Qed.
End session.

(** ** The loop of [kill_process] *)
Section killing.
Context {FB : FlatBuffers} {FBL : FlatBuffersLaws FB}.

(** Messages the loop skips. *)
Definition quiet (m : bytes) : Prop :=
  sees PROCESS_TERMINATED m = false /\ sees EXECVE_TERMINATED m = false.

Definition then_kill (fuel : nat) : io (bytes * Z) :=
  msg ← recv_message; await_killing fuel msg.

Lemma killing_eof fuel out w c : await_killing fuel ([], 0) (mkSock [] out w c) = OutOfFuel.
Proof. induction fuel as [|fuel IH]; [done|]. cbn. exact IH. Qed.

Lemma killing_quiet fuel m s :
  quiet m -> await_killing (S fuel) (m, blen m) s = then_kill fuel s.
Proof. intros [H1 H2]. cbn [await_killing fst snd]. unfold sees in *. by rewrite H1, H2. Qed.

Lemma killing_skips fuel l msgs m l' out w c :
  carries l (msgs ++ [m]) l' -> Forall quiet msgs ->
  then_kill (length msgs + fuel) (mkSock l out w c) =
  await_killing fuel (m, blen m) (mkSock l' out w c).
Proof.
  intros Hc Hms. revert l Hc. induction Hms as [|m0 msgs Hm Hms IH]; intros l Hc;
    inversion Hc as [|? ? l1 ? ? Hn Hc']; subst; unfold then_kill;
    rewrite (io_bind_done _ _ _ _ _ (Hn out w c)).
  - by inversion Hc'; subst.
  - cbn [length Nat.add]. rewrite killing_quiet by done. by apply IH.
Qed.

Lemma killing_execve fuel m info l out c :
  sees PROCESS_TERMINATED m = false -> sees EXECVE_TERMINATED m = true ->
  receive_execveterminated m (blen m) = Some info -> in_range SInt32 (ei_pid info) = true ->
  exists kb, send_kill_to_demon (ei_pid info) = Ok kb /\
    receive_kill (bi_buffer kb) (bi_size kb) = ei_pid info /\
    await_killing (S fuel) (m, blen m) (mkSock l out Writable c) =
    then_kill fuel (mkSock l (out ++ frame (bi_buffer kb)) Writable c).
Proof.
  intros H1 H2 Hr Hp. destruct (send_kill_message _ Hp) as (kb & Hk & h & Hm).
  exists kb. split_and!; [done | eapply receive_kill_read; [done | slot_lookup] |].
  cbn [await_killing fst snd]. unfold sees in *. rewrite H1, H2, Hr. cbn [obj_of].
  rewrite (of_res_bind _ _ _ eq_refl), (of_res_bind _ _ _ Hk).
  destruct Hm as (Hs & Hle & _).
  by rewrite (io_bind_done _ _ _ _ _ (send_message_frame kb l out c Hs ltac:(lia))).
Qed.

(** The whole loop, over a transcript with one execve. *)
Lemma killing_loop fuel before exec between final info l l' out :
  carries l (before ++ exec :: between ++ [final]) l' ->
  Forall quiet before -> Forall quiet between -> (length before + length between + 1 < fuel)%nat ->
  sees PROCESS_TERMINATED exec = false -> sees EXECVE_TERMINATED exec = true ->
  receive_execveterminated exec (blen exec) = Some info -> in_range SInt32 (ei_pid info) = true ->
  sees PROCESS_TERMINATED final = true ->
  exists kb, send_kill_to_demon (ei_pid info) = Ok kb /\
    receive_kill (bi_buffer kb) (bi_size kb) = ei_pid info /\
    then_kill fuel (mkSock l out Writable false) =
    Done (final, blen final) (mkSock l' (out ++ frame (bi_buffer kb)) Writable false).
Proof.
  intros Hc Hb Hbt Hfuel Hpt Hex Hrecv Hp Hfin.
  replace (before ++ exec :: between ++ [final])
    with ((before ++ [exec]) ++ (between ++ [final])) in Hc by by rewrite <- app_assoc.
  apply carries_app_inv in Hc as (l1 & Hc1 & Hc2).
  set (k := (fuel - length before - length between - 2)%nat).
  destruct (killing_execve (length between + S k) exec info l1 out false Hpt Hex Hrecv Hp)
    as (kb & Hkb & Hkr & Hkill).
  exists kb. split_and!; [done..|].
  replace fuel with (length before + S (length between + S k))%nat by lia.
  rewrite (killing_skips _ _ _ _ _ _ _ _ Hc1 Hb), Hkill.
  rewrite (killing_skips _ _ _ _ _ _ _ _ Hc2 Hbt).
  cbn [await_killing fst snd]. unfold sees in Hfin. by rewrite Hfin.
Qed.
End killing.
