(* ===== verification/Stream.v ===== *)
(** * The messages a session can read

    [stream l]: what successive calls of [recv_message] return on the arrivals
    [l], whatever the bytes and however they are cut, up to the end of the
    connection.  It is a total function (each read consumes at least a byte), and
    the loops of the sessions are proved to be searches in it. *)
From Equations Require Import Equations.
From S2P Require Import Prelude Bytes Utf8 FlatBuffers FlatBuffersRef FlatBuffersRefLaws.
From S2P Require Import Enums Tables Data Send Receive SendFacts CommandFacts TestCommands.
From S2P Require Import Socket Clients ClientFacts.

(** ** Reads, on the arrivals alone *)
Definition bytes_in (l : list arrival) : nat :=
  sum_list_with (fun a => match a with Segment bs => length bs | Failure => 0%nat end) l.

Definition take_bytes (n : Z) (l : list arrival) : option (bytes * list arrival) :=
  if n =? 0 then Some ([], l) else take_segment (Z.to_nat n) l.

(** A message with its announced size, or a failure of the connection, each with
    what is left to read. *)
Inductive read : Type :=
  | Got (msg : bytes * Z) (l : list arrival)
  | Lost (l : list arrival).

Definition next_read (l : list arrival) : read :=
  match take_bytes 4 l with
  | None => Lost l
  | Some (size_bytes, l1) =>
      match take_bytes (from_le size_bytes) l1 with
      | None => Lost l1
      | Some (msg, l2) => Got (msg, from_le size_bytes) l2
      end
  end.

Lemma recv_take n l out w c :
  recv n (mkSock l out w c) =
  match take_bytes n l with
  | Some (bs, l') => Done bs (mkSock l' out w c)
  | None => Raised OSError (mkSock l out w c)
  end.
Proof. unfold recv, take_bytes. by destruct (n =? 0). Qed.

Lemma recv_message_read l out w c :
  recv_message (mkSock l out w c) =
  match next_read l with
  | Got msg l' => Done msg (mkSock l' out w c)
  | Lost l' => Raised OSError (mkSock l' out w c)
  end.
Proof.
  unfold recv_message, next_read, mbind, io_bind. rewrite recv_take.
  destruct (take_bytes 4 l) as [[h l1]|]; [|done]. rewrite recv_take.
  by destruct (take_bytes (from_le h) l1) as [[m l2]|].
Qed.

(** ** A read consumes something, or there is nothing left *)
Lemma take_segment_bytes n l bs l' :
  take_segment n l = Some (bs, l') -> bytes_in l = (length bs + bytes_in l')%nat.
Proof.
  induction l as [|[[|b s]|] l IH]; cbn [take_segment]; [by intros [= <- <-]| done | | done].
  intros [= <- <-]. case_bool_decide as Hn.
  - by rewrite firstn_all2.
  - unfold bytes_in. cbn [sum_list_with]. rewrite length_take, length_drop. lia.
Qed.

Lemma take_segment_nothing n l l' :
  (0 < n)%nat -> take_segment n l = Some ([], l') -> l' = [] /\ bytes_in l = 0%nat.
Proof.
  intros Hn. induction l as [|[[|b s]|] l IH]; cbn [take_segment]; [by intros [= <-]| done | | done].
  destruct n; [lia | done].
Qed.

Lemma take_bytes_bytes n l bs l' :
  take_bytes n l = Some (bs, l') -> (bytes_in l' <= bytes_in l)%nat.
Proof.
  unfold take_bytes. destruct (n =? 0); [by intros [= <- <-]|].
  intros ->%take_segment_bytes. lia.
Qed.

Lemma next_read_progress l msg l' :
  next_read l = Got msg l' ->
  (bytes_in l' < bytes_in l)%nat \/ (bytes_in l = 0%nat /\ msg = ([], 0) /\ l' = []).
Proof.
  unfold next_read. destruct (take_bytes 4 l) as [[h l1]|] eqn:E1; [|done].
  destruct (take_bytes (from_le h) l1) as [[m l2]|] eqn:E2; [|done]. intros [= <- <-].
  apply take_bytes_bytes in E2 as Hle. unfold take_bytes in E1. cbn [Z.eqb] in E1.
  destruct h as [|b h].
  - apply take_segment_nothing in E1 as [-> ?]; [|lia]. injection E2 as <- <-. by right.
  - apply take_segment_bytes in E1. cbn [length] in E1. left. lia.
Qed.

(** ** The stream *)
Inductive ending : Type :=
  | Closed                          (* nothing more, for ever *)
  | Broken (l : list arrival).      (* the read that fails, at [l] *)

Equations? stream (l : list arrival) : list ((bytes * Z) * list arrival) * ending
  by wf (bytes_in l) lt :=
  stream l with next_read l => {
    | Lost l' := ([], Broken l');
    | Got msg l' with decide (bytes_in l' < bytes_in l)%nat => {
        | left _ := ((msg, l') :: (stream l').1, (stream l').2);
        | right _ := ([], Closed) } }.
Proof. all: assumption. Qed.

Lemma length_stream l : (length (stream l).1 <= bytes_in l)%nat.
Proof. funelim (stream l); cbn; lia. Qed.

(** Induction on the reads. *)
Lemma stream_induction (P : list arrival -> Prop) :
  (forall l l', next_read l = Lost l' -> stream l = ([], Broken l') -> P l) ->
  (forall l msg l', next_read l = Got msg l' ->
     stream l = ((msg, l') :: (stream l').1, (stream l').2) -> P l' -> P l) ->
  (forall l, next_read l = Got ([], 0) [] -> stream l = ([], Closed) -> P l) ->
  forall l, P l.
Proof.
  intros Hlost Hgot Hclosed l. funelim (stream l).
  - eapply Hlost; [exact Heq | symmetry; eassumption].
  - eapply Hgot; [eassumption | symmetry; eassumption | by apply H].
  - destruct (next_read_progress l msg l') as [?|(_ & -> & ->)]; [done | done |].
    apply Hclosed; [done | symmetry; eassumption].
Qed.

(** ** The end of the stream *)
Lemma take_segment_failure n l :
  match take_segment n l with
  | Some (_, l') => Failure ∈ l <-> Failure ∈ l'
  | None => Failure ∈ l
  end.
Proof.
  induction l as [|[[|b s]|] l IH]; cbn [take_segment]; [done | | | left].
  - destruct (take_segment n l) as [[bs l']|]; rewrite elem_of_cons; intuition congruence.
  - case_bool_decide; rewrite !elem_of_cons; intuition congruence.
Qed.

Lemma take_bytes_failure n l :
  match take_bytes n l with
  | Some (_, l') => Failure ∈ l <-> Failure ∈ l'
  | None => Failure ∈ l
  end.
Proof. unfold take_bytes. destruct (n =? 0); [done|]. apply take_segment_failure. Qed.

Lemma next_read_failure l :
  match next_read l with
  | Got _ l' => Failure ∈ l <-> Failure ∈ l'
  | Lost _ => Failure ∈ l
  end.
Proof.
  unfold next_read. pose proof (take_bytes_failure 4 l) as H1.
  destruct (take_bytes 4 l) as [[h l1]|]; [|done].
  pose proof (take_bytes_failure (from_le h) l1) as H2.
  destruct (take_bytes (from_le h) l1) as [[m l2]|]; tauto.
Qed.

(** A stream is broken exactly when a failure arrives. *)
Lemma stream_broken_iff l : (stream l).2 <> Closed <-> Failure ∈ l.
Proof.
  induction l as [l l' Hr ->|l msg l' Hr -> IH|l Hr ->] using stream_induction;
    pose proof (next_read_failure l) as H; rewrite Hr in H; cbn.
  - done.
  - rewrite IH. tauto.
  - split; [done|]. intros Hin%H. by apply not_elem_of_nil in Hin.
Qed.

(** ** The loop is a search *)
Section search.
Context {FB : FlatBuffers}.

Definition announces (event : Event) (msg : bytes * Z) : bool :=
  is_event (receive_message_from_demon msg.1 msg.2) event.

(** The first message that announces [event], with what is left after it. *)
Definition awaited (event : Event) (l : list arrival) : option ((bytes * Z) * list arrival) :=
  List.find (fun m => announces event m.1) (stream l).1.

(** What a search of the stream comes to: a message, a failure, or no end. *)
Definition search (event : Event) (l : list arrival) : io (bytes * Z) := fun s =>
  let at_ l' := mkSock l' (sk_out s) (sk_writing s) (sk_closed s) in
  match awaited event l, (stream l).2 with
  | Some (msg, l'), _ => Done msg (at_ l')
  | None, Broken l' => Raised OSError (at_ l')
  | None, Closed => OutOfFuel
  end.

Lemma first_then_await_search fuel event l out w c :
  event <> NONE -> (length (stream l).1 < fuel)%nat ->
  (msg ← recv_message; await fuel event msg) (mkSock l out w c) =
  search event l (mkSock l out w c).
Proof.
  intros He. unfold search, awaited. cbn [sk_out sk_writing sk_closed].
  revert fuel. induction l as [l l' Hr ->|l msg l' Hr -> IH|l Hr ->] using stream_induction;
    intros fuel Hf; cbn [fst snd List.find]; unfold mbind, io_bind; rewrite recv_message_read, Hr.
  - done.
  - cbn [length fst] in Hf. destruct fuel as [|fuel]; [lia|]. cbn [await].
    change (is_event _ event) with (announces event msg).
    destruct (announces event msg); [done|]. apply IH. lia.
  - by apply await_eof.
Qed.

(** Only the loop separates a finished session from an unfinished one. *)
Lemma search_ends event l s :
  search event l s <> OutOfFuel <-> is_Some (awaited event l) \/ (stream l).2 <> Closed.
Proof.
  unfold search. destruct (awaited event l) as [[m l']|]; cbn.
  - split; [by intros; left; eexists | done].
  - destruct (stream l).2; (split; [|intros [[? ?]|?]; done]); [done | by right].
Qed.
End search.
