(* ===== verification/Sessions.v ===== *)
(** * What the sessions conclude

    The verdict of each session over a transcript of the daemon, what it wrote,
    and the situations it does not come back from. *)
From S2P Require Import Prelude Bytes Utf8 FlatBuffers FlatBuffersRef FlatBuffersRefLaws.
From S2P Require Import Enums Tables Data Send Receive BuilderLogic SendFacts CommandFacts.
From S2P Require Import ReadFacts ReceiveFacts PeerMessages Wire TestCommands Socket Clients ClientFacts.

Section sessions.
Context {FB : FlatBuffers} {FBL : FlatBuffersLaws FB}.

Lemma errors_done {A} (v : A) m s a s' : m s = Done a s' -> socket_errors_give v m s = Done a s'.
Proof. intros H. unfold socket_errors_give. by rewrite H. Qed.

Lemma errors_fuel {A} (v : A) m s : m s = OutOfFuel -> socket_errors_give v m s = OutOfFuel.
Proof. intros H. unfold socket_errors_give. by rewrite H. Qed.

(** The end of a session that wrote [out] and concludes [v]. *)
Definition concludes (o : outcome (option Z)) (v : option Z) (l : list arrival) (out : bytes) : Prop :=
  o = Done v (mkSock l out Writable true).

(** A transcript: messages of no interest, then the one the session is about. *)
Definition transcript (event : Event) (l : list arrival) (msgs : list bytes) (final : bytes)
    (l' : list arrival) : Prop :=
  carries l (msgs ++ [final]) l' /\ Forall (fun m => sees event m = false) msgs.

(** A session over a transcript is what follows its loop, run on the awaited
    message, with the framed command written. *)
Lemma session_outcome {A} fuel cmd event l msgs final l' :
  command_ok cmd = true -> transcript event l msgs final l' -> sees event final = true ->
  (length msgs < fuel)%nat ->
  exists bi, send_command_to_demon cmd = Ok bi /\
    forall d : A, forall k : bytes * Z -> io A,
    socket_errors_give d (msg ← session fuel (Connected l Writable) cmd event; k msg) fresh_sock =
    socket_errors_give d (k (final, blen final)) (mkSock l' (frame (bi_buffer bi)) Writable false).
Proof.
  intros Hok [Hc Hms] Hfin Hlt.
  destruct (session_finds fuel cmd event l msgs final l' Hok Hc Hms Hfin Hlt) as (bi & Hb & Hs).
  exists bi. split; [done|]. intros. unfold socket_errors_give. by rewrite (io_bind_done _ _ _ _ _ Hs).
Qed.

(** What the dispatcher says of a message. *)
Lemma shows_seen msg tag n P e :
  shows msg tag n P -> event_map !! tag = Some e -> forall event, sees event msg = bool_decide (e = event).
Proof. intros (h & slots & Hm & _) He. apply (message_seen (sized msg) _ _ _ _ _ Hm He). Qed.

(** The session up to its awaited message, which shows [Hs]. *)
Ltac open_session Hok Ht Hs Hlt cb Hsent Hcb :=
  destruct (session_outcome (A := option Z) _ _ _ _ _ _ _ Hok Ht
              (eq_trans (shows_seen _ _ _ _ _ Hs eq_refl _) eq_refl) Hlt)
    as (cb & Hsent & Hcb).
Ltac awaited Hok Ht Hs Hlt cb Hsent Hcb :=
  open_session Hok Ht Hs Hlt cb Hsent Hcb; exists cb; split; [exact Hsent|].

(** A session that launches a process writes exactly the command, framed,
    skips what the daemon reports first, and concludes 1 on a process-launched
    notification with a valid pid, -1 on one with a negative pid; it closes the
    connection. *)
Lemma launch_process_verdict fuel cmd pid l msgs final l' :
  command_ok cmd = true -> shows_launched pid final ->
  transcript PROCESS_LAUNCHED l msgs final l' -> (length msgs < fuel)%nat ->
  exists bi, send_command_to_demon cmd = Ok bi /\
    concludes (launch_process fuel (Connected l Writable) cmd fresh_sock)
      (Some (if pid <? 0 then -1 else 1)) l' (frame (bi_buffer bi)).
Proof.
  intros Hok Hs Ht Hlt.
  awaited Hok Ht (proj2 Hs) Hlt cb Hsent Hcb. unfold concludes, launch_process. rewrite Hcb. cbn [fst snd].
  rewrite (launched_decoded _ _ Hs).
  by destruct (pid <? 0).
Qed.

(** A session that waits for the end of a process concludes 1 exactly when
    the pid it is told is valid and the exit status is 0. *)
Lemma process_terminated_verdict fuel cmd pid code l msgs final l' :
  command_ok cmd = true -> shows_terminated pid code final ->
  transcript PROCESS_TERMINATED l msgs final l' -> (length msgs < fuel)%nat ->
  exists bi, send_command_to_demon cmd = Ok bi /\
    concludes (process_terminated fuel (Connected l Writable) cmd fresh_sock)
      (Some (if (0 <=? pid) && (code =? 0) then 1 else -1)) l' (frame (bi_buffer bi)).
Proof.
  intros Hok Hs Ht Hlt.
  awaited Hok Ht (proj2 Hs) Hlt cb Hsent Hcb. unfold concludes, process_terminated. rewrite Hcb. cbn [fst snd].
  rewrite (terminated_decoded _ _ _ Hs).
  cbn [ret_of]. rewrite (of_res_bind _ _ _ eq_refl). cbn [pt_pid pt_error_code].
  by destruct ((0 <=? pid) && (code =? 0)).
Qed.

(** The two sessions that look at the outcome of an execve: one concludes 1
    exactly on a success with a positive pid; the other never concludes 1 on the
    failure it is made for, but falls off its end and returns None. *)
Lemma execve_verdicts fuel cmd pid name success l msgs final l' :
  command_ok cmd = true -> shows_execve pid name success final ->
  transcript EXECVE_TERMINATED l msgs final l' -> (length msgs < fuel)%nat ->
  exists bi, send_command_to_demon cmd = Ok bi /\
    concludes (execve_executed fuel (Connected l Writable) cmd fresh_sock)
      (Some (if success && (0 <? pid) then 1 else -1)) l' (frame (bi_buffer bi)) /\
    concludes (fail_launch_process fuel (Connected l Writable) cmd fresh_sock)
      (if negb success && (0 <? pid) then None else Some (-1)) l' (frame (bi_buffer bi)).
Proof.
  intros Hok Hs Ht Hlt.
  awaited Hok Ht (proj2 Hs) Hlt cb Hsent Hcb. unfold concludes, execve_executed, fail_launch_process.
  rewrite !Hcb. cbn [fst snd]. rewrite (execve_decoded _ _ _ _ Hs).
  cbn [obj_of]. rewrite !(of_res_bind _ _ _ eq_refl). cbn [ei_pid ei_success].
  split; [by destruct (success && (0 <? pid)) | by destruct (negb success && (0 <? pid))].
Qed.

(** The sessions about watched files: one concludes 1 on any notification of
    a watched path; the other on an update of a known kind, and an update of an
    unknown kind ends it by an exception no handler catches, the connection
    still open. *)
Lemma inotify_verdicts fuel cmd path l msgs final l' :
  command_ok cmd = true -> (length msgs < fuel)%nat ->
  exists bi, send_command_to_demon cmd = Ok bi /\
    (shows_watch_list path final ->
     transcript INOTIFY_WATCH_LIST_UPDATED l msgs final l' ->
     concludes (inotify_watchlist_updated fuel (Connected l Writable) cmd fresh_sock)
       (Some 1) l' (frame (bi_buffer bi))) /\
    (forall trigger size limit, shows_update path trigger size limit final ->
     transcript INOTIFY_PATH_UPDATED l msgs final l' ->
     inotify_event fuel (Connected l Writable) cmd fresh_sock =
     if is_ok (InotifyEvent_of trigger)
     then Done (Some 1) (mkSock l' (frame (bi_buffer bi)) Writable true)
     else Raised (AttributeError "path") (mkSock l' (frame (bi_buffer bi)) Writable false)).
Proof.
  intros Hok Hlt. destruct (send_command_message cmd Hok) as (cb0 & Hcb0 & _).
  exists cb0. split; [done|]. split.
  - intros Hs Ht. open_session Hok Ht Hs Hlt cb Hsent Hcb. rewrite Hcb0 in Hsent. injection Hsent as <-.
    unfold concludes, inotify_watchlist_updated. rewrite Hcb. cbn [fst snd].
    by rewrite (watch_list_decoded _ _ Hs).
  - intros trigger size limit Hs Ht.
    open_session Hok Ht (proj2 Hs) Hlt cb Hsent Hcb. rewrite Hcb0 in Hsent. injection Hsent as <-.
    unfold inotify_event. rewrite Hcb. cbn [fst snd]. rewrite (update_decoded _ _ _ _ _ Hs).
    by destruct (InotifyEvent_of trigger).
Qed.

(** The sessions about sockets: they conclude 1 exactly on a positive port;
    the end of a watch with a state the client does not know ends its session by
    an exception no handler catches. *)
Lemma socket_verdicts fuel cmd port l msgs final l' :
  command_ok cmd = true -> (length msgs < fuel)%nat ->
  exists bi, send_command_to_demon cmd = Ok bi /\
    (shows_watched port final ->
     transcript SOCKET_WATCHED l msgs final l' ->
     concludes (watching_socket fuel (Connected l Writable) cmd fresh_sock)
       (Some (if 0 <? port then 1 else -1)) l' (frame (bi_buffer bi))) /\
    (forall state, shows_watch_end port state final ->
     transcript SOCKET_WATCH_TERMINATED l msgs final l' ->
     socket_listening fuel (Connected l Writable) cmd fresh_sock =
     if is_ok (SocketState_of state)
     then Done (Some (if 0 <? port then 1 else -1)) (mkSock l' (frame (bi_buffer bi)) Writable true)
     else Raised (AttributeError "port") (mkSock l' (frame (bi_buffer bi)) Writable false)).
Proof.
  intros Hok Hlt. destruct (send_command_message cmd Hok) as (cb0 & Hcb0 & _).
  exists cb0. split; [done|]. split.
  - intros Hs Ht. open_session Hok Ht (proj2 Hs) Hlt cb Hsent Hcb. rewrite Hcb0 in Hsent. injection Hsent as <-.
    unfold concludes, watching_socket. rewrite Hcb. cbn [fst snd]. rewrite (watched_decoded _ _ Hs).
    by destruct (0 <? port).
  - intros state Hs Ht. open_session Hok Ht (proj2 Hs) Hlt cb Hsent Hcb. rewrite Hcb0 in Hsent. injection Hsent as <-.
    unfold socket_listening. rewrite Hcb. cbn [fst snd]. rewrite (watch_end_decoded _ _ _ Hs).
    destruct (SocketState_of state); [|done]. cbn [obj_of].
    rewrite (of_res_bind _ _ _ eq_refl). by destruct (0 <? port) eqn:E; cbn; rewrite E.
Qed.

(** The verdicts of the sessions, each on the notification it awaits, behind
    messages of other kinds.  The launching session concludes by the sign of the
    pid; the execve sessions on the outcome, the one made for failures returning
    None on the failure it expects; the session of a list of watched files on any
    notification, that of updates on those of a known kind; the sockets ones by
    the sign of the port.  A kind or a state the client does not know ends its
    session by an exception no handler catches, the connection still open.  In
    all other cases it is closed, and only the framed command was written. *)
Lemma session_verdicts fuel cmd l msgs final l' :
  command_ok cmd = true -> (length msgs < fuel)%nat ->
  exists bi, send_command_to_demon cmd = Ok bi /\
    let net := Connected l Writable in
    let written := frame (bi_buffer bi) in
    (forall pid, shows_launched pid final -> transcript PROCESS_LAUNCHED l msgs final l' ->
     concludes (launch_process fuel net cmd fresh_sock) (Some (if pid <? 0 then -1 else 1)) l' written) /\
    (forall pid name success, shows_execve pid name success final ->
     transcript EXECVE_TERMINATED l msgs final l' ->
     concludes (execve_executed fuel net cmd fresh_sock)
       (Some (if success && (0 <? pid) then 1 else -1)) l' written /\
     concludes (fail_launch_process fuel net cmd fresh_sock)
       (if negb success && (0 <? pid) then None else Some (-1)) l' written) /\
    (forall path, shows_watch_list path final ->
     transcript INOTIFY_WATCH_LIST_UPDATED l msgs final l' ->
     concludes (inotify_watchlist_updated fuel net cmd fresh_sock) (Some 1) l' written) /\
    (forall path trigger size limit, shows_update path trigger size limit final ->
     transcript INOTIFY_PATH_UPDATED l msgs final l' ->
     inotify_event fuel net cmd fresh_sock =
       if is_ok (InotifyEvent_of trigger) then Done (Some 1) (mkSock l' written Writable true)
       else Raised (AttributeError "path") (mkSock l' written Writable false)) /\
    (forall port, shows_watched port final -> transcript SOCKET_WATCHED l msgs final l' ->
     concludes (watching_socket fuel net cmd fresh_sock) (Some (if 0 <? port then 1 else -1)) l' written) /\
    (forall port state, shows_watch_end port state final ->
     transcript SOCKET_WATCH_TERMINATED l msgs final l' ->
     socket_listening fuel net cmd fresh_sock =
       if is_ok (SocketState_of state)
       then Done (Some (if 0 <? port then 1 else -1)) (mkSock l' written Writable true)
       else Raised (AttributeError "port") (mkSock l' written Writable false)).
Proof.
  intros Hok Hlt. destruct (send_command_message cmd Hok) as (cb & Hcb & _).
  exists cb. split; [done|]. cbv zeta. split_and!.
  - intros pid Hs Ht. destruct (launch_process_verdict fuel cmd pid l msgs final l') as (bi & Hb & H'); [done..|].
    rewrite Hcb in Hb. by injection Hb as <-.
  - intros pid name success Hs Ht.
    destruct (execve_verdicts fuel cmd pid name success l msgs final l') as (bi & Hb & H'); [done..|].
    rewrite Hcb in Hb. by injection Hb as <-.
  - intros path Hs Ht. destruct (inotify_verdicts fuel cmd path l msgs final l') as (bi & Hb & H' & _); [done..|].
    rewrite Hcb in Hb. injection Hb as <-. by apply H'.
  - intros path trigger size limit Hs Ht.
    destruct (inotify_verdicts fuel cmd path l msgs final l') as (bi & Hb & _ & H'); [done..|].
    rewrite Hcb in Hb. injection Hb as <-. by apply (H' trigger size limit).
  - intros port Hs Ht. destruct (socket_verdicts fuel cmd port l msgs final l') as (bi & Hb & H' & _); [done..|].
    rewrite Hcb in Hb. injection Hb as <-. by apply H'.
  - intros port state Hs Ht. destruct (socket_verdicts fuel cmd port l msgs final l') as (bi & Hb & _ & H'); [done..|].
    rewrite Hcb in Hb. injection Hb as <-. by apply (H' state).
Qed.

(** A new connection is accepted exactly when the port the daemon announces
    is the one it was started with. *)
Lemma greeting_verdict port announced l msg l' :
  shows_port announced msg -> carries l [msg] l' ->
  concludes (connect_to_daemon (Connected l Writable) port fresh_sock)
    (Some (if announced =? port then 1 else -1)) l' [].
Proof.
  intros Hs Hc. inversion Hc as [|? ? l1 ? ? Hnext Hc']; subst. inversion Hc'; subst.
  apply errors_done. rewrite (io_bind_done _ _ _ tt (mkSock l [] Writable false)) by reflexivity.
  rewrite (io_bind_done _ _ _ _ _ (Hnext _ _ _)). cbn [fst snd]. rewrite (port_decoded _ _ Hs).
  by destruct (announced =? port).
Qed.

(** The session that kills what it launched, over a transcript of the daemon. *)
Lemma kill_process_verdict fuel in_time cmd pid name pid' code l before exec between final l' :
  command_ok cmd = true -> shows_execve pid name true exec -> shows_terminated pid' code final ->
  carries l (before ++ exec :: between ++ [final]) l' ->
  Forall quiet before -> Forall quiet between -> (length before + length between + 1 < fuel)%nat ->
  exists cb kb, send_command_to_demon cmd = Ok cb /\ send_kill_to_demon pid = Ok kb /\
    receive_kill (bi_buffer kb) (bi_size kb) = pid /\
    concludes (kill_process fuel in_time (Connected l Writable) cmd fresh_sock)
      (Some (if (0 <? pid') && (0 <? code) && in_time then 1 else -1)) l'
      (frame (bi_buffer cb) ++ frame (bi_buffer kb)).
Proof.
  intros Hok Hexec Hfinal Hc Hb Hbt Hfuel.
  pose proof (shows_seen _ _ _ _ _ (proj2 Hexec) eq_refl) as Hsees.
  pose proof (shows_seen _ _ _ _ _ (proj2 Hfinal) eq_refl) as Hsees'.
  destruct (send_command_frame cmd l [] false Hok) as (cb & Hcb & Hsend).
  destruct (killing_loop fuel _ _ _ _ _ l l' (frame (bi_buffer cb)) Hc Hb Hbt Hfuel
              (Hsees _) (Hsees _) (execve_decoded _ _ _ _ Hexec) (proj1 Hexec) (Hsees' _)) as (kb & Hkb & Hkr & Hloop).
  exists cb, kb. split_and!; [done..|]. apply errors_done.
  rewrite (io_bind_done _ _ _ tt (mkSock l [] Writable false)) by reflexivity.
  rewrite (io_bind_done _ _ _ _ _ Hsend).
  revert Hloop. unfold then_kill, mbind, io_bind.
  destruct (recv_message _) as [first s1| |]; [|done..]. intros ->. cbn [fst snd].
  rewrite (terminated_decoded _ _ _ Hfinal).
  cbn [ret_of of_res pt_pid pt_error_code].
  by destruct ((0 <? pid') && (0 <? code) && in_time).
Qed.

(** Writing buffers one after the other, as the daemons and the clients do. *)
Fixpoint send_messages (bufs : list BufferInfo) : io unit :=
  match bufs with
  | [] => mret tt
  | buf :: bufs => _ ← send_message buf; send_messages bufs
  end.

(** A buffer that announces its own length. *)
Definition well_sized (bi : BufferInfo) : Prop :=
  bi_size bi = blen (bi_buffer bi) /\ 0 < bi_size bi <= max_buffer_size.

Lemma send_messages_frames bufs out :
  Forall well_sized bufs ->
  send_messages bufs (mkSock [] out Writable false) =
  Done tt (mkSock [] (out ++ frames (bi_buffer <$> bufs)) Writable false).
Proof.
  intros H. revert out. induction H as [|bi bufs [Hs Hl] _ IH]; intros out; cbn [send_messages].
  - unfold frames. cbn. by rewrite app_nil_r.
  - rewrite (io_bind_done _ _ _ _ _ (send_message_frame bi _ _ _ Hs ltac:(lia))), IH.
    unfold frames. cbn. by rewrite <- app_assoc.
Qed.

(** What a stream of frames may be cut around: each length, and each message. *)
Definition pieces (msgs : list bytes) : list bytes := msgs ≫= fun msg => [to_le 4 (blen msg); msg].

(** The segments that a grouping of pieces makes. *)
Definition segments_of (groups : list (list bytes)) : list arrival := (fun g => Segment (concat g)) <$> groups.

Lemma concat_pieces msgs : concat (pieces msgs) = frames msgs.
Proof.
  induction msgs as [|m msgs IH]; [done|].
  change (concat (to_le 4 (blen m) :: m :: pieces msgs) = frame m ++ frames msgs).
  cbn [concat]. rewrite IH. unfold frame. by rewrite <- app_assoc.
Qed.

Lemma concat_groups (groups : list (list bytes)) : concat ((fun g => concat g) <$> groups) = concat (concat groups).
Proof. induction groups as [|g groups IH]; [done|]. cbn. by rewrite concat_app, IH. Qed.

(** A piece is read whole, wherever the next segments start. *)
Lemma recv_piece groups p ps :
  concat groups = p :: ps -> p <> [] -> Forall (fun p => p <> []) ps ->
  exists groups', concat groups' = ps /\ forall out w c,
    recv (blen p) (mkSock (segments_of groups) out w c) = Done p (mkSock (segments_of groups') out w c).
Proof.
  intros E Hp Hps. induction groups as [|[|p' g] groups IH]; [done | |].
  { destruct (IH E) as (groups' & E' & Hr). exists groups'. split; [exact E'|]. intros out w c.
    specialize (Hr out w c). revert Hr. change (segments_of ([] :: groups)) with (Segment [] :: segments_of groups).
    unfold recv. destruct p as [|b p]; [done|]. rewrite blen_cons_nonzero. cbn [sk_in sk_out sk_writing sk_closed take_segment].
    destruct (take_segment (Z.to_nat (blen (b :: p))) (segments_of groups)) as [[bs l']|]; [done|]. discriminate. }
  cbn in E. injection E as -> <-. destruct g as [|q g].
  - exists groups. split; [done|]. intros out w c. cbn. rewrite app_nil_r. by apply recv_segment.
  - exists ((q :: g) :: groups). split; [done|]. intros out w c. cbn. apply recv_front; [done|].
    apply Forall_cons in Hps as [Hq _]. by destruct q.
Qed.

Lemma pieces_nonempty msgs : Forall framable msgs -> Forall (fun p => p <> []) (pieces msgs).
Proof.
  induction 1 as [|m msgs Hm _ IH]; [constructor|]. constructor; [apply to_le4_nonempty|].
  constructor; [by apply nonempty_framable | exact IH].
Qed.

Lemma pieces_carried msgs groups :
  Forall framable msgs -> concat groups = pieces msgs -> exists rest, concat rest = [] /\
    carries (segments_of groups) msgs (segments_of rest).
Proof.
  intros H. revert groups. induction H as [|m msgs Hm HF IH]; intros groups E.
  - exists groups. split; [done | constructor].
  - pose proof (pieces_nonempty msgs HF) as Hne. pose proof (nonempty_framable m Hm) as Hm0.
    assert (exists groups', concat groups' = pieces msgs /\
      next_message (segments_of groups) m (segments_of groups')) as (groups' & E' & Hn).
    { destruct (recv_piece groups (to_le 4 (blen m)) (m :: pieces msgs) E) as (g1 & E1 & R1);
        [apply to_le4_nonempty | by constructor |].
      destruct (recv_piece g1 m (pieces msgs) E1) as (g2 & E2 & R2); [done..|].
      exists g2. split; [done|]. intros out w c. unfold recv_message. rewrite <- (to_le4_length (blen m)) at 1.
      rewrite (io_bind_done _ _ _ _ _ (R1 out w c)), framed_length by done.
      by rewrite (io_bind_done _ _ _ _ _ (R2 out w c)). }
    destruct (IH groups' E') as (rest & Er & Hc). exists rest. split; [done|]. by econstructor.
Qed.

(** A message cut in two by the kernel is not reassembled: [recv_message]
    gives the front of it as if it were whole, with the announced size, and the
    rest is where the next length will be read. *)
Lemma cut_message front rest l out w c :
  front <> [] -> framable (front ++ rest) ->
  recv_message (mkSock (Segment (to_le 4 (blen (front ++ rest)) ++ front) :: Segment rest :: l) out w c)
  = Done (front, blen (front ++ rest)) (mkSock (Segment rest :: l) out w c).
Proof.
  intros Hne Hf. unfold recv_message. rewrite <- (to_le4_length (blen (front ++ rest))) at 1.
  rewrite (io_bind_done _ _ _ _ _ (recv_front _ _ _ _ _ _ (to_le4_nonempty _) Hne)).
  rewrite framed_length by done.
  rewrite (io_bind_done _ _ _ _ _ (recv_upto (blen (front ++ rest)) _ _ _ _ _ Hne
             ltac:(rewrite blen_app; pose proof (blen_nonneg rest); lia))).
  done.
Qed.

(** C31. Framing: the messages one side writes are read back by the other, each
    whole and in order, in whatever segments the stream of bytes comes, as long as no
    length and no message is cut: a segment may end between messages, or between a
    length and its message, may hold any number of them, or nothing.  A message that is
    cut is not reassembled: its front is taken as if it were whole, and its rest is
    where the next length is read. *)
Theorem framing_roundtrip (bufs : list BufferInfo) :
  (Forall well_sized bufs ->
   let msgs := bi_buffer <$> bufs in
   send_messages bufs (mkSock [] [] Writable false) = Done tt (mkSock [] (frames msgs) Writable false) /\
   forall groups, concat groups = pieces msgs ->
     concat ((fun g => concat g) <$> groups) = frames msgs /\
     exists rest, concat rest = [] /\ carries (segments_of groups) msgs (segments_of rest)) /\
  (forall front rest l out w c, front <> [] -> framable (front ++ rest) ->
   recv_message (mkSock (Segment (to_le 4 (blen (front ++ rest)) ++ front) :: Segment rest :: l) out w c)
   = Done (front, blen (front ++ rest)) (mkSock (Segment rest :: l) out w c)).
Proof.
  split; [|apply cut_message]. intros H msgs. split; [by apply send_messages_frames|]. intros groups E.
  rewrite concat_groups, E, concat_pieces. split; [done|]. apply pieces_carried; [|done].
  apply Forall_fmap. eapply Forall_impl; [exact H|]. intros bi [Hs Hl].
  unfold framable, max_buffer_size in *. cbn. lia.
Qed.

(** When the daemon closes the connection without the awaited message, the
    session does not conclude: for every bound on its iterations it is still in
    its loop, reading no bytes and taking them for no event. *)
Lemma session_never_ends_after_close fuel cmd l msgs :
  command_ok cmd = true -> carries l msgs [] ->
  Forall (fun m => sees PROCESS_LAUNCHED m = false) msgs ->
  launch_process fuel (Connected l Writable) cmd fresh_sock = OutOfFuel.
Proof.
  intros Hok Hc Hms. apply errors_fuel.
  by apply io_bind_fuel, (session_never fuel cmd PROCESS_LAUNCHED l msgs).
Qed.

(** A refused connection: most sessions conclude -1, which fails their test,
    but the two about sockets return None, which their tests accept. *)
Lemma refused_connection fuel cmd port in_time :
  test_passes (connect_to_daemon Refused port fresh_sock) = false /\
  test_passes (launch_process fuel Refused cmd fresh_sock) = false /\
  test_passes (process_terminated fuel Refused cmd fresh_sock) = false /\
  test_passes (execve_executed fuel Refused cmd fresh_sock) = false /\
  test_passes (kill_process fuel in_time Refused cmd fresh_sock) = false /\
  test_passes (response_time fuel in_time Refused cmd fresh_sock) = false /\
  test_passes (watching_socket fuel Refused cmd fresh_sock) = true /\
  test_passes (socket_listening fuel Refused cmd fresh_sock) = true.
Proof. by split_and!. Qed.
End sessions.

(** ** The theorems at concrete inputs, on the reference runtime *)
Section witnesses.
#[local] Existing Instance ref_runtime.
#[local] Existing Instance ref_laws.

Definition greeting : bytes := message_of (send_tcpsocketlistening_to_user 8080).
Definition launched : bytes := message_of (send_processlaunched_to_user 4242).
Definition executed (success : bool) : bytes :=
  message_of (peer_execveterminated 4242 (str "/bin/ls") success).
Definition ended (code : Z) : bytes := message_of (send_processterminated_to_user 4242 code).
Definition failed : bytes := message_of (send_childcreationerror_to_user 11).

(** Everything the daemon says, in one segment. *)
Definition one_segment (msgs : list bytes) : list arrival := [Segment (frames msgs)].

Ltac framables := repeat constructor; vm_compute; done.
Ltac one_transcript :=
  split;
  [ match goal with |- carries _ (?msgs ++ ?final) _ => apply (carries_segment (msgs ++ final) []) end;
    [done | framables]
  | repeat constructor; vm_compute; done ].
Ltac notified := eexists; split; [vm_compute; reflexivity | vm_compute; reflexivity].

Definition path_updated (trigger : Z) : bytes :=
  message_of (peer_inotifypathupdated (str "/bin/") trigger 128 256).

(** The session made for failures, on a failure; and that of updates, on an unknown
    kind. *)
Lemma session_verdicts_witness :
  (exists bi, send_command_to_demon ls_command = Ok bi /\
     concludes (fail_launch_process 5
         (Connected (one_segment [greeting; launched; executed false]) Writable) ls_command fresh_sock)
       None [] (frame (bi_buffer bi))) /\
  exists bi, send_command_to_demon (echo_command [inotify_surveillance]) = Ok bi /\
    inotify_event 5 (Connected (one_segment [greeting; path_updated 9]) Writable)
      (echo_command [inotify_surveillance]) fresh_sock =
    Raised (AttributeError "path") (mkSock [] (frame (bi_buffer bi)) Writable false).
Proof.
  split.
  - destruct (session_verdicts 5 ls_command (one_segment [greeting; launched; executed false])
                [greeting; launched] (executed false) []) as (bi & Hb & _ & H & _);
      [reflexivity | cbn; lia |].
    exists bi. split; [exact Hb|].
    apply (H 4242 (str "/bin/ls") false); [|one_transcript].
    by apply notifies_execve; [reflexivity | apply text_ok_bool | notified].
  - destruct (session_verdicts 5 (echo_command [inotify_surveillance])
                (one_segment [greeting; path_updated 9]) [greeting] (path_updated 9) [])
      as (bi & Hb & _ & _ & _ & H & _); [reflexivity | cbn; lia |].
    exists bi. split; [exact Hb|].
    apply (H (str "/bin/") 9 128 256); [|one_transcript].
    by apply notifies_update; [apply text_ok_bool | reflexivity.. | notified].
Defined.

Lemma greeting_verdict_example :
  concludes (connect_to_daemon (Connected (one_segment [greeting]) Writable) 9090 fresh_sock)
    (Some (-1)) [] [].
Proof.
  apply (greeting_verdict 9090 8080 _ greeting []); [by apply notifies_port; [reflexivity | notified] |].
  apply (carries_segment [greeting] []); [done | framables].
Defined.

(** Three messages; a segment ends after the second length. *)
Lemma framing_roundtrip_witness :
  let msg := bi_buffer ref_kill in
  let size := to_le 4 (blen msg) in
  exists rest, concat rest = [] /\
    carries [Segment (size ++ msg ++ size); Segment (msg ++ size ++ msg)] [msg; msg; msg] (segments_of rest).
Proof.
  intros msg size.
  destruct (framing_roundtrip [ref_kill; ref_kill; ref_kill]) as [H _].
  destruct H as [_ H]; [repeat constructor; vm_compute; done|].
  destruct (H [[size; msg; size]; [msg; size; msg]] eq_refl) as (_ & rest & E & Hc). exists rest. split; [exact E|].
  unfold segments_of in Hc at 1. cbn [fmap list_fmap concat] in Hc. rewrite !app_nil_r in Hc. exact Hc.
Defined.

End witnesses.
