(* ===== verification/SessionSpec.v ===== *)
(** * Sessions against an abstract specification

    At the level of messages a session is a search: it takes the first message of
    the stream that announces the awaited event and judges it.  The sessions of
    Clients are proved to refine this specification, on all arrivals; from it
    come their termination and, with an invariant on what is written, what a
    daemon can receive from them. *)
From S2P Require Import Prelude Bytes Utf8 FlatBuffers FlatBuffersRef FlatBuffersRefLaws.
From S2P Require Import Enums Tables Data Send Receive BuilderLogic SendFacts CommandFacts.
From S2P Require Import ReadFacts ReceiveFacts PeerMessages TestCommands Rejection Socket Clients.
From S2P Require Import ClientFacts Stream Sessions.

(** ** The specification *)
Section spec.
Context {FB : FlatBuffers}.

(** What a session concludes from the awaited message: a verdict, or an exception
    no handler catches. *)
Definition judgement : Type := bytes * Z -> res (option Z).

Definition verdict (b : bool) : option Z := Some (if b then 1 else -1).

Definition judge_launched : judgement := fun m =>
  Ok (verdict (negb (receive_processlaunched m.1 m.2 <? 0))).
Definition judge_executed : judgement := fun m =>
  data ← obj_of "pid" (receive_execveterminated m.1 m.2);
  mret (verdict (ei_success data && (0 <? ei_pid data))).
Definition judge_failed : judgement := fun m =>
  data ← obj_of "pid" (receive_execveterminated m.1 m.2);
  mret (if negb (ei_success data) && (0 <? ei_pid data) then None else Some (-1)).
Definition judge_terminated : judgement := fun m =>
  info ← ret_of "error_code" (receive_processterminated m.1 m.2);
  mret (verdict ((0 <=? pt_pid info) && (pt_error_code info =? 0))).
Definition judge_in_time (in_time : bool) : judgement := fun m =>
  info ← ret_of "error_code" (receive_processterminated m.1 m.2);
  mret (verdict ((0 <? pt_pid info) && (pt_error_code info =? 0) && in_time)).
Definition judge_watch_list : judgement := fun m =>
  Ok (verdict (bool_decide (is_Some (receive_inotifywatchlistupdated m.1 m.2)))).
Definition judge_path : judgement := fun m =>
  info ← obj_of "path" (receive_inotifypathupdated m.1 m.2); mret (verdict true).
Definition judge_watched : judgement := fun m =>
  Ok (verdict (0 <? receive_socketwatched m.1 m.2)).
Definition judge_watch_ended : judgement := fun m =>
  info ← obj_of "port" (receive_socketwatchterminated m.1 m.2);
  mret (verdict (0 <? sw_port info)).

(** A session that awaits [event], judges it by [judge] and answers [d] to a
    failure of the connection, on the arrivals [l], having written [out].  It
    closes the connection when it has judged, and only then. *)
Definition spec (event : Event) (judge : judgement) (d : option Z)
    (l : list arrival) (out : bytes) : outcome (option Z) :=
  match awaited event l, (stream l).2 with
  | Some (msg, l'), _ =>
      match judge msg with
      | Ok v => Done v (mkSock l' out Writable true)
      | Err e => Raised e (mkSock l' out Writable false)
      end
  | None, Broken l' => Done d (mkSock l' out Writable false)
  | None, Closed => OutOfFuel
  end.
End spec.

(** ** Refinement *)
Section refinement.
Context {FB : FlatBuffers} {FBL : FlatBuffersLaws FB}.

Lemma session_search fuel cmd event l out0 cb w c :
  event <> NONE -> (bytes_in l < fuel)%nat -> send_command_to_demon cmd = Ok cb ->
  send_command cmd (mkSock l [] w c) = Done tt (mkSock l out0 w c) -> w = Writable -> c = false ->
  session fuel (Connected l Writable) cmd event fresh_sock = search event l (mkSock l out0 Writable false).
Proof.
  intros He Hf Hcb Hs -> ->. pose proof (length_stream l). unfold session.
  rewrite (io_bind_done _ _ _ tt (mkSock l [] Writable false)) by reflexivity.
  rewrite (io_bind_done _ _ _ _ _ Hs). apply first_then_await_search; [done | lia].
Qed.

(** What follows the search, judged. *)
Lemma search_judged event judge d l out (k : bytes * Z -> io (option Z)) :
  (forall msg l', k msg (mkSock l' out Writable false) =
     match judge msg with
     | Ok v => Done v (mkSock l' out Writable true)
     | Err e => Raised e (mkSock l' out Writable false)
     end) ->
  (forall msg e, judge msg = Err e -> exists name, e = AttributeError name) ->
  socket_errors_give d (msg ← search event l; k msg) (mkSock l out Writable false) =
  spec event judge d l out.
Proof.
  intros Hk He. unfold socket_errors_give, spec, mbind, io_bind, search. cbn.
  destruct (awaited event l) as [[msg l']|]; [|by destruct (stream l).2].
  rewrite Hk. destruct (judge msg) eqn:E; [done|]. by destruct (He _ _ E) as [name ->].
Qed.

Lemma session_refines fuel cmd event judge d l cb (k : bytes * Z -> io (option Z)) :
  event <> NONE -> (bytes_in l < fuel)%nat -> command_ok cmd = true ->
  send_command_to_demon cmd = Ok cb ->
  (forall msg l' out, k msg (mkSock l' out Writable false) =
     match judge msg with
     | Ok v => Done v (mkSock l' out Writable true)
     | Err e => Raised e (mkSock l' out Writable false)
     end) ->
  (forall msg e, judge msg = Err e -> exists name, e = AttributeError name) ->
  socket_errors_give d (msg ← session fuel (Connected l Writable) cmd event; k msg) fresh_sock =
  spec event judge d l (frame (bi_buffer cb)).
Proof.
  intros He Hf Hok Hcb Hk Hj.
  destruct (send_command_frame cmd l [] false Hok) as (cb' & Hcb' & Hs).
  rewrite Hcb in Hcb'. injection Hcb' as <-.
  rewrite <- (search_judged event judge d l _ k) by auto.
  unfold socket_errors_give, mbind, io_bind.
  by rewrite (session_search fuel cmd event l _ cb _ _ He Hf Hcb Hs).
Qed.

(** Judgements raise nothing but [AttributeError]. *)
Lemma obj_of_bind {A} name (v : option A) (f : A -> res (option Z)) e :
  (forall a, exists x, f a = Ok x) ->
  (obj_of name v ≫= f) = Err e -> exists name', e = AttributeError name'.
Proof. intros Hf. destruct v as [a|]; cbn; [by destruct (Hf a) as [x ->] | intros [= <-]; eauto]. Qed.

Lemma ret_of_bind {A} name (v : pyret A) (f : A -> res (option Z)) e :
  (forall a, exists x, f a = Ok x) ->
  (ret_of name v ≫= f) = Err e -> exists name', e = AttributeError name'.
Proof.
  intros Hf. destruct v as [|a|]; cbn; [| by destruct (Hf a) as [x ->] |]; intros [= <-]; eauto.
Qed.

(** The session that reads the greeting first. *)
Lemma timed_refines fuel cmd event judge d l cb (k : bytes * Z -> io (option Z)) :
  event <> NONE -> (bytes_in l < fuel)%nat -> command_ok cmd = true ->
  send_command_to_demon cmd = Ok cb ->
  (forall msg l' out, k msg (mkSock l' out Writable false) =
     match judge msg with
     | Ok v => Done v (mkSock l' out Writable true)
     | Err e => Raised e (mkSock l' out Writable false)
     end) ->
  (forall msg e, judge msg = Err e -> exists name, e = AttributeError name) ->
  socket_errors_give d (
    _ ← connect (Connected l Writable); _ ← recv_message; _ ← send_command cmd;
    first ← recv_message; msg ← await fuel event first; k msg) fresh_sock =
  match next_read l with
  | Got _ l1 => spec event judge d l1 (frame (bi_buffer cb))
  | Lost l1 => Done d (mkSock l1 [] Writable false)
  end.
Proof.
  intros He Hf Hok Hcb Hk Hj. unfold socket_errors_give, mbind at 1 2, io_bind at 1 2.
  cbn [connect]. rewrite recv_message_read. destruct (next_read l) as [msg l1|l1] eqn:Hr; [|done].
  assert (bytes_in l1 < fuel)%nat by (destruct (next_read_progress _ _ _ Hr) as [|(? & _ & ->)]; cbn in *; lia).
  destruct (send_command_frame cmd l1 [] false Hok) as (cb' & Hcb' & Hs).
  rewrite Hcb in Hcb'. injection Hcb' as <-. rewrite (io_bind_done _ _ _ _ _ Hs).
  pose proof (length_stream l1).
  pose proof (first_then_await_search fuel event l1 (frame (bi_buffer cb)) Writable false He ltac:(lia)) as Hsearch.
  rewrite <- (search_judged event judge d l1 _ k) by auto.
  unfold socket_errors_give. unfold mbind, io_bind in *. rewrite <- Hsearch.
  cbn [app]. by destruct (recv_message _).
Qed.

Ltac judgement_raises :=
  intros ? ?; first [ done | apply obj_of_bind; eauto | apply ret_of_bind; eauto ].

(** One session: its continuation is its judgement. *)
Ltac refines :=
  eapply session_refines;
    [done | eassumption | eassumption | eassumption | intros msg l' out | judgement_raises].

(** Case analysis on what a decoder returned and on the tests of the verdict. *)
Ltac verdicts :=
  unfold obj_of, ret_of, of_res, close_and, verdict, mbind, io_bind, res_bind, mret, io_ret, res_ret;
  cbn; repeat match goal with |- context [if ?b then _ else _] => destruct b end; done.

Lemma sessions_refine fuel cmd l :
  command_ok cmd = true -> (bytes_in l < fuel)%nat ->
  forall cb, send_command_to_demon cmd = Ok cb ->
    let net := Connected l Writable in
    let out := frame (bi_buffer cb) in
    launch_process fuel net cmd fresh_sock =
      spec PROCESS_LAUNCHED judge_launched (Some (-1)) l out /\
    execve_executed fuel net cmd fresh_sock =
      spec EXECVE_TERMINATED judge_executed (Some (-1)) l out /\
    fail_launch_process fuel net cmd fresh_sock =
      spec EXECVE_TERMINATED judge_failed (Some (-1)) l out /\
    process_terminated fuel net cmd fresh_sock =
      spec PROCESS_TERMINATED judge_terminated (Some (-1)) l out /\
    inotify_watchlist_updated fuel net cmd fresh_sock =
      spec INOTIFY_WATCH_LIST_UPDATED judge_watch_list (Some (-1)) l out /\
    inotify_event fuel net cmd fresh_sock =
      spec INOTIFY_PATH_UPDATED judge_path (Some (-1)) l out /\
    watching_socket fuel net cmd fresh_sock = spec SOCKET_WATCHED judge_watched None l out /\
    socket_listening fuel net cmd fresh_sock =
      spec SOCKET_WATCH_TERMINATED judge_watch_ended None l out /\
    (forall in_time, response_time fuel in_time net cmd fresh_sock =
      match next_read l with
      | Got _ l1 => spec PROCESS_TERMINATED (judge_in_time in_time) (Some (-1)) l1 out
      | Lost l1 => Done (Some (-1)) (mkSock l1 [] Writable false)
      end).
Proof.
  intros Hok Hf cb Hcb net out0. split_and!.
  - refines. unfold judge_launched. destruct (_ <? 0); done.
  - refines. unfold judge_executed. destruct (receive_execveterminated _ _) as [?|]; verdicts.
  - refines. unfold judge_failed. destruct (receive_execveterminated _ _) as [?|]; verdicts.
  - refines. unfold judge_terminated. destruct (receive_processterminated _ _); verdicts.
  - refines. unfold judge_watch_list. destruct (receive_inotifywatchlistupdated _ _); done.
  - refines. unfold judge_path. destruct (receive_inotifypathupdated _ _); done.
  - refines. unfold judge_watched. destruct (0 <? _); done.
  - refines. unfold judge_watch_ended. destruct (receive_socketwatchterminated _ _); verdicts.
  - intros in_time. eapply timed_refines;
      [done | eassumption | eassumption | eassumption | intros msg l' out | judgement_raises].
    unfold judge_in_time. destruct (receive_processterminated _ _); verdicts.
Qed.
(** C3. Refinement: on all arrivals, with fuel for every byte of them, a session
    behaves as its specification: it searches the stream of messages for the
    first that announces its event, judges that one, and closes; nothing else
    in the stream, and no way of cutting it, changes the outcome. *)
Theorem sessions_refine_search fuel cmd l :
  command_ok cmd = true -> (bytes_in l < fuel)%nat ->
  exists cb, send_command_to_demon cmd = Ok cb /\
    let net := Connected l Writable in
    let out := frame (bi_buffer cb) in
    launch_process fuel net cmd fresh_sock =
      spec PROCESS_LAUNCHED judge_launched (Some (-1)) l out /\
    execve_executed fuel net cmd fresh_sock =
      spec EXECVE_TERMINATED judge_executed (Some (-1)) l out /\
    fail_launch_process fuel net cmd fresh_sock =
      spec EXECVE_TERMINATED judge_failed (Some (-1)) l out /\
    process_terminated fuel net cmd fresh_sock =
      spec PROCESS_TERMINATED judge_terminated (Some (-1)) l out /\
    inotify_watchlist_updated fuel net cmd fresh_sock =
      spec INOTIFY_WATCH_LIST_UPDATED judge_watch_list (Some (-1)) l out /\
    inotify_event fuel net cmd fresh_sock =
      spec INOTIFY_PATH_UPDATED judge_path (Some (-1)) l out /\
    watching_socket fuel net cmd fresh_sock = spec SOCKET_WATCHED judge_watched None l out /\
    socket_listening fuel net cmd fresh_sock =
      spec SOCKET_WATCH_TERMINATED judge_watch_ended None l out /\
    (forall in_time, response_time fuel in_time net cmd fresh_sock =
      match next_read l with
      | Got _ l1 => spec PROCESS_TERMINATED (judge_in_time in_time) (Some (-1)) l1 out
      | Lost l1 => Done (Some (-1)) (mkSock l1 [] Writable false)
      end).
Proof.
  intros Hok Hf. destruct (send_command_message cmd Hok) as (cb & Hcb & _).
  exists cb. split; [exact Hcb | by apply sessions_refine].
Qed.
End refinement.

(** ** Termination *)
Section termination.
Context {FB : FlatBuffers} {FBL : FlatBuffersLaws FB}.

Definition ends {A} (m : io A) : Prop := forall s, m s <> OutOfFuel.

Lemma ends_ret {A} (a : A) : ends (mret a).
Proof. done. Qed.

Lemma ends_bind {A B} (m : io A) (f : A -> io B) : ends m -> (forall a, ends (f a)) -> ends (m ≫= f).
Proof.
  intros Hm Hf s. unfold mbind, io_bind. specialize (Hm s). destruct (m s); [apply Hf | done..].
Qed.

Lemma ends_of_res {A} (r : res A) : ends (of_res r).
Proof. intros s. by destruct r. Qed.

Lemma ends_sendall bs : ends (sendall bs).
Proof. intros s. unfold sendall. destruct (sk_writing s); [done|]. by case_bool_decide. Qed.

Lemma ends_close {A} (v : A) : ends (close_and v).
Proof. done. Qed.

Lemma ends_connect net : ends (connect net).
Proof. by destruct net. Qed.

Lemma ends_recv_message : ends recv_message.
Proof. intros [l out w c]. rewrite recv_message_read. by destruct (next_read l). Qed.

Create HintDb ends.
#[local] Hint Resolve ends_ret ends_bind ends_of_res ends_sendall ends_close ends_connect
  ends_recv_message : ends.

Lemma ends_send_message buf : ends (send_message buf).
Proof. unfold send_message. auto with ends. Qed.
#[local] Hint Resolve ends_send_message : ends.

(** Sends do not touch what arrives. *)
Definition keeps_input {A} (m : io A) : Prop := forall l out w c a s',
  m (mkSock l out w c) = Done a s' -> exists out' w', s' = mkSock l out' w' c.

Lemma keeps_send_message buf : keeps_input (send_message buf).
Proof.
  intros l out w c [] s'. unfold send_message, mbind, io_bind, of_res.
  destruct (int_to_bytes 4 (bi_size buf)); [|done]. unfold sendall. cbn.
  destruct w; [|case_bool_decide; [|done]]; intros [= <-]; eauto.
Qed.

(** What comes to an end: the awaited message is in the stream, or the connection
    fails. *)
Definition decided (event : Event) (l : list arrival) : Prop :=
  is_Some (awaited event l) \/ Failure ∈ l.

Lemma session_ends_iff fuel cmd event l (d : option Z) (k : bytes * Z -> io (option Z)) :
  command_ok cmd = true -> (bytes_in l < fuel)%nat -> event <> NONE -> (forall msg, ends (k msg)) ->
  socket_errors_give d (msg ← session fuel (Connected l Writable) cmd event; k msg) fresh_sock <> OutOfFuel
  <-> decided event l.
Proof.
  intros Hok Hf He Hk.
  destruct (send_command_frame cmd l [] false Hok) as (cb & Hcb & Hs).
  unfold decided. rewrite <- stream_broken_iff, <- (search_ends event l (mkSock l ([] ++ frame (bi_buffer cb)) Writable false)).
  unfold socket_errors_give, mbind, io_bind.
  rewrite (session_search fuel cmd event l _ cb _ _ He Hf Hcb Hs) by done.
  destruct (search event l _) as [msg s|e s|]; [|by destruct e|done].
  specialize (Hk msg s). destruct (k msg s) as [| [] |]; done.
Qed.

(** The loop of [kill_process] also ends, with an exception, on an execve that it
    cannot answer with a request. *)
Definition kill_request (msg : bytes * Z) : res BufferInfo :=
  data ← obj_of "pid" (receive_execveterminated msg.1 msg.2); send_kill_to_demon (ei_pid data).

Definition stops_killing (msg : bytes * Z) : bool :=
  announces PROCESS_TERMINATED msg ||
  announces EXECVE_TERMINATED msg && negb (is_ok (kill_request msg)).

Definition decided_killing (l : list arrival) : Prop :=
  Exists (fun m => stops_killing m.1 = true) (stream l).1 \/ Failure ∈ l.

(** A request is sent as long as the connection takes it. *)
Lemma kill_request_sent msg buf l out c :
  kill_request msg = Ok buf ->
  send_message buf (mkSock l out Writable c) = Done tt (mkSock l (out ++ frame (bi_buffer buf)) Writable c).
Proof.
  unfold kill_request. destruct (obj_of "pid" _) as [data|]; [|done]. cbn. intros Hk.
  assert (in_range SInt32 (ei_pid data) = true) as Hp.
  { destruct (in_range SInt32 (ei_pid data)) eqn:Hp; [done|].
    assert (exists e, send_kill_to_demon (ei_pid data) = Err e) as [e E]; [|congruence].
    apply send_always_raises. apply always_raises_later; intros ?.
    by apply always_raises_here, out_of_range_raises. }
  destruct (send_kill_message _ Hp) as (kb & Hkb & h & Hm). rewrite Hk in Hkb. injection Hkb as <-.
  apply send_message_frame; destruct Hm as (? & ? & _); [done | lia].
Qed.

Lemma killing_stops fuel msg s : stops_killing msg = true -> await_killing (S fuel) msg s <> OutOfFuel.
Proof.
  unfold stops_killing, kill_request, announces. cbn [await_killing].
  destruct (is_event _ PROCESS_TERMINATED); [done|]. cbn [orb].
  destruct (is_event _ EXECVE_TERMINATED); [|done]. cbn [andb].
  unfold mbind, io_bind, res_bind, of_res. destruct (obj_of "pid" _) as [data|]; [|done].
  by destruct (send_kill_to_demon (ei_pid data)).
Qed.

Lemma killing_goes_on fuel msg l out c :
  stops_killing msg = false -> exists out',
  await_killing (S fuel) msg (mkSock l out Writable c) = then_kill fuel (mkSock l out' Writable c).
Proof.
  unfold stops_killing, announces. cbn [await_killing].
  destruct (is_event _ PROCESS_TERMINATED); [done|]. cbn [orb].
  destruct (is_event _ EXECVE_TERMINATED); [|by exists out]. cbn [andb]. intros Hk.
  destruct (kill_request msg) as [buf|] eqn:E; [|done]. exists (out ++ frame (bi_buffer buf)).
  pose proof (kill_request_sent msg buf l out c E) as Hs. unfold kill_request in E.
  unfold mbind, io_bind, of_res. destruct (obj_of "pid" _) as [data|]; [|done]. cbn in E. rewrite E, Hs. done.
Qed.

Lemma then_kill_ends_iff fuel l out c :
  (length (stream l).1 < fuel)%nat ->
  then_kill fuel (mkSock l out Writable c) <> OutOfFuel <-> decided_killing l.
Proof.
  unfold decided_killing. rewrite <- stream_broken_iff. revert fuel out.
  induction l as [l l' Hr ->|l msg l' Hr -> IH|l Hr ->] using stream_induction;
    intros fuel out Hf; unfold then_kill, mbind, io_bind; rewrite recv_message_read, Hr.
  - split; [by right | done].
  - cbn [fst snd length] in *. destruct fuel as [|fuel]; [lia|]. rewrite Exists_cons. cbn [fst].
    destruct (stops_killing msg) eqn:E.
    + split; [by left; left | intros _; by apply killing_stops].
    + destruct (killing_goes_on fuel msg l' out c E) as [out' ->].
      rewrite IH by lia. split; [intros [?|?]; tauto | intros [[?|?]|?]; [done | tauto | tauto]].
  - rewrite killing_eof. split; [done | by intros [?%Exists_nil|?]].
Qed.

Lemma ends_errors {A} (d : A) m s : m s <> OutOfFuel -> socket_errors_give d m s <> OutOfFuel.
Proof. unfold socket_errors_give. destruct (m s) as [| [] |]; done. Qed.

Ltac session_ends :=
  apply session_ends_iff; [done | done | done |]; intros msg;
  repeat first [ progress eauto with ends | case_match | apply ends_bind; intros ].

(** C17. Termination: with fuel for every byte that arrives, a session on a connection
    that takes what it writes ends exactly when its message comes or the connection
    fails; a connection closed by the daemon is the one case in which it does not, and
    then no larger fuel helps.  The session that is timed reads the greeting first; the
    one that kills also ends, with an exception, exactly when an execve is reported that
    it cannot decode or answer. *)
Theorem sessions_terminate fuel in_time cmd l :
  command_ok cmd = true -> (bytes_in l < fuel)%nat ->
  let net := Connected l Writable in
  (launch_process fuel net cmd fresh_sock <> OutOfFuel <-> decided PROCESS_LAUNCHED l) /\
  (execve_executed fuel net cmd fresh_sock <> OutOfFuel <-> decided EXECVE_TERMINATED l) /\
  (fail_launch_process fuel net cmd fresh_sock <> OutOfFuel <-> decided EXECVE_TERMINATED l) /\
  (process_terminated fuel net cmd fresh_sock <> OutOfFuel <-> decided PROCESS_TERMINATED l) /\
  (inotify_watchlist_updated fuel net cmd fresh_sock <> OutOfFuel <->
     decided INOTIFY_WATCH_LIST_UPDATED l) /\
  (inotify_event fuel net cmd fresh_sock <> OutOfFuel <-> decided INOTIFY_PATH_UPDATED l) /\
  (watching_socket fuel net cmd fresh_sock <> OutOfFuel <-> decided SOCKET_WATCHED l) /\
  (socket_listening fuel net cmd fresh_sock <> OutOfFuel <-> decided SOCKET_WATCH_TERMINATED l) /\
  (response_time fuel in_time net cmd fresh_sock <> OutOfFuel <->
     match next_read l with Got _ l1 => decided PROCESS_TERMINATED l1 | Lost _ => True end) /\
  (kill_process fuel in_time net cmd fresh_sock <> OutOfFuel <-> decided_killing l).
Proof.
  intros Hok Hf net. destruct (send_command_message cmd Hok) as (cb & Hcb & _). split_and!.
  1-8: session_ends.
  - destruct (sessions_refine fuel cmd l Hok Hf cb Hcb) as (_ & _ & _ & _ & _ & _ & _ & _ & Hrt).
    rewrite Hrt. destruct (next_read l) as [msg l1|l1]; [|done].
    unfold spec, decided. rewrite <- stream_broken_iff.
    destruct (awaited PROCESS_TERMINATED l1) as [[m l2]|].
    + split; [intros _; left; by eexists | intros _]. by destruct (judge_in_time in_time m).
    + destruct (stream l1).2 as [|l2]; [split; [done | by intros [[? ?]|?]] | split; [by right | done]].
  - pose proof (length_stream l). unfold kill_process.
    destruct (send_command_frame cmd l [] false Hok) as (cb' & Hcb' & Hs). cbn [app] in Hs.
    rewrite <- (then_kill_ends_iff fuel l (frame (bi_buffer cb')) false) by lia.
    unfold socket_errors_give, then_kill.
    rewrite (io_bind_done _ _ _ tt (mkSock l [] Writable false)) by reflexivity.
    rewrite (io_bind_done _ _ _ _ _ Hs). unfold mbind, io_bind.
    destruct (recv_message _) as [msg s1|[] s1|]; try done.
    destruct (await_killing fuel msg s1) as [msg' s2|[] s2|]; try done.
    unfold of_res. destruct (ret_of _ _) as [info|e] eqn:E; [by destruct ((_ && _) && _)|].
    assert (e = AttributeError "error_code") as ->; [|done].
    unfold ret_of in E. by destruct (receive_processterminated _ _); simplify_eq.
Qed.
End termination.

(** ** What a session writes *)
Section writes.
Context {FB : FlatBuffers} {FBL : FlatBuffersLaws FB}.

Definition final_state {A} (o : outcome A) : option sock :=
  match o with Done _ s | Raised _ s => Some s | OutOfFuel => None end.

(** A sequence of kill requests, framed. *)
Inductive kill_requests : list Z -> bytes -> Prop :=
  | no_request : kill_requests [] []
  | one_more pid kb pids bs :
      in_range SInt32 pid = true -> send_kill_to_demon pid = Ok kb ->
      receive_kill (bi_buffer kb) (bi_size kb) = pid -> kill_requests pids bs ->
      kill_requests (pid :: pids) (frame (bi_buffer kb) ++ bs).

Lemma kill_requests_app pids bs pids' bs' :
  kill_requests pids bs -> kill_requests pids' bs' -> kill_requests (pids ++ pids') (bs ++ bs').
Proof. induction 1 as [|? ? ? ? ? ? ? ? IH]; intros Ha; [done|]. rewrite <- app_assoc. constructor; auto. Qed.

Definition kills (bs : bytes) : Prop := exists pids, kill_requests pids bs.
Definition nothing (bs : bytes) : Prop := bs = [].

(** The same, when the connection breaks in the middle of a request. *)
Definition kills_cut (bs : bytes) : Prop := exists whole pid kb part,
  kills whole /\ send_kill_to_demon pid = Ok kb /\ part `prefix_of` frame (bi_buffer kb) /\ bs = whole ++ part.
Definition kills_broken (bs : bytes) : Prop := kills bs \/ kills_cut bs.

(** From wherever [m] starts, what it adds to what was written satisfies [D] when it goes
    on, and [R] when it raises; and [D] in any case when the connection does not break. *)
Definition writes {A} (D R : bytes -> Prop) (m : io A) : Prop := forall s,
  match m s with
  | Done _ s' => exists bs, sk_out s' = sk_out s ++ bs /\ D bs /\
      (sk_writing s = Writable -> sk_writing s' = Writable)
  | Raised _ s' => exists bs, sk_out s' = sk_out s ++ bs /\ R bs /\ (sk_writing s = Writable -> D bs)
  | OutOfFuel => True
  end.

(** One computation after another. *)
Lemma writes_seq (D1 R1 D2 R2 D R : bytes -> Prop) {A B} (m : io A) (f : A -> io B) :
  (forall bs, R1 bs -> R bs) -> (forall bs, D1 bs -> D bs) ->
  (forall bs bs', D1 bs -> D2 bs' -> D (bs ++ bs')) -> (forall bs bs', D1 bs -> R2 bs' -> R (bs ++ bs')) ->
  writes D1 R1 m -> (forall a, writes D2 R2 (f a)) -> writes D R (m ≫= f).
Proof.
  intros HR HD HDD HDR Hm Hf s. specialize (Hm s). unfold mbind, io_bind. destruct (m s) as [a s1|e s1|]; [| |done].
  - destruct Hm as (bs & E & H1 & Hw). specialize (Hf a s1). destruct (f a s1) as [b s2|e s2|]; [| |done];
      destruct Hf as (bs' & E' & H2 & Hw'); exists (bs ++ bs'); rewrite E', E, app_assoc; eauto 7.
  - destruct Hm as (bs & E & H1 & Hw). exists bs. eauto 6.
Qed.

(** What is closed under concatenation is the invariant of a sequence. *)
Class Sequel (D R : bytes -> Prop) : Prop := {
  D_nil : D [];
  D_R bs : D bs -> R bs;
  D_app bs bs' : D bs -> D bs' -> D (bs ++ bs');
  R_app bs bs' : D bs -> R bs' -> R (bs ++ bs')
}.

Lemma kills_app bs bs' : kills bs -> kills bs' -> kills (bs ++ bs').
Proof. intros [p H] [p' H']. exists (p ++ p'). by apply kill_requests_app. Qed.

#[export] Instance kills_sequel : Sequel kills kills_broken.
Proof.
  split; [exists []; constructor | by left | apply kills_app |].
  intros bs bs' H [H'|(whole & pid & kb & part & H1 & H2 & H3 & ->)]; [left; by apply kills_app|].
  right. exists (bs ++ whole), pid, kb, part. rewrite app_assoc. split_and!; try done. by apply kills_app.
Qed.
#[export] Instance nothing_sequel : Sequel nothing nothing.
Proof. split; try done; by intros bs bs' -> ->. Qed.

Section rules.
Context (D R : bytes -> Prop) {HS : Sequel D R}.

Lemma writes_silent {A} (m : io A) :
  (forall s, match m s with
             | Done _ s' => sk_out s' = sk_out s /\ sk_writing s' = sk_writing s
             | Raised _ s' => sk_out s' = sk_out s
             | OutOfFuel => True
             end) -> writes D R m.
Proof.
  intros Hm s. specialize (Hm s). destruct (m s) as [a s'|e s'|]; [| |done].
  - destruct Hm as [-> ->]. exists []. rewrite app_nil_r. split_and!; [done | apply D_nil | done].
  - rewrite Hm. exists []. rewrite app_nil_r. split_and!; [done | apply D_R, D_nil | intros _; apply D_nil].
Qed.

Lemma writes_bind {A B} (m : io A) (f : A -> io B) :
  writes D R m -> (forall a, writes D R (f a)) -> writes D R (m ≫= f).
Proof. apply writes_seq; [done | done | apply D_app | apply R_app]. Qed.

Lemma writes_ret {A} (a : A) : writes D R (mret a).
Proof. by apply writes_silent. Qed.
Lemma writes_of_res {A} (r : res A) : writes D R (of_res r).
Proof. apply writes_silent. intros s. by destruct r. Qed.
Lemma writes_close {A} (v : A) : writes D R (close_and v).
Proof. by apply writes_silent. Qed.
Lemma writes_close_only : writes D R close.
Proof. by apply writes_silent. Qed.
Lemma writes_recv_message : writes D R recv_message.
Proof. apply writes_silent. intros [l out w c]. rewrite recv_message_read. by destruct (next_read l). Qed.
Lemma writes_diverge {A} : writes D R (@diverge A).
Proof. done. Qed.

Lemma writes_await fuel event msg : writes D R (await fuel event msg).
Proof.
  revert msg. induction fuel as [|fuel IH]; intros msg; cbn [await]; [apply writes_diverge|].
  case_match; [apply writes_ret|]. apply writes_bind; [apply writes_recv_message | apply IH].
Qed.
End rules.

(** A frame goes out whole, or in part when the connection breaks. *)
Lemma frame_writes bi :
  bi_size bi = blen (bi_buffer bi) -> bi_size bi <= max_buffer_size ->
  writes (fun bs => bs = frame (bi_buffer bi)) (fun bs => bs `prefix_of` frame (bi_buffer bi)) (send_message bi).
Proof.
  intros Hs Hle [l out w c]. destruct w as [|n].
  - rewrite send_message_frame by done. by eexists.
  - assert (send_message bi (mkSock l out (Breaks n) c) = sendall (frame (bi_buffer bi)) (mkSock l out (Breaks n) c)) as ->.
    { unfold send_message, int_to_bytes. assert (0 <= bi_size bi) by (rewrite Hs; apply blen_nonneg).
      replace ((0 <=? bi_size bi) && (bi_size bi <? 256 ^ Z.of_nat 4)) with true; [by rewrite Hs|].
      symmetry. apply andb_true_iff. unfold max_buffer_size in *. change (256 ^ Z.of_nat 4) with (2 ^ 32). lia. }
    unfold sendall. cbn [sk_writing sk_in sk_out sk_closed]. case_bool_decide; eexists; cbn [sk_out sk_writing].
    + by split.
    + split; [done|]. split; [apply prefix_take | done].
Qed.

Lemma kill_request_bytes pid kb :
  send_kill_to_demon pid = Ok kb -> writes kills kills_broken (send_message kb).
Proof.
  intros Hk. assert (in_range SInt32 pid = true) as Hp.
  { destruct (in_range SInt32 pid) eqn:Hp; [done|].
    assert (exists e, send_kill_to_demon pid = Err e) as [e E]; [|congruence].
    apply send_always_raises. apply always_raises_later; intros ?.
    by apply always_raises_here, out_of_range_raises. }
  destruct (send_kill_message pid Hp) as (kb' & Hk' & h & Hm).
  rewrite Hk in Hk'. injection Hk' as <-.
  assert (receive_kill (bi_buffer kb) (bi_size kb) = pid) as Hr by (eapply receive_kill_read; [done | slot_lookup]).
  intros s. assert (kills (frame (bi_buffer kb))) as Hkills.
  { exists [pid]. rewrite <- app_nil_r. constructor; [done | done | done | constructor]. }
  pose proof (frame_writes kb ltac:(apply Hm) ltac:(destruct Hm as (_ & ? & _); lia) s) as H.
  destruct (send_message kb s) as [u s'|e s'|]; [| |done].
  - destruct H as (bs & E & -> & Hw). by exists (frame (bi_buffer kb)).
  - destruct H as (bs & E & Hpre & Hw). exists bs. split; [done|]. split; [|intros Hs; by rewrite (Hw Hs)].
    right. exists [], pid, kb, bs. split_and!; try done. exists []. constructor.
Qed.

Lemma writes_await_killing fuel msg : writes kills kills_broken (await_killing fuel msg).
Proof.
  revert msg. induction fuel as [|fuel IH]; intros msg; cbn [await_killing]; [apply writes_diverge|].
  case_match; [apply writes_ret; apply _|].
  apply writes_bind; [apply _ | | intros _; apply writes_bind; [apply _|apply writes_recv_message, _|apply IH]].
  case_match; [|apply writes_ret; apply _]. apply writes_bind; [apply _ | apply writes_of_res, _|].
  intros data s. unfold mbind, io_bind, of_res.
  destruct (send_kill_to_demon (ei_pid data)) as [kb|e] eqn:Hk; [by apply (kill_request_bytes (ei_pid data))|].
  exists []. rewrite app_nil_r. split_and!; [done | apply D_R; apply D_nil | intros _; apply D_nil].
Qed.

(** A command, if anything, and then what satisfies [W]; or a part of the command. *)
Definition asks (cb : BufferInfo) (W : bytes -> Prop) (bs : bytes) : Prop :=
  bs = [] \/ exists ks, bs = frame (bi_buffer cb) ++ ks /\ W ks.
Definition asks_cut (cb : BufferInfo) (W : bytes -> Prop) (bs : bytes) : Prop :=
  bs `prefix_of` frame (bi_buffer cb) \/ exists ks, bs = frame (bi_buffer cb) ++ ks /\ W ks.

Lemma asks_first cb D R {A B} (m : io A) (f : A -> io B) :
  writes nothing nothing m -> (forall a, writes (asks cb D) (asks_cut cb R) (f a)) ->
  writes (asks cb D) (asks_cut cb R) (m ≫= f).
Proof.
  apply writes_seq; [intros ? ->; left; apply prefix_nil | by intros ? ->; left | by intros ? ? -> | by intros ? ? ->].
Qed.

Lemma asks_command cmd cb D R {HS : Sequel D R} {A} (k : unit -> io A) :
  command_ok cmd = true -> send_command_to_demon cmd = Ok cb -> (forall u, writes D R (k u)) ->
  writes (asks cb D) (asks_cut cb R) (send_command cmd ≫= k).
Proof.
  intros Hok Hcb Hk. destruct (send_command_message cmd Hok) as (cb' & Hcb' & h & slots & (Hs & Hlen & _) & _).
  rewrite Hcb in Hcb'. injection Hcb' as <-.
  eapply writes_seq; [| | | | | exact Hk].
  5: { unfold send_command. rewrite (of_res_bind _ _ _ Hcb). apply (frame_writes cb Hs ltac:(lia)). }
  - intros bs H. by left.
  - intros bs ->. right. exists []. rewrite app_nil_r. split; [done | apply D_nil].
  - intros bs bs' -> H. right. eauto.
  - intros bs bs' -> H. right. eauto.
Qed.

(** The connections that do not break while a session writes. *)
Definition steady (net : network) : Prop := forall l n, net <> Connected l (Breaks n).

(** What is written on a new connection. *)
Lemma writes_connected D R {A} d net (m : io A) s' :
  D [] -> R [] -> (forall bs, D bs -> R bs) -> writes D R m ->
  final_state (socket_errors_give d (_ ← connect net; m) fresh_sock) = Some s' ->
  R (sk_out s') /\ (steady net -> D (sk_out s')).
Proof.
  intros D0 R0 HDR Hm. unfold socket_errors_give, mbind, io_bind.
  destruct net as [| |l w]; [by intros [= <-] | by intros [= <-] |]. cbn. intros H.
  assert (steady (Connected l w) -> w = Writable) as Hw by (intros Hs; destruct w as [|n]; [done | by destruct (Hs l n)]).
  specialize (Hm (mkSock l [] w false)). destruct (m _) as [a s1|e s1|]; [| |done]; destruct Hm as (bs & E & H1 & H2);
    cbn [sk_out sk_writing app] in *.
  - injection H as <-. rewrite E. auto.
  - assert (s1 = s') as <- by (destruct e; by injection H). rewrite E. auto.
Qed.

Lemma asks_start cb D R : (forall bs, D bs -> R bs) ->
  asks cb D [] /\ asks_cut cb R [] /\ forall bs, asks cb D bs -> asks_cut cb R bs.
Proof.
  intros H. split_and!; [by left | left; apply prefix_nil |].
  intros bs [->|(ks & -> & ?)]; [left; apply prefix_nil | right; eauto].
Qed.

Lemma writes_session fuel cmd cb net event {A} (d : A) (k : bytes * Z -> io A) s' :
  command_ok cmd = true -> send_command_to_demon cmd = Ok cb -> (forall msg, writes nothing nothing (k msg)) ->
  final_state (socket_errors_give d (msg ← session fuel net cmd event; k msg) fresh_sock) = Some s' ->
  asks_cut cb nothing (sk_out s') /\ (steady net -> asks cb nothing (sk_out s')).
Proof.
  intros Hok Hcb Hk H. destruct (asks_start cb nothing nothing (fun _ H => H)) as (A1 & A2 & A3).
  eapply (writes_connected (asks cb nothing) (asks_cut cb nothing) d net
            (_ ← send_command cmd; first ← recv_message; msg ← await fuel event first; k msg)); [done..| |].
  - apply (asks_command cmd); [apply _ | done | done |]. intros _.
    apply writes_bind; [apply _ | apply writes_recv_message, _ |]. intros first.
    apply writes_bind; [apply _ | apply writes_await, _ | exact Hk].
  - revert H. unfold session, socket_errors_give, mbind, io_bind.
    destruct (connect net fresh_sock) as [? s1| |]; [|done..].
    destruct (send_command cmd s1) as [? s2| |]; [|done..].
    by destruct (recv_message s2).
Qed.

Ltac writes_nothing :=
  repeat first [ apply writes_close; apply _ | apply writes_close_only; apply _ | apply writes_of_res; apply _
               | apply writes_ret; apply _ | apply writes_recv_message; apply _
               | apply writes_await; apply _ | progress cbv zeta
               | case_match | apply writes_bind; [apply _ | | intros ?] ].

(** C18. Invariant of what is written: whatever arrives, on any network and with any
    fuel, however the session ends, it has written nothing or its command as one frame,
    and nothing else; the killing session adds to it kill requests only, each one frame
    that decodes to the pid asked for; and the session that waits for the greeting
    writes nothing at all.  When the connection breaks while the session writes, an
    unknown part of the frame it was writing has gone out, and it is the last. *)
Theorem sessions_write_only_requests fuel in_time net cmd cb :
  command_ok cmd = true -> send_command_to_demon cmd = Ok cb ->
  let writes_only (m : io (option Z)) (D R : bytes -> Prop) := forall s',
    final_state (m fresh_sock) = Some s' -> R (sk_out s') /\ (steady net -> D (sk_out s')) in
  let one_command m := writes_only m (asks cb nothing) (asks_cut cb nothing) in
  one_command (launch_process fuel net cmd) /\
  one_command (execve_executed fuel net cmd) /\
  one_command (fail_launch_process fuel net cmd) /\
  one_command (process_terminated fuel net cmd) /\
  one_command (inotify_watchlist_updated fuel net cmd) /\
  one_command (inotify_event fuel net cmd) /\
  one_command (response_time fuel in_time net cmd) /\
  one_command (watching_socket fuel net cmd) /\
  one_command (socket_listening fuel net cmd) /\
  writes_only (kill_process fuel in_time net cmd) (asks cb kills) (asks_cut cb kills_broken) /\
  (forall port, writes_only (connect_to_daemon net port) nothing nothing).
Proof.
  intros Hok Hcb. cbv zeta. destruct (asks_start cb nothing nothing (fun _ H => H)) as (A1 & A2 & A3).
  destruct (asks_start cb kills kills_broken (fun bs => D_R bs)) as (K1 & K2 & K3). split_and!.
  1-6,8-9: intros s'; apply (writes_session _ cmd cb); [done | done |]; intros msg; writes_nothing.
  - intros s'. apply writes_connected; [done..|]. apply asks_first; [writes_nothing|]. intros _.
    apply (asks_command cmd); [apply _ | done | done | intros _; writes_nothing].
  - intros s'. apply writes_connected; [done..|].
    apply (asks_command cmd); [apply _ | done | done |]. intros _.
    apply writes_bind; [apply _ | apply writes_recv_message, _ | intros first].
    apply writes_bind; [apply _ | apply writes_await_killing | intros msg; writes_nothing].
  - intros port s'. apply writes_connected; [done..|]. writes_nothing.
Qed.
End writes.

(** ** The theorems at concrete inputs, on the reference runtime *)
Section witnesses.
#[local] Existing Instance ref_runtime.
#[local] Existing Instance ref_laws.

(** A greeting cut in its middle, a launch, and a reset. *)
Definition cut_arrivals : list arrival :=
  [Segment (take 7 (frame greeting)); Segment (drop 7 (frame greeting));
   Segment (frame launched); Failure].

Lemma sessions_refine_search_witness :
  exists cb, send_command_to_demon ls_command = Ok cb /\
    launch_process 500 (Connected cut_arrivals Writable) ls_command fresh_sock =
    spec PROCESS_LAUNCHED judge_launched (Some (-1)) cut_arrivals (frame (bi_buffer cb)).
Proof.
  destruct (sessions_refine_search 500 ls_command cut_arrivals) as (cb & Hcb & H & _).
  - reflexivity.
  - apply Nat.ltb_lt. vm_compute. reflexivity.
  - exists cb. split; [exact Hcb | exact H].
Defined.

Lemma sessions_terminate_witness :
  launch_process 500 (Connected cut_arrivals Writable) ls_command fresh_sock <> OutOfFuel /\
  kill_process 500 true (Connected (one_segment [greeting]) Writable) ls_command fresh_sock = OutOfFuel.
Proof.
  split.
  - destruct (sessions_terminate 500 true ls_command cut_arrivals) as [H _];
      [reflexivity | apply Nat.ltb_lt; vm_compute; reflexivity|].
    apply H. right. right. right. right. left.
  - destruct (sessions_terminate 500 true ls_command (one_segment [greeting])) as (_ & _ & _ & _ & _ & _ & _ & _ & _ & H);
      [reflexivity | apply Nat.ltb_lt; vm_compute; reflexivity|].
    destruct (kill_process 500 true (Connected (one_segment [greeting]) Writable) ls_command fresh_sock) eqn:E; [| |reflexivity].
    all: exfalso; destruct (proj1 H ltac:(discriminate)) as [He|Hf];
      [ revert He; replace (stream (one_segment [greeting])).1 with [((greeting, blen greeting), @nil arrival)]
          by (vm_compute; reflexivity);
        intros [Hs|Hs]%Exists_cons; [vm_compute in Hs; discriminate | by apply Exists_nil in Hs]
      | by apply list_elem_of_singleton in Hf ].
Defined.

(** The connection breaks after five bytes of the command. *)
Lemma sessions_write_only_requests_witness :
  exists cb, send_command_to_demon sleep_command = Ok cb /\
    (forall s', final_state (kill_process 9 true
        (Connected (one_segment [greeting; launched; executed true; ended 9]) Writable)
        sleep_command fresh_sock) = Some s' -> asks cb kills (sk_out s')) /\
    (forall s', final_state (kill_process 9 true (Connected [] (Breaks 5)) sleep_command fresh_sock) = Some s' ->
       asks_cut cb kills_broken (sk_out s')).
Proof.
  destruct (send_command_message sleep_command) as (cb & Hcb & _); [reflexivity|].
  exists cb. split; [exact Hcb|]. split.
  - destruct (sessions_write_only_requests 9 true
           (Connected (one_segment [greeting; launched; executed true; ended 9]) Writable)
           sleep_command cb) as (_ & _ & _ & _ & _ & _ & _ & _ & _ & H & _);
    [reflexivity | exact Hcb |]. intros s' Hs. apply (H s' Hs). intros l n E. discriminate E.
  - destruct (sessions_write_only_requests 9 true (Connected [] (Breaks 5)) sleep_command cb)
      as (_ & _ & _ & _ & _ & _ & _ & _ & _ & H & _); [reflexivity | exact Hcb |]. intros s' Hs. apply (H s' Hs).
Defined.
End witnesses.
