(* ===== verification/Overhead.v ===== *)
(** * The measuring client of [tests_python/test_overhead.py]

    [boucle_launch_process] asks a daemon for the same process again and again
    and stores, in lists that are globals of the module, the mean time of a
    request.  A computation here has those lists as a second state, which
    survives exceptions.  The readings of the clock and the arithmetic on them
    are parameters: the code only stores them. *)
From S2P Require Import Prelude Bytes Utf8 FlatBuffers FlatBuffersRef FlatBuffersRefLaws.
From S2P Require Import Enums Tables Data Send Receive BuilderLogic SendFacts CommandFacts.
From S2P Require Import TestCommands Socket Clients ClientFacts Stream.

Definition nb_mesures : nat := 10.
Definition nb_iteration : nat := 30.

(** [test_avec_demon] *)
Definition measured_command : Command :=
  mkCommand (str "/bin/echo") [str "echo"; str "bonjour"] [] 0 (1024 * 1024) [].

Section overhead.
Context {FB : FlatBuffers}.

(** [time.perf_counter()], reading by reading, and [(t_stop - t_start) / n]. *)
Context {T : Type} (perf_counter : nat -> T) (mean_time : T -> T -> nat -> T).

Record temps : Type := mkTemps {
  temps_sans_demon : list T;
  temps_demon_rust : list T;
  temps_demon_c : list T
}.

(** ** Computations on the lists and the connection *)
Definition mio (A : Type) : Type := temps -> sock -> outcome A * temps.

#[local] Instance mio_ret : MRet mio := fun A a t s => (Done a s, t).
#[local] Instance mio_bind : MBind mio := fun A B f m t s =>
  match m t s with
  | (Done a s', t') => f a t' s'
  | (Raised e s', t') => (Raised e s', t')
  | (OutOfFuel, t') => (OutOfFuel, t')
  end.

Definition on_socket {A} (m : io A) : mio A := fun t s => (m s, t).

Definition update (f : temps -> temps) : mio unit := fun t s => (Done tt s, f t).

Definition errors_give {A} (v : A) (m : mio A) : mio A := fun t s =>
  match m t s with
  | (Raised ConnectionRefusedError s', t') | (Raised OSError s', t') => (Done v s', t')
  | o => o
  end.

(** [for i in range(n): body i] *)
Fixpoint for_range (i n : nat) (body : nat -> mio unit) : mio unit :=
  match n with
  | O => mret tt
  | S n => _ ← body i; for_range (S i) n body
  end.

(** [match daemon_type: case "rust": ... case "c": ... case _: print(...)] *)
Definition record (daemon_type : string) (v : T) (t : temps) : temps :=
  if String.eqb daemon_type "rust" then
    mkTemps (temps_sans_demon t) (temps_demon_rust t ++ [v]) (temps_demon_c t)
  else if String.eqb daemon_type "c" then
    mkTemps (temps_sans_demon t) (temps_demon_rust t) (temps_demon_c t ++ [v])
  else t.

(** One request: the three answers are decoded, and the results dropped. *)
Definition request (header : bytes) (buf : BufferInfo) : io unit :=
  _ ← sendall (header ++ bi_buffer buf);
  launched ← recv_message;
  let pid := receive_processlaunched launched.1 launched.2 in
  execve ← recv_message;
  let info_execve := receive_execveterminated execve.1 execve.2 in
  ended ← recv_message;
  let info := receive_processterminated ended.1 ended.2 in
  mret tt.

(** The [i]-th measure: the clock is read before and after the requests. *)
Definition measure (i : nat) : T :=
  mean_time (perf_counter (2 * i)) (perf_counter (2 * i + 1)) nb_iteration.

Definition round (daemon_type : string) (header : bytes) (buf : BufferInfo) (i : nat) : mio unit :=
  _ ← for_range 0 nb_iteration (fun _ => on_socket (request header buf));
  update (record daemon_type (measure i)).

(** It has no [close], and no [return] on the path without exception. *)
Definition boucle_launch_process (net : network) (daemon_type : string) (command : Command)
    : mio (option Z) :=
  errors_give (Some (-1)) (
    _ ← on_socket (connect net);
    buf ← on_socket (of_res (send_command_to_demon command));
    header ← on_socket (of_res (int_to_bytes 4 (bi_size buf)));
    greeting ← on_socket recv_message;
    let res_port := receive_TCPSocketListening greeting.1 greeting.2 in
    _ ← for_range 0 nb_mesures (round daemon_type header buf);
    mret None).

(** The test ignores what [boucle_launch_process] returns. *)
Definition test_avec_demon (net : network) (daemon_type : string) : mio unit :=
  _ ← boucle_launch_process net daemon_type measured_command; mret tt.

(** [temps_sans_demon.append(v)] *)
Definition record_sans (v : T) (t : temps) : temps :=
  mkTemps (temps_sans_demon t ++ [v]) (temps_demon_rust t) (temps_demon_c t).

(** [subprocess.call(["echo", ""])] is a parameter: an exit status, which is
    dropped, or an exception. *)
Definition test_sans_demon (call : nat -> res Z) : mio unit :=
  for_range 0 nb_mesures (fun i =>
    _ ← for_range 0 nb_iteration (fun j =>
          _ ← on_socket (of_res (call (i * nb_iteration + j)%nat)); mret tt);
    update (record_sans (measure i))).

(** ** What is measured *)
Definition copies (n : nat) (bs : bytes) : bytes := concat (replicate n bs).

Lemma copies_add n m bs : copies (n + m) bs = copies n bs ++ copies m bs.
Proof. unfold copies. by rewrite replicate_add, concat_app. Qed.

(** The lists after [n] more measures, from the [i]-th. *)
Definition measured (daemon_type : string) (i n : nat) (t : temps) : temps :=
  foldl (fun t i => record daemon_type (measure i) t) t (seq i n).

Lemma measured_S daemon_type i n t :
  measured daemon_type i (S n) t = measured daemon_type (S i) n (record daemon_type (measure i) t).
Proof. reflexivity. Qed.

(** A computation that reads: it comes to a result, or finds a failure. *)
Definition reads {A} (m : io A) : Prop := forall l out w c,
  (exists a l', m (mkSock l out w c) = Done a (mkSock l' out w c) /\ (Failure ∈ l <-> Failure ∈ l')) \/
  (exists l', m (mkSock l out w c) = Raised OSError (mkSock l' out w c) /\ Failure ∈ l).

Lemma reads_ret {A} (a : A) : reads (mret a).
Proof. intros l out w c. left. by exists a, l. Qed.

Lemma reads_recv_message : reads recv_message.
Proof.
  intros l out w c. rewrite recv_message_read. pose proof (next_read_failure l).
  destruct (next_read l) as [msg l'|l']; [left | right]; eauto.
Qed.

Lemma reads_bind {A B} (m : io A) (f : A -> io B) :
  reads m -> (forall a, reads (f a)) -> reads (m ≫= f).
Proof.
  intros Hm Hf l out w c. unfold mbind, io_bind.
  destruct (Hm l out w c) as [(a & l1 & -> & H1)|(l1 & -> & H1)]; [|right; eauto].
  destruct (Hf a l1 out w c) as [(b & l2 & -> & H2)|(l2 & -> & H2)].
  - left. exists b, l2. split; [done | tauto].
  - right. exists l2. split; [done | tauto].
Qed.

(** A failure of the connection, for what is read or for what is written. *)
Definition may_fail (l : list arrival) (w : writing) : Prop := Failure ∈ l \/ w <> Writable.

(** What requests have written: [n] frames, or fewer and a part of one more because the
    connection failed. *)
Definition sent (fr : bytes) (l : list arrival) (w : writing) (out : bytes) (n : nat) (o : outcome unit) : Prop :=
  (exists l' w', o = Done tt (mkSock l' (out ++ copies n fr) w' false) /\
     (may_fail l' w' -> may_fail l w)) \/
  (exists l' w' m part, o = Raised OSError (mkSock l' (out ++ copies m fr ++ part) w' false) /\
     part `prefix_of` fr /\ (length (copies m fr ++ part) <= length (copies n fr))%nat /\ (m <= n)%nat /\
     may_fail l w).

Lemma copies_one bs : copies 1 bs = bs.
Proof. unfold copies. cbn. apply app_nil_r. Qed.

Lemma request_sent header buf l w out :
  sent (header ++ bi_buffer buf) l w out 1 (request header buf (mkSock l out w false)).
Proof.
  unfold request, sent. rewrite copies_one. set (fr := header ++ bi_buffer buf).
  assert ((exists w', sendall fr (mkSock l out w false) = Done tt (mkSock l (out ++ fr) w' false) /\
             (w' <> Writable -> w <> Writable)) \/
          (exists n, w = Breaks n /\
             sendall fr (mkSock l out w false) = Raised OSError (mkSock l (out ++ take n fr) (Breaks 0) false)))
    as [(w' & Hs & Hw)|(n & -> & Hs)].
  { unfold sendall. cbn. destruct w as [|n]; [left; eauto|]. case_bool_decide; [left|right]; eauto. }
  - rewrite (io_bind_done _ _ _ _ _ Hs). cbv zeta.
    match goal with |- context [?m (mkSock l _ w' false)] => assert (reads m) as Hr end.
    { repeat first [apply reads_bind; [apply reads_recv_message | intros ?] | apply reads_ret]. }
    destruct (Hr l (out ++ fr) w' false) as [([] & l' & E & H)|(l' & E & H)]; [left | right].
    + exists l', w'. split; [exact E|]. unfold may_fail. tauto.
    + exists l', w', 1%nat, []. rewrite copies_one, app_nil_r. split_and!; [exact E | apply prefix_nil | lia | lia | by left].
  - right. exists l, (Breaks 0), 0%nat, (take n fr). rewrite (io_bind_raised _ _ _ _ _ Hs).
    split_and!; [done | apply prefix_take | cbn; rewrite length_take; lia | lia | by right].
Qed.

Lemma requests_sent header buf n i t l w out :
  exists o, sent (header ++ bi_buffer buf) l w out n o /\
    for_range i n (fun _ => on_socket (request header buf)) t (mkSock l out w false) = (o, t).
Proof.
  revert i l w out. induction n as [|n IH]; intros i l w out; cbn [for_range].
  - eexists. split; [|reflexivity]. left. exists l, w. by rewrite app_nil_r.
  - unfold mbind, mio_bind. unfold on_socket at 1.
    destruct (request_sent header buf l w out) as [(l1 & w1 & -> & H1)|(l1 & w1 & m & part & -> & Hp & Hlen & Hm & H1)].
    + destruct (IH (S i) l1 w1 (out ++ copies 1 (header ++ bi_buffer buf))) as (o & Ho & ->).
      eexists. split; [|reflexivity].
      destruct Ho as [(l2 & w2 & -> & H2)|(l2 & w2 & m & part & -> & Hp & Hlen & Hm & H2)].
      * left. exists l2, w2. rewrite <- app_assoc, <- copies_add. split; [done | tauto].
      * right. exists l2, w2, (1 + m)%nat, part. rewrite copies_add, <- !app_assoc.
        split_and!; [done | done | | lia | tauto].
        change (S n) with (1 + n)%nat. rewrite copies_add, !length_app in *. lia.
    + eexists. split; [|reflexivity]. right. exists l1, w1, m, part. split_and!; [done | done | | lia | done].
      change (S n) with (1 + n)%nat. rewrite (copies_add 1 n), !length_app in *. lia.
Qed.

(** Rounds: all of them, or [k] of [n] and a failure. *)
Lemma rounds_measure d header buf n i t l w out :
  exists k m part o t', let fr := header ++ bi_buffer buf in
    for_range i n (round d header buf) t (mkSock l out w false) = (o, t') /\
    t' = measured d i k t /\ (nb_iteration * k <= m <= nb_iteration * n)%nat /\ part `prefix_of` fr /\
    ((k = n /\ part = [] /\ exists l' w', o = Done tt (mkSock l' (out ++ copies m fr) w' false)) \/
     ((k < n)%nat /\ may_fail l w /\
      exists l' w', o = Raised OSError (mkSock l' (out ++ copies m fr ++ part) w' false))).
Proof.
  revert i t l w out. induction n as [|n IH]; intros i t l w out; cbn [for_range].
  - exists 0%nat, 0%nat, []. do 2 eexists. split; [done|]. split; [done|]. split; [lia|]. split; [apply prefix_nil|].
    left. split; [done|]. split; [done|]. exists l, w. by rewrite app_nil_r.
  - unfold mbind, mio_bind. unfold round at 1, mbind, mio_bind.
    destruct (requests_sent header buf nb_iteration 0 t l w out) as (o1 & Ho1 & ->).
    destruct Ho1 as [(l1 & w1 & -> & H1)|(l1 & w1 & m & part & -> & Hp & _ & Hm & H1)].
    + cbn [update].
      destruct (IH (S i) (record d (measure i) t) l1 w1 (out ++ copies nb_iteration (header ++ bi_buffer buf)))
        as (k & m & part & o & t' & -> & -> & Hm & Hp & Ho).
      exists (S k), (nb_iteration + m)%nat, part. do 2 eexists. split; [reflexivity|].
      split; [symmetry; apply measured_S|]. split; [lia|]. split; [done|].
      destruct Ho as [[-> [-> (l2 & w2 & ->)]]|(Hk & Hf & l2 & w2 & ->)]; [left | right].
      * split; [done|]. split; [done|]. exists l2, w2. by rewrite <- app_assoc, <- copies_add.
      * split; [lia|]. split; [tauto|]. exists l2, w2. by rewrite copies_add, <- !app_assoc.
    + exists 0%nat, m, part. do 2 eexists. split; [reflexivity|]. split; [done|].
      split; [lia|]. split; [done|]. right. split; [lia|]. split; [done|]. by exists l1, w1.
Qed.

Context {FBL : FlatBuffersLaws FB}.

Lemma command_header cmd :
  command_ok cmd = true ->
  exists cb, send_command_to_demon cmd = Ok cb /\
    int_to_bytes 4 (bi_size cb) = Ok (to_le 4 (blen (bi_buffer cb))).
Proof.
  intros Hok. destruct (send_command_message cmd Hok) as (cb & Hcb & h & slots & (Hsz & Hlen & _) & _).
  exists cb. split; [done|]. unfold int_to_bytes. rewrite Hsz. pose proof (blen_nonneg (bi_buffer cb)).
  replace (_ && _) with true; [done|]. symmetry. apply andb_true_iff.
  change (256 ^ Z.of_nat 4) with (2 ^ 32). unfold max_buffer_size in *. lia.
Qed.

(** A run that stores [k] measures, having written [m] requests, and a part of one more
    when it stops early, which it does only by a failure of the connection. *)
Definition measures_until_failure (net : network) (d : string) (cb : BufferInfo) (t : temps)
    (o : outcome (option Z) * temps) : Prop :=
  exists k m part s',
    o = (Done (if bool_decide (k = nb_mesures) then None else Some (-1)) s', measured d 0 k t) /\
    sk_out s' = copies m (frame (bi_buffer cb)) ++ part /\ part `prefix_of` frame (bi_buffer cb) /\
    (k = nb_mesures -> part = []) /\ sk_closed s' = false /\
    (nb_iteration * k <= m <= nb_iteration * nb_mesures)%nat /\ (k <= nb_mesures)%nat /\
    (forall l, net = Connected l Writable -> Failure ∉ l -> k = nb_mesures).

Lemma boucle_measures net d cmd cb t :
  send_command_to_demon cmd = Ok cb ->
  int_to_bytes 4 (bi_size cb) = Ok (to_le 4 (blen (bi_buffer cb))) ->
  measures_until_failure net d cb t (boucle_launch_process net d cmd t fresh_sock).
Proof.
  intros Hcb Hheader. unfold measures_until_failure.
  unfold boucle_launch_process, errors_give, mbind, mio_bind, on_socket, of_res. rewrite Hcb, Hheader.
  assert (forall s', sk_out s' = [] -> sk_closed s' = false ->
            (forall l, net = Connected l Writable -> (Failure ∉ l -> False)) ->
            measures_until_failure net d cb t (Done (Some (-1)) s', t)) as Hnone.
  { intros s' Ho Hc Hl. exists 0%nat, 0%nat, [], s'.
    split_and!; [done | done | apply prefix_nil | done | done | lia | unfold nb_mesures; lia | unfold nb_mesures; lia |].
    intros l Hnet Hf. by destruct (Hl l Hnet). }
  destruct net as [| |l w]; [by apply Hnone.. |]. cbn [connect].
  destruct (reads_recv_message l [] w false) as [(msg & l1 & -> & H1)|(l1 & -> & H1)];
    [|apply Hnone; [done | done |]; by intros ? [= -> ->]].
  destruct (rounds_measure d (to_le 4 (blen (bi_buffer cb))) cb nb_mesures 0 t l1 w [])
    as (k & m & part & o & t' & -> & -> & Hm & Hp & [[-> [-> (l2 & w2 & ->)]]|(Hk & Hf & l2 & w2 & ->)]).
  - exists nb_mesures, m, []. eexists. split_and!; try reflexivity; try lia.
    + cbn [sk_out app]. by rewrite app_nil_r.
    + apply prefix_nil.
  - exists k, m, part. eexists. rewrite bool_decide_eq_false_2 by lia.
    split_and!; try reflexivity; try lia; [done|].
    intros l' [= <- ->] Hl. destruct Hf as [Hf|Hf]; [tauto | done].
Qed.

(** The measuring client, on any network and whatever arrives: it stores [k]
    measures in the list of the daemon's type, at most [nb_mesures], having
    written between [nb_iteration * k] and [nb_iteration * nb_mesures] times its
    command, framed; it answers -1 when it stopped early, None when it did not,
    and leaves the connection open.  Only a failure of the connection stops it:
    nothing it reads does, so on a daemon that says nothing, or that closed, it
    stores every measure.  Its test has no verdict: it passes on any network. *)
Lemma overhead_measures net d cmd t :
  command_ok cmd = true ->
  (exists cb, send_command_to_demon cmd = Ok cb /\
    measures_until_failure net d cb t (boucle_launch_process net d cmd t fresh_sock)) /\
  exists s' t', test_avec_demon net d t fresh_sock = (Done tt s', t').
Proof.
  intros Hok. destruct (command_header cmd Hok) as (cb & Hcb & Hh).
  destruct (command_header measured_command eq_refl) as (cb' & Hcb' & Hh').
  split; [eauto using boucle_measures|].
  destruct (boucle_measures net d _ cb' t Hcb' Hh') as (k & m & part & s' & H & _).
  unfold test_avec_demon, mbind, mio_bind. rewrite H. eauto.
Qed.

(** Without a daemon: a measure per round, whatever the exit statuses. *)
Lemma for_range_update (f : nat -> temps -> temps) (body : nat -> mio unit) i n t s :
  (forall j t, body j t s = (Done tt s, f j t)) ->
  for_range i n body t s = (Done tt s, foldl (fun t j => f j t) t (seq i n)).
Proof.
  intros Hb. revert i t. induction n as [|n IH]; intros i t; [done|].
  cbn [for_range]. unfold mbind, mio_bind. rewrite Hb. apply IH.
Qed.

Lemma foldl_id {A B} (l : list B) (a : A) : foldl (fun a _ => a) a l = a.
Proof. by induction l. Qed.

Lemma test_sans_demon_measures call t s :
  (forall n, exists code, call n = Ok code) ->
  test_sans_demon call t s =
  (Done tt s, mkTemps (temps_sans_demon t ++ (measure <$> seq 0 nb_mesures)) (temps_demon_rust t)
                (temps_demon_c t)).
Proof.
  intros Hcall. trans (Done tt s, foldl (fun t i => record_sans (measure i) t) t (seq 0 nb_mesures)).
  - apply (for_range_update (fun i => record_sans (measure i))). intros i t1.
    unfold mbind, mio_bind. rewrite (for_range_update (fun _ t => t)); [by rewrite foldl_id|].
    intros j t2. unfold on_socket, of_res. by destruct (Hcall (i * nb_iteration + j)%nat) as [code ->].
  - f_equal. generalize 0%nat, nb_mesures. intros i n. revert i t. induction n as [|n IH]; intros i t.
    + cbn. rewrite app_nil_r. by destruct t.
    + cbn [seq foldl]. rewrite IH. cbn. by rewrite <- app_assoc.
Qed.
End overhead.

(** ** At a concrete input, on the reference runtime *)
Section witnesses.
#[local] Existing Instance ref_runtime.
#[local] Existing Instance ref_laws.

(** A daemon that closes the connection at once: ten measures of thirty requests
    nobody read. *)
Lemma overhead_measures_witness :
  exists cb s', send_command_to_demon measured_command = Ok cb /\
    boucle_launch_process (fun n => n) (fun start stop n => (stop - start)%nat)
      (Connected [] Writable) "c" measured_command (@mkTemps nat [] [] []) fresh_sock =
    (Done None s', mkTemps [] [] (replicate 10 1%nat)) /\
    sk_out s' = copies 300 (frame (bi_buffer cb)).
Proof.
  destruct (overhead_measures (fun n => n) (fun start stop n => (stop - start)%nat)
              (Connected [] Writable) "c" measured_command (@mkTemps nat [] [] []))
    as [(cb & Hcb & k & m & part & s' & H & Hout & _ & Hpart & _ & Hm & _ & Hk) _]; [reflexivity|].
  specialize (Hk [] eq_refl ltac:(apply not_elem_of_nil)). subst k.
  rewrite (Hpart eq_refl), app_nil_r in Hout.
  replace m with 300%nat in Hout by (unfold nb_iteration, nb_mesures in Hm; lia).
  exists cb, s'. split; [exact Hcb|]. split; [exact H | exact Hout].
Defined.
End witnesses.
