(* ===== verification/Graph.v ===== *)
(** * The measures as a file, and as a graph

    [test_traitement_donne] of [tests_python/test_overhead.py], which writes the
    lists of measures, and [tests_python/generate_overhead_graph.py], which reads
    them back, prints their statistics and draws them.  pandas, scipy, seaborn and
    matplotlib are third-party: [Pandas] has the operations the scripts call and
    [PandasLaws] their documented behaviour, over the cells of a frame.  A drawing
    call is an output of the script, and may raise. *)
From S2P Require Import Prelude Bytes FlatBuffers FlatBuffersRef FlatBuffersRefLaws.
From S2P Require Import Data Send SendFacts CommandFacts Socket Stream Overhead.

(** ** The library *)

(** A cell: a number, a text, or missing. *)
Inductive value (num : Type) : Type :=
  | VNum (x : num)
  | VText (s : string)
  | VNaN.
Arguments VNum {num} _.
Arguments VText {num} _.
Arguments VNaN {num}.

Class Pandas := {
  num : Type;
  lit : Z -> nat -> num;                        (* [lit m e] is the float m/10^e *)
  of_count : nat -> num;
  fadd : num -> num -> num;
  fsub : num -> num -> num;
  fmul : num -> num -> num;
  fdiv : num -> num -> num;
  fsqrt : num -> num;
  ppf : num -> num -> num;                      (* [stats.t.ppf(q, df)] *)
  np_mean : list num -> num;
  mean_of : list num -> num;
  std_of : list num -> num;
  min_of : list num -> num;
  max_of : list num -> num;
  parse : string -> option num;                 (* a number read in a text *)
  literal : num -> string;                      (* a number written in a CSV file *)

  file : Type;
  frame : Type;
  series : Type;                                (* a column of a frame *)
  table : Type;                                 (* a frame indexed by groups *)
  tseries : Type;                               (* a column of a table *)
  dataframe : list (string * list num) -> res frame;
  to_csv : frame -> file;
  read_csv : file -> list string -> res frame;
  melt : frame -> string -> string -> frame;
  getitem : frame -> string -> res series;
  setitem : frame -> string -> series -> frame;
  to_numeric_coerce : series -> series;
  dropna : frame -> string -> frame;
  head : frame -> frame;
  unique : series -> list (value num);
  eq_mask : series -> value num -> list bool;
  where_ : frame -> list bool -> frame;
  s_mean : series -> num;
  s_std : series -> num;
  s_min : series -> num;
  s_max : series -> num;
  agg : frame -> string -> string -> list string -> res table;
  tget : table -> string -> res tseries;
  tset : table -> string -> tseries -> table;
  tdiv : tseries -> tseries -> tseries;
  tmul : tseries -> tseries -> tseries;
  tsub : tseries -> num -> tseries;
  tsqrt : tseries -> tseries;
  t_ppf : num -> tseries -> tseries;
  loc : table -> value num -> string -> res num;
  in_index : table -> value num -> bool
}.

(** ** Reference readings of cells *)
Section cells.
Context {P : Pandas}.

(** [pd.to_numeric(v, errors='coerce')], a missing value being no number. *)
Definition numeric (v : value num) : option num :=
  match v with VNum x => Some x | VText s => parse s | VNaN => None end.
Definition of_option (o : option num) : value num :=
  match o with Some x => VNum x | None => VNaN end.
Definition number (v : value num) : option num :=
  match v with VNum x => Some x | _ => None end.
Definition present (v : value num) : bool :=
  match v with VNaN => false | _ => true end.

(** The elements whose flag is set. *)
Fixpoint keep {A} (mask : list bool) (l : list A) : list A :=
  match mask, l with
  | b :: mask, a :: l => if b then a :: keep mask l else keep mask l
  | _, _ => []
  end.

(** The elements in the order of their first occurrence. *)
Fixpoint firsts (l : list string) : list string :=
  match l with
  | [] => []
  | s :: l => s :: List.filter (fun s' => negb (bool_decide (s' = s))) (firsts l)
  end.

(** Texts a column may be read as booleans for ([true_values], [false_values]). *)
Definition boolean_word (s : string) : bool :=
  bool_decide (s ∈ ["True"; "TRUE"; "true"; "False"; "FALSE"; "false"]%string).
End cells.

#[global] Instance value_eq_dec {A} `{EqDecision A} : EqDecision (value A).
Proof. solve_decision. Defined.

(** The documented behaviour: [names] and [cells] are the columns of a frame, in
    order and by name; [values] of a series; [entry] of a column of a table. *)
Class PandasLaws (P : Pandas) := {
  records : file -> list (list string);
  names : frame -> list string;
  cells : frame -> string -> option (list (value num));
  values : series -> list (value num);
  entry : tseries -> value num -> option num;

  parse_title s : s ∈ ["Sans demon"; "Demon rust"; "Demon c"]%string -> parse s = None;
  literal_no_boolean x : boolean_word (literal x) = false;

  dataframe_even data n :
    NoDup data.*1 -> Forall (fun c => length c.2 = n) data ->
    exists df, dataframe data = Ok df /\ names df = data.*1 /\
      forall c, c ∈ data -> cells df c.1 = Some (VNum <$> c.2);
  dataframe_uneven data c1 c2 :
    c1 ∈ data -> c2 ∈ data -> length c1.2 <> length c2.2 -> dataframe data = Err ValueError;
  to_csv_records df data n :
    data <> [] -> names df = data.*1 -> Forall (fun c => length c.2 = n) data ->
    (forall c, c ∈ data -> cells df c.1 = Some (VNum <$> c.2)) ->
    records (to_csv df) =
      data.*1 :: ((fun i => (fun c => from_option literal EmptyString (c.2 !! i)) <$> data) <$> seq 0 n);
  read_csv_cells f ns :
    NoDup ns -> records f <> [] -> Forall (fun r => length r = length ns) (records f) ->
    Forall (Forall (fun s => boolean_word s = false)) (records f) ->
    exists df, read_csv f ns = Ok df /\ names df = ns /\
      forall i n, ns !! i = Some n ->
        exists vs, cells df n = Some vs /\
          numeric <$> vs = (fun r => r !! i ≫= parse) <$> records f;
  melt_cells df var val (cols : list (string * list (value num))) :
    var <> val -> names df = cols.*1 -> (forall c, c ∈ cols -> cells df c.1 = Some c.2) ->
    cells (melt df var val) var = Some (cols ≫= fun c => replicate (length c.2) (VText c.1)) /\
    cells (melt df var val) val = Some (cols ≫= snd);
  getitem_values df c vs :
    cells df c = Some vs -> exists s, getitem df c = Ok s /\ values s = vs;
  setitem_cells df c c' s vs :
    cells df c = Some vs -> length (values s) = length vs ->
    cells (setitem df c s) c' = if decide (c' = c) then Some (values s) else cells df c';
  to_numeric_values s : values (to_numeric_coerce s) = (fun v => of_option (numeric v)) <$> values s;
  dropna_cells df c c' vs ws :
    cells df c = Some vs -> cells df c' = Some ws -> length ws = length vs ->
    cells (dropna df c) c' = Some (keep (present <$> vs) ws);
  unique_texts s ns :
    values s = VText <$> ns -> unique s = VText <$> firsts ns;
  eq_mask_texts s ns n :
    values s = VText <$> ns -> eq_mask s (VText n) = (fun m => bool_decide (m = n)) <$> ns;
  where_cells df mask c vs :
    cells df c = Some vs -> length vs = length mask -> cells (where_ df mask) c = Some (keep mask vs);
  s_mean_values s : s_mean s = mean_of (omap number (values s));
  s_std_values s : s_std s = std_of (omap number (values s));
  s_min_values s : s_min s = min_of (omap number (values s));
  s_max_values s : s_max s = max_of (omap number (values s));
  agg_entries df key c ns vs :
    cells df key = Some (VText <$> ns) -> cells df c = Some vs -> length vs = length ns ->
    exists t, agg df key c ["mean"; "std"; "count"]%string = Ok t /\
      (forall n, in_index t (VText n) = bool_decide (n ∈ ns)) /\
      exists m s k, tget t "mean" = Ok m /\ tget t "std" = Ok s /\ tget t "count" = Ok k /\
        forall n, n ∈ ns ->
          let xs := omap number (keep ((fun m => bool_decide (m = n)) <$> ns) vs) in
          entry m (VText n) = Some (mean_of xs) /\ entry s (VText n) = Some (std_of xs) /\
          entry k (VText n) = Some (of_count (length xs));
  tset_get t c c' s : tget (tset t c s) c' = if decide (c' = c) then Ok s else tget t c';
  tset_index t c s v : in_index (tset t c s) v = in_index t v;
  tdiv_entry a b v x y : entry a v = Some x -> entry b v = Some y -> entry (tdiv a b) v = Some (fdiv x y);
  tmul_entry a b v x y : entry a v = Some x -> entry b v = Some y -> entry (tmul a b) v = Some (fmul x y);
  tsub_entry a y v x : entry a v = Some x -> entry (tsub a y) v = Some (fsub x y);
  tsqrt_entry a v x : entry a v = Some x -> entry (tsqrt a) v = Some (fsqrt x);
  t_ppf_entry q a v x : entry a v = Some x -> entry (t_ppf q a) v = Some (ppf q x);
  loc_entry t c s v x : tget t c = Ok s -> entry s v = Some x -> loc t v c = Ok x
}.

(** ** The scripts *)
Section scripts.
Context {P : Pandas}.

Definition newline : string := String (Ascii.ascii_of_nat 10) EmptyString.

(** A piece of printed text: a text, a number with six decimals, a number, a
    frame or a table as pandas prints it. *)
Inductive part : Type :=
  | Txt (s : string)
  | Fix6 (x : num)
  | Plain (x : num)
  | Val (v : value num)
  | Len (n : nat)
  | OfFrame (df : frame)
  | OfTable (t : table).

(** An argument of a drawing call. *)
Inductive arg : Type :=
  | AStr (s : string)
  | AParts (l : list part)
  | AInt (z : Z)
  | ANum (x : num)
  | ABool (b : bool)
  | AFrame (df : frame)
  | AName (s : string)                         (* a function, by name *)
  | APair (a b : arg).

Inductive output : Type :=
  | Printed (l : list part)
  | Called (f : string) (args : list (string * arg)).

(** Computations with outputs and exceptions. *)
Definition script (A : Type) : Type := list output -> res A * list output.
#[global] Instance script_ret : MRet script := fun A a out => (Ok a, out).
#[global] Instance script_bind : MBind script := fun A B f m out =>
  match m out with (Ok a, out') => f a out' | (Err e, out') => (Err e, out') end.

Definition of_result {A} (r : res A) : script A := fun out => (r, out).
Definition print (l : list part) : script unit := fun out => (Ok tt, out ++ [Printed l]).

(** The drawing libraries: whether a call raises. *)
Context (lib : string -> list (string * arg) -> option exn).

Definition call (f : string) (args : list (string * arg)) : script unit := fun out =>
  match lib f args with
  | None => (Ok tt, out ++ [Called f args])
  | Some e => (Err e, out)
  end.

Fixpoint enumerate {A} (i : Z) (l : list A) (body : Z -> A -> script unit) : script unit :=
  match l with [] => mret tt | a :: l => _ ← body i a; enumerate (i + 1) l body end.

Local Open Scope string_scope.

(** [test_traitement_donne]: the text, the frame, the file. *)
Definition donnees (t : @temps num) : list (string * list num) :=
  [("Sans demon", temps_sans_demon t); ("Demon rust", temps_demon_rust t); ("Demon c", temps_demon_c t)].

Definition test_traitement_donne (t : @temps num) : script file :=
  _ ← print [Txt newline];
  _ ← print [Txt "Moyenne de temps sans demon : "; Plain (np_mean (temps_sans_demon t)); Txt " secondes"];
  _ ← print [Txt "Moyenne de temps avec demon rust: "; Plain (np_mean (temps_demon_rust t)); Txt " secondes"];
  _ ← print [Txt "Moyenne de temps avec demon c : "; Plain (np_mean (temps_demon_c t)); Txt " secondes"];
  _ ← print [Len (length (temps_sans_demon t)); Txt " "; Len (length (temps_demon_rust t)); Txt " ";
             Len (length (temps_demon_c t))];
  df ← of_result (dataframe (donnees t));
  let f := to_csv df in
  _ ← print [Txt "données générées dans donnees.csv"];
  mret f.

(** The file in the directory of the scripts: [to_csv] replaces it. *)
Definition save (t : @temps num) (old : option file) : option file :=
  match (test_traitement_donne t []).1 with Ok f => Some f | Err _ => old end.

(** [generate_overhead_graph.py], part by part. *)
Definition column_names : list string := ["Sans_demon"; "Demon_rust"; "Demon_c"].

Definition prepare (donnees_csv : option file) : res frame :=
  match donnees_csv with
  | None => Err OSError
  | Some f =>
      df_raw ← read_csv f column_names;
      let df := melt df_raw "variante" "temps_performance" in
      col ← getitem df "temps_performance";
      let df := setitem df "temps_performance" (to_numeric_coerce col) in
      Ok (dropna df "temps_performance")
  end.

Definition statistics (df : frame) : res table :=
  stats_df ← agg df "variante" "temps_performance" ["mean"; "std"; "count"];
  std ← tget stats_df "std";
  count ← tget stats_df "count";
  let stats_df := tset stats_df "se" (tdiv std (tsqrt count)) in
  se ← tget stats_df "se";
  count ← tget stats_df "count";
  Ok (tset stats_df "ci_95" (tmul se (t_ppf (lit 975 3) (tsub count (lit 1 0))))).

Definition draw_figure (df : frame) : script unit :=
  _ ← call "plt.figure" [("figsize", APair (AInt 12) (AInt 8))];
  _ ← call "sns.barplot" [("x", AStr "variante"); ("y", AStr "temps_performance"); ("data", AFrame df);
         ("estimator", AName "np.mean"); ("errorbar", APair (AStr "ci") (AInt 95));
         ("alpha", ANum (lit 8 1)); ("palette", AStr "viridis")];
  _ ← call "sns.stripplot" [("x", AStr "variante"); ("y", AStr "temps_performance"); ("data", AFrame df);
         ("jitter", ABool true); ("size", AInt 5); ("alpha", ANum (lit 3 1)); ("palette", AStr "viridis");
         ("edgecolor", AStr "gray"); ("linewidth", ANum (lit 5 1))];
  _ ← call "plt.title" [("label", AStr "Temps de performance par variante"); ("fontsize", AInt 16); ("pad", AInt 20)];
  _ ← call "plt.xlabel" [("xlabel", AStr "Variante"); ("fontsize", AInt 14); ("labelpad", AInt 10)];
  _ ← call "plt.ylabel" [("ylabel", AStr "Temps de performance (s)"); ("fontsize", AInt 14); ("labelpad", AInt 10)];
  call "plt.grid" [("axis", AStr "y"); ("linestyle", AStr "--"); ("alpha", ANum (lit 7 1))].

Definition annotate (df : frame) (stats_df : table) (i : Z) (variante_name : value num) : script unit :=
  mean_val ← of_result (loc stats_df variante_name "mean");
  temps ← of_result (getitem df "temps_performance");
  let y_pos := fadd mean_val (fmul (s_max temps) (lit 1 2)) in
  call "plt.text" [("x", AInt i); ("y", ANum y_pos); ("s", AParts [Fix6 mean_val]);
    ("ha", AStr "center"); ("fontsize", AInt 10); ("fontweight", AStr "bold")].

Definition finish_figure (df : frame) : script unit :=
  temps ← of_result (getitem df "temps_performance");
  let y_min := fmul (s_min temps) (lit 9 1) in
  let y_max := fmul (s_max temps) (lit 11 1) in
  _ ← call "plt.ylim" [("bottom", ANum y_min); ("top", ANum y_max)];
  _ ← call "plt.legend" [("labels", APair (AStr "Moyenne avec IC à 95%") (AStr "Observations individuelles"));
         ("loc", AStr "upper right")];
  _ ← call "plt.figtext" [("x", ANum (lit 5 1)); ("y", ANum (lit 1 2));
         ("s", AStr "Note: Les barres représentent les moyennes avec intervalle de confiance à 95%. Les points représentent les observations individuelles.");
         ("ha", AStr "center"); ("fontsize", AInt 10); ("style", AStr "italic")];
  _ ← call "plt.tight_layout" [];
  _ ← call "plt.savefig" [("fname", AStr "performance_comparison.png"); ("dpi", AInt 300)];
  call "plt.show" [].

Definition details (df : frame) (stats_df : table) (_ : Z) (variante : value num) : script unit :=
  col ← of_result (getitem df "variante");
  subset ← of_result (getitem (where_ df (eq_mask col variante)) "temps_performance");
  _ ← print [Txt newline; Val variante; Txt ":"];
  _ ← print [Txt "  Moyenne: "; Fix6 (s_mean subset); Txt " ms"];
  _ ← print [Txt "  Écart-type: "; Fix6 (s_std subset); Txt " ms"];
  _ ← (if in_index stats_df variante then
         ci ← of_result (loc stats_df variante "ci_95");
         let ci_lower := fsub (s_mean subset) ci in
         ci ← of_result (loc stats_df variante "ci_95");
         let ci_upper := fadd (s_mean subset) ci in
         print [Txt "  Intervalle de confiance à 95%: ["; Fix6 ci_lower; Txt ", "; Fix6 ci_upper; Txt "]"]
       else mret tt);
  _ ← print [Txt "  Min: "; Fix6 (s_min subset); Txt " ms"];
  print [Txt "  Max: "; Fix6 (s_max subset); Txt " ms"].

Definition generate_overhead_graph (donnees_csv : option file) : script unit :=
  df ← of_result (prepare donnees_csv);
  _ ← print [Txt "Aperçu des données transformées :"];
  _ ← print [OfFrame (head df)];
  stats_df ← of_result (statistics df);
  _ ← print [Txt newline; Txt "Statistiques par variante :"];
  _ ← print [OfTable stats_df];
  _ ← draw_figure df;
  col ← of_result (getitem df "variante");
  _ ← enumerate 0 (unique col) (annotate df stats_df);
  _ ← finish_figure df;
  _ ← print [Txt newline; Txt "Statistiques détaillées par variante :"];
  col ← of_result (getitem df "variante");
  enumerate 0 (unique col) (details df stats_df).
End scripts.

(** ** What the scripts show, without the library *)
Section reference.
Context {P : Pandas}.

(** The columns of a file of three columns, as the numbers in them; those with
    one number at least. *)
Definition column_numbers (rows : list (list string)) (i : nat) : list num :=
  omap (fun r => r !! i ≫= parse) rows.
Definition all_columns (rows : list (list string)) : list (string * list num) :=
  imap (fun i n => (n, column_numbers rows i)) column_names.
Definition is_shown (c : string * list num) : bool := negb (bool_decide (c.2 = [])).
Definition shown (rows : list (list string)) : list (string * list num) :=
  List.filter is_shown (all_columns rows).

(** The margin of the 95% interval of a mean. *)
Definition margin (xs : list num) : num :=
  fmul (fdiv (std_of xs) (fsqrt (of_count (length xs))))
    (ppf (lit 975 3) (fsub (of_count (length xs)) (lit 1 0))).

Local Open Scope string_scope.

Definition detail_lines (c : string * list num) : list output :=
  let '(n, xs) := c in
  [Printed [Txt newline; Val (VText n); Txt ":"];
   Printed [Txt "  Moyenne: "; Fix6 (mean_of xs); Txt " ms"];
   Printed [Txt "  Écart-type: "; Fix6 (std_of xs); Txt " ms"];
   Printed [Txt "  Intervalle de confiance à 95%: ["; Fix6 (fsub (mean_of xs) (margin xs)); Txt ", ";
            Fix6 (fadd (mean_of xs) (margin xs)); Txt "]"];
   Printed [Txt "  Min: "; Fix6 (min_of xs); Txt " ms"];
   Printed [Txt "  Max: "; Fix6 (max_of xs); Txt " ms"]].

(** The annotation of the [i]-th bar, above it by a hundredth of the greatest
    measure of all. *)
Definition annotation (highest : num) (i : Z) (c : string * list num) : output :=
  Called "plt.text" [("x", AInt i); ("y", ANum (fadd (mean_of c.2) (fmul highest (lit 1 2))));
    ("s", AParts [Fix6 (mean_of c.2)]); ("ha", AStr "center"); ("fontsize", AInt 10);
    ("fontweight", AStr "bold")].

Definition annotations (highest : num) (cols : list (string * list num)) : list output :=
  imap (fun i c => annotation highest (Z.of_nat i) c) cols.
End reference.

(** ** Facts about cells *)
Section cell_facts.
Context {P : Pandas}.

(** A frame in long form: a row for each element of each column, with its name. *)
Definition long_names {A} (cols : list (string * list A)) : list string :=
  cols ≫= fun c => replicate (length c.2) c.1.
Definition long_values {A} (cols : list (string * list A)) : list A := cols ≫= snd.

Lemma long_length {A} (cols : list (string * list A)) :
  length (long_values cols) = length (long_names cols).
Proof.
  induction cols as [|c cols IH]; [done|]. unfold long_values, long_names in *. cbn.
  by rewrite !length_app, length_replicate, IH.
Qed.

Lemma keep_app {A} m1 m2 (l1 l2 : list A) :
  length m1 = length l1 -> keep (m1 ++ m2) (l1 ++ l2) = keep m1 l1 ++ keep m2 l2.
Proof.
  revert l1. induction m1 as [|b m1 IH]; intros [|a l1] H; try done. cbn. injection H as H.
  rewrite (IH l1 H). by destruct b.
Qed.

Lemma keep_none {A} (m : list bool) (l : list A) : Forall (fun b => b = false) m -> keep m l = [].
Proof. intros H. revert l. induction H as [|b m -> _ IH]; intros [|a l]; cbn; auto. Qed.

Lemma keep_all {A} (m : list bool) (l : list A) :
  length m = length l -> Forall (fun b => b = true) m -> keep m l = l.
Proof.
  intros Hl H. revert l Hl. induction H as [|b m -> _ IH]; intros [|a l] Hl; try done. injection Hl as Hl.
  cbn. by rewrite IH.
Qed.

Lemma keep_fmap {A B} (f : A -> B) m (l : list A) : keep m (f <$> l) = f <$> keep m l.
Proof.
  revert l. induction m as [|b m IH]; intros [|a l]; try done. cbn. rewrite IH. by destruct b.
Qed.

Lemma keep_length {A} m (l : list A) : length m = length l -> (length (keep m l) <= length l)%nat.
Proof.
  revert l. induction m as [|b m IH]; intros [|a l] H; cbn in *; [lia | lia | lia|].
  injection H as H. specialize (IH l H). destruct b; cbn; lia.
Qed.

(** Dropping the missing cells of a long frame. *)
Definition clean (cols : list (string * list (value num))) : list (string * list num) :=
  (fun c : string * list (value num) => (c.1, omap numeric c.2)) <$> cols.

Lemma keep_numeric_values (vs : list (value num)) :
  keep (present <$> ((fun v => of_option (numeric v)) <$> vs)) ((fun v => of_option (numeric v)) <$> vs) =
  VNum <$> omap numeric vs.
Proof. induction vs as [|v vs IH]; [done|]. cbn. rewrite IH. by destruct (numeric v). Qed.

Lemma keep_numeric_names {A} (a : A) (vs : list (value num)) :
  keep (present <$> ((fun v => of_option (numeric v)) <$> vs)) (replicate (length vs) a) =
  replicate (length (omap numeric vs)) a.
Proof. induction vs as [|v vs IH]; [done|]. cbn. rewrite IH. by destruct (numeric v). Qed.

Lemma drop_missing (cols : list (string * list (value num))) :
  let vs := (fun v => of_option (numeric v)) <$> long_values cols in
  keep (present <$> vs) (@VText num <$> long_names cols) = @VText num <$> long_names (clean cols) /\
  keep (present <$> vs) vs = VNum <$> long_values (clean cols).
Proof.
  intros vs. subst vs. induction cols as [|[n c] cols [IH1 IH2]]; [done|].
  unfold long_values, long_names in *. cbn. rewrite !fmap_app.
  rewrite !keep_app by (by rewrite !length_fmap, ?length_replicate). rewrite IH1, IH2, fmap_replicate.
  by rewrite keep_numeric_names, keep_numeric_values, fmap_replicate.
Qed.

(** The names of a long frame, and the rows of one name. *)
Lemma long_shown (cols : list (string * list num)) :
  long_names (List.filter is_shown cols) = long_names cols /\
  long_values (List.filter is_shown cols) = long_values cols.
Proof.
  induction cols as [|[n [|x xs]] cols [IH1 IH2]]; [done | done|].
  unfold long_names, long_values in *. cbn. by rewrite IH1, IH2.
Qed.

Lemma long_names_elem {A} (cols : list (string * list A)) n : n ∈ long_names cols -> n ∈ cols.*1.
Proof.
  unfold long_names. rewrite list_elem_of_bind. intros (c & Hc%elem_of_replicate & Hin).
  destruct Hc as [-> _]. by apply list_elem_of_fmap_2.
Qed.

Lemma filter_none (p : string -> bool) l : (forall s, s ∈ l -> p s = true) -> List.filter p l = l.
Proof.
  intros H. induction l as [|s l IH]; [done|]. cbn. rewrite (H s) by left. f_equal.
  apply IH. intros t Ht. apply H. by right.
Qed.

Lemma firsts_elem n l : n ∈ firsts l -> n ∈ l.
Proof.
  induction l as [|s l IH]; [by intros ?%elem_of_nil|]. cbn. rewrite !elem_of_cons.
  intros [->|H]; [by left | right]. apply IH. apply list_elem_of_In, filter_In in H as [H _].
  by apply list_elem_of_In.
Qed.

Lemma firsts_replicate k n l : n ∉ l -> firsts (replicate (S k) n ++ l) = n :: firsts l.
Proof.
  intros Hn. induction k as [|k IH].
  - cbn. f_equal. apply filter_none. intros s Hs. apply negb_true_iff, bool_decide_eq_false.
    intros ->. apply Hn. by apply firsts_elem.
  - change (replicate (S (S k)) n ++ l) with (n :: (replicate (S k) n ++ l)). cbn [firsts].
    rewrite IH. cbn. rewrite bool_decide_eq_true_2 by done. cbn. f_equal.
    apply filter_none. intros s Hs. apply negb_true_iff, bool_decide_eq_false.
    intros ->. apply Hn. by apply firsts_elem.
Qed.

Lemma firsts_long (cols : list (string * list num)) :
  NoDup cols.*1 -> Forall (fun c => is_shown c = true) cols -> firsts (long_names cols) = cols.*1.
Proof.
  induction cols as [|[n xs] cols IH]; [done|]. cbn. intros [Hn Hnd]%NoDup_cons [Hs HF]%Forall_cons.
  destruct xs as [|x xs]; [done|]. unfold long_names. cbn [mbind list_bind length].
  rewrite firsts_replicate; [by rewrite <- IH|]. intros Hin. by apply Hn, long_names_elem.
Qed.

Lemma keep_name (cols : list (string * list num)) n xs :
  NoDup cols.*1 -> (n, xs) ∈ cols ->
  keep ((fun m => bool_decide (m = n)) <$> long_names cols) (long_values cols) = xs.
Proof.
  assert (forall l : list (string * list num), n ∉ l.*1 ->
    keep ((fun m => bool_decide (m = n)) <$> long_names l) (long_values l) = []) as Hnone.
  { intros l Hl. apply keep_none, Forall_fmap, Forall_forall. intros m Hm. apply bool_decide_eq_false.
    intros ->. by apply Hl, long_names_elem. }
  induction cols as [|[m ys] cols IH]; [by intros _ ?%elem_of_nil|]. cbn.
  intros [Hm Hnd]%NoDup_cons Hin. unfold long_names, long_values in *. cbn.
  rewrite fmap_app, keep_app by (by rewrite length_fmap, length_replicate).
  apply elem_of_cons in Hin as [[= -> ->]|Hin].
  - rewrite (Hnone cols Hm), app_nil_r. apply keep_all; [by rewrite length_fmap, length_replicate|].
    apply Forall_fmap, Forall_forall. intros s [-> _]%elem_of_replicate. by apply bool_decide_eq_true.
  - rewrite (IH Hnd Hin). rewrite keep_none; [done|]. apply Forall_fmap, Forall_forall.
    intros s [-> _]%elem_of_replicate. apply bool_decide_eq_false. intros ->. apply Hm.
    by apply (list_elem_of_fmap_2 fst _ (n, xs)).
Qed.

Lemma omap_number (xs : list num) : omap number (VNum <$> xs) = xs.
Proof. induction xs as [|x xs IH]; [done|]. cbn. by rewrite IH. Qed.
End cell_facts.

(** ** The graph script, on a file *)
Section graph.
Context {P : Pandas} {L : PandasLaws P}.
Local Open Scope string_scope.

Lemma shown_columns rows :
  NoDup (shown rows).*1 /\ Forall (fun c => is_shown c = true) (shown rows).
Proof.
  split.
  - unfold shown, all_columns. cbn.
    repeat match goal with |- context [is_shown ?c] => destruct (is_shown c) end;
      apply (bool_decide_unpack _); reflexivity.
  - apply Forall_forall. intros c Hc. by apply list_elem_of_In, filter_In in Hc as [_ Hc].
Qed.

Lemma omap_fmap_numeric (vs : list (value num)) ys :
  numeric <$> vs = ys -> omap numeric vs = omap id ys.
Proof. intros <-. induction vs as [|v vs IH]; [done|]. cbn. rewrite IH. by destruct (numeric v). Qed.

Lemma omap_map {A B C} (f : A -> B) (g : B -> option C) (l : list A) :
  omap g (f <$> l) = omap (fun a => g (f a)) l.
Proof. induction l as [|a l IH]; [done|]. cbn. by rewrite IH. Qed.

Lemma prepare_cells f rows :
  records f = rows -> rows <> [] -> Forall (fun r => length r = 3%nat) rows ->
  Forall (Forall (fun s => boolean_word s = false)) rows ->
  exists df, prepare (Some f) = Ok df /\
    cells df "variante" = Some (@VText num <$> long_names (shown rows)) /\
    cells df "temps_performance" = Some (VNum <$> long_values (shown rows)).
Proof.
  intros Hr Hne Hlen Hw. subst rows.
  destruct (read_csv_cells f column_names) as (raw & Hraw & Hnames & Hcells); [| done..|].
  { apply (bool_decide_unpack _). reflexivity. }
  destruct (Hcells 0%nat _ eq_refl) as (v0 & C0 & N0).
  destruct (Hcells 1%nat _ eq_refl) as (v1 & C1 & N1).
  destruct (Hcells 2%nat _ eq_refl) as (v2 & C2 & N2).
  set (cols := [("Sans_demon", v0); ("Demon_rust", v1); ("Demon_c", v2)]).
  destruct (melt_cells raw "variante" "temps_performance" cols) as [M1 M2]; [done | done | |].
  { intros c Hc. subst cols. repeat apply elem_of_cons in Hc as [->|Hc]; [done.. | by apply elem_of_nil in Hc]. }
  assert (clean cols = all_columns (records f)) as Hclean.
  { unfold clean, cols, all_columns. cbn. rewrite (omap_fmap_numeric _ _ N0), (omap_fmap_numeric _ _ N1),
      (omap_fmap_numeric _ _ N2). unfold column_numbers.
    by rewrite !omap_map. }
  unfold prepare. cbn [mbind res_bind]. rewrite Hraw. cbn [mbind res_bind].
  destruct (getitem_values _ _ _ M2) as (s & -> & Hs). cbn [mbind res_bind].
  eexists. split; [reflexivity|].
  assert (length (values (to_numeric_coerce s)) = length (cols ≫= snd)) as Hl
    by by rewrite to_numeric_values, length_fmap, Hs.
  pose proof (setitem_cells _ _ "variante" _ _ M2 Hl) as S1.
  pose proof (setitem_cells _ _ "temps_performance" _ _ M2 Hl) as S2.
  cbn in S1, S2. rewrite M1 in S1. rewrite to_numeric_values, Hs in S2.
  destruct (drop_missing cols) as [D1 D2].
  destruct (long_shown (clean cols)) as [L1 L2]. rewrite Hclean in *.
  assert ((cols ≫= fun c => replicate (length c.2) (@VText num c.1)) = @VText num <$> long_names cols) as Hnm.
  { unfold long_names. clear. induction cols as [|c cols IH]; [done|]. cbn in *.
    by rewrite IH, fmap_app, fmap_replicate. }
  rewrite Hnm in S1. fold (long_values cols) in S2. split.
  - rewrite (dropna_cells _ _ _ _ _ S2 S1), D1, <- L1; [done|]. by rewrite !length_fmap, long_length.
  - rewrite (dropna_cells _ _ _ _ _ S2 S2), D2, <- L2; done.
Qed.

(** A frame whose rows are those of [cols]. *)
Definition holds (df : frame) (cols : list (string * list num)) : Prop :=
  cells df "variante" = Some (@VText num <$> long_names cols) /\
  cells df "temps_performance" = Some (@VNum num <$> long_values cols).

(** A table whose rows are the statistics of [cols]. *)
Definition summarises (t : table) (cols : list (string * list num)) : Prop :=
  forall n xs, (n, xs) ∈ cols ->
    loc t (VText n) "mean" = Ok (mean_of xs) /\ loc t (VText n) "ci_95" = Ok (margin xs) /\
    in_index t (VText n) = true.

Lemma statistics_summarise df cols :
  holds df cols -> NoDup cols.*1 -> Forall (fun c => is_shown c = true) cols ->
  exists t, statistics df = Ok t /\ summarises t cols.
Proof.
  intros [H1 H2] Hnd Hs.
  destruct (agg_entries df "variante" "temps_performance" _ _ H1 H2)
    as (t & Ht & Hi & m & s & k & Hm & Hsd & Hk & He); [by rewrite length_fmap, long_length|].
  unfold statistics. cbn [mbind res_bind]. rewrite Ht. cbn [mbind res_bind].
  rewrite Hsd. cbn [mbind res_bind]. rewrite Hk. cbn [mbind res_bind].
  rewrite !tset_get. cbn. rewrite Hk. cbn [mbind res_bind].
  eexists. split; [reflexivity|]. intros n xs Hin.
  assert (n ∈ long_names cols) as Hn.
  { unfold long_names. apply list_elem_of_bind. exists (n, xs). split; [|done]. cbn.
    rewrite Forall_forall in Hs. specialize (Hs _ Hin). destruct xs; [done|]. by apply elem_of_replicate. }
  specialize (He n Hn). cbv zeta in He. rewrite keep_fmap, omap_number, (keep_name _ _ _ Hnd Hin) in He.
  destruct He as (Em & Es & Ek). split; [|split].
  - apply (loc_entry _ _ m); [|done]. by rewrite !tset_get.
  - eapply loc_entry; [rewrite tset_get; reflexivity|]. unfold margin.
    apply tmul_entry; [|by apply t_ppf_entry, tsub_entry].
    apply tdiv_entry; [done | by apply tsqrt_entry].
  - rewrite !tset_index, Hi. by apply bool_decide_eq_true.
Qed.

Context (lib : string -> list (string * arg) -> option exn).

(** The calls that do not depend on the statistics. *)
Definition figure_calls (df : frame) : list output :=
  [Called "plt.figure" [("figsize", APair (AInt 12) (AInt 8))];
   Called "sns.barplot" [("x", AStr "variante"); ("y", AStr "temps_performance"); ("data", AFrame df);
     ("estimator", AName "np.mean"); ("errorbar", APair (AStr "ci") (AInt 95)); ("alpha", ANum (lit 8 1));
     ("palette", AStr "viridis")];
   Called "sns.stripplot" [("x", AStr "variante"); ("y", AStr "temps_performance"); ("data", AFrame df);
     ("jitter", ABool true); ("size", AInt 5); ("alpha", ANum (lit 3 1)); ("palette", AStr "viridis");
     ("edgecolor", AStr "gray"); ("linewidth", ANum (lit 5 1))];
   Called "plt.title" [("label", AStr "Temps de performance par variante"); ("fontsize", AInt 16);
     ("pad", AInt 20)];
   Called "plt.xlabel" [("xlabel", AStr "Variante"); ("fontsize", AInt 14); ("labelpad", AInt 10)];
   Called "plt.ylabel" [("ylabel", AStr "Temps de performance (s)"); ("fontsize", AInt 14);
     ("labelpad", AInt 10)];
   Called "plt.grid" [("axis", AStr "y"); ("linestyle", AStr "--"); ("alpha", ANum (lit 7 1))]].
Definition closing_calls (low high : num) : list output :=
  [Called "plt.ylim" [("bottom", ANum (fmul low (lit 9 1))); ("top", ANum (fmul high (lit 11 1)))];
   Called "plt.legend" [("labels", APair (AStr "Moyenne avec IC à 95%") (AStr "Observations individuelles"));
     ("loc", AStr "upper right")];
   Called "plt.figtext" [("x", ANum (lit 5 1)); ("y", ANum (lit 1 2));
     ("s", AStr "Note: Les barres représentent les moyennes avec intervalle de confiance à 95%. Les points représentent les observations individuelles.");
     ("ha", AStr "center"); ("fontsize", AInt 10); ("style", AStr "italic")];
   Called "plt.tight_layout" [];
   Called "plt.savefig" [("fname", AStr "performance_comparison.png"); ("dpi", AInt 300)];
   Called "plt.show" []].

Hypothesis Hlib : forall f args, lib f args = None.

Lemma call_done f args out : call lib f args out = (Ok tt, (out ++ [Called f args])%list).
Proof. unfold call. by rewrite Hlib. Qed.

Lemma script_bind_done {A B} (m : script A) (f : A -> script B) out a out' :
  m out = (Ok a, out') -> (m ≫= f) out = f a out'.
Proof. intros H. unfold mbind, script_bind. by rewrite H. Qed.

Lemma draw_figure_done df out : draw_figure lib df out = (Ok tt, (out ++ figure_calls df)%list).
Proof.
  unfold figure_calls, draw_figure, mbind, script_bind, call. rewrite !Hlib. cbn. by rewrite <- !app_assoc.
Qed.

Lemma enumerate_done {A} (g : Z -> A -> list output) (body : Z -> A -> script unit) i l out :
  (forall j a out, a ∈ l -> body j a out = (Ok tt, (out ++ g j a)%list)) ->
  enumerate i l body out = (Ok tt, (out ++ concat (imap (fun k a => g (i + Z.of_nat k)%Z a) l))%list).
Proof.
  revert i out. induction l as [|a l IH]; intros i out H; cbn [enumerate].
  - by rewrite app_nil_r.
  - rewrite (script_bind_done _ _ _ tt _ (H i a out ltac:(by left))), IH by (intros; apply H; by right).
    cbn. rewrite app_assoc. do 3 f_equal; [by rewrite Z.add_0_r|].
    apply imap_ext. intros k b _. cbn. f_equal. lia.
Qed.

Lemma enumerate_fmap {A B} (f : A -> B) (body : Z -> B -> script unit) i l out :
  enumerate i (f <$> l) body out = enumerate i l (fun i a => body i (f a)) out.
Proof.
  revert i out. induction l as [|a l IH]; intros i out; [done|]. cbn.
  unfold mbind, script_bind. destruct (body i (f a) out) as [[[]|] ?]; [apply IH | done].
Qed.

Lemma concat_singletons {A B} (h : nat -> A -> B) (l : list A) :
  concat (imap (fun k a => [h k a]) l) = imap h l.
Proof.
  revert h. induction l as [|a l IH]; intros h; [done|]. cbn. f_equal. apply IH.
Qed.

Lemma concat_imap_bind {A B} (h : A -> list B) (l : list A) :
  concat (imap (fun _ a => h a) l) = l ≫= h.
Proof. induction l as [|a l IH]; [done|]. cbn. f_equal. apply IH. Qed.

Section figure.
Context (df : frame) (t : table) (cols : list (string * list num)).
Hypothesis (Hdf : holds df cols) (Ht : summarises t cols) (Hnd : NoDup cols.*1).
Hypothesis Hs : Forall (fun c => is_shown c = true) cols.

Lemma measures_column : exists s, getitem df "temps_performance" = Ok s /\
  values s = VNum <$> long_values cols /\ s_min s = min_of (long_values cols) /\
  s_max s = max_of (long_values cols).
Proof.
  destruct (getitem_values _ _ _ (proj2 Hdf)) as (s & E & H). exists s.
  by rewrite s_min_values, s_max_values, H, omap_number.
Qed.

Lemma variants_column : exists s, getitem df "variante" = Ok s /\
  values s = @VText num <$> long_names cols /\ unique s = (fun c => VText c.1) <$> cols.
Proof.
  destruct (getitem_values _ _ _ (proj1 Hdf)) as (s & E & H). exists s.
  split; [done|]. split; [done|]. rewrite (unique_texts _ _ H), (firsts_long cols Hnd Hs).
  by rewrite <- list_fmap_compose.
Qed.

Lemma annotate_done i c out : c ∈ cols ->
  annotate lib df t i (VText c.1) out =
  (Ok tt, (out ++ [annotation (max_of (long_values cols)) i c])%list).
Proof.
  destruct c as [n xs]. intros Hc. destruct (Ht n xs Hc) as (Hm & _ & _).
  destruct measures_column as (s & E & _ & _ & Hmax). unfold annotate, mbind, script_bind, of_result.
  cbn [fst]. rewrite Hm, E. cbv zeta. by rewrite call_done, Hmax.
Qed.

Lemma details_done i c out : c ∈ cols ->
  details df t i (VText c.1) out = (Ok tt, (out ++ detail_lines c)%list).
Proof.
  destruct c as [n xs]. intros Hc. destruct (Ht n xs Hc) as (_ & Hci & Hi).
  destruct variants_column as (v & Ev & Hv & _). cbn [fst].
  pose proof (where_cells df (eq_mask v (VText n)) _ _ (proj2 Hdf)) as Hw.
  rewrite (eq_mask_texts _ _ n Hv) in Hw.
  rewrite keep_fmap, (keep_name _ _ _ Hnd Hc) in Hw.
  destruct (getitem_values _ _ _ (Hw ltac:(by rewrite !length_fmap, long_length))) as (s & Es & Hsv).
  unfold details, mbind, script_bind, of_result, print, mret, script_ret. rewrite Ev.
  rewrite (eq_mask_texts _ _ n Hv), Es, Hi, Hci. cbv zeta.
  rewrite s_mean_values, s_std_values, s_min_values, s_max_values, Hsv, omap_number.
  cbn. by rewrite <- !app_assoc.
Qed.

Lemma finish_figure_done out :
  finish_figure lib df out =
  (Ok tt, (out ++ closing_calls (min_of (long_values cols)) (max_of (long_values cols)))%list).
Proof.
  destruct measures_column as (s & E & _ & Hmin & Hmax).
  unfold finish_figure, mbind, script_bind, of_result, call. rewrite E, !Hlib, Hmin, Hmax.
  cbn. by rewrite <- !app_assoc.
Qed.
End figure.

(** What the script outputs for columns of numbers. *)
Definition graph_of (df : frame) (t : table) (cols : list (string * list num)) : list output :=
  ([Printed [Txt "Aperçu des données transformées :"]; Printed [OfFrame (head df)];
    Printed [Txt newline; Txt "Statistiques par variante :"]; Printed [OfTable t]] ++
   figure_calls df ++ annotations (max_of (long_values cols)) cols ++
   closing_calls (min_of (long_values cols)) (max_of (long_values cols)) ++
   [Printed [Txt newline; Txt "Statistiques détaillées par variante :"]] ++ (cols ≫= detail_lines))%list.

Lemma graph_done f df t cols :
  prepare (Some f) = Ok df -> statistics df = Ok t -> holds df cols -> summarises t cols ->
  NoDup cols.*1 -> Forall (fun c => is_shown c = true) cols ->
  generate_overhead_graph lib (Some f) [] = (Ok tt, graph_of df t cols).
Proof.
  intros Hp Hst Hdf Ht Hnd Hs. destruct (variants_column df cols Hdf Hnd Hs) as (v & Ev & _ & Hu).
  unfold generate_overhead_graph, graph_of.
  rewrite (script_bind_done _ _ _ df []) by (unfold of_result; by rewrite Hp).
  do 2 (erewrite script_bind_done; [|reflexivity]).
  erewrite script_bind_done; [|unfold of_result; by rewrite Hst].
  do 2 (erewrite script_bind_done; [|reflexivity]).
  erewrite script_bind_done; [|apply draw_figure_done].
  erewrite script_bind_done; [|unfold of_result; by rewrite Ev].
  rewrite Hu. erewrite script_bind_done;
    [|rewrite enumerate_fmap; apply enumerate_done; intros j c out Hc; by apply (annotate_done df t cols)].
  erewrite script_bind_done; [|by apply (finish_figure_done df cols)].
  erewrite script_bind_done; [|reflexivity].
  erewrite script_bind_done; [|unfold of_result; by rewrite Ev].
  rewrite Hu, enumerate_fmap.
  rewrite (enumerate_done (fun _ c => detail_lines c))
    by (intros j c out Hc; by apply (details_done df t cols)).
  rewrite concat_singletons, concat_imap_bind. f_equal. rewrite <- !app_assoc. done.
Qed.

(** C14. The graph script on a file of three columns, whatever else the file has,
    when no drawing call raises: its statistics, its annotations and its limits
    are those of the numbers of each column, in the order of the columns, a column
    without numbers being left out; text cells, and so the line of titles the
    measuring client writes, count for nothing. *)
Theorem graph_statistics f rows :
  records f = rows -> rows <> [] -> Forall (fun r => length r = 3%nat) rows ->
  Forall (Forall (fun s => boolean_word s = false)) rows ->
  exists df t, holds df (shown rows) /\ summarises t (shown rows) /\
    generate_overhead_graph lib (Some f) [] = (Ok tt, graph_of df t (shown rows)).
Proof.
  intros Hr Hne Hlen Hw. destruct (prepare_cells f rows Hr Hne Hlen Hw) as (df & Hp & Hdf).
  destruct (shown_columns rows) as [Hnd Hs].
  destruct (statistics_summarise df (shown rows) Hdf Hnd Hs) as (t & Ht & Hsum).
  exists df, t. split_and!; [done.. | by apply graph_done].
Qed.
End graph.

(** ** From the measures to the graph *)
Section pipeline.
Context {P : Pandas} {L : PandasLaws P}.
Local Open Scope string_scope.

(** The lists of measures under the names of the graph; what is read back of the
    literals written for them, which need not be the same numbers; and the columns
    of the graph, the ones where something is read back. *)
Definition measured_columns (t : @temps num) : list (string * list num) :=
  [("Sans_demon", temps_sans_demon t); ("Demon_rust", temps_demon_rust t); ("Demon_c", temps_demon_c t)].
Definition reread (xs : list num) : list num := omap (fun x => parse (literal x)) xs.
Definition graphed_columns (t : @temps num) : list (string * list num) :=
  List.filter is_shown ((fun c => (c.1, reread c.2)) <$> measured_columns t).

Lemma titles_nodup t : NoDup (donnees t).*1.
Proof. apply (bool_decide_unpack _). reflexivity. Qed.

Lemma traitement_result t :
  (test_traitement_donne t []).1 = (dataframe (donnees t) ≫= fun df => Ok (to_csv df)).
Proof.
  unfold test_traitement_donne, print, of_result, mbind, script_bind, res_bind. cbn.
  by destruct (dataframe (donnees t)).
Qed.

Lemma seq_lookup_map {A} (xs : list A) n :
  length xs = n -> (fun i => xs !! i) <$> seq 0 n = Some <$> xs.
Proof.
  intros <-. induction xs as [|x xs IH]; [done|]. cbn. f_equal.
  rewrite <- IH, <- seq_shift, <- list_fmap_compose. done.
Qed.

Lemma omap_seq_ext {A} (f g : nat -> option A) i n :
  (forall j, (i <= j < i + n)%nat -> f j = g j) -> omap f (seq i n) = omap g (seq i n).
Proof.
  revert i. induction n as [|n IH]; intros i H; [done|]. cbn. rewrite (H i) by lia.
  rewrite (IH (S i)); [done|]. intros j Hj. apply H. lia.
Qed.

Lemma reread_cells (xs : list num) n :
  length xs = n -> omap (fun i => parse (from_option literal EmptyString (xs !! i))) (seq 0 n) = reread xs.
Proof.
  intros Hx. unfold reread.
  trans (omap (fun o => o ≫= fun x => parse (literal x)) ((fun i => xs !! i) <$> seq 0 n)).
  - rewrite omap_map. subst n. apply omap_seq_ext. intros i Hi. by destruct (lookup_lt_is_Some_2 xs i) as [x ->]; [lia|].
  - rewrite (seq_lookup_map xs n Hx), omap_map. done.
Qed.

(** Measures read back as numbers: none is left out; read back as themselves: the
    graph is theirs. *)
Lemma reread_length (xs : list num) :
  Forall (fun x => is_Some (parse (literal x))) xs -> length (reread xs) = length xs.
Proof. induction 1 as [|x xs [y E] _ IH]; [done|]. unfold reread in *. cbn. by rewrite E; cbn; rewrite IH. Qed.

Lemma reread_same (xs : list num) :
  Forall (fun x => parse (literal x) = Some x) xs -> reread xs = xs.
Proof. induction 1 as [|x xs E _ IH]; [done|]. unfold reread in *. cbn. by rewrite E, IH. Qed.

Definition readable (t : @temps num) : Prop :=
  Forall (fun c => Forall (fun x => is_Some (parse (literal x))) c.2) (measured_columns t).
Definition unchanged (t : @temps num) : Prop :=
  Forall (fun c => Forall (fun x => parse (literal x) = Some x) c.2) (measured_columns t).

Lemma shown_filter (cols : list (string * list num)) n :
  n <> 0%nat -> Forall (fun c => length c.2 = n) cols -> List.filter is_shown cols = cols.
Proof.
  intros Hn. induction 1 as [|[m xs] cols H _ IH]; [done|]. cbn in *. rewrite IH.
  unfold is_shown. by rewrite bool_decide_eq_false_2; [|intros E; cbn in E; subst].
Qed.

Lemma graphed_readable t n :
  n <> 0%nat -> Forall (fun c => length c.2 = n) (measured_columns t) -> readable t ->
  (graphed_columns t).*1 = column_names /\ Forall (fun c => length c.2 = n) (graphed_columns t).
Proof.
  intros Hn Hl Hr. assert (Forall (fun c : string * list num => length c.2 = n)
      ((fun c => (c.1, reread c.2)) <$> measured_columns t)) as H.
  { apply Forall_fmap. eapply Forall_impl; [apply Forall_and; split; [exact Hl | exact Hr]|].
    intros c [H Hc]. cbn. by rewrite reread_length. }
  unfold graphed_columns. by rewrite (shown_filter _ n Hn H).
Qed.

Lemma graphed_unchanged t n :
  n <> 0%nat -> Forall (fun c => length c.2 = n) (measured_columns t) -> unchanged t ->
  graphed_columns t = measured_columns t.
Proof.
  intros Hn Hl Hu. assert (((fun c => (c.1, reread c.2)) <$> measured_columns t) = measured_columns t) as E.
  { unfold unchanged in Hu. induction Hu as [|[m xs] cols H _ IH]; [done|]. cbn in *. f_equal; [|apply IH].
    - by rewrite reread_same.
    - by apply Forall_cons in Hl as [_ Hl]. }
  unfold graphed_columns. by rewrite E, (shown_filter _ n Hn Hl).
Qed.

(** What is in the file: the titles and a line for each measure. *)
Lemma saved_records t n old :
  Forall (fun c => length c.2 = n) (donnees t) ->
  exists f, save t old = Some f /\ records f <> [] /\
    Forall (fun r => length r = 3%nat) (records f) /\
    Forall (Forall (fun s => boolean_word s = false)) (records f) /\
    shown (records f) = graphed_columns t.
Proof.
  intros Hn. destruct (dataframe_even _ n (titles_nodup t) Hn) as (df & E & Hnames & Hc).
  exists (to_csv df). unfold save. rewrite traitement_result, E. cbn [mbind res_bind]. split; [done|].
  rewrite (to_csv_records df (donnees t) n ltac:(done) Hnames Hn Hc). split; [done|].
  split; [|split].
  - constructor; [done|]. apply Forall_fmap, Forall_true. done.
  - constructor; [by repeat constructor|]. apply Forall_fmap, Forall_true. intros i. cbn.
    repeat constructor; by destruct (_ !! i); [apply literal_no_boolean|].
  - apply Forall_cons in Hn as [H0 [H1 [H2 _]%Forall_cons]%Forall_cons]. cbn in H0, H1, H2.
    unfold shown, graphed_columns, all_columns, measured_columns, column_numbers. cbn.
    rewrite !parse_title by (apply (bool_decide_unpack _); reflexivity). rewrite !omap_map. cbn.
    by rewrite (reread_cells _ _ H0), (reread_cells _ _ H1), (reread_cells _ _ H2).
Qed.

Lemma saved_uneven t old c1 c2 :
  c1 ∈ donnees t -> c2 ∈ donnees t -> length c1.2 <> length c2.2 ->
  (test_traitement_donne t []).1 = Err ValueError /\ save t old = old.
Proof.
  intros H1 H2 Hne. unfold save. rewrite traitement_result.
  by rewrite (dataframe_uneven _ c1 c2 H1 H2 Hne).
Qed.

(** The tests of the file, in their order: without a daemon, with the Rust one,
    with the C one. *)
Context {FB : FlatBuffers} {FBL : FlatBuffersLaws FB}.
Context (perf_counter : nat -> num) (mean_time : num -> num -> nat -> num).
Context (call_echo : nat -> res Z) (net_rust net_c : network).
Hypothesis Hecho : forall n, exists code, call_echo n = Ok code.

(** Each test has a connection of its own. *)
Definition tests_of_overhead : @temps num :=
  let t := (test_sans_demon perf_counter mean_time call_echo (mkTemps [] [] []) fresh_sock).2 in
  let t := (test_avec_demon perf_counter mean_time net_rust "rust" t fresh_sock).2 in
  (test_avec_demon perf_counter mean_time net_c "c" t fresh_sock).2.

Lemma measured_lists d i k (t : @temps num) :
  measured perf_counter mean_time d i k t =
  mkTemps (temps_sans_demon t)
    (temps_demon_rust t ++ if (d =? "rust") then measure perf_counter mean_time <$> seq i k else [])%list
    (temps_demon_c t ++ if (d =? "rust") then [] else
       if (d =? "c") then measure perf_counter mean_time <$> seq i k else [])%list.
Proof.
  revert i t. induction k as [|k IH]; intros i t.
  - destruct t. cbn. by destruct (d =? "rust"), (d =? "c"); rewrite ?app_nil_r.
  - rewrite measured_S, IH. unfold record. destruct (d =? "rust"), (d =? "c"); cbn;
      by rewrite ?app_nil_r, <- ?app_assoc.
Qed.

Lemma avec_demon_lists d net t :
  exists k, (k <= nb_mesures)%nat /\
    (test_avec_demon perf_counter mean_time net d t fresh_sock).2 = measured perf_counter mean_time d 0 k t /\
    (forall l, net = Connected l Writable -> Failure ∉ l -> k = nb_mesures).
Proof.
  destruct (command_header measured_command eq_refl) as (cb & Hcb & Hh).
  destruct (boucle_measures perf_counter mean_time net d _ cb t Hcb Hh) as (k & m & part & s' & H & _ & _ & _ & _ & _ & Hk & Hf).
  exists k. split; [done|]. split; [|done]. unfold test_avec_demon, mbind, mio_bind. by rewrite H.
Qed.

Lemma tests_lists :
  exists kr kc, (kr <= nb_mesures)%nat /\ (kc <= nb_mesures)%nat /\
    (forall l, net_rust = Connected l Writable -> Failure ∉ l -> kr = nb_mesures) /\
    (forall l, net_c = Connected l Writable -> Failure ∉ l -> kc = nb_mesures) /\
    tests_of_overhead =
      mkTemps (measure perf_counter mean_time <$> seq 0 nb_mesures)
        (measure perf_counter mean_time <$> seq 0 kr) (measure perf_counter mean_time <$> seq 0 kc).
Proof.
  unfold tests_of_overhead.
  rewrite (test_sans_demon_measures perf_counter mean_time call_echo _ fresh_sock Hecho). cbn [snd].
  set (t0 := mkTemps _ _ _). destruct (avec_demon_lists "rust" net_rust t0) as (kr & Hkr & -> & Hr).
  destruct (avec_demon_lists "c" net_c (measured perf_counter mean_time "rust" 0 kr t0)) as (kc & Hkc & -> & Hc).
  exists kr, kc. do 4 (split; [done|]). rewrite !measured_lists. cbn -[seq]. by rewrite app_nil_r.
Qed.

(** Lists of the same length are graphed as they are read back. *)
Lemma even_graphed t n old lib :
  (forall f args, lib f args = None) -> Forall (fun c => length c.2 = n) (donnees t) ->
  exists f df tb, save t old = Some f /\ holds df (graphed_columns t) /\
    summarises tb (graphed_columns t) /\
    generate_overhead_graph lib (Some f) [] = (Ok tt, graph_of df tb (graphed_columns t)).
Proof.
  intros Hlib Ht. destruct (saved_records t n old Ht) as (f & Hf & Hne & Hlen & Hw & Hshown).
  destruct (prepare_cells f _ eq_refl Hne Hlen Hw) as (df & Hp & Hdf).
  destruct (shown_columns (records f)) as [Hnd Hs]. rewrite Hshown in *.
  destruct (statistics_summarise df _ Hdf Hnd Hs) as (tb & Htb & Hsum).
  exists f, df, tb. split_and!; [done.. | by apply graph_done].
Qed.

End pipeline.
