(* ===== verification/GraphRef.v ===== *)
(** * A library that satisfies [PandasLaws]

    Numbers are naturals written in unary, a frame a list of named columns; the
    statistics are simple ones.  The laws are not contradictory, and the theorems
    of Graph apply to a concrete run. *)
From S2P Require Import Prelude Bytes FlatBuffers FlatBuffersRef FlatBuffersRefLaws.
From S2P Require Import Data Send SendFacts CommandFacts Socket Stream Overhead Graph.

(** ** The operations *)
Fixpoint ones (n : nat) : string :=
  match n with O => EmptyString | S n => String (Ascii.ascii_of_nat 49) (ones n) end.
Fixpoint read_ones (s : string) : option nat :=
  match s with
  | EmptyString => Some 0%nat
  | String a s => if bool_decide (a = Ascii.ascii_of_nat 49) then S <$> read_ones s else None
  end.
Definition ref_literal (n : nat) : string := ones (S n).
Definition ref_parse (s : string) : option nat :=
  match s with EmptyString => None | _ => Nat.pred <$> read_ones s end.

Definition ref_frame : Type := list (string * list (value nat)).
Fixpoint column (df : ref_frame) (c : string) : option (list (value nat)) :=
  match df with
  | [] => None
  | (n, vs) :: df => if bool_decide (n = c) then Some vs else column df c
  end.
Fixpoint replace (df : ref_frame) (c : string) (vs : list (value nat)) : ref_frame :=
  match df with
  | [] => [(c, vs)]
  | (n, ws) :: df => if bool_decide (n = c) then (c, vs) :: df else (n, ws) :: replace df c vs
  end.
Definition columns_of (df : ref_frame) : list (string * list (value nat)) :=
  (fun n => (n, default [] (column df n))) <$> df.*1.

Definition cell_text (v : value nat) : string :=
  match v with VNum x => ref_literal x | VText s => s | VNaN => EmptyString end.
Definition ref_numeric (v : value nat) : option nat :=
  match v with VNum x => Some x | VText s => ref_parse s | VNaN => None end.
Definition ref_number (v : value nat) : option nat := match v with VNum x => Some x | _ => None end.
Definition ref_present (v : value nat) : bool := match v with VNaN => false | _ => true end.
Definition text_of (v : value nat) : string := match v with VText s => s | _ => EmptyString end.

Definition ref_tseries : Type := value nat -> option nat.
Definition ref_table : Type := list string * (string -> res ref_tseries).
Definition pointwise (f : nat -> nat -> nat) (a b : ref_tseries) : ref_tseries := fun v =>
  match a v, b v with Some x, Some y => Some (f x y) | _, _ => None end.

Definition ref_sum (l : list nat) : nat := foldr Nat.add 0%nat l.
Definition ref_mean (l : list nat) : nat := (ref_sum l / length l)%nat.
Definition ref_std (l : list nat) : nat := (foldr Nat.max 0 l - foldr Nat.min (ref_sum l) l)%nat.

Definition ref_dataframe (data : list (string * list nat)) : res ref_frame :=
  match data with
  | [] => Ok []
  | c0 :: _ =>
      if forallb (fun c => Nat.eqb (length (c.2 : list nat)) (length (c0.2 : list nat))) data
      then Ok ((fun c : string * list nat => (c.1, VNum <$> c.2)) <$> data) else Err ValueError
  end.
Definition ref_to_csv (df : ref_frame) : list (list string) :=
  let cols := columns_of df in
  let n := match cols with [] => 0%nat | c :: _ => length c.2 end in
  df.*1 :: ((fun i => (fun c => from_option cell_text EmptyString (c.2 !! i)) <$> cols) <$> seq 0 n).
Definition ref_read_csv (f : list (list string)) (ns : list string) : res ref_frame :=
  Ok (imap (fun i n => (n, (fun r => from_option VText VNaN (r !! i)) <$> f)) ns).

(** The numbers of the rows of a group. *)
Definition group (ks vs : list (value nat)) (v : value nat) : list nat :=
  omap ref_number (keep ((fun k => bool_decide (text_of k = text_of v)) <$> ks) vs).
Definition ref_agg (df : ref_frame) (key c : string) (_ : list string) : res ref_table :=
  match column df key, column df c with
  | Some ks, Some vs =>
      Ok (firsts (text_of <$> ks), fun stat =>
        Ok (fun v =>
          Some (if bool_decide (stat = "mean"%string) then ref_mean (group ks vs v)
                else if bool_decide (stat = "std"%string) then ref_std (group ks vs v)
                else length (group ks vs v))))
  | _, _ => Err TypeError
  end.

#[local] Instance ref_pandas : Pandas := {|
  num := nat; lit m e := Z.to_nat m; of_count n := n;
  fadd := Nat.add; fsub := Nat.sub; fmul := Nat.mul; fdiv := Nat.div; fsqrt := Nat.sqrt;
  ppf q n := (q + n)%nat;
  np_mean := ref_mean; mean_of := ref_mean; std_of := ref_std;
  min_of l := foldr Nat.min (ref_sum l) l; max_of l := foldr Nat.max 0%nat l;
  parse := ref_parse; literal := ref_literal;
  file := list (list string); frame := ref_frame; series := list (value nat);
  table := ref_table; tseries := ref_tseries;
  dataframe := ref_dataframe; to_csv := ref_to_csv; read_csv := ref_read_csv;
  melt df var val := [(var, columns_of df ≫= fun c => replicate (length c.2) (VText c.1));
                      (val, columns_of df ≫= snd)];
  getitem df c := match column df c with Some vs => Ok vs | None => Err TypeError end;
  setitem := replace;
  to_numeric_coerce s := (fun v => match ref_numeric v with Some x => VNum x | None => VNaN end) <$> s;
  dropna df c := match column df c with
                 | Some vs => (fun d => (d.1, keep (ref_present <$> vs) d.2)) <$> df
                 | None => df end;
  head df := df;
  unique s := VText <$> firsts (text_of <$> s);
  eq_mask s v := (fun w => bool_decide (text_of w = text_of v)) <$> s;
  where_ df mask := (fun d => (d.1, keep mask d.2)) <$> df;
  s_mean s := ref_mean (omap ref_number s); s_std s := ref_std (omap ref_number s);
  s_min s := let l := omap ref_number s in foldr Nat.min (ref_sum l) l;
  s_max s := foldr Nat.max 0%nat (omap ref_number s);
  agg := ref_agg;
  tget t c := t.2 c;
  tset t c s := (t.1, fun c' => if bool_decide (c' = c) then Ok s else t.2 c');
  tdiv := pointwise Nat.div; tmul := pointwise Nat.mul;
  tsub a y := fun v => (fun x => (x - y)%nat) <$> a v;
  tsqrt a := fun v => Nat.sqrt <$> a v; t_ppf q a := fun v => (fun x => (q + x)%nat) <$> a v;
  loc t v c := match t.2 c with
               | Ok s => match s v with Some x => Ok x | None => Err TypeError end
               | Err e => Err e end;
  in_index t v := bool_decide (text_of v ∈ t.1)
|}.

(** ** The laws *)
Lemma read_ones_ones n : read_ones (ones n) = Some n.
Proof. induction n as [|n IH]; [done|]. cbn. by rewrite IH. Qed.

Lemma ones_no_boolean n : boolean_word (ones n) = false.
Proof. destruct n as [|[|n]]; [reflexivity | reflexivity |]. apply bool_decide_eq_false.
  intros H. repeat (apply elem_of_cons in H as [H|H]; [discriminate|]). by apply elem_of_nil in H.
Qed.

Lemma column_map (g : list (value nat) -> list (value nat)) (df : ref_frame) c :
  column ((fun d => (d.1, g d.2)) <$> df) c = g <$> column df c.
Proof.
  induction df as [|[n vs] df IH]; [done|]. cbn. case_bool_decide; [done | apply IH].
Qed.

Lemma column_elem (df : ref_frame) c :
  NoDup df.*1 -> c ∈ df -> column df c.1 = Some c.2.
Proof.
  induction df as [|[n vs] df IH]; [by intros _ ?%elem_of_nil|]. cbn.
  intros [Hn Hnd]%NoDup_cons [->|Hin]%elem_of_cons; cbn.
  - by rewrite bool_decide_eq_true_2.
  - case_bool_decide as Heq; [|by apply IH]. subst n. destruct Hn. by apply list_elem_of_fmap_2.
Qed.

Lemma column_replace (df : ref_frame) c c' vs :
  column (replace df c vs) c' = if decide (c' = c) then Some vs else column df c'.
Proof.
  induction df as [|[n ws] df IH]; cbn.
  - case_bool_decide; case_decide; congruence.
  - case_bool_decide as H1; cbn.
    + subst n. case_bool_decide; case_decide; congruence.
    + rewrite IH. case_bool_decide; case_decide; congruence.
Qed.

Lemma columns_of_data (df : ref_frame) (data : list (string * list (value nat))) :
  df.*1 = data.*1 -> (forall c, c ∈ data -> column df c.1 = Some c.2) -> columns_of df = data.
Proof.
  intros Hn Hc. unfold columns_of. rewrite Hn. clear Hn.
  induction data as [|[n vs] data IH]; [done|]. cbn.
  pose proof (Hc (n, vs) ltac:(by left)) as E. cbn in E. rewrite E. cbn. f_equal.
  apply IH. intros c Hin. apply Hc. by right.
Qed.

Lemma text_of_texts (ns : list string) : text_of <$> (VText <$> ns) = ns.
Proof. induction ns as [|n ns IH]; [done|]. cbn. by rewrite IH. Qed.

Lemma read_csv_column f ns k i n :
  NoDup ns -> ns !! i = Some n ->
  column (imap (fun i m => (m, (fun r : list string => from_option VText VNaN (r !! (k + i)%nat)) <$> f)) ns) n =
  Some ((fun r => from_option VText VNaN (r !! (k + i)%nat)) <$> f).
Proof.
  revert k i. induction ns as [|m ns IH]; intros k i Hnd Hi; [done|].
  apply NoDup_cons in Hnd as [Hm Hnd]. cbn. destruct i as [|i]; cbn in Hi.
  - injection Hi as ->. by rewrite bool_decide_eq_true_2.
  - rewrite bool_decide_eq_false_2 by (intros ->; by apply Hm, (list_elem_of_lookup_2 _ i)).
    specialize (IH (S k) i Hnd Hi). replace (k + S i)%nat with (S k + i)%nat by lia. rewrite <- IH.
    f_equal. apply imap_ext. intros j x _. cbn. by replace (k + S j)%nat with (S (k + j)) by lia.
Qed.

Lemma ref_dataframe_even (data : list (string * list nat)) n :
  Forall (fun c => length c.2 = n) data ->
  ref_dataframe data = Ok ((fun c : string * list nat => (c.1, VNum <$> c.2)) <$> data).
Proof.
  intros HF. destruct data as [|c0 data]; [done|]. unfold ref_dataframe.
  replace (forallb _ _) with true; [done|]. symmetry. apply forallb_forall. intros c Hc%list_elem_of_In.
  rewrite Forall_forall in HF. apply Nat.eqb_eq. by rewrite (HF c Hc), (HF c0) by left.
Qed.

Lemma ref_dataframe_uneven (data : list (string * list nat)) c1 c2 :
  c1 ∈ data -> c2 ∈ data -> length c1.2 <> length c2.2 -> ref_dataframe data = Err ValueError.
Proof.
  intros H1 H2 Hne. destruct data as [|c0 data]; [by apply elem_of_nil in H1|]. unfold ref_dataframe.
  destruct (forallb _ _) eqn:E; [|done]. rewrite forallb_forall in E. destruct Hne.
  apply list_elem_of_In in H1, H2. apply E, Nat.eqb_eq in H1. apply E, Nat.eqb_eq in H2. congruence.
Qed.

Lemma ref_to_csv_records (df : ref_frame) (data : list (string * list nat)) n :
  data <> [] -> df.*1 = data.*1 -> Forall (fun c => length c.2 = n) data ->
  (forall c, c ∈ data -> column df c.1 = Some (VNum <$> c.2)) ->
  ref_to_csv df =
    data.*1 :: ((fun i => (fun c => from_option ref_literal EmptyString (c.2 !! i)) <$> data) <$> seq 0 n).
Proof.
  intros Hne Hn Hl Hc. unfold ref_to_csv.
  rewrite (columns_of_data df ((fun c : string * list nat => (c.1, VNum <$> c.2)) <$> data)), Hn.
  - f_equal. destruct data as [|c0 data]; [done|].
    pose proof Hl as [H0 _]%Forall_cons. cbn [fmap list_fmap snd]. rewrite length_fmap, H0.
    apply list_fmap_ext. intros i j Hj.
    assert (forall c : string * list nat,
      from_option cell_text EmptyString ((VNum <$> c.2) !! j) = from_option ref_literal EmptyString (c.2 !! j)) as Hcell
      by (intros c; rewrite list_lookup_fmap; by destruct (c.2 !! j)).
    f_equal; [apply Hcell|]. clear -Hcell. induction data as [|c data IH]; [done|]. cbn. by rewrite IH, Hcell.
  - rewrite Hn, <- list_fmap_compose. by apply list_fmap_ext.
  - intros c (c' & -> & Hin)%list_elem_of_fmap. cbn. by apply Hc.
Qed.

Lemma group_texts ns vs n :
  group (VText <$> ns) vs (VText n) =
  omap ref_number (keep ((fun m => bool_decide (m = n)) <$> ns) vs).
Proof. unfold group. by rewrite <- list_fmap_compose. Qed.

Lemma firsts_in n l : n ∈ firsts l <-> n ∈ l.
Proof.
  split; [apply firsts_elem|]. induction l as [|m l IH]; [done|]. cbn.
  intros [->|H]%elem_of_cons; [by left|]. destruct (decide (n = m)) as [->|Hne]; [by left | right].
  apply list_elem_of_In, filter_In. split; [by apply list_elem_of_In, IH|].
  apply negb_true_iff, bool_decide_eq_false. done.
Qed.

Lemma read_csv_numbers (f : list (list string)) i :
  ref_numeric <$> ((fun r : list string => from_option VText VNaN (r !! i)) <$> f) =
  (fun r => r !! i ≫= ref_parse) <$> f.
Proof. rewrite <- list_fmap_compose. apply list_fmap_ext. intros j r _. cbn. by destruct (r !! i). Qed.

Lemma column_two var val vs ws :
  var <> val -> column [(var, vs); (val, ws)] var = Some vs /\ column [(var, vs); (val, ws)] val = Some ws.
Proof. intros H. cbn. split; repeat case_bool_decide; congruence. Qed.

#[local] Obligation Tactic := idtac.

#[local] Program Instance ref_pandas_laws : PandasLaws ref_pandas := {|
  records f := f; names df := df.*1; cells := column; values s := s; entry s v := s v
|}.
Next Obligation.
  intros s Hs. repeat (apply elem_of_cons in Hs as [->|Hs]; [reflexivity|]). by apply elem_of_nil in Hs.
Qed.
Next Obligation. intros x. apply (ones_no_boolean (S x)). Qed.
Next Obligation.
  intros data n Hnd HF. eexists. split; [by apply (ref_dataframe_even data n)|].
  split; [by rewrite <- list_fmap_compose|]. intros c Hc. cbn.
  rewrite (column_elem _ (c.1, VNum <$> c.2)); [done | | ].
  - by rewrite <- list_fmap_compose.
  - by apply (list_elem_of_fmap_2 (fun c : string * list nat => (c.1, VNum <$> c.2))).
Qed.
Next Obligation. exact ref_dataframe_uneven. Qed.
Next Obligation. exact ref_to_csv_records. Qed.
Next Obligation.
  intros f ns Hnd _ _ _. eexists. split; [reflexivity|]. split.
  - rewrite fmap_imap. cbn. clear. induction ns as [|n ns IH]; [done|]. cbn. f_equal. exact IH.
  - intros i n Hi. eexists. split; [apply (read_csv_column f ns 0 i n Hnd Hi)|]. apply read_csv_numbers.
Qed.
Next Obligation.
  intros df var val cols Hne Hn Hc. pose proof (columns_of_data df cols Hn Hc) as <-.
  by apply column_two.
Qed.
Next Obligation. intros df c vs H. exists vs. cbn. by rewrite H. Qed.
Next Obligation. intros df c c' s vs _ _. apply column_replace. Qed.
Next Obligation. intros s. done. Qed.
Next Obligation.
  intros df c c' vs ws H1 H2 _. cbn. rewrite H1, (column_map (keep (ref_present <$> vs))), H2. done.
Qed.
Next Obligation. intros s ns ->. cbn. by rewrite text_of_texts. Qed.
Next Obligation. intros s ns n ->. cbn. by rewrite <- list_fmap_compose. Qed.
Next Obligation. intros df mask c vs H _. cbn. by rewrite (column_map (keep mask)), H. Qed.
Next Obligation. done. Qed.
Next Obligation. done. Qed.
Next Obligation. done. Qed.
Next Obligation. done. Qed.
Next Obligation.
  intros df key c ns vs H1 H2 _. cbn. unfold ref_agg. rewrite H1, H2. eexists. split; [reflexivity|].
  cbn. rewrite text_of_texts. split.
  - intros n. apply bool_decide_ext, firsts_in.
  - do 3 eexists. do 3 (split; [reflexivity|]). intros n _. cbn. rewrite group_texts. done.
Qed.
Next Obligation. intros t c c' s. cbn. by destruct (decide (c' = c)) as [->|]; case_bool_decide. Qed.
Next Obligation. done. Qed.
Next Obligation. intros a b v x y Ha Hb. cbn. unfold pointwise. by rewrite Ha, Hb. Qed.
Next Obligation. intros a b v x y Ha Hb. cbn. unfold pointwise. by rewrite Ha, Hb. Qed.
Next Obligation. intros a y v x Ha. cbn. by rewrite Ha. Qed.
Next Obligation. intros a v x Ha. cbn. by rewrite Ha. Qed.
Next Obligation. intros q a v x Ha. cbn. by rewrite Ha. Qed.
Next Obligation. intros t c s v x Hs Hx. cbn in *. by rewrite Hs, Hx. Qed.

(** ** At a concrete input *)
Section witnesses.
#[local] Existing Instance ref_runtime.
#[local] Existing Instance ref_laws.

(** Two measures of each variant, under a line of titles. *)
Definition demo_rows : list (list string) :=
  [["Sans demon"; "Demon rust"; "Demon c"];
   [ones 3; ones 9; ones 8]; [ones 5; ones 7; EmptyString]]%string.

Lemma graph_statistics_witness :
  exists df t, @shown ref_pandas demo_rows =
      [("Sans_demon", [2; 4]); ("Demon_rust", [8; 6]); ("Demon_c", [7])]%string%nat /\
    @generate_overhead_graph ref_pandas (fun _ _ => None) (Some demo_rows) [] =
    (Ok tt, graph_of df t (@shown ref_pandas demo_rows)).
Proof.
  destruct (@graph_statistics ref_pandas ref_pandas_laws (fun _ _ => None) (fun _ _ => eq_refl) demo_rows demo_rows eq_refl)
    as (df & t & _ & _ & H); [discriminate | repeat constructor | repeat constructor |].
  exists df, t. split; [reflexivity | exact H].
Defined.

(** The clock of the measures counts its readings. *)
Definition ref_tests (net_rust net_c : network) : @temps nat :=
  @tests_of_overhead ref_pandas _ (fun n => n) (fun start stop n => (stop - start)%nat) (fun _ => Ok 0) net_rust net_c.

Lemma ref_unchanged t : @unchanged ref_pandas t.
Proof.
  repeat constructor; cbn; apply Forall_true; intros x; cbn; by rewrite read_ones_ones.
Qed.

End witnesses.
