(* ===== verification/ProcessManager.v ===== *)
(** * The table of processes of the C daemon ([src/c/daemon-features/process_manager.c])

    An array of [MAX_PROCESS] slots and, in [daemon-core.c], a counter
    [nb_process].  A slot whose stack is [NULL] is free.  A pointer is an integer,
    [NULL] is 0; [None] is an access out of the bounds of the array. *)
From S2P Require Import Prelude.

Definition MAX_PROCESS : nat := 256.
Definition STDOUT_FILENO : Z := 1.
Definition NULL : Z := 0.

Record process_info : Type := mkProcess { stack_p : Z; child_id : Z; err_file : Z }.

(** ** The functions *)

(** The memory [malloc] returns holds [junk]; only [stack_p] is initialised. *)
Definition create_process_manager (junk : nat -> process_info) (size : nat) : list process_info :=
  (fun i => mkProcess NULL (child_id (junk i)) (err_file (junk i))) <$> seq 0 size.

(** [for(int i=..; i<..; i++){ if (test of group[i]) return ...; }], with [n]
    rounds to go: the index at which the loop stops. *)
Fixpoint loop_slots (test : process_info -> bool) (group : list process_info) (i n : nat)
    : option (option nat) :=
  match n with
  | O => Some None
  | S n =>
      match group !! i with
      | None => None
      | Some slot => if test slot then Some (Some i) else loop_slots test group (S i) n
      end
  end.

Definition has_pid (pid : Z) (slot : process_info) : bool := child_id slot =? pid.
Definition is_free (slot : process_info) : bool := stack_p slot =? NULL.

Definition search_process (pid size : Z) (group : list process_info) : option Z :=
  match loop_slots (has_pid pid) group 0 (Z.to_nat size) with
  | None => None
  | Some (Some i) => Some (Z.of_nat i)
  | Some None => Some (-1)
  end.

(** The value returned, the table, and the file descriptors closed. *)
Definition manager_remove_process (pid : Z) (manager : list process_info) (size : Z)
    : option (Z * list process_info * list Z) :=
  match loop_slots (has_pid pid) manager 0 (Z.to_nat size) with
  | None => None
  | Some None => Some (-1, manager, [])
  | Some (Some i) =>
      slot ← manager !! i;
      Some (0, <[i := mkProcess NULL (child_id slot) (err_file slot)]> manager,
            if negb (err_file slot =? STDOUT_FILENO) then [err_file slot] else [])
  end.

Definition manager_add_process (pid : Z) (manager : list process_info) (err_file stack nb_process : Z)
    : option (Z * list process_info) :=
  if nb_process <? Z.of_nat MAX_PROCESS then
    match loop_slots is_free manager 0 MAX_PROCESS with
    | None => None
    | Some None => Some (-1, manager)
    | Some (Some j) => Some (1, <[j := mkProcess stack pid err_file]> manager)
    end
  else Some (-1, manager).

(** The pointers freed and the descriptors closed, of the first [size] slots. *)
Definition free_manager (manager : list process_info) (size : Z) : option (list Z * list Z) :=
  if Z.of_nat (length manager) <? size then None
  else
    let used := List.filter (fun slot => negb (is_free slot)) (take (Z.to_nat size) manager) in
    Some (stack_p <$> used, err_file <$> used).

(** ** What the daemon does with the table

    A launch ([process_command_request]) counts the process whatever
    [manager_add_process] returned, since -1 is true; the end of a child
    ([handle_SIGCHLD]) uncounts it, found or not. *)
Record tracking : Type := mkTracking { manager : list process_info; nb_process : Z }.

Definition track (pid stack err_file : Z) (t : tracking) : option tracking :=
  r ← manager_add_process pid (manager t) err_file stack (nb_process t);
  Some (mkTracking r.2 (if r.1 =? 0 then nb_process t else nb_process t + 1)).

Definition untrack (pid : Z) (t : tracking) : option tracking :=
  r ← manager_remove_process pid (manager t) (nb_process t);
  Some (mkTracking r.1.2 (nb_process t - 1)).

Inductive life : Type := Launch (pid stack err_file : Z) | Exit (pid : Z).

Definition live_step (l : life) (t : tracking) : option tracking :=
  match l with Launch pid stack err => track pid stack err t | Exit pid => untrack pid t end.

Fixpoint live (ls : list life) (t : tracking) : option tracking :=
  match ls with [] => Some t | l :: ls => t' ← live_step l t; live ls t' end.

(** The table when the daemon starts. *)
Definition initial (junk : nat -> process_info) : tracking :=
  mkTracking (create_process_manager junk MAX_PROCESS) 0.

(** ** The loop *)
Lemma loop_slots_skip test group i n k :
  (forall j, i <= j < i + k -> exists slot, group !! j = Some slot /\ test slot = false)%nat ->
  loop_slots test group i (k + n) = loop_slots test group (i + k) n.
Proof.
  revert i. induction k as [|k IH]; intros i H; [by rewrite Nat.add_0_r|].
  cbn [Nat.add loop_slots]. destruct (H i ltac:(lia)) as (slot & -> & ->).
  rewrite (IH (S i)) by (intros j ?; apply H; lia). f_equal. lia.
Qed.

Lemma loop_slots_finds test group k slot n :
  (forall j, j < k -> exists slot, group !! j = Some slot /\ test slot = false)%nat ->
  group !! k = Some slot -> test slot = true -> (k < n)%nat ->
  loop_slots test group 0 n = Some (Some k).
Proof.
  intros Hb Hk Ht Hn. replace n with (k + S (n - S k))%nat by lia.
  rewrite loop_slots_skip by (intros j ?; apply Hb; lia). cbn. by rewrite Hk, Ht.
Qed.

Lemma loop_slots_none test group n :
  (forall j, j < n -> exists slot, group !! j = Some slot /\ test slot = false)%nat ->
  loop_slots test group 0 n = Some None.
Proof.
  intros Hb. replace n with (n + 0)%nat by lia. by rewrite loop_slots_skip by (intros j ?; apply Hb; lia).
Qed.

Lemma loop_slots_overruns test group n :
  (forall j, j < length group -> exists slot, group !! j = Some slot /\ test slot = false)%nat ->
  (length group < n)%nat -> loop_slots test group 0 n = None.
Proof.
  intros Hb Hn. replace n with (length group + S (n - S (length group)))%nat by lia.
  rewrite loop_slots_skip by (intros j ?; apply Hb; lia). cbn.
  by rewrite (lookup_ge_None_2 group) by lia.
Qed.

(** ** Processes that end in the opposite order of their launch *)

(** The first slots hold the living processes, in the order of their launch, and
    the others are free. *)
Definition compact (pids : list Z) (t : tracking) : Prop :=
  length (manager t) = MAX_PROCESS /\ nb_process t = Z.of_nat (length pids) /\
  (forall i pid, pids !! i = Some pid -> exists slot, manager t !! i = Some slot /\
     is_free slot = false /\ child_id slot = pid) /\
  (forall i slot, (length pids <= i)%nat -> manager t !! i = Some slot -> is_free slot = true).

Lemma length_initial junk : length (manager (initial junk)) = MAX_PROCESS.
Proof. unfold initial, create_process_manager. cbn [manager]. by rewrite length_fmap, length_seq. Qed.

Lemma compact_initial junk : compact [] (initial junk).
Proof.
  split_and!; [apply length_initial | done | done |].
  intros i slot _ (j & -> & _)%list_lookup_fmap_Some. done.
Qed.

Lemma compact_used pids t j :
  compact pids t -> (j < length pids)%nat ->
  exists slot, manager t !! j = Some slot /\ is_free slot = false /\ pids !! j = Some (child_id slot).
Proof.
  intros (_ & _ & Hu & _) Hj. destruct (lookup_lt_is_Some_2 pids j Hj) as [pid Hp].
  destruct (Hu j pid Hp) as (slot & ? & ? & <-). eauto.
Qed.

Lemma compact_launch pids t pid stack err :
  compact pids t -> (length pids < MAX_PROCESS)%nat -> stack <> NULL ->
  exists t', live_step (Launch pid stack err) t = Some t' /\ compact (pids ++ [pid]) t'.
Proof.
  intros Hc Hlt Hst. pose proof Hc as (Hlen & Hnb & Hu & Hf).
  destruct (lookup_lt_is_Some_2 (manager t) (length pids) ltac:(lia)) as [slot Hslot].
  cbn [live_step]. unfold track, manager_add_process. rewrite Hnb, (proj2 (Z.ltb_lt _ _)) by lia.
  rewrite (loop_slots_finds _ _ (length pids) slot); [ | | done | by eapply Hf | done].
  2: { intros j Hj. destruct (compact_used _ _ j Hc Hj) as (s & ? & ? & _). eauto. }
  eexists. split; [reflexivity|]. unfold compact. cbn [manager nb_process fst snd Z.eqb]. split_and!.
  - by rewrite length_insert.
  - rewrite length_app. cbn. lia.
  - intros i p [Hi|[Hi Hp]]%lookup_app_Some.
    + rewrite list_lookup_insert_ne; [by apply Hu|]. apply lookup_lt_Some in Hi. lia.
    + apply list_lookup_singleton_Some in Hp as [Hi0 <-]. replace i with (length pids) by lia.
      eexists. rewrite list_lookup_insert_eq by lia. split_and!; [done | | done].
      by apply Z.eqb_neq.
  - intros i s Hi. rewrite length_app in Hi. cbn in Hi. rewrite list_lookup_insert_ne by lia.
    apply Hf. lia.
Qed.

Lemma compact_exit pids t pid :
  compact (pids ++ [pid]) t -> pid ∉ pids ->
  exists t', live_step (Exit pid) t = Some t' /\ compact pids t'.
Proof.
  intros Hc Hnot. pose proof Hc as (Hlen & Hnb & Hu & Hf).
  rewrite length_app in Hnb. cbn [length] in Hnb.
  destruct (compact_used _ _ (length pids) Hc) as (slot & Hslot & _ & Hpid).
  { rewrite length_app. cbn. lia. }
  rewrite lookup_app_r, Nat.sub_diag in Hpid by lia. injection Hpid as Hpid.
  cbn [live_step]. unfold untrack, manager_remove_process. rewrite Hnb.
  rewrite (loop_slots_finds _ _ (length pids) slot); [ | | done | | lia].
  - cbn [mbind option_bind]. rewrite Hslot. eexists. split; [reflexivity|]. unfold compact. cbn [manager nb_process fst snd].
    split_and!; [by rewrite length_insert | lia | |].
    + intros i p Hi. apply lookup_lt_Some in Hi as Hlt. rewrite list_lookup_insert_ne by lia.
      apply Hu. by apply lookup_app_l_Some.
    + intros i s Hi. destruct (decide (i = length pids)) as [->|Hne].
      * rewrite list_lookup_insert_eq by (by eapply lookup_lt_Some). by intros [= <-].
      * rewrite list_lookup_insert_ne by done. apply Hf. rewrite length_app. cbn. lia.
  - intros j Hj. destruct (compact_used _ _ j Hc) as (s & Hs & _ & Hp); [rewrite length_app; lia|].
    exists s. split; [done|]. apply Z.eqb_neq. intros E.
    rewrite lookup_app_l in Hp by lia. apply Hnot. apply list_elem_of_lookup. exists j. congruence.
  - apply Z.eqb_eq. done.
Qed.

(** Lives in that order, from the living processes [pids] to [pids']. *)
Inductive nested : list Z -> list life -> list Z -> Prop :=
  | nested_nil pids : nested pids [] pids
  | nested_launch pids pid stack err ls pids' :
      (length pids < MAX_PROCESS)%nat -> stack <> NULL -> pid ∉ pids ->
      nested (pids ++ [pid]) ls pids' -> nested pids (Launch pid stack err :: ls) pids'
  | nested_exit pids pid ls pids' :
      pid ∉ pids -> nested pids ls pids' -> nested (pids ++ [pid]) (Exit pid :: ls) pids'.

(** C26. Invariant of the table: while processes end in the opposite order of their
    launch, and at most [MAX_PROCESS] live at a time, the slots in use are
    exactly those of the living processes, the counter is their number, and no
    access is out of bounds. *)
Theorem manager_nested pids ls pids' t :
  nested pids ls pids' -> compact pids t -> exists t', live ls t = Some t' /\ compact pids' t'.
Proof.
  intros Hn. revert t. induction Hn as [pids|pids pid stack err ls pids' Hlt Hst Hpid _ IH|pids pid ls pids' Hpid _ IH];
    intros t Hc; cbn [live].
  - eauto.
  - destruct (compact_launch _ _ pid stack err Hc Hlt Hst) as (t1 & -> & H1). by apply IH.
  - destruct (compact_exit _ _ pid Hc Hpid) as (t1 & -> & H1). by apply IH.
Qed.

(** ** Processes that end in another order *)

(** After [k] slots were lost: nothing lives, and slots 1 to [k] are in use. *)
Definition leaked (k : nat) (t : tracking) : Prop :=
  length (manager t) = MAX_PROCESS /\ nb_process t = 0 /\
  forall i slot, manager t !! i = Some slot -> is_free slot = bool_decide (i = 0 \/ k < i)%nat.

Lemma leaked_initial junk : leaked 0 (initial junk).
Proof.
  split_and!; [apply length_initial | done |].
  intros i slot (j & -> & _)%list_lookup_fmap_Some. cbn. symmetry. apply bool_decide_eq_true. lia.
Qed.

(** Two processes, of which the first launched ends first. *)
Definition overlap (stack err : Z) (ab : Z * Z) : list life :=
  [Launch ab.1 stack err; Launch ab.2 stack err; Exit ab.1; Exit ab.2].

(** The table in between: the first process is in slot 0. *)
Lemma leaked_first k t a stack err :
  leaked k t -> stack <> NULL ->
  exists t', live_step (Launch a stack err) t = Some t' /\
    nb_process t' = 1 /\ length (manager t') = MAX_PROCESS /\
    manager t' !! 0%nat = Some (mkProcess stack a err) /\
    (forall i slot, (0 < i)%nat -> manager t' !! i = Some slot -> is_free slot = bool_decide (k < i)%nat).
Proof.
  intros (Hlen & Hnb & Hf) Hst.
  destruct (lookup_lt_is_Some_2 (manager t) 0 ltac:(rewrite Hlen; unfold MAX_PROCESS; lia)) as [slot H0].
  cbn [live_step]. unfold track, manager_add_process. rewrite Hnb.
  rewrite (loop_slots_finds _ _ 0 slot); [ | lia | done | | unfold MAX_PROCESS; lia].
  2: { rewrite (Hf _ _ H0). apply bool_decide_eq_true. lia. }
  eexists. split; [reflexivity|]. unfold compact. cbn [manager nb_process fst snd Z.eqb]. split_and!; [done | by rewrite length_insert | |].
  - apply list_lookup_insert_eq. rewrite Hlen. unfold MAX_PROCESS. lia.
  - intros i s Hi. rewrite list_lookup_insert_ne by lia. intros Hs. rewrite (Hf _ _ Hs).
    apply bool_decide_ext. lia.
Qed.

(** The second process takes the first slot never used, if there is one. *)
Lemma second_launch k t b stack err :
  nb_process t = 1 -> length (manager t) = MAX_PROCESS -> stack <> NULL ->
  (exists s0, manager t !! 0%nat = Some s0 /\ is_free s0 = false) ->
  (forall i slot, (0 < i)%nat -> manager t !! i = Some slot -> is_free slot = bool_decide (k < i)%nat) ->
  manager_add_process b (manager t) err stack 1 =
  Some (if bool_decide (S k < MAX_PROCESS)%nat
        then (1, <[S k := mkProcess stack b err]> (manager t)) else (-1, manager t)).
Proof.
  intros Hnb Hlen Hst (s0 & H0 & Hs0) Hf. unfold manager_add_process. cbn [Z.ltb Z.compare].
  assert (forall j, (j < S k)%nat -> (j < MAX_PROCESS)%nat ->
            exists slot, manager t !! j = Some slot /\ is_free slot = false) as Hbefore.
  { intros j Hj Hm. destruct (decide (j = 0%nat)) as [->|Hj0]; [eauto|].
    destruct (lookup_lt_is_Some_2 (manager t) j ltac:(lia)) as [s Hs]. exists s. split; [done|].
    rewrite (Hf j s ltac:(lia) Hs). apply bool_decide_eq_false. lia. }
  case_bool_decide as Hk.
  - destruct (lookup_lt_is_Some_2 (manager t) (S k) ltac:(lia)) as [s Hs].
    rewrite (loop_slots_finds _ _ (S k) s); [done | | done | | done].
    + intros j Hj. apply Hbefore; lia.
    + rewrite (Hf (S k) s ltac:(lia) Hs). apply bool_decide_eq_true. lia.
  - rewrite loop_slots_none; [done|]. intros j Hj. apply Hbefore; lia.
Qed.

(** Their ends: the first is found; the other is not looked for far enough. *)
Lemma overlap_exits m a b stack err :
  m !! 0%nat = Some (mkProcess stack a err) -> a <> b ->
  live [Exit a; Exit b] (mkTracking m 2) =
  Some (mkTracking (<[0%nat := mkProcess NULL a err]> m) 0).
Proof.
  intros H0 Hab. cbn [live live_step]. unfold untrack, manager_remove_process. cbn [manager nb_process].
  rewrite (loop_slots_finds _ _ 0 (mkProcess stack a err)); [ | lia | done | by apply Z.eqb_eq | lia].
  cbn [mbind option_bind]. rewrite H0. cbn [mbind option_bind fst snd manager nb_process].
  rewrite loop_slots_none; [done|]. intros j Hj. replace j with 0%nat by lia.
  eexists. rewrite list_lookup_insert_eq by (by eapply lookup_lt_Some).
  split; [done|]. by apply Z.eqb_neq.
Qed.

(** A round of two such processes loses a slot; when none is left, the second
    process is counted and not tracked. *)
Lemma overlap_leaks k t stack err a b :
  leaked k t -> (k < MAX_PROCESS)%nat -> stack <> NULL -> a <> b ->
  exists t', live (overlap stack err (a, b)) t = Some t' /\ leaked (S k `min` 255) t'.
Proof.
  intros Hl Hk Hst Hab. destruct (leaked_first k t a stack err Hl Hst) as (t1 & E1 & Hnb & Hlen & H0 & Hf).
  unfold overlap. cbn [fst snd]. change (?x :: ?y :: ?l) with ([x; y] ++ l).
  cbn [app live]. rewrite E1. cbn [mbind option_bind live_step].
  unfold track. rewrite Hnb, (second_launch k t1 b stack err Hnb Hlen Hst); [ | | done].
  2: { exists (mkProcess stack a err). split; [done|]. by apply Z.eqb_neq. }
  cbn [mbind option_bind].
  set (r := if bool_decide _ then _ else _).
  assert ((r.1 =? 0) = false /\ length r.2 = MAX_PROCESS /\ r.2 !! 0%nat = Some (mkProcess stack a err) /\
    forall i slot, (0 < i)%nat -> r.2 !! i = Some slot -> is_free slot = bool_decide (S k `min` 255 < i)%nat)
    as (-> & Hlen2 & H02 & Hf2).
  { subst r. unfold MAX_PROCESS in *. case_bool_decide as Hlt; cbn [fst snd].
    - split_and!; [done | by rewrite length_insert | by rewrite list_lookup_insert_ne by lia |].
      intros i slot Hi. destruct (decide (i = S k)) as [->|Hne].
      + rewrite list_lookup_insert_eq by lia. intros [= <-].
        unfold is_free. cbn [stack_p]. rewrite (proj2 (Z.eqb_neq _ _)) by done.
        symmetry. apply bool_decide_eq_false. lia.
      + rewrite list_lookup_insert_ne by done. intros Hs. rewrite (Hf i slot Hi Hs).
        apply bool_decide_ext. lia.
    - split_and!; [done.. |]. intros i slot Hi Hs. rewrite (Hf i slot Hi Hs).
      apply lookup_lt_Some in Hs. apply bool_decide_ext. lia. }
  pose proof (overlap_exits r.2 a b stack err H02 Hab) as E2.
  exists (mkTracking (<[0%nat := mkProcess NULL a err]> r.2) 0). split; [exact E2|].
  split_and!; [by cbn [manager]; rewrite length_insert | done |].
  cbn [manager]. intros i slot. destruct (decide (i = 0%nat)) as [->|Hi].
  - rewrite list_lookup_insert_eq by (rewrite Hlen2; unfold MAX_PROCESS; lia). intros [= <-].
    symmetry. apply bool_decide_eq_true. lia.
  - rewrite list_lookup_insert_ne by done. intros Hs. rewrite (Hf2 i slot ltac:(lia) Hs).
    apply bool_decide_ext. lia.
Qed.

Lemma live_app ls ls' t : live (ls ++ ls') t = (live ls t ≫= live ls').
Proof.
  revert t. induction ls as [|l ls IH]; intros t; [done|]. cbn [app live].
  destruct (live_step l t); cbn [mbind option_bind]; [apply IH | done].
Qed.

Lemma overlaps_leak k t stack err rounds :
  leaked k t -> stack <> NULL -> Forall (fun ab => ab.1 <> ab.2) rounds ->
  (k + length rounds <= 255)%nat ->
  exists t', live (rounds ≫= overlap stack err) t = Some t' /\ leaked (k + length rounds) t'.
Proof.
  intros Hl Hst HF. revert k t Hl. induction HF as [|[a b] rounds Hab _ IH]; intros k t Hl Hk.
  - exists t. by rewrite Nat.add_0_r.
  - cbn [length] in *. destruct (overlap_leaks k t stack err a b Hl) as (t1 & E1 & H1);
      [unfold MAX_PROCESS; lia | done..|].
    replace (S k `min` 255)%nat with (S k) in H1 by lia.
    destruct (IH (S k) t1 H1 ltac:(lia)) as (t2 & E2 & H2). exists t2. split.
    + change ((?x :: ?l) ≫= ?f) with (f x ++ (l ≫= f)). rewrite live_app, E1. exact E2.
    + by rewrite <- Nat.add_succ_comm.
Qed.

(** What the scan of [manager_remove_process] misses: when of two processes the
    first launched ends first, the slot of the other is never given back.  Each
    such round loses a slot, with no process left alive; after 255 of them, of
    two processes that live together the second is refused by
    [manager_add_process]. *)
Lemma manager_leaks junk stack err rounds :
  stack <> NULL -> Forall (fun ab => ab.1 <> ab.2) rounds -> (length rounds <= 255)%nat ->
  exists t, live (rounds ≫= overlap stack err) (initial junk) = Some t /\
    nb_process t = 0 /\
    (forall i slot, manager t !! i = Some slot ->
       is_free slot = bool_decide (i = 0 \/ length rounds < i)%nat) /\
    (length rounds = 255%nat -> forall a b, exists t1,
       live_step (Launch a stack err) t = Some t1 /\
       manager_add_process b (manager t1) err stack (nb_process t1) = Some (-1, manager t1)).
Proof.
  intros Hst HF Hlen.
  destruct (overlaps_leak 0 (initial junk) stack err rounds (leaked_initial junk) Hst HF Hlen)
    as (t & E & Hl). exists t. pose proof Hl as (_ & Hnb & Hf). cbn [Nat.add] in *.
  split_and!; [done.. |]. intros Hfull a b. rewrite Hfull in Hl.
  destruct (leaked_first 255 t a stack err Hl Hst) as (t1 & E1 & Hnb1 & Hlen1 & H0 & Hf1).
  exists t1. split; [done|]. rewrite Hnb1.
  rewrite (second_launch 255 t1 b stack err Hnb1 Hlen1 Hst); [done | | done].
  eexists. split; [exact H0|]. by apply Z.eqb_neq.
Qed.

(** Out of bounds: once [MAX_PROCESS] processes live, one more is counted
    although it is refused, and the end of a process the table does not have,
    such as that one, is looked for past the end of the array. *)
Lemma manager_overrun pids t pid pid' stack err :
  compact pids t -> length pids = MAX_PROCESS -> pid' ∉ pids ->
  manager_add_process pid (manager t) err stack (nb_process t) = Some (-1, manager t) /\
  live [Launch pid stack err; Exit pid'] t = None.
Proof.
  intros Hc Hlen Hpid. pose proof Hc as (Hm & Hnb & Hu & _).
  assert (manager_add_process pid (manager t) err stack (nb_process t) = Some (-1, manager t)) as E.
  { unfold manager_add_process. by rewrite Hnb, Hlen, (proj2 (Z.ltb_ge _ _)) by lia. }
  split; [exact E|]. cbn [live live_step]. unfold track. rewrite E. cbn [mbind option_bind fst snd Z.eqb].
  unfold untrack, manager_remove_process. cbn [manager nb_process].
  rewrite loop_slots_overruns; [done | | rewrite Hnb; lia].
  intros j Hj. destruct (compact_used _ _ j Hc) as (slot & Hs & _ & Hp); [lia|].
  exists slot. split; [done|]. apply Z.eqb_neq. intros E'. apply Hpid.
  apply list_elem_of_lookup. exists j. congruence.
Qed.

(** C35. The limits of the table.  What the scan of [manager_remove_process] misses:
    when of two processes the first launched ends first, the slot of the other is
    never given back; each such round loses a slot, with no process left alive,
    and after 255 of them, of two processes that live together the second is
    refused.  And out of bounds: once [MAX_PROCESS] processes live, one more is
    counted although it is refused, and the end of a process the table does not
    have, such as that one, is looked for past the end of the array. *)
Theorem manager_limits stack err :
  stack <> NULL ->
  (forall junk rounds, Forall (fun ab => ab.1 <> ab.2) rounds -> (length rounds <= 255)%nat ->
   exists t, live (rounds ≫= overlap stack err) (initial junk) = Some t /\
     nb_process t = 0 /\
     (forall i slot, manager t !! i = Some slot ->
        is_free slot = bool_decide (i = 0 \/ length rounds < i)%nat) /\
     (length rounds = 255%nat -> forall a b, exists t1,
        live_step (Launch a stack err) t = Some t1 /\
        manager_add_process b (manager t1) err stack (nb_process t1) = Some (-1, manager t1))) /\
  (forall pids t pid pid', compact pids t -> length pids = MAX_PROCESS -> pid' ∉ pids ->
   manager_add_process pid (manager t) err stack (nb_process t) = Some (-1, manager t) /\
   live [Launch pid stack err; Exit pid'] t = None).
Proof.
  intros Hst. split; intros; [by apply manager_leaks | by eapply manager_overrun].
Qed.

(** ** At concrete inputs *)
Definition junk (i : nat) : process_info := mkProcess 77 0 0.

Lemma manager_nested_witness :
  exists t, live [Launch 10 4096 5; Launch 11 8192 6; Exit 11; Launch 12 8192 6] (initial junk) = Some t /\
    compact [10; 12] t.
Proof.
  apply (manager_nested [] _ [10; 12]); [|apply compact_initial].
  repeat first [apply (nested_exit [10] 11) | apply nested_launch | apply nested_nil];
    try (unfold MAX_PROCESS; cbn; lia); try discriminate;
    cbn; rewrite ?not_elem_of_cons; split_and?; try lia; apply not_elem_of_nil.
Defined.

(** [MAX_PROCESS] processes, launched one after the other. *)
Definition launches (n : nat) : list life := (fun i => Launch (Z.of_nat i + 1) 4096 5) <$> seq 0 n.

Lemma launches_compact n t pids :
  compact pids t -> pids = (fun i => Z.of_nat i + 1) <$> seq 0 (length pids) ->
  (length pids + n <= MAX_PROCESS)%nat ->
  exists t', live ((fun i => Launch (Z.of_nat i + 1) 4096 5) <$> seq (length pids) n) t = Some t' /\
    compact ((fun i => Z.of_nat i + 1) <$> seq 0 (length pids + n)) t'.
Proof.
  revert t pids. induction n as [|n IH]; intros t pids Hc Hp Hle.
  - exists t. split; [done|]. rewrite Nat.add_0_r. congruence.
  - cbn [seq fmap list_fmap live].
    destruct (compact_launch pids t (Z.of_nat (length pids) + 1) 4096 5 Hc ltac:(lia) ltac:(done))
      as (t1 & -> & H1).
    specialize (IH t1 _ H1). rewrite length_app in IH. cbn [length] in IH.
    rewrite Nat.add_1_r in IH. rewrite <- Nat.add_succ_comm. apply IH; [|lia].
    rewrite seq_S, fmap_app. cbn [fmap list_fmap Nat.add]. by rewrite <- Hp.
Qed.

Lemma manager_limits_witness :
  (exists t, live ([(10, 11); (10, 11); (12, 13)] ≫= overlap 4096 5) (initial junk) = Some t /\
    nb_process t = 0 /\ is_free <$> manager t !! 3%nat = Some false) /\
  exists t, live (launches MAX_PROCESS) (initial junk) = Some t /\
    live [Launch 1000 4096 5; Exit 1000] t = None.
Proof.
  destruct (manager_limits 4096 5) as [Hleaks Hover]; [discriminate|]. split.
  - destruct (Hleaks junk [(10, 11); (10, 11); (12, 13)]) as (t & E & Hnb & _).
    + repeat constructor; cbn; lia.
    + cbn. lia.
    + exists t. split; [exact E|]. split; [exact Hnb|].
      vm_compute in E. injection E as <-. reflexivity.
  - destruct (launches_compact MAX_PROCESS (initial junk) [] (compact_initial junk) eq_refl)
      as (t & E & Hc); [cbn; lia|].
    exists t. split; [exact E|]. apply (Hover _ t 1000 1000 Hc).
    + reflexivity.
    + intros (i & Hi & Hin)%list_elem_of_fmap. apply elem_of_seq in Hin. unfold MAX_PROCESS in Hin. cbn in Hin. lia.
Defined.
