(* ===== verification/Daemon.v ===== *)
(** * The C daemon ([src/c])

    One Definition per function of [daemon-features/events.c],
    [daemon-features/clone.c], [daemon-features/Detect_socket.c] and of the cases
    of the loop in [daemon-core.c].  The kernel's answers are arguments; the
    messages are what [serialize.cpp] decodes and encodes, with its functions for
    the requests as parameters.  A computation of the daemon has its state, and
    may halt it: by an exit, a signal, or a step the C standard leaves undefined.
    The threads that search for a socket are part of the state, with the globals
    they share, and take their own turns.  Console output is left out, and so is the
    exhaustion of memory, except for the allocations whose size a client chooses. *)
From S2P Require Import Prelude Bytes Data ProcessManager.

(** ** Data ([include/data_structs.h]) *)
Inductive surveillance : Type :=
  | SInotify (root_paths : bytes) (mask size : Z)
  | SSocket (destport : Z).

Record s_command : Type := mkSCommand {
  c_path : bytes;
  c_args : list bytes;
  c_envp : list bytes;
  c_flags : Z;
  c_stack_size : Z;
  c_to_watch : list surveillance
}.

(** The messages for a user, by the [send_*_to_user_c] function that builds them. *)
Inductive report : Type :=
  | TCPSocketListening (port : Z)
  | ProcessLaunched (pid : Z)
  | ChildCreationError (error_code : Z)
  | ProcessTerminated (pid error_code : Z)
  | ExecveTerminated (pid : Z) (command_name : bytes) (success : bool)
  | PathUpdated (path : bytes) (event : InotifyEvent) (size size_limit : Z)
  | WatchListUpdated (path : bytes)
  | SocketWatched (port : Z)
  | SocketWatchTerminated (port : Z) (state : SocketState).

(** What the [data.ptr] of an entry of the epoll set points to ([include/events.h]). *)
Inductive event_data : Type :=
  | SIGNALFD (fd : Z)
  | INOTIFYFD (fd size : Z)
  | SOCK_CONNEXION (fd : Z)
  | SOCK_MESSAGE (fd : Z)
  | EXECVE (fd pid : Z) (path : bytes).

(** A thread that searches for a socket ([Detect_socket.c]): its arguments, how far
    it is, and [sock_info.state]. *)
Inductive phase : Type := Starting | Searching | Reported.
Record detector : Type := mkDetector {
  dt_port : Z;
  dt_socket : Z;
  dt_phase : phase;
  dt_state : option SocketState                (* [None]: not initialised yet *)
}.

(** The locals of [main], the globals, the threads, and what the daemon has asked of
    others. *)
Record daemon : Type := mkDaemon {
  d_table : tracking;
  d_communication_socket : option Z;          (* [None]: not initialised yet *)
  d_epoll : list event_data;
  d_watches : list (Z * bytes * Z);           (* [inotify_add_watch(fd, path, mask)] *)
  d_detectors : list detector;                (* in the order they were created *)
  d_found : bool;                             (* [found] and [timeout], of all of them *)
  d_timeout : bool;
  d_children : list Z;                        (* what [clone] returned *)
  d_kills : list (Z * Z);                     (* [kill(pid, signal)] *)
  d_gone : list Z;                            (* sockets whose peer is gone for good *)
  d_sent : list (Z * report)                  (* [send], by socket *)
}.

Section fields.
Context (d : daemon).
Definition with_table (t : tracking) : daemon :=
  mkDaemon t (d_communication_socket d) (d_epoll d) (d_watches d) (d_detectors d) (d_found d)
    (d_timeout d) (d_children d) (d_kills d) (d_gone d) (d_sent d).
Definition with_socket (fd : Z) : daemon :=
  mkDaemon (d_table d) (Some fd) (d_epoll d) (d_watches d) (d_detectors d) (d_found d)
    (d_timeout d) (d_children d) (d_kills d) (d_gone d) (d_sent d).
Definition with_epoll (es : list event_data) : daemon :=
  mkDaemon (d_table d) (d_communication_socket d) es (d_watches d) (d_detectors d) (d_found d)
    (d_timeout d) (d_children d) (d_kills d) (d_gone d) (d_sent d).
Definition with_watch (w : Z * bytes * Z) : daemon :=
  mkDaemon (d_table d) (d_communication_socket d) (d_epoll d) (d_watches d ++ [w]) (d_detectors d)
    (d_found d) (d_timeout d) (d_children d) (d_kills d) (d_gone d) (d_sent d).
Definition with_detectors (dts : list detector) : daemon :=
  mkDaemon (d_table d) (d_communication_socket d) (d_epoll d) (d_watches d) dts (d_found d)
    (d_timeout d) (d_children d) (d_kills d) (d_gone d) (d_sent d).
Definition with_globals (found timeout : bool) : daemon :=
  mkDaemon (d_table d) (d_communication_socket d) (d_epoll d) (d_watches d) (d_detectors d) found
    timeout (d_children d) (d_kills d) (d_gone d) (d_sent d).
Definition with_child (pid : Z) : daemon :=
  mkDaemon (d_table d) (d_communication_socket d) (d_epoll d) (d_watches d) (d_detectors d)
    (d_found d) (d_timeout d) (d_children d ++ [pid]) (d_kills d) (d_gone d) (d_sent d).
Definition with_kill (k : Z * Z) : daemon :=
  mkDaemon (d_table d) (d_communication_socket d) (d_epoll d) (d_watches d) (d_detectors d)
    (d_found d) (d_timeout d) (d_children d) (d_kills d ++ [k]) (d_gone d) (d_sent d).
Definition with_gone (fd : Z) : daemon :=
  mkDaemon (d_table d) (d_communication_socket d) (d_epoll d) (d_watches d) (d_detectors d)
    (d_found d) (d_timeout d) (d_children d) (d_kills d) (fd :: d_gone d) (d_sent d).
Definition with_sent (sr : Z * report) : daemon :=
  mkDaemon (d_table d) (d_communication_socket d) (d_epoll d) (d_watches d) (d_detectors d)
    (d_found d) (d_timeout d) (d_children d) (d_kills d) (d_gone d) (d_sent d ++ [sr]).
End fields.

(** ** Computations *)
Inductive defect : Type := NullDereference | OutOfBounds | Uninitialised.
Inductive halt : Type := Exited (status : Z) | Killed (signal : Z) | Undefined (why : defect).

Inductive result (A : Type) : Type :=
  | Next (a : A) (d : daemon)
  | Halt (h : halt) (d : daemon).
Arguments Next {A} _ _.
Arguments Halt {A} _ _.

Definition dm (A : Type) : Type := daemon -> result A.

#[global] Instance dm_ret : MRet dm := fun A a d => Next a d.
#[global] Instance dm_bind : MBind dm := fun A B f m d =>
  match m d with Next a d' => f a d' | Halt h d' => Halt h d' end.

Definition stop {A} (h : halt) : dm A := fun d => Halt h d.
Definition initialised {A} (v : option A) : dm A := fun d =>
  match v with Some a => Next a d | None => Halt (Undefined Uninitialised) d end.

Definition SIGKILL : Z := 9.
Definition SIGPIPE : Z := 13.
Definition SIGTERM : Z := 15.
Definition EXIT_FAILURE : Z := 1.

(** No caller looks at the result, so that what [send] takes of the frame, all of it or
    less, is the business of the connection; but on a connection that is gone the
    call raises a signal that the daemon does not handle. *)
Definition send_message (socket : Z) (r : report) : dm unit := fun d =>
  if decide (socket ∈ d_gone d) then Halt (Killed SIGPIPE) d else Next tt (with_sent d (socket, r)).
Definition set_table (t : option tracking) : dm unit := fun d =>
  match t with
  | None => Halt (Undefined OutOfBounds) d
  | Some t => Next tt (with_table d t)
  end.
Definition set_communication_socket (fd : Z) : dm unit := fun d => Next tt (with_socket d fd).
Definition set_epoll (f : list event_data -> list event_data) : dm unit := fun d =>
  Next tt (with_epoll d (f (d_epoll d))).
Definition inotify_add_watch (fd : Z) (path : bytes) (mask : Z) : dm unit := fun d =>
  Next tt (with_watch d (fd, path, mask)).
Definition made_child (pid : Z) : dm unit := fun d => Next tt (with_child d pid).
Definition kill (pid signal : Z) : dm unit := fun d => Next tt (with_kill d (pid, signal)).
Definition get {A} (f : daemon -> A) : dm A := fun d => Next (f d) d.

(** [for(i=0; i<..; i++) body(l[i])] *)
Fixpoint each {A} (l : list A) (body : nat -> A -> dm unit) (i : nat) : dm unit :=
  match l with [] => mret tt | a :: l => _ ← body i a; each l body (S i) end.

Definition event_fd (e : event_data) : Z :=
  match e with
  | SIGNALFD fd | INOTIFYFD fd _ | SOCK_CONNEXION fd | SOCK_MESSAGE fd | EXECVE fd _ _ => fd
  end.
Definition epoll_add (e : event_data) : dm unit := set_epoll (fun es => es ++ [e]).
Definition epoll_del (fd : Z) : dm unit :=
  set_epoll (List.filter (fun e => negb (event_fd e =? fd))).

(** Conversions to [int], [uint32_t], [uint16_t]. *)
Definition to_int (z : Z) : Z := (z + 2 ^ 31) mod 2 ^ 32 - 2 ^ 31.
Definition to_uint32 (z : Z) : Z := z mod 2 ^ 32.
Definition to_uint16 (z : Z) : Z := z mod 2 ^ 16.

(** ** Launching ([clone.c], [events.c]) *)

(** The kernel's answers to a launch: the descriptor of the error file or -1, the
    stack, the reading end of the pipe, the pid, and [errno]; the descriptors of
    the new inotify instances or -1, and whether the thread is created, by the index
    of the watch; whether the epoll set takes a descriptor; and the process group. *)
Record kernel : Type := mkKernel {
  k_err_file : Z;
  k_stack : option Z;
  k_pipe : option Z;
  k_clone : option Z;
  k_errno : Z;
  k_inotify_init : nat -> Z;
  k_pthread_create : nat -> bool;
  k_epoll_ctl : Z -> bool;
  k_getpgrp : Z
}.

(** [epoll_ctl(epollfd, EPOLL_CTL_ADD, fd, &ev)]: no set takes -1. *)
Definition epoll_takes (k : kernel) (fd : Z) : bool := (0 <=? fd) && k_epoll_ctl k fd.

(** [add_event_inotifyFd] and [add_event_pipeExecve]: the entry is freed when the set
    does not take it, and their results are not looked at. *)
Definition add_event (k : kernel) (e : event_data) : dm unit :=
  if epoll_takes k (event_fd e) then epoll_add e else mret tt.

(** [pthread_create] may fail, and then nothing searches. *)
Definition detect_socket (created : bool) (port socket : Z) : dm unit := fun d =>
  Next tt (if created then with_detectors d (d_detectors d ++ [mkDetector port socket Starting None]) else d).

Record info_child : Type := mkInfoChild { ic_stack_p : Z; ic_child_id : Z; ic_pipe : Z }.

Definition launch_process (k : kernel) : dm (option info_child) :=
  match k_stack k with
  | None => mret None
  | Some stack =>
      match k_pipe k with
      | None => stop (Exited 1)
      | Some pipe =>
          match k_clone k with
          | None => mret None
          | Some pid => _ ← made_child pid; mret (Some (mkInfoChild stack pid pipe))
          end
      end
  end.

(** [com->args] is allocated by [receive_command], so it is never [NULL]. *)
Definition extract_clone_parameters (com : s_command) : option s_command := Some com.

(** [param->args[0]] is read for the name of the error file. *)
Definition process_command_request (com_sock : Z) (com : s_command) (k : kernel) : dm unit :=
  match extract_clone_parameters com with
  | None => send_message com_sock (ChildCreationError (to_uint32 (k_errno k)))
  | Some param =>
      match c_args param with
      | [] => stop (Undefined OutOfBounds)
      | _ =>
          let err_file := if k_err_file k =? -1 then STDOUT_FILENO else k_err_file k in
          res ← launch_process k;
          match res with
          | None => send_message com_sock (ChildCreationError (to_uint32 (k_errno k)))
          | Some res =>
              table ← get d_table;
              _ ← set_table (track (ic_child_id res) (ic_stack_p res) err_file table);
              _ ← send_message com_sock (ProcessLaunched (ic_child_id res));
              add_event k (EXECVE (ic_pipe res) (ic_child_id res) (c_path com))
          end
      end
  end.

(** [destport] is a [uint32_t] read as an [int]; the size of a watch becomes an
    [int] in the entry of its inotify instance. *)
Definition process_surveillance (InotifyFd com_sock : Z) (k : kernel) (i : nat) (s : surveillance)
    : dm unit :=
  match s with
  | SInotify root_paths mask size =>
      _ ← (if 0 <? size then
             _ ← inotify_add_watch (k_inotify_init k i) root_paths mask;
             add_event k (INOTIFYFD (k_inotify_init k i) (to_int size))
           else inotify_add_watch InotifyFd root_paths mask);
      send_message com_sock (WatchListUpdated root_paths)
  | SSocket destport =>
      _ ← send_message com_sock (SocketWatched (to_int destport));
      detect_socket (k_pthread_create k i) (to_int destport) com_sock
  end.

Definition process_surveillance_requests (com : s_command) (InotifyFd com_sock : Z) (k : kernel)
    : dm unit :=
  each (c_to_watch com) (process_surveillance InotifyFd com_sock k) 0.

(** ** Watched files *)
Definition IN_ACCESS : Z := 0x1.
Definition IN_MODIFY : Z := 0x2.
Definition IN_CREATE : Z := 0x100.
Definition IN_DELETE : Z := 0x200.

(** An event read from an inotify instance, with the size [stat] gives for its
    name, if it does. *)
Record inotify_event : Type := mkInotifyEvent { i_mask : Z; i_name : bytes; i_stat : option Z }.

Definition has_mask (e : inotify_event) (m : Z) : bool := negb (Z.land (i_mask e) m =? 0).

Definition findSize (stat : option Z) : Z :=
  match stat with Some st_size => to_int st_size | None => -1 end.

(** The event and the size stored in [info], whose event was [prev]; an
    assignment to [info->size] is to a [uint32_t], and so is the comparison. *)
Definition process_Event (e : inotify_event) (prev : option InotifyEvent) (size : Z)
    : option InotifyEvent * Z :=
  let ev := if has_mask e IN_ACCESS then Some ACCESSED else prev in
  let ev := if has_mask e IN_CREATE then Some CREATED else ev in
  let ev := if has_mask e IN_DELETE then Some DELETED else ev in
  if has_mask e IN_MODIFY then
    let found := to_uint32 (findSize (i_stat e)) in
    (if to_uint32 size <? found then Some SIZE_REACHED else Some MODIFIED, found)
  else (ev, to_uint32 size).

(** [info] is one variable for all the events of a read. *)
Fixpoint handle_inotify_event (events : list inotify_event) (prev : option InotifyEvent)
    (size com_sock : Z) : dm unit :=
  match events with
  | [] => mret tt
  | e :: events =>
      let info := process_Event e prev size in
      event ← initialised info.1;
      _ ← send_message com_sock (PathUpdated (i_name e) event info.2 (to_uint32 size));
      handle_inotify_event events (Some event) size com_sock
  end.

(** ** Children that end *)

(** The macros of [sys/wait.h]. *)
Definition WTERMSIG (wstatus : Z) : Z := Z.land wstatus 0x7f.
Definition WIFEXITED (wstatus : Z) : bool := WTERMSIG wstatus =? 0.
Definition WEXITSTATUS (wstatus : Z) : Z := Z.shiftr (Z.land wstatus 0xff00) 8.
Definition WIFSIGNALED (wstatus : Z) : bool := (0 <? WTERMSIG wstatus) && (WTERMSIG wstatus <? 0x7f).

Definition exit_status (wstatus : Z) : option Z :=
  if WIFEXITED wstatus then Some (WEXITSTATUS wstatus)
  else if WIFSIGNALED wstatus then Some (WTERMSIG wstatus)
  else None.

(** [wstatus]: what [waitpid] stores. *)
Definition handle_SIGCHLD (pid wstatus : Z) : dm report :=
  status ← initialised (exit_status wstatus);
  table ← get d_table;
  _ ← set_table (untrack pid table);
  mret (ProcessTerminated pid (to_uint32 status)).

(** ** The detector of sockets ([Detect_socket.c]) *)
Definition TCP_ESTABLISHED : Z := 1.
Definition TCP_LISTEN : Z := 10.

(** A message of the kernel's dump: a state and a source port. *)
Record inet_diag_msg : Type := mkDiag { idiag_state : Z; idiag_sport : Z }.

(** [switch (diag->idiag_state)] *)
Definition state_of_diag (diag : inet_diag_msg) : SocketState :=
  if idiag_state diag =? TCP_ESTABLISHED then SOCKET_CREATED
  else if idiag_state diag =? TCP_LISTEN then SOCKET_LISTENING
  else SOCKET_UNKNOWN.

(** [sock_info->state], of the thread, and the global [found], from their values
    before. *)
Definition process_inet_diag (port : Z) (acc : option SocketState * bool) (diag : inet_diag_msg)
    : option SocketState * bool :=
  (Some (state_of_diag diag), acc.2 || (idiag_sport diag =? port)).

Definition set_detector (i : nat) (dt : detector) : dm unit := fun d =>
  Next tt (with_detectors d (<[i := dt]> (d_detectors d))).
Definition set_found (found : bool) : dm unit := fun d => Next tt (with_globals d found (d_timeout d)).

(** A round of the loop: the [dump] of the sockets that [recvmsg] gives. *)
Definition search_round (i : nat) (dt : detector) (dump : list inet_diag_msg) : dm unit :=
  found ← get d_found;
  let acc := foldl (process_inet_diag (dt_port dt)) (dt_state dt, found) dump in
  _ ← set_found acc.2;
  set_detector i (mkDetector (dt_port dt) (dt_socket dt) Searching acc.1).

(** After the loop. *)
Definition report_search (i : nat) (dt : detector) : dm unit :=
  found ← get d_found;
  state ← initialised (if found : bool then dt_state dt else Some SOCKET_UNKNOWN);
  _ ← send_message (dt_socket dt) (SocketWatchTerminated (dt_port dt) state);
  set_detector i (mkDetector (dt_port dt) (dt_socket dt) Reported (Some state)).

(** Thread [i], from one test of [while(!found && !timeout)] to the next: [nl_sock] is
    what [socket] returns at its start.  The other threads take their turns in
    between. *)
Definition search_TCP_connection (i : nat) (dt : detector) (nl_sock : Z) (dump : list inet_diag_msg)
    : dm unit :=
  match dt_phase dt with
  | Starting =>
      if nl_sock <? 0 then stop (Exited 1)
      else set_detector i (mkDetector (dt_port dt) (dt_socket dt) Searching (dt_state dt))
  | Searching =>
      found ← get d_found; timeout ← get d_timeout;
      if negb found && negb timeout then search_round i dt dump else report_search i dt
  | Reported => mret tt
  end.

(** The thread calls [exit], which ends the process, not [pthread_exit]. *)
Definition detector_thread (i : nat) (nl_sock : Z) (dump : list inet_diag_msg) : dm unit :=
  dts ← get d_detectors;
  match dts !! i with
  | None => mret tt
  | Some dt =>
      _ ← search_TCP_connection i dt nl_sock dump;
      match dt_phase dt with Reported => stop (Exited 0) | _ => mret tt end
  end.

Definition timeout_handler : dm unit := fun d => Next tt (with_globals d (d_found d) true).

(** ** Messages of users ([Network.c]) *)

(** The results of the two [read]s.  A negative size makes [malloc] fail. *)
Definition read_socket_message (size_bytes body : bytes) : option (bytes * Z) :=
  if negb (blen size_bytes =? 4) then None
  else
    let size := to_int (from_le size_bytes) in
    if size <? 0 then None
    else if negb (blen body =? size) then None
    else Some (body, size).

Section loop.
(** The functions of [serialize.cpp] for the requests of a user. *)
Context (receive_message_from_user_c : bytes -> Z -> Event)
  (receive_command_c : bytes -> Z -> option s_command)
  (receive_kill_c : bytes -> Z -> option Z).

(** The argument of the daemon, and the inotify instance made at its start. *)
Context (destPort inotifyFd : Z).

(** [case SOCK_MESSAGE] of the loop. *)
Definition handle_command (fd : Z) (com : option s_command) (k : kernel) : dm unit :=
  match com with
  | None => stop (Undefined NullDereference)
  | Some com =>
      _ ← process_command_request fd com k;
      process_surveillance_requests com inotifyFd fd k
  end.

Definition handle_kill (pid : Z) (k : kernel) : dm unit :=
  if 0 <? pid then kill pid SIGKILL
  else if pid =? 0 then
    table ← get d_table;
    match free_manager (manager table) (nb_process table) with
    | None => stop (Undefined OutOfBounds)
    | Some _ =>
        (* the daemon is in its group *)
        _ ← kill (- k_getpgrp k) SIGTERM; stop (Killed SIGTERM)
    end
  else mret tt.

Definition handle_message (fd : Z) (size_bytes body : bytes) (k : kernel) : dm unit :=
  match read_socket_message size_bytes body with
  | None => stop (Undefined NullDereference)
  | Some (buffer, size) =>
      if size =? 0 then epoll_del fd
      else match receive_message_from_user_c buffer size with
           | RUN_COMMAND => handle_command fd (receive_command_c buffer size) k
           | KILL_PROCESS =>
               match receive_kill_c buffer size with
               | Some pid => handle_kill pid k
               | None => stop (Undefined NullDereference)
               end
           | _ => mret tt
           end
  end.

(** [case SOCK_CONNEXION]: what [accept] returns, and whether the epoll set takes it;
    [main] returns -1 when it does not. *)
Definition handle_connexion (accepted : Z) (taken : bool) : dm unit :=
  if accepted <? 0 then stop (Exited EXIT_FAILURE)
  else if negb taken then stop (Exited 255)
  else
    _ ← epoll_add (SOCK_MESSAGE accepted);
    _ ← set_communication_socket accepted;
    send_message accepted (TCPSocketListening (to_uint16 destPort)).

(** [case EXECVE], the same code whether the pipe is readable or hung up: [n] is
    what [read] returns. *)
Definition handle_execve (fd pid : Z) (path : bytes) (n : Z) : dm unit :=
  success ← initialised (if 0 <? n then Some false else if n =? 0 then Some true else None);
  socket ← get d_communication_socket;
  socket ← initialised socket;
  _ ← send_message socket (ExecveTerminated pid path success);
  epoll_del fd.

(** [case SIGNALFD]: the child of the signal and what [waitpid] stores, or a short
    read. *)
Definition handle_signalfd_event (r : option (Z * Z)) : dm unit :=
  match r with
  | None => mret tt
  | Some (pid, wstatus) =>
      report ← handle_SIGCHLD pid wstatus;
      socket ← get d_communication_socket;
      socket ← initialised socket;
      send_message socket report
  end.

Definition handle_inotify (size : Z) (events : list inotify_event) : dm unit :=
  socket ← get d_communication_socket;
  socket ← initialised socket;
  handle_inotify_event events None size socket.

(** A turn: of the loop, with a ready entry and the kernel's answers, or with an
    [epoll_wait] that is interrupted; of the thread [i]; or of the handler of
    [SIGALRM]. *)
Inductive notification : Type :=
  | InotifyReady (fd size : Z) (events : list inotify_event)
  | SignalReady (fd : Z) (r : option (Z * Z))
  | MessageReady (fd : Z) (size_bytes body : bytes) (k : kernel)
  | ConnexionReady (fd accepted : Z) (taken : bool)
  | ExecveReady (fd pid : Z) (path : bytes) (n : Z)
  | Interrupted
  | DetectorTurn (i : nat) (nl_sock : Z) (dump : list inet_diag_msg)
  | Alarm.

Definition turn (n : notification) : dm unit :=
  match n with
  | InotifyReady fd size events => handle_inotify size events
  | SignalReady fd r => handle_signalfd_event r
  | MessageReady fd size_bytes body k => handle_message fd size_bytes body k
  | ConnexionReady fd accepted taken => handle_connexion accepted taken
  | ExecveReady fd pid path n => handle_execve fd pid path n
  | Interrupted => stop (Exited EXIT_FAILURE)
  | DetectorTurn i nl_sock dump => detector_thread i nl_sock dump
  | Alarm => timeout_handler
  end.

Fixpoint turns (ns : list notification) : dm unit :=
  match ns with [] => mret tt | n :: ns => _ ← turn n; turns ns end.

(** Where a turn comes from.  An alarm is set by a search, after its start; after a
    handler has run, [epoll_wait] may fail with [EINTR]. *)
Definition pending (n : notification) (d : daemon) : Prop :=
  match n with
  | InotifyReady fd size _ => INOTIFYFD fd size ∈ d_epoll d
  | SignalReady fd _ => SIGNALFD fd ∈ d_epoll d
  | MessageReady fd _ _ _ => SOCK_MESSAGE fd ∈ d_epoll d
  | ConnexionReady fd _ _ => SOCK_CONNEXION fd ∈ d_epoll d
  | ExecveReady fd pid path _ => EXECVE fd pid path ∈ d_epoll d
  | Interrupted => d_timeout d = true
  | DetectorTurn i _ _ => is_Some (d_detectors d !! i)
  | Alarm => exists dt, dt ∈ d_detectors d /\ dt_phase dt <> Starting
  end.

(** The state at the head of the loop. *)
Definition started (junk : nat -> process_info) (server_fd sfd : Z) : daemon :=
  mkDaemon (initial junk) None [SOCK_CONNEXION server_fd; INOTIFYFD inotifyFd 0; SIGNALFD sfd]
    [] [] false false [] [] [] [].
End loop.
