(* ===== verification/DaemonFacts.v ===== *)
(** * What the turns of the daemon's loop and of its threads do

    The functional behaviour of each handler, errors included. *)
From S2P Require Import Prelude Bytes Data ProcessManager Daemon.

(** ** Integers *)
Lemma to_int_small z : 0 <= z < 2 ^ 31 -> to_int z = z.
Proof. intros ?. unfold to_int. rewrite Z.mod_small; lia. Qed.

Lemma dm_bind_next {A B} (m : dm A) (f : A -> dm B) d a d' : m d = Next a d' -> (m ≫= f) d = f a d'.
Proof. intros H. unfold mbind, dm_bind. by rewrite H. Qed.

(** Evaluate what is known of a computation. *)
Ltac dstep := unfold mbind, dm_bind, mret, dm_ret, get, initialised, stop; cbn.

(** ** Requests *)

(** The acknowledgement of a watch, and what it asks of the kernel. *)
Definition acknowledgement (s : surveillance) : report :=
  match s with
  | SInotify root_paths _ _ => WatchListUpdated root_paths
  | SSocket destport => SocketWatched (to_int destport)
  end.

Definition watch_entries (k : kernel) (i : nat) (s : surveillance) : list event_data :=
  match s with
  | SInotify _ _ size =>
      if (0 <? size) && epoll_takes k (k_inotify_init k i)
      then [INOTIFYFD (k_inotify_init k i) (to_int size)] else []
  | SSocket _ => []
  end.

Definition watch_detectors (fd : Z) (k : kernel) (i : nat) (s : surveillance) : list detector :=
  match s with
  | SInotify _ _ _ => []
  | SSocket destport =>
      if k_pthread_create k i then [mkDetector (to_int destport) fd Starting None] else []
  end.

(** The state after a request was served, up to the watches of inotify. *)
Record served (d d' : daemon) (sent : list (Z * report)) (entries : list event_data)
    (detectors : list detector) (children : list Z) (table : tracking) : Prop := mkServed {
  sv_sent : d_sent d' = d_sent d ++ sent;
  sv_epoll : d_epoll d' = d_epoll d ++ entries;
  sv_detectors : d_detectors d' = d_detectors d ++ detectors;
  sv_children : d_children d' = d_children d ++ children;
  sv_table : d_table d' = table;
  sv_socket : d_communication_socket d' = d_communication_socket d;
  sv_kills : d_kills d' = d_kills d;
  sv_gone : d_gone d' = d_gone d;
  sv_found : d_found d' = d_found d;
  sv_timeout : d_timeout d' = d_timeout d
}.

Lemma served_refl d : served d d [] [] [] [] (d_table d).
Proof. by split; rewrite ?app_nil_r. Qed.

Lemma served_trans d d1 d2 s1 e1 t1 c1 s2 e2 t2 c2 tb1 tb2 :
  served d d1 s1 e1 t1 c1 tb1 -> served d1 d2 s2 e2 t2 c2 tb2 ->
  served d d2 (s1 ++ s2) (e1 ++ e2) (t1 ++ t2) (c1 ++ c2) tb2.
Proof.
  intros [S1 E1 D1 C1 T1 M1 K1 G1 F1 O1] [S2 E2 D2 C2 T2 M2 K2 G2 F2 O2].
  split; rewrite ?S2, ?S1, ?E2, ?E1, ?D2, ?D1, ?C2, ?C1, <- ?app_assoc; congruence.
Qed.

Lemma send_message_next socket r d :
  socket ∉ d_gone d -> send_message socket r d = Next tt (with_sent d (socket, r)).
Proof. intros H. unfold send_message. by rewrite decide_False. Qed.

Lemma send_served fd r d :
  fd ∉ d_gone d -> exists d', send_message fd r d = Next tt d' /\ served d d' [(fd, r)] [] [] [] (d_table d).
Proof. intros H. eexists. rewrite send_message_next by done. split; [done|]. by split; cbn; rewrite ?app_nil_r. Qed.

Lemma add_event_served k e d :
  exists d', add_event k e d = Next tt d' /\
    served d d' [] (if epoll_takes k (event_fd e) then [e] else []) [] [] (d_table d).
Proof.
  unfold add_event. destruct (epoll_takes k (event_fd e)); eexists; (split; [reflexivity|]);
    split; cbn; by rewrite ?app_nil_r.
Qed.

(** One computation after another. *)
Lemma served_seq {B} (m : dm unit) (f : dm B) d d1 s1 e1 t1 c1 tb1 b :
  m d = Next tt d1 -> served d d1 s1 e1 t1 c1 tb1 ->
  (exists d2 s2 e2 t2 c2 tb2, f d1 = Next b d2 /\ served d1 d2 s2 e2 t2 c2 tb2) ->
  exists d2 s2 e2 t2 c2 tb2, (_ ← m; f) d = Next b d2 /\
    served d d2 (s1 ++ s2) (e1 ++ e2) (t1 ++ t2) (c1 ++ c2) tb2.
Proof.
  intros Em Hm (d2 & s2 & e2 & t2 & c2 & tb2 & Ef & Hf). exists d2, s2, e2, t2, c2, tb2.
  rewrite (dm_bind_next _ _ _ _ _ Em). split; [done | by eapply served_trans].
Qed.

Lemma surveillance_served inotifyFd fd k i s d :
  fd ∉ d_gone d ->
  exists d', process_surveillance inotifyFd fd k i s d = Next tt d' /\
    served d d' [(fd, acknowledgement s)] (watch_entries k i s) (watch_detectors fd k i s) [] (d_table d).
Proof.
  intros Hg. destruct s as [root_paths mask size|destport]; unfold process_surveillance.
  - assert (exists d1, (if 0 <? size
                        then _ ← inotify_add_watch (k_inotify_init k i) root_paths mask;
                             add_event k (INOTIFYFD (k_inotify_init k i) (to_int size))
                        else inotify_add_watch inotifyFd root_paths mask) d = Next tt d1 /\
      served d d1 [] (watch_entries k i (SInotify root_paths mask size)) [] [] (d_table d)) as (d1 & E1 & H1).
    { unfold watch_entries. destruct (0 <? size); cbn [andb].
      - edestruct (add_event_served k (INOTIFYFD (k_inotify_init k i) (to_int size))) as (d1 & E & H).
        exists d1. split; [exact E|]. by destruct H; split.
      - eexists. split; [reflexivity|]. by split; cbn; rewrite ?app_nil_r. }
    destruct (send_served fd (WatchListUpdated root_paths) d1) as (d2 & E2 & H2).
    { by rewrite (sv_gone _ _ _ _ _ _ _ H1). }
    exists d2. rewrite (dm_bind_next _ _ _ _ _ E1). split; [done|].
    pose proof (served_trans _ _ _ _ _ _ _ _ _ _ _ _ _ H1 H2) as H. rewrite !app_nil_r in H.
    by rewrite (sv_table _ _ _ _ _ _ _ H1) in H.
  - rewrite (dm_bind_next _ _ _ _ _ (send_message_next fd (SocketWatched (to_int destport)) d Hg)).
    eexists. split; [reflexivity|]. cbn [watch_entries watch_detectors acknowledgement].
    destruct (k_pthread_create k i); split; cbn; by rewrite ?app_nil_r.
Qed.

Lemma each_served inotifyFd fd k ws i d :
  fd ∉ d_gone d ->
  exists d', each ws (process_surveillance inotifyFd fd k) i d = Next tt d' /\
    served d d' ((fun s => (fd, acknowledgement s)) <$> ws)
      (concat (imap (fun j => watch_entries k (i + j)) ws))
      (concat (imap (fun j => watch_detectors fd k (i + j)) ws)) [] (d_table d).
Proof.
  revert i d. induction ws as [|s ws IH]; intros i d Hg.
  - exists d. split; [done | apply served_refl].
  - destruct (surveillance_served inotifyFd fd k i s d Hg) as (d1 & E1 & H1).
    destruct (IH (S i) d1) as (d2 & E2 & H2); [by rewrite (sv_gone _ _ _ _ _ _ _ H1)|]. exists d2. split.
    + cbn [each]. by rewrite (dm_bind_next _ _ _ _ _ E1).
    + pose proof (served_trans _ _ _ _ _ _ _ _ _ _ _ _ _ H1 H2) as H.
      rewrite (sv_table _ _ _ _ _ _ _ H1) in H.
      cbn [fmap list_fmap imap concat]. rewrite Nat.add_0_r.
      erewrite (imap_ext (_ ∘ S)), (imap_ext ((fun j => watch_detectors fd k (i + j)) ∘ S)); [exact H|..];
        intros j x _; cbn; do 2 f_equal; lia.
Qed.

(** What the launch of a command comes to, as far as the kernel lets it: a child,
    an error, or the end of the daemon. *)
Definition launched_child (k : kernel) : option info_child :=
  stack ← k_stack k; pipe ← k_pipe k; pid ← k_clone k; Some (mkInfoChild stack pid pipe).

Definition with_launched (k : kernel) (d : daemon) : daemon :=
  match launched_child k with Some c => with_child d (ic_child_id c) | None => d end.

Lemma launch_process_child k d :
  k_stack k = None \/ is_Some (k_pipe k) ->
  launch_process k d = Next (launched_child k) (with_launched k d).
Proof.
  intros H. unfold launch_process, with_launched, launched_child. destruct (k_stack k); [|reflexivity].
  destruct H as [?|[p ->]]; [discriminate|]. by destruct (k_clone k).
Qed.

Definition err_file_of (k : kernel) : Z :=
  if k_err_file k =? -1 then STDOUT_FILENO else k_err_file k.

(** The entry for the outcome of its execve, when the set takes it. *)
Definition execve_entry (k : kernel) (c : info_child) (path : bytes) : list event_data :=
  if epoll_takes k (ic_pipe c) then [EXECVE (ic_pipe c) (ic_child_id c) path] else [].

Lemma command_request_served fd com k d arg args :
  c_args com = arg :: args -> k_stack k = None \/ is_Some (k_pipe k) -> fd ∉ d_gone d ->
  match launched_child k with
  | None =>
      exists d', process_command_request fd com k d = Next tt d' /\
        served d d' [(fd, ChildCreationError (to_uint32 (k_errno k)))] [] [] [] (d_table d)
  | Some c =>
      match track (ic_child_id c) (ic_stack_p c) (err_file_of k) (d_table d) with
      | None => process_command_request fd com k d = Halt (Undefined OutOfBounds) (with_launched k d)
      | Some t =>
          exists d', process_command_request fd com k d = Next tt d' /\
            served d d' [(fd, ProcessLaunched (ic_child_id c))] (execve_entry k c (c_path com)) []
              [ic_child_id c] t
      end
  end.
Proof.
  intros Ha Hk Hg. unfold process_command_request, extract_clone_parameters. rewrite Ha.
  rewrite (dm_bind_next _ _ _ _ _ (launch_process_child k d Hk)). unfold with_launched.
  destruct (launched_child k) as [c|]; [|exact (send_served fd _ d Hg)]. fold (err_file_of k).
  rewrite (dm_bind_next (get d_table) _ (with_child d (ic_child_id c)) (d_table d) _ eq_refl).
  destruct (track _ _ _ _) as [t|]; [|done].
  rewrite (dm_bind_next (set_table (Some t)) _ _ tt _ eq_refl).
  rewrite (dm_bind_next _ _ _ _ _ (send_message_next fd _ (with_table (with_child d (ic_child_id c)) t) Hg)).
  edestruct add_event_served as (d' & E & H). exists d'. split; [exact E|].
  unfold execve_entry. destruct H; split; rewrite ?app_nil_r in *; cbn in *; congruence.
Qed.

Lemma read_framed buf :
  0 <= blen buf < 2 ^ 31 -> read_socket_message (to_le 4 (blen buf)) buf = Some (buf, blen buf).
Proof.
  intros Hb. unfold read_socket_message. rewrite blen_to_le. change (Z.of_nat 4 =? 4) with true.
  assert (from_le (to_le 4 (blen buf)) = blen buf) as ->.
  { apply from_to_le_small. change (256 ^ Z.of_nat 4) with (2 ^ 32). lia. }
  cbn [negb]. rewrite to_int_small by lia. rewrite (proj2 (Z.ltb_ge _ _)) by lia.
  by rewrite Z.eqb_refl.
Qed.

Section handlers.
Context (rm : bytes -> Z -> Event) (rc : bytes -> Z -> option s_command) (rk : bytes -> Z -> option Z).
Context (destPort inotifyFd : Z).

(** What follows a command on the wire, to the point where it is decoded. *)
Lemma command_message fd buf com k d :
  0 < blen buf < 2 ^ 31 -> rm buf (blen buf) = RUN_COMMAND -> rc buf (blen buf) = Some com ->
  handle_message rm rc rk inotifyFd fd (to_le 4 (blen buf)) buf k d =
  handle_command inotifyFd fd (Some com) k d.
Proof.
  intros Hb Hm Hc. unfold handle_message. rewrite read_framed by lia.
  rewrite (proj2 (Z.eqb_neq (blen buf) 0)) by lia. by rewrite Hm, Hc.
Qed.

(** A served launch, followed by the watches of its command. *)
Lemma then_watches fd com k d d1 sent es cs t :
  fd ∉ d_gone d -> process_command_request fd com k d = Next tt d1 -> served d d1 [sent] es [] cs t ->
  exists d', handle_command inotifyFd fd (Some com) k d = Next tt d' /\
    served d d' (sent :: ((fun s => (fd, acknowledgement s)) <$> c_to_watch com))
      (es ++ concat (imap (watch_entries k) (c_to_watch com)))
      (concat (imap (watch_detectors fd k) (c_to_watch com))) cs t.
Proof.
  intros Hg E1 H1. destruct (each_served inotifyFd fd k (c_to_watch com) 0 d1) as (d2 & E2 & H2).
  { by rewrite (sv_gone _ _ _ _ _ _ _ H1). }
  exists d2. unfold handle_command. rewrite (dm_bind_next _ _ _ _ _ E1). split; [exact E2|].
  rewrite <- (app_nil_r cs), <- (sv_table _ _ _ _ _ _ _ H1).
  exact (served_trans _ _ _ _ _ _ _ _ _ _ _ _ _ H1 H2).
Qed.

Lemma launch_served fd com k d arg args c t :
  fd ∉ d_gone d -> c_args com = arg :: args -> launched_child k = Some c ->
  track (ic_child_id c) (ic_stack_p c) (err_file_of k) (d_table d) = Some t ->
  exists d', handle_command inotifyFd fd (Some com) k d = Next tt d' /\
    served d d' ((fd, ProcessLaunched (ic_child_id c)) ::
        ((fun s => (fd, acknowledgement s)) <$> c_to_watch com))
      (execve_entry k c (c_path com) ++ concat (imap (watch_entries k) (c_to_watch com)))
      (concat (imap (watch_detectors fd k) (c_to_watch com))) [ic_child_id c] t.
Proof.
  intros Hg Ha Hc Ht.
  assert (k_stack k = None \/ is_Some (k_pipe k)) as Hk.
  { revert Hc. unfold launched_child. destruct (k_stack k); [|by left].
    destruct (k_pipe k); [by right | done]. }
  pose proof (command_request_served fd com k d arg args Ha Hk Hg) as Hr. rewrite Hc, Ht in Hr.
  destruct Hr as (d1 & E1 & H1). by eapply then_watches.
Qed.

(** C21. A command with at least one argument, read from a connection that is there:
    the daemon launches the process, tracks it and announces what [clone] returned to
    that connection (or announces the error of the launch), then acknowledges every
    watch in order, to the same connection.  It waits for the outcome of the execve,
    and for the files with a size limit, when the epoll set takes their descriptors:
    a watch whose inotify instance could not be made is acknowledged and never
    reported.  It starts a search per socket.  A table that is overrun stops
    the daemon, and so does a pipe that cannot be made. *)
Theorem command_served fd buf com k d arg args :
  0 < blen buf < 2 ^ 31 -> rm buf (blen buf) = RUN_COMMAND -> rc buf (blen buf) = Some com ->
  c_args com = arg :: args -> fd ∉ d_gone d ->
  let serve := turn rm rc rk destPort inotifyFd (MessageReady fd (to_le 4 (blen buf)) buf k) d in
  let acks := (fun s => (fd, acknowledgement s)) <$> c_to_watch com in
  let entries := concat (imap (watch_entries k) (c_to_watch com)) in
  let detectors := concat (imap (watch_detectors fd k) (c_to_watch com)) in
  (k_stack k <> None -> k_pipe k = None -> serve = Halt (Exited 1) d) /\
  (k_stack k = None \/ is_Some (k_pipe k) ->
   match launched_child k with
   | None =>
       exists d', serve = Next tt d' /\
         served d d' ((fd, ChildCreationError (to_uint32 (k_errno k))) :: acks) entries detectors []
           (d_table d)
   | Some c =>
       match track (ic_child_id c) (ic_stack_p c) (err_file_of k) (d_table d) with
       | None => serve = Halt (Undefined OutOfBounds) (with_child d (ic_child_id c))
       | Some t =>
           exists d', serve = Next tt d' /\
             served d d' ((fd, ProcessLaunched (ic_child_id c)) :: acks)
               (execve_entry k c (c_path com) ++ entries) detectors [ic_child_id c] t
       end
   end) /\
  (forall i, k_inotify_init k i = -1 -> forall root_paths mask size,
     watch_entries k i (SInotify root_paths mask size) = []).
Proof.
  intros Hb Hm Hc Ha Hg serve acks entries detectors. unfold serve. cbn [turn].
  rewrite (command_message fd buf com k d Hb Hm Hc). split_and!.
  - intros Hs Hp. unfold handle_command, process_command_request, extract_clone_parameters. rewrite Ha.
    unfold launch_process. destruct (k_stack k); [|done]. by rewrite Hp.
  - intros Hk. pose proof (command_request_served fd com k d arg args Ha Hk Hg) as Hr.
    destruct (launched_child k) as [c|] eqn:El.
    + destruct (track _ _ _ _) as [t|] eqn:Ht; [by eapply launch_served|].
      unfold handle_command, mbind, dm_bind. rewrite Hr. unfold with_launched. by rewrite El.
    + destruct Hr as (d1 & E1 & H1). by eapply (then_watches fd com k d d1 _ []).
  - intros i Hi root_paths mask size. unfold watch_entries. rewrite Hi. by rewrite andb_false_r.
Qed.

(** ** What stops the daemon *)
Lemma read_socket_message_null size_bytes body :
  blen size_bytes <> 4 \/ from_le size_bytes >= 2 ^ 31 \/ blen body <> from_le size_bytes ->
  0 <= from_le size_bytes < 2 ^ 32 -> read_socket_message size_bytes body = None.
Proof.
  intros H Hr. unfold read_socket_message.
  destruct (blen size_bytes =? 4) eqn:E4; [|done]. apply Z.eqb_eq in E4. cbn [negb].
  destruct (decide (from_le size_bytes < 2 ^ 31)) as [Hs|Hs].
  - rewrite to_int_small by lia. destruct (from_le size_bytes <? 0); [done|].
    destruct (Z.eqb_spec (blen body) (from_le size_bytes)); [lia | done].
  - assert (to_int (from_le size_bytes) < 0) as ->%Z.ltb_lt; [|done].
    unfold to_int. rewrite <- (Z.mod_unique_pos _ (2 ^ 32) 1 (from_le size_bytes - 2 ^ 31)) by lia. lia.
Qed.

(** C36. What a client can do to the daemon, in any state: by closing its connection,
    or sending a size that is negative or a message that does not come whole in
    one read, make it dereference NULL; by a command without argument, make it
    read past the end of the arguments, before any acknowledgement; by a kill
    request for pid 0, signal its whole group and end with it.  Only a frame of size
    0 ends the connection. *)
Theorem daemon_stopped_by_client fd size_bytes body k d :
  let turn := turn rm rc rk destPort inotifyFd in
  0 <= from_le size_bytes < 2 ^ 32 ->
  (blen size_bytes <> 4 \/ from_le size_bytes >= 2 ^ 31 \/ blen body <> from_le size_bytes ->
   turn (MessageReady fd size_bytes body k) d = Halt (Undefined NullDereference) d) /\
  (size_bytes = to_le 4 (blen body) -> 0 < blen body < 2 ^ 31 ->
   (forall com, rm body (blen body) = RUN_COMMAND -> rc body (blen body) = Some com -> c_args com = [] ->
    turn (MessageReady fd size_bytes body k) d = Halt (Undefined OutOfBounds) d) /\
   (rm body (blen body) = KILL_PROCESS -> rk body (blen body) = Some 0 ->
    nb_process (d_table d) <= Z.of_nat (length (manager (d_table d))) ->
    turn (MessageReady fd size_bytes body k) d =
      Halt (Killed SIGTERM) (with_kill d (- k_getpgrp k, SIGTERM)))) /\
  turn (MessageReady fd (to_le 4 0) [] k) d = epoll_del fd d.
Proof.
  cbv zeta. intros Hr. split_and!.
  - intros H. cbn [turn]. unfold handle_message. by rewrite read_socket_message_null.
  - intros -> Hb. split.
    + intros com Hm Hc Ha. cbn [turn]. rewrite (command_message fd body com k d Hb Hm Hc).
      unfold handle_command, process_command_request, extract_clone_parameters. by rewrite Ha.
    + intros Hm Hk Ht. cbn [turn]. unfold handle_message. rewrite read_framed by lia.
      rewrite (proj2 (Z.eqb_neq (blen body) 0)), Hm by lia. unfold handle_kill. rewrite Hk. cbn.
      dstep. unfold free_manager. by rewrite (proj2 (Z.ltb_ge _ _)) by lia.
  - done.
Qed.

(** A dump leaves the state of its last message, and finds the port if a message has it. *)
Definition has_port (port : Z) (dump : list inet_diag_msg) : bool :=
  existsb (fun m => idiag_sport m =? port) dump.

Lemma dump_processed port dump acc :
  foldl (process_inet_diag port) acc dump =
  (match last dump with Some m => Some (state_of_diag m) | None => acc.1 end, acc.2 || has_port port dump).
Proof.
  revert acc. induction dump as [|m dump IH]; intros [s f]; [by rewrite orb_false_r|].
  cbn [foldl]. rewrite IH. cbn [process_inet_diag fst snd has_port existsb]. rewrite orb_assoc.
  destruct dump as [|m' dump]; [done|].
  change (last (m :: m' :: dump)) with (last (m' :: dump)).
  destruct (last (m' :: dump)) eqn:E; [done | by apply last_None in E].
Qed.

(** What a thread finds in the dump that ends its search: the state of the last
    socket of it, whichever that is. *)
Definition dump_state (dump : list inet_diag_msg) : option SocketState := state_of_diag <$> last dump.

Section detectors.
(** Thread [i], its socket still there. *)
Context (i : nat) (port socket nl_sock : Z).
#[local] Abbreviation turn := (turn rm rc rk destPort inotifyFd).
#[local] Abbreviation turns := (turns rm rc rk destPort inotifyFd).
#[local] Abbreviation thread p st := (mkDetector port socket p st).

Definition rounds_of (dumps : list (list inet_diag_msg)) : list notification :=
  DetectorTurn i nl_sock <$> dumps.

Lemma detector_turn d dt dump :
  d_detectors d !! i = Some dt -> dt_phase dt <> Reported ->
  turn (DetectorTurn i nl_sock dump) d = search_TCP_connection i dt nl_sock dump d.
Proof.
  intros Hi Hp. cbn [Daemon.turn]. unfold detector_thread. dstep. rewrite Hi.
  unfold mbind, dm_bind. destruct (search_TCP_connection i dt nl_sock dump d) as [[] d'|]; [|done].
  by destruct (dt_phase dt).
Qed.

Lemma detector_exits d st dump :
  d_detectors d !! i = Some (thread Reported st) -> turn (DetectorTurn i nl_sock dump) d = Halt (Exited 0) d.
Proof. intros Hi. cbn [Daemon.turn]. unfold detector_thread. dstep. by rewrite Hi. Qed.

(** The report and the exit, from a state in which the loop ends. *)
Lemma detector_reports d st state dump :
  d_detectors d !! i = Some (thread Searching st) -> d_found d || d_timeout d = true ->
  socket ∉ d_gone d -> (if d_found d then st else Some SOCKET_UNKNOWN) = Some state ->
  exists d', turn (DetectorTurn i nl_sock dump) d = Next tt d' /\
    d_sent d' = d_sent d ++ [(socket, SocketWatchTerminated port state)] /\
    d_detectors d' !! i = Some (thread Reported (Some state)).
Proof.
  intros Hi Hend Hg Hst. rewrite (detector_turn _ _ _ Hi) by done. cbn [search_TCP_connection dt_phase].
  dstep. rewrite <- negb_orb, Hend. cbn [negb]. unfold report_search. dstep. rewrite Hst. cbn [initialised].
  rewrite send_message_next by done. eexists. split; [reflexivity|]. split; [done|]. cbn.
  apply list_lookup_insert_eq. by eapply lookup_lt_Some.
Qed.

Lemma detector_round d st dump :
  d_detectors d !! i = Some (thread Searching st) -> d_found d = false -> d_timeout d = false ->
  exists d', turn (DetectorTurn i nl_sock dump) d = Next tt d' /\
    d_sent d' = d_sent d /\ d_gone d' = d_gone d /\ d_timeout d' = false /\ d_found d' = has_port port dump /\
    d_detectors d' !! i = Some (thread Searching (match dump_state dump with Some s => Some s | None => st end)).
Proof.
  intros Hi Hf Ht. rewrite (detector_turn _ _ _ Hi) by done. cbn [search_TCP_connection dt_phase].
  dstep. rewrite Hf, Ht. cbn [negb andb]. unfold search_round. dstep. rewrite Hf, dump_processed. cbn [fst snd orb].
  eexists. split; [reflexivity|]. split_and!; [done.. |]. cbn.
  rewrite list_lookup_insert_eq by by eapply lookup_lt_Some. unfold dump_state. by destruct (last dump).
Qed.

(** Rounds that do not find the port. *)
Lemma detector_rounds dumps d st :
  d_detectors d !! i = Some (thread Searching st) -> d_found d = false -> d_timeout d = false ->
  Forall (fun dump => has_port port dump = false) dumps ->
  exists d' st', turns (rounds_of dumps) d = Next tt d' /\
    d_sent d' = d_sent d /\ d_gone d' = d_gone d /\ d_timeout d' = false /\ d_found d' = false /\
    d_detectors d' !! i = Some (thread Searching st').
Proof.
  intros Hi Hf Ht HF. revert d st Hi Hf Ht. induction HF as [|dump dumps Hd _ IH]; intros d st Hi Hf Ht.
  - by exists d, st.
  - destruct (detector_round d st dump Hi Hf Ht) as (d1 & E1 & S1 & G1 & T1 & F1 & I1). rewrite Hd in F1.
    destruct (IH d1 _ I1 F1 T1) as (d2 & st2 & E2 & S2 & G2 & H2).
    exists d2, st2. split; [|by rewrite S2, G2]. cbn [rounds_of fmap list_fmap Daemon.turns].
    by rewrite (dm_bind_next _ _ _ _ _ E1).
Qed.

Lemma turns_snoc ns n d d1 :
  turns ns d = Next tt d1 -> turns (ns ++ n) d = turns n d1.
Proof.
  revert d. induction ns as [|m ns IH]; intros d H; [by injection H as <-|]. cbn [Daemon.turns app] in *.
  unfold mbind, dm_bind in *. destruct (turn m d) as [[] d0|]; [by apply IH | done].
Qed.

Lemma turn_alone n d : turns [n] d = turn n d.
Proof. cbn [Daemon.turns]. unfold mbind, dm_bind. by destruct (turn n d) as [[] ?|]. Qed.

Lemma detector_starts d :
  d_detectors d !! i = Some (thread Starting None) -> 0 <= nl_sock ->
  exists d', turn (DetectorTurn i nl_sock []) d = Next tt d' /\ d_sent d' = d_sent d /\ d_gone d' = d_gone d /\
    d_timeout d' = d_timeout d /\ d_found d' = d_found d /\
    d_detectors d' !! i = Some (thread Searching None).
Proof.
  intros Hi Hnl. rewrite (detector_turn _ _ _ Hi) by done. cbn [search_TCP_connection dt_phase].
  rewrite (proj2 (Z.ltb_ge nl_sock 0)) by lia. eexists. split; [reflexivity|]. split_and!; try done. cbn.
  apply list_lookup_insert_eq. by eapply lookup_lt_Some.
Qed.

(** The whole search of a thread that runs alone: [last_turns] is what ends its loop. *)
Lemma detector_alone d dumps last_turns state :
  d_detectors d !! i = Some (thread Starting None) -> d_found d = false -> d_timeout d = false ->
  0 <= nl_sock -> socket ∉ d_gone d -> Forall (fun dump => has_port port dump = false) dumps ->
  (forall d1 st1, d_sent d1 = d_sent d -> d_gone d1 = d_gone d -> d_timeout d1 = false -> d_found d1 = false ->
     d_detectors d1 !! i = Some (thread Searching st1) ->
     exists d2 st2, turns last_turns d1 = Next tt d2 /\ d_sent d2 = d_sent d1 /\ d_gone d2 = d_gone d1 /\
       d_found d2 || d_timeout d2 = true /\ (if d_found d2 then st2 else Some SOCKET_UNKNOWN) = Some state /\
       d_detectors d2 !! i = Some (thread Searching st2)) ->
  exists d', turns (DetectorTurn i nl_sock [] :: rounds_of dumps ++ last_turns ++
                    [DetectorTurn i nl_sock []; DetectorTurn i nl_sock []]) d = Halt (Exited 0) d' /\
    d_sent d' = d_sent d ++ [(socket, SocketWatchTerminated port state)].
Proof.
  intros Hi Hf Ht Hnl Hg HF Hlast.
  destruct (detector_starts d Hi Hnl) as (d1 & E1 & S1 & G1 & T1 & F1 & I1). rewrite Hf in F1. rewrite Ht in T1.
  destruct (detector_rounds dumps d1 None I1 F1 T1 HF) as (d2 & st2 & E2 & S2 & G2 & T2 & F2 & I2).
  destruct (Hlast d2 st2) as (d3 & st3 & E3 & S3 & G3 & End3 & State3 & I3); [congruence..|].
  destruct (detector_reports d3 st3 state [] I3 End3) as (d4 & E4 & S4 & I4); [congruence | done|].
  exists d4. cbn [Daemon.turns]. rewrite (dm_bind_next _ _ _ _ _ E1), (turns_snoc _ _ _ _ E2), (turns_snoc _ _ _ _ E3).
  cbn [Daemon.turns]. rewrite (dm_bind_next _ _ _ _ _ E4). split; [|congruence].
  unfold mbind, dm_bind. by rewrite (detector_exits d4 (Some state) [] I4).
Qed.

(** C38. The search for a socket, and what its threads share.  A thread that searches
    alone ends the whole daemon after its report, which gives the state of the last
    socket, any socket, of the first dump in which the port appears, and unknown when
    the alarm comes first.  But [found] and [timeout] are the same for all: once the
    search of any thread has ended, another ends without having seen its port, and
    reports the state its own last dump happened to end with, or reads one that it
    never set.  A netlink socket that cannot be made, and an [epoll_wait] that the
    alarm interrupts, exit the daemon without any report. *)
Theorem detector_ends_daemon d :
  (d_detectors d !! i = Some (thread Starting None) ->
   (d_found d = false -> d_timeout d = false -> 0 <= nl_sock -> socket ∉ d_gone d ->
    forall dumps, Forall (fun dump => has_port port dump = false) dumps ->
    let ended ns state := exists d',
      turns (DetectorTurn i nl_sock [] :: rounds_of dumps ++ ns ++
             [DetectorTurn i nl_sock []; DetectorTurn i nl_sock []]) d = Halt (Exited 0) d' /\
      d_sent d' = d_sent d ++ [(socket, SocketWatchTerminated port state)] in
    ended [Alarm] SOCKET_UNKNOWN /\
    (forall dump m, has_port port (dump ++ [m]) = true ->
       ended [DetectorTurn i nl_sock (dump ++ [m])] (state_of_diag m))) /\
   (nl_sock < 0 -> turn (DetectorTurn i nl_sock []) d = Halt (Exited 1) d)) /\
  (forall st dump, d_detectors d !! i = Some (thread Searching st) -> d_found d = true -> socket ∉ d_gone d ->
   match st with
   | Some state => exists d', turn (DetectorTurn i nl_sock dump) d = Next tt d' /\
       d_sent d' = d_sent d ++ [(socket, SocketWatchTerminated port state)]
   | None => turn (DetectorTurn i nl_sock dump) d = Halt (Undefined Uninitialised) d
   end) /\
  turns [Alarm; Interrupted] d = Halt (Exited EXIT_FAILURE) (with_globals d (d_found d) true).
Proof.
  split_and!.
  - intros Hi. split.
    + intros Hf Ht Hnl Hg dumps HF ended. split.
      * eapply detector_alone; try done. intros d1 st1 S1 G1 T1 F1 I1. exists (with_globals d1 (d_found d1) true), st1.
        split; [done|]. cbn. rewrite F1. by split_and!.
      * intros dump m Hp. eapply detector_alone; try done. intros d1 st1 S1 G1 T1 F1 I1.
        destruct (detector_round d1 st1 (dump ++ [m]) I1 F1 T1) as (d2 & E2 & S2 & G2 & T2 & F2 & I2).
        exists d2. eexists. rewrite turn_alone. split; [exact E2|]. rewrite F2, Hp.
        split_and!; [done | done | done | | exact I2]. unfold dump_state. by rewrite last_snoc.
    + intros Hnl. rewrite (detector_turn _ _ _ Hi) by done. cbn [search_TCP_connection dt_phase].
      by rewrite (proj2 (Z.ltb_lt nl_sock 0)).
  - intros st dump Hi Hf Hg. destruct st as [state|].
    + destruct (detector_reports d (Some state) state dump Hi) as (d' & E & S & _); [by rewrite Hf | done | by rewrite Hf |].
      by exists d'.
    + rewrite (detector_turn _ _ _ Hi) by done. cbn [search_TCP_connection dt_phase].
      dstep. rewrite Hf. cbn [negb andb]. unfold report_search. dstep. by rewrite Hf.
  - done.
Qed.
End detectors.

(** ** The reports *)

(** The macros, as arithmetic. *)
Lemma WTERMSIG_mod z : WTERMSIG z = z mod 128.
Proof. apply (Z.land_ones z 7). lia. Qed.

Lemma WEXITSTATUS_div z : WEXITSTATUS z = (z / 256) mod 256.
Proof.
  unfold WEXITSTATUS. rewrite Z.shiftr_land. change (Z.shiftr 0xff00 8) with (Z.ones 8).
  by rewrite Z.land_ones, Z.shiftr_div_pow2.
Qed.

Lemma exit_status_bounds wstatus status :
  exit_status wstatus = Some status -> 0 <= status < 256 /\ to_uint32 status = status.
Proof.
  intros H. assert (0 <= status < 256) as Hb; [|split; [done | apply Z.mod_small; lia]].
  revert H. unfold exit_status, WIFEXITED, WIFSIGNALED. rewrite WTERMSIG_mod, WEXITSTATUS_div.
  pose proof (Z.mod_pos_bound wstatus 128). pose proof (Z.mod_pos_bound (wstatus / 256) 256).
  destruct (_ =? 0); [intros [= <-]; lia|]. destruct (_ && _); [intros [= <-]; lia | done].
Qed.

(** The status reported for a child, for any value of [waitpid]: it is between
    0 and 255; for an exit it is the exit code, for a death by a signal it is the
    number of the signal, so that the two cannot be told apart. *)
Lemma reported_status_bounds wstatus status :
  exit_status wstatus = Some status ->
  0 <= status < 256 /\ to_uint32 status = status /\
  (forall code, 0 <= code < 256 -> exit_status (code * 256) = Some code) /\
  (forall sig, 0 < sig < 127 -> exit_status sig = Some sig /\ exit_status (sig + 128) = Some sig) /\
  (0 < status < 127 -> exit_status (status * 256) = exit_status status).
Proof.
  assert (forall code, 0 <= code < 256 -> exit_status (code * 256) = Some code) as Hcode.
  { intros code Hc. unfold exit_status, WIFEXITED. rewrite WTERMSIG_mod, WEXITSTATUS_div.
    replace (code * 256) with (code * 2 * 128) at 1 by lia. rewrite Z.mod_mul by lia. cbn.
    rewrite Z.div_mul, Z.mod_small by lia. done. }
  assert (forall sig core, 0 < sig < 127 -> core = 0 \/ core = 128 ->
            exit_status (sig + core) = Some sig) as Hsig.
  { intros sig core Hs Hcore. unfold exit_status, WIFEXITED, WIFSIGNALED. rewrite WTERMSIG_mod.
    replace ((sig + core) mod 128) with sig
      by (destruct Hcore as [->| ->]; rewrite <- (Z.mod_small sig 128) at 1 by lia;
          [by rewrite Z.add_0_r | by rewrite <- (Z.mod_add sig 1 128)]).
    rewrite (proj2 (Z.eqb_neq _ _)) by lia. rewrite !(proj2 (Z.ltb_lt _ _)) by lia. done. }
  intros [Hb Hu]%exit_status_bounds.
  split_and!; [lia | lia | exact Hu | exact Hcode | |].
  - intros sig Hs. split; [rewrite <- (Z.add_0_r sig) at 1|]; apply Hsig; lia.
  - intros Hs. rewrite Hcode by lia. rewrite <- (Z.add_0_r status) at 2. rewrite Hsig; [done | lia | lia].
Qed.

(** What is reported of a modified file, for a limit: a size that [stat] gives
    and that is over it is a size reached, another a modification; and when [stat]
    fails, as it does for a name relative to a watched directory, it is a size
    reached, of 2^32-1 bytes. *)
Lemma modification_reported e size socket d :
  has_mask e IN_MODIFY = true -> 0 <= size < 2 ^ 31 -> socket ∉ d_gone d ->
  let reported event found := exists d',
    handle_inotify_event [e] None size socket d = Next tt d' /\
    d_sent d' = d_sent d ++ [(socket, PathUpdated (i_name e) event found size)] in
  match i_stat e with
  | Some st_size => 0 <= st_size < 2 ^ 31 ->
      reported (if size <? st_size then SIZE_REACHED else MODIFIED) st_size
  | None => reported SIZE_REACHED (2 ^ 32 - 1)
  end.
Proof.
  intros Hm Hs Hg. cbn zeta. unfold handle_inotify_event, process_Event. rewrite Hm.
  assert (to_uint32 size = size) as -> by (apply Z.mod_small; lia).
  destruct (i_stat e) as [st_size|]; cbn [findSize].
  - intros Ht. rewrite (to_int_small st_size) by done.
    assert (to_uint32 st_size = st_size) as -> by (apply Z.mod_small; lia).
    destruct (size <? st_size); dstep; rewrite send_message_next by done; by eexists.
  - change (to_uint32 (-1)) with (2 ^ 32 - 1). rewrite (proj2 (Z.ltb_lt _ _)) by lia.
    dstep. rewrite send_message_next by done. by eexists.
Qed.

(** A connection that is accepted, and greeted. *)
Lemma connexion_accepted server fd d :
  0 <= fd -> fd ∉ d_gone d ->
  exists d', turn rm rc rk destPort inotifyFd (ConnexionReady server fd true) d = Next tt d' /\
    d_sent d' = d_sent d ++ [(fd, TCPSocketListening (to_uint16 destPort))] /\
    d_communication_socket d' = Some fd /\ d_table d' = d_table d /\ d_gone d' = d_gone d /\
    d_kills d' = d_kills d /\ d_epoll d' = d_epoll d ++ [SOCK_MESSAGE fd].
Proof.
  intros Hfd Hg. cbn [turn]. unfold handle_connexion. rewrite (proj2 (Z.ltb_ge fd 0)) by lia. cbn [negb].
  dstep. rewrite send_message_next by done. eexists. split; [reflexivity|]. done.
Qed.

(** A child that is reaped, and reported to the connection accepted last. *)
Lemma end_served sfd fd pid wstatus status d t :
  d_communication_socket d = Some fd -> fd ∉ d_gone d -> untrack pid (d_table d) = Some t ->
  exit_status wstatus = Some status ->
  exists d', turn rm rc rk destPort inotifyFd (SignalReady sfd (Some (pid, wstatus))) d = Next tt d' /\
    d_sent d' = d_sent d ++ [(fd, ProcessTerminated pid status)] /\ d_table d' = t /\
    d_epoll d' = d_epoll d /\ d_kills d' = d_kills d.
Proof.
  intros Hs Hg Hu Hst. cbn [turn]. unfold handle_signalfd_event, handle_SIGCHLD. rewrite Hst. dstep.
  unfold set_table. rewrite Hu. cbn. rewrite Hs. cbn. rewrite send_message_next by done.
  rewrite (proj2 (exit_status_bounds _ _ Hst)). by eexists.
Qed.

(** The end of a process is reported to the connection accepted last, whichever
    connection asked for the process: after another client has connected, the
    one that launched it is not told. *)
Lemma reports_go_to_last_client server sfd fd pid wstatus status d t :
  0 <= fd -> fd ∉ d_gone d -> exit_status wstatus = Some status -> untrack pid (d_table d) = Some t ->
  exists d', turns rm rc rk destPort inotifyFd
      [ConnexionReady server fd true; SignalReady sfd (Some (pid, wstatus))] d = Next tt d' /\
    d_sent d' = d_sent d ++ [(fd, TCPSocketListening (to_uint16 destPort));
                             (fd, ProcessTerminated pid (to_uint32 status))].
Proof.
  intros Hfd Hg Hst Ht. destruct (connexion_accepted server fd d Hfd Hg) as (d1 & E1 & S1 & C1 & T1 & G1 & _).
  cbn [turns]. rewrite (dm_bind_next _ _ _ _ _ E1).
  destruct (end_served sfd fd pid wstatus status d1 t) as (d2 & E2 & S2 & _); [congruence..|].
  exists d2. rewrite (dm_bind_next _ _ _ _ _ E2). split; [done|].
  rewrite S2, S1, <- app_assoc. by rewrite (proj2 (exit_status_bounds _ _ Hst)).
Qed.

(** What [waitpid] stores for an exit, and for a death by a signal, with or without a
    core. *)
Definition exited (code : Z) : Z := code * 256.
Definition signalled (signal : Z) (core : bool) : Z := signal + (if core then 128 else 0).

(** C40. The end of a process, for any value that [waitpid] stores: one report, of that
    process, with a code between 0 and 255, and the table becomes what its removal
    makes of it ([manager_limits] says when that loses a slot).  The code is the one of the exit, or the number of the signal, with or without a core, so that
    an exit and a death by a signal can have the same report; of a process that has not
    ended, the code is read before anything was stored in it. *)
Theorem end_reported sfd fd pid wstatus d t :
  d_communication_socket d = Some fd -> fd ∉ d_gone d -> untrack pid (d_table d) = Some t ->
  let reported wstatus status := exists d',
    turn rm rc rk destPort inotifyFd (SignalReady sfd (Some (pid, wstatus))) d = Next tt d' /\
    d_sent d' = d_sent d ++ [(fd, ProcessTerminated pid status)] /\ d_table d' = t /\
    d_epoll d' = d_epoll d /\ d_kills d' = d_kills d in
  (forall status, exit_status wstatus = Some status -> 0 <= status < 256 /\ reported wstatus status) /\
  (exit_status wstatus = None ->
   turn rm rc rk destPort inotifyFd (SignalReady sfd (Some (pid, wstatus))) d = Halt (Undefined Uninitialised) d) /\
  (forall code, 0 <= code < 256 -> reported (exited code) code) /\
  (forall signal core, 0 < signal < 127 -> reported (signalled signal core) signal).
Proof.
  intros Hs Hg Ht reported.
  assert (forall w status, exit_status w = Some status -> reported w status) as Hreport.
  { intros w status Hst. by destruct (end_served sfd fd pid w status d t Hs Hg Ht Hst) as (d' & ?); exists d'. }
  split_and!.
  - intros status Hst. split; [by apply (exit_status_bounds wstatus) | by apply Hreport].
  - intros Hnone. cbn [turn]. unfold handle_signalfd_event, handle_SIGCHLD. dstep. by rewrite Hnone.
  - intros code Hc. apply Hreport. by apply (reported_status_bounds 0 0).
  - intros signal core Hsig. apply Hreport. unfold signalled. destruct core; [|rewrite Z.add_0_r];
      by apply (reported_status_bounds 0 0).
Qed.
End handlers.

(** ** At concrete inputs

    A client asks for two processes. *)
Section witnesses.
Definition demo_command : s_command :=
  mkSCommand [x2f] [[x6c]; [x6c]] [] 0 4096 [SInotify [x2f] 2 128; SSocket 8080].
Definition demo_kernel (pid : Z) : kernel :=
  mkKernel 5 (Some 8192) (Some (pid + 1)) (Some pid) 0 (fun _ => 9) (fun _ => true) (fun _ => true) 60.
Definition demo_rm (_ : bytes) (_ : Z) : Event := RUN_COMMAND.
Definition demo_rc (_ : bytes) (_ : Z) : option s_command := Some demo_command.
Definition demo_rk (_ : bytes) (_ : Z) : option Z := Some 0.

Definition demo_turn (n : notification) (d : daemon) : daemon :=
  match turn demo_rm demo_rc demo_rk 9090 4 n d with Next _ d' | Halt _ d' => d' end.
Definition demo_request (pid : Z) : notification := MessageReady 7 (to_le 4 1) [x01] (demo_kernel pid).

Definition demo0 : daemon := started 4 junk 3 6.
Definition demo1 : daemon := demo_turn (ConnexionReady 3 7 true) demo0.
Definition demo2 : daemon := demo_turn (demo_request 100) demo1.
Definition demo3 : daemon := demo_turn (demo_request 200) demo2.

(** The inotify instance of the watch cannot be made. *)
Definition no_inotify (k : kernel) : kernel :=
  mkKernel (k_err_file k) (k_stack k) (k_pipe k) (k_clone k) (k_errno k) (fun _ => -1) (k_pthread_create k)
    (k_epoll_ctl k) (k_getpgrp k).

Lemma command_served_witness :
  exists d', turn demo_rm demo_rc demo_rk 9090 4
      (MessageReady 7 (to_le 4 1) [x01] (no_inotify (demo_kernel 100))) demo1 = Next tt d' /\
    d_sent d' = d_sent demo1 ++ [(7, ProcessLaunched 100); (7, WatchListUpdated [x2f]); (7, SocketWatched 8080)] /\
    d_epoll d' = d_epoll demo1 ++ [EXECVE 101 100 [x2f]] /\
    d_detectors d' = [mkDetector 8080 7 Starting None] /\ d_children d' = [100].
Proof.
  destruct (command_served demo_rm demo_rc demo_rk 9090 4 7 [x01] demo_command (no_inotify (demo_kernel 100)) demo1
              [x6c] [[x6c]] ltac:(vm_compute; split; reflexivity) eq_refl eq_refl eq_refl
              ltac:(by apply not_elem_of_nil)) as (_ & H & _).
  specialize (H ltac:(right; eexists; reflexivity)).
  change (launched_child _) with (Some (mkInfoChild 8192 100 101)) in H. cbv iota in H.
  destruct (track _ _ _ _) as [t|] eqn:Ht in H; [|vm_compute in Ht; discriminate].
  destruct H as (d' & E & []). exists d'. split_and!; assumption.
Defined.

Lemma daemon_stopped_by_client_witness :
  turn demo_rm demo_rc demo_rk 9090 4 (MessageReady 7 [] [] (demo_kernel 1)) demo3 =
  Halt (Undefined NullDereference) demo3.
Proof.
  apply (daemon_stopped_by_client demo_rm demo_rc demo_rk 9090 4 7 [] [] (demo_kernel 1) demo3).
  - split; [discriminate | reflexivity].
  - left. discriminate.
Defined.

(** The port is in the second dump. *)
Lemma detector_ends_daemon_witness :
  exists d', turns demo_rm demo_rc demo_rk 9090 4
      [DetectorTurn 0 5 []; DetectorTurn 0 5 [mkDiag 1 22];
       DetectorTurn 0 5 [mkDiag 1 8080; mkDiag 10 22];
       DetectorTurn 0 5 []; DetectorTurn 0 5 []] demo3 = Halt (Exited 0) d' /\
    d_sent d' = d_sent demo3 ++ [(7, SocketWatchTerminated 8080 SOCKET_LISTENING)].
Proof.
  destruct (detector_ends_daemon demo_rm demo_rc demo_rk 9090 4 0 8080 7 5 demo3) as [H _].
  destruct (H ltac:(vm_compute; reflexivity)) as [H1 _].
  destruct (H1 ltac:(vm_compute; reflexivity) ltac:(vm_compute; reflexivity) ltac:(lia)
              ltac:(by apply not_elem_of_nil) [[mkDiag 1 22]] ltac:(by repeat constructor)) as [_ H2].
  exact (H2 [mkDiag 1 8080] (mkDiag 10 22) eq_refl).
Defined.

Lemma end_reported_witness :
  exists d', turn demo_rm demo_rc demo_rk 9090 4 (SignalReady 6 (Some (100, 9))) demo3 = Next tt d' /\
    d_sent d' = d_sent demo3 ++ [(7, ProcessTerminated 100 9)].
Proof.
  destruct (untrack 100 (d_table demo3)) as [t|] eqn:Ht; [|vm_compute in Ht; discriminate].
  destruct (end_reported demo_rm demo_rc demo_rk 9090 4 6 7 100 9 demo3 t
              ltac:(vm_compute; reflexivity) ltac:(by apply not_elem_of_nil) Ht) as (_ & _ & _ & H).
  destruct (H 9 false ltac:(lia)) as (d' & E & S & _). exists d'. split; [exact E | exact S].
Defined.

(** [exit(9)] and [SIGKILL]. *)
Lemma reported_status_bounds_witness : exit_status 2304 = Some 9 /\ exit_status 2304 = exit_status 9.
Proof.
  split; [reflexivity|].
  destruct (reported_status_bounds 2304 9) as (_ & _ & _ & _ & H); [reflexivity | apply H; lia].
Defined.

Lemma modification_reported_witness :
  exists d', handle_inotify_event [mkInotifyEvent 2 [x66] None] None 128 7 demo3 = Next tt d' /\
    d_sent d' = d_sent demo3 ++ [(7, PathUpdated [x66] SIZE_REACHED (2 ^ 32 - 1) 128)].
Proof.
  exact (modification_reported (mkInotifyEvent 2 [x66] None) 128 7 demo3 eq_refl ltac:(lia) ltac:(by apply not_elem_of_nil)).
Defined.

Lemma reports_go_to_last_client_witness :
  exists d', turns demo_rm demo_rc demo_rk 9090 4
      [ConnexionReady 3 8 true; SignalReady 6 (Some (100, 0))] demo3 = Next tt d' /\
    d_sent d' = d_sent demo3 ++ [(8, TCPSocketListening 9090); (8, ProcessTerminated 100 0)].
Proof.
  destruct (untrack 100 (d_table demo3)) as [t|] eqn:Ht; [|vm_compute in Ht; discriminate].
  exact (reports_go_to_last_client demo_rm demo_rc demo_rk 9090 4 3 6 8 100 0 0 demo3 t
           ltac:(lia) ltac:(by apply not_elem_of_nil) eq_refl Ht).
Defined.
End witnesses.
