(* ===== verification/World.v ===== *)
(** * The daemon and the children it launches

    The loop of the daemon composed with what the kernel does to its children, as
    a step relation: a child dies, a peer goes, or the loop or a thread takes a turn.  The kernel holds at
    most one pending [SIGCHLD], that of the first child that died since the last
    one was read; [waitpid] reaps that child only.  The children are those that
    [clone] made, whatever the daemon says of them. *)
From S2P Require Import Prelude Bytes Data ProcessManager Daemon DaemonFacts.

(** ** The reports, as a history *)
Definition launched_pid (sr : Z * report) : option Z :=
  match sr.2 with ProcessLaunched pid => Some pid | _ => None end.
Definition ended_pid (sr : Z * report) : option Z :=
  match sr.2 with ProcessTerminated pid _ => Some pid | _ => None end.
Definition launched_pids (sent : list (Z * report)) : list Z := omap launched_pid sent.
Definition ended_pids (sent : list (Z * report)) : list Z := omap ended_pid sent.

Lemma launched_pids_app s s' : launched_pids (s ++ s') = launched_pids s ++ launched_pids s'.
Proof. apply omap_app. Qed.
Lemma ended_pids_app s s' : ended_pids (s ++ s') = ended_pids s ++ ended_pids s'.
Proof. apply omap_app. Qed.

(** What a computation of the daemon adds to the history: reports that satisfy
    [P], the children it announces, and entries for their execve. *)
Definition adds (P : report -> Prop) {A} (m : dm A) : Prop := forall d a d', m d = Next a d' ->
  exists new, d_sent d' = d_sent d ++ new /\ Forall (fun sr => P sr.2) new /\
    d_children d' = d_children d ++ launched_pids new /\
    forall fd pid path, EXECVE fd pid path ∈ d_epoll d' ->
      EXECVE fd pid path ∈ d_epoll d \/ pid ∈ launched_pids new.

Section adds.
Context (P : report -> Prop).

Lemma adds_none {A} (m : dm A) :
  (forall d a d', m d = Next a d' -> d_sent d' = d_sent d /\ d_children d' = d_children d /\
     forall fd pid path, EXECVE fd pid path ∈ d_epoll d' -> EXECVE fd pid path ∈ d_epoll d) ->
  adds P m.
Proof.
  intros Hm d a d' H. destruct (Hm d a d' H) as (Hs & Hc & He). exists [].
  rewrite !app_nil_r. split_and!; [done | constructor | done | eauto].
Qed.

Lemma adds_bind {A B} (m : dm A) (f : A -> dm B) :
  adds P m -> (forall a, adds P (f a)) -> adds P (m ≫= f).
Proof.
  intros Hm Hf d b d' H. unfold mbind, dm_bind in H. destruct (m d) as [a d1|] eqn:E; [|done].
  destruct (Hm d a d1 E) as (new & S1 & P1 & C1 & E1). destruct (Hf a d1 b d' H) as (new' & S2 & P2 & C2 & E2).
  exists (new ++ new'). rewrite S2, S1, C2, C1, launched_pids_app, !app_assoc.
  split_and!; [done | by apply Forall_app | done |].
  intros fd pid path Hin. rewrite elem_of_app.
  destruct (E2 _ _ _ Hin) as [Hin1|?]; [|by right; right].
  destruct (E1 _ _ _ Hin1); [by left | by right; left].
Qed.

(** A report that announces no launch. *)
Lemma adds_send socket r : P r -> launched_pid (socket, r) = None -> adds P (send_message socket r).
Proof.
  intros Hr Hl d [] d'. unfold send_message. destruct (decide _); [done|]. intros [= <-].
  exists [(socket, r)]. split_and!; [done | by constructor | | by left].
  unfold launched_pids. cbn [omap list_omap]. rewrite Hl. cbn. by rewrite app_nil_r.
Qed.

Lemma adds_ret {A} (a : A) : adds P (mret a).
Proof. apply adds_none. by intros d a' d' [= <- <-]. Qed.
Lemma adds_stop {A} h : adds P (@stop A h).
Proof. done. Qed.
Lemma adds_get {A} (f : daemon -> A) : adds P (get f).
Proof. apply adds_none. by intros d a' d' [= <- <-]. Qed.
Lemma adds_initialised {A} (v : option A) : adds P (initialised v).
Proof. apply adds_none. intros d a' d' H. unfold initialised in H. destruct v; [|done]. by injection H as <- <-. Qed.
Lemma adds_set_table t : adds P (set_table t).
Proof. apply adds_none. intros d a' d' H. unfold set_table in H. destruct t; [|done]. by injection H as <- <-. Qed.
Lemma adds_set_communication_socket fd : adds P (set_communication_socket fd).
Proof. apply adds_none. by intros d a' d' [= <- <-]. Qed.
Lemma adds_watch fd path mask : adds P (inotify_add_watch fd path mask).
Proof. apply adds_none. by intros d a' d' [= <- <-]. Qed.
Lemma adds_detect created port socket : adds P (detect_socket created port socket).
Proof. apply adds_none. intros d a' d' [= <- <-]. by destruct created. Qed.
Lemma adds_set_detector i dt : adds P (set_detector i dt).
Proof. apply adds_none. by intros d a' d' [= <- <-]. Qed.
Lemma adds_set_found found : adds P (set_found found).
Proof. apply adds_none. by intros d a' d' [= <- <-]. Qed.
Lemma adds_timeout : adds P timeout_handler.
Proof. apply adds_none. by intros d a' d' [= <- <-]. Qed.
Lemma adds_kill pid signal : adds P (kill pid signal).
Proof. apply adds_none. by intros d a' d' [= <- <-]. Qed.

Lemma adds_epoll_add e :
  (forall fd pid path, e <> EXECVE fd pid path) -> adds P (epoll_add e).
Proof.
  intros He. apply adds_none. intros d a' d' [= <- <-]. split_and!; [done..|].
  intros fd pid path [?|E%list_elem_of_singleton]%elem_of_app; [done|]. by destruct (He fd pid path).
Qed.

Lemma adds_epoll_del fd : adds P (epoll_del fd).
Proof.
  apply adds_none. intros d a' d' [= <- <-]. split_and!; [done..|].
  intros fd' pid path Hin. apply list_elem_of_In in Hin. apply filter_In in Hin as [Hin _].
  by apply list_elem_of_In.
Qed.

Lemma adds_event k e :
  (forall fd pid path, e <> EXECVE fd pid path) -> adds P (add_event k e).
Proof. intros He. unfold add_event. destruct (epoll_takes _ _); [by apply adds_epoll_add | apply adds_ret]. Qed.

Lemma adds_each {A} (l : list A) body i :
  (forall i a, adds P (body i a)) -> adds P (each l body i).
Proof.
  intros Hb. revert i. induction l as [|a l IH]; intros i; cbn [each]; [apply adds_ret|].
  apply adds_bind; [apply Hb | intros _; apply IH].
Qed.
End adds.

Create HintDb adds.
#[export] Hint Resolve adds_ret adds_stop adds_get adds_initialised adds_set_table
  adds_set_communication_socket adds_watch adds_detect adds_kill adds_epoll_add adds_epoll_del
  adds_event adds_send adds_set_detector adds_set_found adds_timeout : adds.

(** Follow the structure of a computation. *)
Ltac adds_steps :=
  repeat first [ apply adds_bind; [|intros ?] | progress case_match | progress cbv zeta ];
  eauto with adds.

(** Reports that start or end nothing, and those that end nothing. *)
Definition quiet (r : report) : Prop :=
  match r with ProcessLaunched _ | ProcessTerminated _ _ | ExecveTerminated _ _ _ => False | _ => True end.
Definition no_end (r : report) : Prop :=
  match r with ProcessTerminated _ _ | ExecveTerminated _ _ _ => False | _ => True end.

Lemma no_end_ends new : Forall (fun sr => no_end sr.2) new -> ended_pids new = [].
Proof. induction 1 as [|[s []] new Hq _ IH]; cbn in *; done. Qed.

Section world.
Context (rm : bytes -> Z -> Event) (rc : bytes -> Z -> option s_command) (rk : bytes -> Z -> option Z).
Context (destPort inotifyFd : Z).
#[local] Abbreviation turn := (turn rm rc rk destPort inotifyFd).

(** ** What each turn adds *)

(** The child that [clone] made is the one announced. *)
Lemma adds_command_request fd com k : adds no_end (process_command_request fd com k).
Proof.
  intros d [] d' H. destruct (c_args com) as [|arg args] eqn:Ha.
  { unfold process_command_request, extract_clone_parameters in H. by rewrite Ha in H. }
  assert (fd ∈ d_gone d \/ fd ∉ d_gone d) as [Hg|Hg] by (destruct (decide (fd ∈ d_gone d)); tauto).
  { exfalso. revert H. unfold process_command_request, extract_clone_parameters, launch_process, send_message.
    rewrite Ha. destruct (k_stack k); [destruct (k_pipe k); [destruct (k_clone k)|]|];
      unfold made_child, set_table; dstep; try (destruct (track _ _ _ _); dstep); by rewrite ?decide_True. }
  assert (k_stack k = None \/ is_Some (k_pipe k)) as Hk.
  { unfold process_command_request, extract_clone_parameters in H. rewrite Ha in H. revert H.
    unfold launch_process. dstep. destruct (k_stack k); [|by left]. destruct (k_pipe k); [by right | done]. }
  pose proof (command_request_served fd com k d arg args Ha Hk Hg) as Hr.
  destruct (launched_child k) as [c|].
  - destruct (track _ _ _ _) as [t|]; [|congruence]. destruct Hr as (d1 & E & []). rewrite H in E. injection E as <-.
    exists [(fd, ProcessLaunched (ic_child_id c))]. split_and!; [done | by constructor | done |].
    intros fd' pid path. rewrite sv_epoll, elem_of_app. unfold execve_entry.
    destruct (epoll_takes k (ic_pipe c)); [|intros [?|[]%not_elem_of_nil]; by left].
    intros [?|E%list_elem_of_singleton]; [by left|]. injection E as -> -> ->. right. left.
  - destruct Hr as (d1 & E & []). rewrite H in E. injection E as <-.
    exists [(fd, ChildCreationError (to_uint32 (k_errno k)))]. split_and!; [done | by constructor | done |].
    intros fd' pid path. rewrite sv_epoll, app_nil_r. by left.
Qed.

Lemma adds_surveillance (P : report -> Prop) fd com k :
  (forall r, quiet r -> P r) -> adds P (process_surveillance_requests com inotifyFd fd k).
Proof.
  intros HP. apply adds_each. intros i [root_paths mask size|destport]; unfold process_surveillance.
  - apply adds_bind; [|intros _; by apply adds_send; [apply HP|]]. destruct (0 <? size); adds_steps; done.
  - apply adds_bind; [by apply adds_send; [apply HP|] | intros _; apply adds_detect].
Qed.

Lemma adds_message fd size_bytes body k : adds no_end (handle_message rm rc rk inotifyFd fd size_bytes body k).
Proof.
  unfold handle_message, handle_command, handle_kill.
  destruct (read_socket_message size_bytes body) as [[buffer size]|]; [|apply adds_stop].
  destruct (size =? 0); [apply adds_epoll_del|].
  destruct (rm buffer size); try apply adds_ret.
  - destruct (rc buffer size) as [com|]; [|apply adds_stop].
    apply adds_bind; [apply adds_command_request | intros _; apply adds_surveillance]. by intros [].
  - destruct (rk buffer size) as [pid|]; [|apply adds_stop].
    destruct (0 <? _); [apply adds_kill|]. destruct (_ =? 0); [|apply adds_ret].
    apply adds_bind; [apply adds_get | intros t]. destruct (free_manager _ _); [|apply adds_stop].
    apply adds_bind; [apply adds_kill | intros _; apply adds_stop].
Qed.

(** A turn of a thread: at most the end of its watch. *)
Lemma adds_detector_thread i nl_sock dump : adds quiet (detector_thread i nl_sock dump).
Proof.
  unfold detector_thread. apply adds_bind; [apply adds_get | intros dts]. destruct (dts !! i) as [dt|]; [|apply adds_ret].
  apply adds_bind; [|intros _; destruct (dt_phase dt); auto with adds].
  unfold search_TCP_connection. destruct (dt_phase dt); [adds_steps | | apply adds_ret].
  apply adds_bind; [apply adds_get | intros found]. apply adds_bind; [apply adds_get | intros timeout].
  destruct (_ && _); [unfold search_round; adds_steps|]. unfold report_search.
  apply adds_bind; [apply adds_get | intros f]. apply adds_bind; [apply adds_initialised | intros state].
  apply adds_bind; [by apply adds_send | intros _; apply adds_set_detector].
Qed.

Lemma adds_inotify_event events prev size socket :
  adds quiet (handle_inotify_event events prev size socket).
Proof.
  revert prev. induction events as [|e events IH]; intros prev; cbn [handle_inotify_event]; [apply adds_ret|].
  cbv zeta. apply adds_bind; [apply adds_initialised | intros ev].
  apply adds_bind; [by apply adds_send | intros _; apply IH].
Qed.

(** The turns that neither launch a process nor report an end. *)
Definition quiet_turn (n : notification) : bool :=
  match n with
  | InotifyReady _ _ _ | ConnexionReady _ _ _ | Interrupted | DetectorTurn _ _ _ | Alarm
  | SignalReady _ None => true
  | _ => false
  end.

Lemma adds_quiet_turn n : quiet_turn n = true -> adds quiet (turn n).
Proof.
  destruct n as [fd size events|fd [[pid ws]|]| |fd accepted taken| | |i nl_sock dump|]; try done;
    intros _; cbn [Daemon.turn].
  - unfold handle_inotify. apply adds_bind; [apply adds_get | intros s].
    apply adds_bind; [apply adds_initialised | intros s']. apply adds_inotify_event.
  - apply adds_ret.
  - unfold handle_connexion. destruct (accepted <? 0); [apply adds_stop|].
    destruct taken; [cbn [negb] | apply adds_stop].
    apply adds_bind; [by apply adds_epoll_add | intros _].
    apply adds_bind; [apply adds_set_communication_socket | intros _]. by apply adds_send.
  - apply adds_detector_thread.
  - apply adds_timeout.
Qed.

Lemma adds_weaken {A} (m : dm A) : adds quiet m -> adds no_end m.
Proof.
  intros Hm d a d' H. destruct (Hm d a d' H) as (new & ? & HF & ? & ?).
  exists new. split_and!; [done | | done..]. eapply Forall_impl; [exact HF|]. by intros [s []].
Qed.

(** The two turns that report an end: exactly one report. *)
Lemma signal_turn fd pid wstatus d d' :
  turn (SignalReady fd (Some (pid, wstatus))) d = Next tt d' ->
  exists socket code, d_sent d' = d_sent d ++ [(socket, ProcessTerminated pid code)] /\
    d_epoll d' = d_epoll d /\ d_children d' = d_children d.
Proof.
  cbn [Daemon.turn]. unfold handle_signalfd_event, handle_SIGCHLD. dstep.
  destruct (exit_status wstatus) as [code|]; [|done]. unfold set_table. cbn.
  destruct (untrack pid (d_table d)) as [t|]; [|done]. cbn.
  destruct (d_communication_socket d) as [socket|]; [|done]. cbn. unfold send_message.
  destruct (decide _); [done|]. intros [= <-]. cbn. eauto.
Qed.

Lemma execve_turn fd pid path n d d' :
  turn (ExecveReady fd pid path n) d = Next tt d' ->
  exists socket success, d_sent d' = d_sent d ++ [(socket, ExecveTerminated pid path success)] /\
    d_children d' = d_children d /\ forall e, e ∈ d_epoll d' -> e ∈ d_epoll d /\ event_fd e <> fd.
Proof.
  cbn [Daemon.turn]. unfold handle_execve. dstep.
  destruct (if 0 <? n then _ else _) as [success|]; [|done].
  destruct (d_communication_socket d) as [socket|]; [|done]. cbn. unfold send_message.
  destruct (decide _); [done|]. intros [= <-]. cbn.
  exists socket, success. split_and!; [done..|]. intros e Hin.
  apply list_elem_of_In, filter_In in Hin as [Hin Hfd]. split; [by apply list_elem_of_In|].
  by apply Z.eqb_neq, negb_true_iff.
Qed.

(** ** The step relation *)
Record world : Type := mkWorld {
  w_daemon : daemon;
  w_living : list Z;
  w_zombies : list Z;       (* dead, not reaped *)
  w_signal : option Z       (* the child of the pending [SIGCHLD] *)
}.

(** The children that [clone] made in a turn. *)
Definition new_children (d d' : daemon) : list Z := drop (length (d_children d)) (d_children d').

(** A turn that launches is one in which the kernel gave the child a pid that no
    child alive or unreaped has.  The peer of a connection may go at any time. *)
Inductive wstep : world -> world -> Prop :=
  | child_dies d living1 pid living2 zombies signal :
      wstep (mkWorld d (living1 ++ pid :: living2) zombies signal)
        (mkWorld d (living1 ++ living2) (pid :: zombies)
           (match signal with Some _ => signal | None => Some pid end))
  | takes_turn d d' living zombies signal n :
      pending n d -> turn n d = Next tt d' ->
      (forall fd r, n <> SignalReady fd (Some r)) ->
      NoDup (new_children d d' ++ living ++ zombies) ->
      wstep (mkWorld d living zombies signal) (mkWorld d' (new_children d d' ++ living) zombies signal)
  | reaps d d' living zombies1 pid zombies2 fd wstatus :
      pending (SignalReady fd (Some (pid, wstatus))) d ->
      turn (SignalReady fd (Some (pid, wstatus))) d = Next tt d' ->
      wstep (mkWorld d living (zombies1 ++ pid :: zombies2) (Some pid))
        (mkWorld d' living (zombies1 ++ zombies2) None)
  | peer_goes d living zombies signal fd :
      wstep (mkWorld d living zombies signal) (mkWorld (with_gone d fd) living zombies signal).

Definition wsteps : world -> world -> Prop := rtc wstep.

Definition start (junk : nat -> process_info) (server_fd sfd : Z) : world :=
  mkWorld (started inotifyFd junk server_fd sfd) [] [] None.

(** ** Accounting for the children *)
Lemma new_children_app d d' cs : d_children d' = d_children d ++ cs -> new_children d d' = cs.
Proof. intros H. unfold new_children. by rewrite H, drop_app_length. Qed.

Lemma turn_history n d d' :
  (forall fd r, n <> SignalReady fd (Some r)) -> turn n d = Next tt d' ->
  exists new, d_sent d' = d_sent d ++ new /\ ended_pids new = [] /\
    d_children d' = d_children d ++ launched_pids new.
Proof.
  intros Hn H. assert (adds no_end (turn n) \/ exists fd pid path r, n = ExecveReady fd pid path r) as [Ha|Hex].
  { destruct n as [fd size events|fd [r|]|fd size_bytes body k|fd accepted taken|fd pid path r| |i nl dump|];
      try by left; apply adds_weaken, adds_quiet_turn.
    - by destruct (Hn fd r).
    - left. apply adds_message.
    - right. eauto. }
  - destruct (Ha d tt d' H) as (new & Hs & HF & Hc & _). exists new.
    split_and!; [done | by apply no_end_ends | done].
  - destruct Hex as (fd & pid & path & r & ->). apply execve_turn in H as (socket & success & Hs & Hc & _).
    eexists. split_and!; [exact Hs | done | by rewrite Hc; cbn; rewrite app_nil_r].
Qed.

(** The children announced, those reported ended, the dead and the living. *)
Definition accounted (w : world) : Prop :=
  launched_pids (d_sent (w_daemon w)) ≡ₚ
    ended_pids (d_sent (w_daemon w)) ++ w_zombies w ++ w_living w /\
  NoDup (w_living w ++ w_zombies w) /\
  (forall pid, w_signal w = Some pid -> pid ∈ w_zombies w).

Lemma wstep_accounted w w' : wstep w w' -> accounted w -> accounted w'.
Proof.
  intros Hstep (HP & HN & HS).
  destruct Hstep as [d l1 pid l2 z sig|d d' l z sig n Hpend Hturn Hn Hnew|d d' l z1 pid z2 fd ws Hpend Hturn|];
    unfold accounted; cbn in *.
  - split_and!.
    + rewrite HP. solve_Permutation.
    + eapply NoDup_Permutation_proper; [|exact HN]. solve_Permutation.
    + destruct sig as [p|]; intros p' [= <-]; [right; by apply HS | left].
  - destruct (turn_history n d d' Hn Hturn) as (new & Hs & He & Hc%new_children_app). rewrite Hs, Hc in *.
    rewrite launched_pids_app, ended_pids_app, He, app_nil_r.
    split_and!; [rewrite HP; solve_Permutation | by rewrite <- app_assoc | done].
  - apply (signal_turn fd) in Hturn as (socket & code & Hs & _). rewrite Hs.
    rewrite launched_pids_app, ended_pids_app. cbn.
    split_and!; [rewrite HP; solve_Permutation | | done].
    eapply sublist_NoDup; [exact HN|]; do 2 (apply sublist_app; [done|]); by apply sublist_cons.
  - by split_and!.
Qed.

(** The children are announced, in the order they were made. *)
Lemma wstep_children w w' : wstep w w' ->
  d_children (w_daemon w) = launched_pids (d_sent (w_daemon w)) ->
  d_children (w_daemon w') = launched_pids (d_sent (w_daemon w')).
Proof.
  intros Hstep Hw.
  destruct Hstep as [d l1 pid l2 z sig|d d' l z sig n Hpend Hturn Hn Hnew|d d' l z1 pid z2 fd ws Hpend Hturn|];
    cbn in *; [done| | |done].
  - destruct (turn_history n d d' Hn Hturn) as (new & -> & _ & ->). by rewrite launched_pids_app, Hw.
  - apply (signal_turn fd) in Hturn as (socket & code & -> & _ & ->).
    rewrite launched_pids_app. cbn. by rewrite app_nil_r.
Qed.

(** C15. Invariant of the daemon and its children, in every reachable state.  The
    children are those that [clone] made: they are announced to a client, each once,
    in the order and under the identifiers that [clone] gave, and no other process is;
    each of them is alive, dead and not yet reaped, or reported ended, once; no other
    process is reported ended; and a pending signal is that of a child still to be
    reaped. *)
Theorem children_accounted junk server_fd sfd w :
  wsteps (start junk server_fd sfd) w ->
  d_children (w_daemon w) = launched_pids (d_sent (w_daemon w)) /\ accounted w.
Proof.
  intros H. remember (start junk server_fd sfd) as w0 eqn:E.
  assert (d_children (w_daemon w0) = launched_pids (d_sent (w_daemon w0)) /\ accounted w0) as H0
    by (subst; split; [done|]; split_and!; [done | constructor | done]). clear E.
  induction H as [|w1 w2 w3 H12 _ IH]; [done|]. destruct H0.
  apply IH. split; [by eapply wstep_children | by eapply wstep_accounted].
Qed.

(** ** A child that is never reported *)

(** It is dead, and the pending signal is not its own. *)
Definition lost (z : Z) (w : world) : Prop := z ∈ w_zombies w /\ w_signal w <> Some z.

Definition times_ended (z : Z) (w : world) : nat :=
  count_occ Z.eq_dec (ended_pids (d_sent (w_daemon w))) z.

Lemma wstep_lost z w w' :
  wstep w w' -> accounted w -> lost z w -> lost z w' /\ times_ended z w' = times_ended z w.
Proof.
  intros Hstep (_ & HN & _) [Hz Hsig].
  destruct Hstep as [d l1 pid l2 zs sig|d d' l zs sig n Hpend Hturn Hn Hnew|d d' l z1 pid z2 fd ws Hpend Hturn|];
    unfold lost, times_ended; cbn in *.
  - split; [|done]. split; [by right|]. destruct sig as [p|]; [done|]. intros [= ->].
    apply NoDup_app in HN as (_ & HN & _). apply (HN z); [|done].
    apply elem_of_app. right. left.
  - split; [done|]. destruct (turn_history n d d' Hn Hturn) as (new & -> & He & _).
    by rewrite ended_pids_app, He, app_nil_r.
  - assert (z <> pid) as Hne by congruence.
    apply (signal_turn fd) in Hturn as (socket & code & -> & _).
    rewrite ended_pids_app, count_occ_app. cbn. destruct (Z.eq_dec pid z); [congruence|].
    split; [|lia]. split; [|done]. rewrite elem_of_app, elem_of_cons in Hz.
    rewrite elem_of_app. tauto.
  - done.
Qed.

Lemma wsteps_accounted w w' : wsteps w w' -> accounted w -> accounted w'.
Proof. induction 1 as [|w1 w2 w3 H12 _ IH]; [done|]. intros H. by apply IH, (wstep_accounted w1). Qed.

Lemma wsteps_lost z w w' :
  wsteps w w' -> accounted w -> lost z w -> lost z w' /\ times_ended z w' = times_ended z w.
Proof.
  induction 1 as [|w1 w2 w3 H12 _ IH]; [done|]. intros Ha Hl.
  destruct (wstep_lost z w1 w2 H12 Ha Hl) as [Hl2 E]. rewrite <- E.
  apply IH; [by eapply wstep_accounted | done].
Qed.

(** C32. A child that dies while the signal of another is pending is never reaped
    and never reported: from any reachable state in which this happens, whatever
    comes next, it stays dead and unreaped, and no report of its end is sent. *)
Theorem second_death_never_reported junk server_fd sfd w pid d living1 z living2 zombies :
  w = mkWorld d (living1 ++ z :: living2) zombies (Some pid) ->
  wsteps (start junk server_fd sfd) w ->
  exists w1, wstep w w1 /\ forall w2, wsteps w1 w2 ->
    z ∈ w_zombies w2 /\ times_ended z w2 = times_ended z w.
Proof.
  intros -> Hreach. eexists. split; [apply child_dies|]. intros w2 H2.
  assert (accounted (start junk server_fd sfd)) as H0 by (split_and!; [done | constructor | done]).
  pose proof (wsteps_accounted _ _ Hreach H0) as Ha.
  assert (pid <> z) as Hne.
  { destruct Ha as (_ & HN & HS). intros ->. apply NoDup_app in HN as (_ & HN & _).
    apply (HN z); [cbn; apply elem_of_app; right; left | by apply HS]. }
  destruct (wsteps_lost z _ w2 H2) as [[Hz _] E]; [| |done].
  - exact (wstep_accounted _ _ (child_dies d living1 z living2 zombies (Some pid)) Ha).
  - split; [left | cbn; congruence].
Qed.

(** ** The order of the reports *)

(** An end is reported after the launch of its process. *)
Definition ordered (sent : list (Z * report)) : Prop := forall before s r after,
  sent = before ++ (s, r) :: after ->
  match r with
  | ProcessTerminated pid _ | ExecveTerminated pid _ _ => pid ∈ launched_pids before
  | _ => True
  end.

Lemma ordered_snoc sent s r :
  ordered sent ->
  match r with
  | ProcessTerminated pid _ | ExecveTerminated pid _ _ => pid ∈ launched_pids sent
  | _ => True
  end -> ordered (sent ++ [(s, r)]).
Proof.
  intros Ho Hr before s' r' after E. destruct after as [|x after _] using rev_ind.
  - apply app_inj_tail in E as [-> [= <- <-]]. done.
  - rewrite app_comm_cons, app_assoc in E. apply app_inj_tail in E as [E _]. by apply (Ho before s' r' after).
Qed.

Lemma ordered_no_end sent new :
  ordered sent -> Forall (fun sr => no_end sr.2) new -> ordered (sent ++ new).
Proof.
  intros Ho HF. revert sent Ho. induction HF as [|[s r] new Hr _ IH]; intros sent Ho.
  - by rewrite app_nil_r.
  - change ((s, r) :: new) with ([(s, r)] ++ new). rewrite app_assoc.
    apply IH, ordered_snoc; [done|]. by destruct r.
Qed.

Definition announced (w : world) : Prop :=
  ordered (d_sent (w_daemon w)) /\
  forall fd pid path, EXECVE fd pid path ∈ d_epoll (w_daemon w) -> pid ∈ launched_pids (d_sent (w_daemon w)).

Lemma turn_announced n d d' :
  turn n d = Next tt d' -> adds no_end (turn n) ->
  ordered (d_sent d) ->
  (forall fd pid path, EXECVE fd pid path ∈ d_epoll d -> pid ∈ launched_pids (d_sent d)) ->
  ordered (d_sent d') /\
  forall fd pid path, EXECVE fd pid path ∈ d_epoll d' -> pid ∈ launched_pids (d_sent d').
Proof.
  intros Hturn Ha Ho He. destruct (Ha d tt d' Hturn) as (new & -> & HF & _ & Hnew).
  split; [by apply ordered_no_end|]. intros fd pid path Hin. rewrite launched_pids_app, elem_of_app.
  destruct (Hnew _ _ _ Hin) as [Hd|?]; [left; by eapply He | by right].
Qed.

Lemma wstep_announced w w' : wstep w w' -> accounted w -> announced w -> announced w'.
Proof.
  intros Hstep (HP & _ & _) [Ho He].
  destruct Hstep as [d l1 pid l2 zs sig|d d' l zs sig n Hpend Hturn Hn Hnew|d d' l z1 pid z2 fd ws Hpend Hturn|];
    unfold announced; cbn in *; [done| | |done].
  - destruct n as [fd size events|fd [r|]|fd size_bytes body k|fd accepted taken|fd pid path r| |i nl dump|];
      try (by apply (turn_announced _ d d' Hturn); [by apply adds_weaken, adds_quiet_turn | done | done]).
    + by destruct (Hn fd r).
    + apply (turn_announced _ d d' Hturn); [apply adds_message | done | done].
    + pose proof (He _ _ _ Hpend) as Hl.
      apply execve_turn in Hturn as (socket & success & -> & _ & Hd). split; [by apply ordered_snoc|].
      intros fd' pid' path' [Hin _]%Hd. rewrite launched_pids_app, elem_of_app. left. by eapply He.
  - apply (signal_turn fd) in Hturn as (socket & code & -> & -> & _). split.
    + apply ordered_snoc; [done|]. rewrite HP. set_solver.
    + intros fd' pid' path' Hin. rewrite launched_pids_app, elem_of_app. left. by eapply He.
Qed.

(** C27. Order of the reports, in every reachable state: the outcome of an execve and
    the end of a process are reported only after the process was announced. *)
Theorem launch_announced_first junk server_fd sfd w :
  wsteps (start junk server_fd sfd) w -> ordered (d_sent (w_daemon w)).
Proof.
  intros H. cut (accounted w /\ announced w); [by intros [_ [? _]]|].
  remember (start junk server_fd sfd) as w0 eqn:E.
  assert (accounted w0 /\ announced w0) as H0.
  { subst. split; [split_and!; [done | constructor | done]|]. split; cbn.
    - by intros [] ? ? ? ?.
    - intros fd pid path. rewrite !elem_of_cons, elem_of_nil.
      intros [[=]|[[=]|[[=]|[]]]]. }
  clear E. induction H as [|w1 w2 w3 H12 _ IH]; [done|].
  destruct H0 as [Ha Hb]. apply IH. split; [by eapply wstep_accounted | by eapply wstep_announced].
Qed.
End world.

(** ** At a concrete input

    A client asks for two processes; the first dies. *)
Section witnesses.
Definition demo_world : world := mkWorld demo3 [200] [100] (Some 100).

Lemma demo_reachable : wsteps demo_rm demo_rc demo_rk 9090 4 (start 4 junk 3 6) demo_world.
Proof.
  unfold wsteps, start. fold demo0.
  eapply rtc_l; [apply (takes_turn _ _ _ _ _ _ demo1 _ _ _ (ConnexionReady 3 7 true))|].
  { vm_compute. left. } { vm_compute. reflexivity. } { discriminate. }
  { apply (bool_decide_unpack _). vm_compute. exact I. }
  eapply rtc_l; [apply (takes_turn _ _ _ _ _ _ demo2 _ _ _ (demo_request 100))|].
  { vm_compute. right. right. right. left. } { vm_compute. reflexivity. } { discriminate. }
  { apply (bool_decide_unpack _). vm_compute. exact I. }
  eapply rtc_l; [apply (takes_turn _ _ _ _ _ _ demo3 _ _ _ (demo_request 200))|].
  { vm_compute. right. right. right. left. } { vm_compute. reflexivity. } { discriminate. }
  { apply (bool_decide_unpack _). vm_compute. exact I. }
  eapply rtc_l; [|apply rtc_refl].
  exact (child_dies demo_rm demo_rc demo_rk 9090 4 demo3 [200] 100 [] [] None).
Qed.

Lemma children_accounted_witness :
  d_children (w_daemon demo_world) = launched_pids (d_sent (w_daemon demo_world)) /\ accounted demo_world.
Proof.
  exact (children_accounted demo_rm demo_rc demo_rk 9090 4 junk 3 6 demo_world demo_reachable).
Defined.

Lemma launch_announced_first_witness : ordered (d_sent (w_daemon demo_world)).
Proof.
  exact (launch_announced_first demo_rm demo_rc demo_rk 9090 4 junk 3 6 demo_world demo_reachable).
Defined.

Lemma second_death_never_reported_witness :
  exists w1, wstep demo_rm demo_rc demo_rk 9090 4 demo_world w1 /\
    forall w2, wsteps demo_rm demo_rc demo_rk 9090 4 w1 w2 ->
      200 ∈ w_zombies w2 /\ times_ended 200 w2 = times_ended 200 demo_world.
Proof.
  exact (second_death_never_reported demo_rm demo_rc demo_rk 9090 4 junk 3 6 demo_world 100 demo3
           [] 200 [] [100] eq_refl demo_reachable).
Defined.
End witnesses.
