(* ===== verification/WellFormed.v ===== *)
(** * Well-formed states of the C daemon

    What the types of the C code do not say of its state, and holds in every state
    the loop reaches: the size of the table and its counter, and the connections
    the reports go to. *)
From S2P Require Import Prelude Bytes Data ProcessManager Daemon DaemonFacts World.

(** ** The table keeps its size, and its counter counts *)
Lemma track_shape pid stack err t t' :
  track pid stack err t = Some t' ->
  length (manager t') = length (manager t) /\ nb_process t' = nb_process t + 1.
Proof.
  unfold track, manager_add_process. destruct (nb_process t <? _).
  - destruct (loop_slots is_free _ _ _) as [[j|]|]; intros [= <-]; cbn;
      by rewrite ?length_insert.
  - by intros [= <-].
Qed.

Lemma untrack_shape pid t t' :
  untrack pid t = Some t' ->
  length (manager t') = length (manager t) /\ nb_process t' = nb_process t - 1.
Proof.
  unfold untrack, manager_remove_process. destruct (loop_slots _ _ _ _) as [[j|]|]; [| |done].
  - destruct (manager t !! j) as [slot|]; [|done]. intros [= <-]. cbn. by rewrite length_insert.
  - by intros [= <-].
Qed.

(** ** Greetings *)
Definition greets (s : Z) (sr : Z * report) : Prop := exists port, sr = (s, TCPSocketListening port).
Definition greeted (s : Z) (sent : list (Z * report)) : Prop := Exists (greets s) sent.

Lemma greeted_app_l s sent new : greeted s sent -> greeted s (sent ++ new).
Proof. intros H. apply Exists_app. by left. Qed.

(** Every report is a greeting or behind one on its connection. *)
Definition greeted_first (sent : list (Z * report)) : Prop := forall before s r after,
  sent = before ++ (s, r) :: after -> greets s (s, r) \/ greeted s before.

Lemma greeted_first_snoc sent s r :
  greeted_first sent -> greets s (s, r) \/ greeted s sent -> greeted_first (sent ++ [(s, r)]).
Proof.
  intros Ho Hr before s' r' after E. destruct after as [|x after _] using rev_ind.
  - apply app_inj_tail in E as [-> [= <- <-]]. done.
  - rewrite app_comm_cons, app_assoc in E. apply app_inj_tail in E as [E _]. by apply (Ho before s' r' after).
Qed.

(** The children announced and not reported ended. *)
Definition outstanding (d : daemon) : Z :=
  Z.of_nat (length (launched_pids (d_sent d))) - Z.of_nat (length (ended_pids (d_sent d))).

Record well_formed (d : daemon) : Prop := mkWellFormed {
  wf_slots : length (manager (d_table d)) = MAX_PROCESS;
  wf_count : nb_process (d_table d) = outstanding d;
  wf_order : greeted_first (d_sent d);
  wf_messages : forall fd, SOCK_MESSAGE fd ∈ d_epoll d -> greeted fd (d_sent d);
  wf_socket : forall s, d_communication_socket d = Some s -> greeted s (d_sent d);
  wf_detectors : forall dt, dt ∈ d_detectors d -> greeted (dt_socket dt) (d_sent d);
  wf_kills : Forall (fun k => 0 < k.1 /\ k.2 = SIGKILL) (d_kills d)
}.

(** Computations that preserve it, while [s] is a greeted connection. *)
Definition keeps (s : Z) {A} (m : dm A) : Prop := forall d a d', m d = Next a d' ->
  well_formed d -> greeted s (d_sent d) -> well_formed d' /\ greeted s (d_sent d').

Section keeps.
Context (s : Z).

Lemma keeps_bind {A B} (m : dm A) (f : A -> dm B) :
  keeps s m -> (forall a, keeps s (f a)) -> keeps s (m ≫= f).
Proof.
  intros Hm Hf d b d' H Hw Hg. unfold mbind, dm_bind in H. destruct (m d) as [a d1|] eqn:E; [|done].
  destruct (Hm d a d1 E Hw Hg). by apply (Hf a d1 b d').
Qed.

Lemma keeps_same {A} (m : dm A) : (forall d a d', m d = Next a d' -> d' = d) -> keeps s m.
Proof. intros Hm d a d' H Hw Hg. by rewrite (Hm d a d' H). Qed.

Lemma keeps_ret {A} (a : A) : keeps s (mret a).
Proof. apply keeps_same. by intros d a' d' [= _ <-]. Qed.
Lemma keeps_stop {A} h : keeps s (@stop A h).
Proof. done. Qed.
Lemma keeps_get {A} (f : daemon -> A) : keeps s (get f).
Proof. apply keeps_same. by intros d a' d' [= _ <-]. Qed.
Lemma keeps_initialised {A} (v : option A) : keeps s (initialised v).
Proof. apply keeps_same. intros d a' d' H. unfold initialised in H. destruct v; [|done]. by injection H. Qed.

Lemma keeps_watch fd path mask : keeps s (inotify_add_watch fd path mask).
Proof. by intros d a d' [= _ <-] [] ?. Qed.

Lemma keeps_epoll_add e : (forall fd, e <> SOCK_MESSAGE fd) -> keeps s (epoll_add e).
Proof.
  intros He d a d' [= _ <-] [] Hg. split; [|done]. constructor; cbn; try done.
  intros fd [?|E%list_elem_of_singleton]%elem_of_app; [by auto|]. by destruct (He fd).
Qed.

Lemma keeps_epoll_del fd : keeps s (epoll_del fd).
Proof.
  intros d a d' [= _ <-] [] Hg. split; [|done]. constructor; cbn; try done.
  intros fd' Hin. apply list_elem_of_In, filter_In in Hin as [Hin _]. apply list_elem_of_In in Hin. auto.
Qed.

Lemma keeps_event k e : (forall fd, e <> SOCK_MESSAGE fd) -> keeps s (add_event k e).
Proof. intros He. unfold add_event. destruct (epoll_takes _ _); [by apply keeps_epoll_add | apply keeps_ret]. Qed.

Lemma keeps_child pid : keeps s (made_child pid).
Proof. by intros d a d' [= _ <-] [] ?. Qed.

Lemma keeps_set_found found : keeps s (set_found found).
Proof. by intros d a d' [= _ <-] [] ?. Qed.

Lemma keeps_detect created port : keeps s (detect_socket created port s).
Proof.
  intros d a d' [= _ <-] Hw Hg. destruct created; [|done]. destruct Hw.
  split; [|done]. constructor; cbn; try done.
  intros dt [?|E%list_elem_of_singleton]%elem_of_app; [by eauto|]. by subst.
Qed.

Lemma keeps_set_detector i dt : dt_socket dt = s -> keeps s (set_detector i dt).
Proof.
  intros Hs d a d' [= _ <-] [] Hg. split; [|done]. constructor; cbn; try done.
  apply Forall_forall, Forall_insert; [by apply Forall_forall | by rewrite Hs].
Qed.

Lemma keeps_kill pid : 0 < pid -> keeps s (kill pid SIGKILL).
Proof.
  intros Hp d a d' [= _ <-] [] Hg. split; [|done]. constructor; cbn; try done.
  apply Forall_app. split; [done | by repeat constructor].
Qed.

(** Reports that launch or end nothing. *)
Definition uncounted (r : report) : Prop :=
  match r with ProcessLaunched _ | ProcessTerminated _ _ => False | _ => True end.

Lemma well_formed_send d r table :
  well_formed d -> greeted s (d_sent d) \/ greets s (s, r) ->
  length (manager table) = MAX_PROCESS ->
  nb_process table = outstanding d +
    match r with ProcessLaunched _ => 1 | ProcessTerminated _ _ => -1 | _ => 0 end ->
  well_formed (with_sent (with_table d table) (s, r)).
Proof.
  intros [] Hg Hl Hn. constructor; cbn; eauto using greeted_app_l.
  - rewrite Hn. unfold outstanding. cbn. rewrite launched_pids_app, ended_pids_app, !length_app.
    destruct r; cbn; lia.
  - apply greeted_first_snoc; [done|]. tauto.
Qed.

Lemma keeps_send r : uncounted r -> keeps s (send_message s r).
Proof.
  intros Hr d a d'. unfold send_message. destruct (decide _); [done|]. intros [= _ <-] Hw Hg.
  split; [|by apply greeted_app_l]. change (with_sent d (s, r)) with (with_sent (with_table d (d_table d)) (s, r)).
  apply well_formed_send; [done | by left | apply Hw|]. rewrite (wf_count d Hw). destruct r; done || lia.
Qed.

Lemma keeps_each {A} (l : list A) body i : (forall i a, keeps s (body i a)) -> keeps s (each l body i).
Proof.
  intros Hb. revert i. induction l as [|a l IH]; intros i; cbn [each]; [apply keeps_ret|].
  apply keeps_bind; [apply Hb | intros _; apply IH].
Qed.

(** A process tracked and announced. *)
Lemma keeps_announce pid stack err k fd path :
  keeps s (table ← get d_table; _ ← set_table (track pid stack err table);
           _ ← send_message s (ProcessLaunched pid); add_event k (EXECVE fd pid path)).
Proof.
  intros d a d'. dstep. unfold set_table. destruct (track pid stack err (d_table d)) as [t|] eqn:E; [|done].
  cbn. unfold send_message. destruct (decide _); [done|]. intros H Hw Hg.
  apply track_shape in E as [Hl Hn].
  pose proof (well_formed_send d (ProcessLaunched pid) t Hw (or_introl Hg)
                ltac:(by rewrite Hl; apply Hw) ltac:(rewrite Hn, (wf_count d Hw); lia)) as Hw'.
  eapply (keeps_event k (EXECVE fd pid path)); [done | exact H | exact Hw' | by apply greeted_app_l].
Qed.
End keeps.

Create HintDb keeps.
#[export] Hint Resolve keeps_ret keeps_stop keeps_get keeps_initialised keeps_watch keeps_epoll_add
  keeps_epoll_del keeps_detect keeps_send keeps_event keeps_child keeps_set_found keeps_set_detector : keeps.

Section turns.
Context (rm : bytes -> Z -> Event) (rc : bytes -> Z -> option s_command) (rk : bytes -> Z -> option Z).
Context (destPort inotifyFd : Z).
#[local] Abbreviation turn := (turn rm rc rk destPort inotifyFd).

Lemma keeps_command_request fd com k : keeps fd (process_command_request fd com k).
Proof.
  unfold process_command_request, extract_clone_parameters.
  destruct (c_args com); [apply keeps_stop|]. cbv zeta.
  apply keeps_bind;
    [unfold launch_process; repeat case_match; auto with keeps; apply keeps_bind; auto with keeps|].
  intros [c|]; [apply keeps_announce | by apply keeps_send].
Qed.

Lemma keeps_surveillance fd com k : keeps fd (process_surveillance_requests com inotifyFd fd k).
Proof.
  apply keeps_each. intros i [root_paths mask size|destport]; unfold process_surveillance.
  - apply keeps_bind; [|intros _; by apply keeps_send]. destruct (0 <? size); [|apply keeps_watch].
    apply keeps_bind; [apply keeps_watch | intros _; by apply keeps_event].
  - apply keeps_bind; [by apply keeps_send | intros _; apply keeps_detect].
Qed.

Lemma keeps_message fd size_bytes body k :
  keeps fd (handle_message rm rc rk inotifyFd fd size_bytes body k).
Proof.
  unfold handle_message, handle_command, handle_kill.
  destruct (read_socket_message size_bytes body) as [[buffer size]|]; [|apply keeps_stop].
  destruct (size =? 0); [apply keeps_epoll_del|].
  destruct (rm buffer size); try apply keeps_ret.
  - destruct (rc buffer size) as [com|]; [|apply keeps_stop].
    apply keeps_bind; [apply keeps_command_request | intros _; apply keeps_surveillance].
  - destruct (rk buffer size) as [pid|]; [|apply keeps_stop].
    destruct (0 <? pid) eqn:E; [apply keeps_kill; lia|].
    destruct (_ =? 0); [|apply keeps_ret].
    apply keeps_bind; [apply keeps_get | intros t]. destruct (free_manager _ _); [|apply keeps_stop].
    intros d a d' H. discriminate H.
Qed.

Lemma keeps_inotify_event events prev size s : keeps s (handle_inotify_event events prev size s).
Proof.
  revert prev. induction events as [|e events IH]; intros prev; cbn [handle_inotify_event]; [apply keeps_ret|].
  cbv zeta. apply keeps_bind; [apply keeps_initialised | intros ev].
  apply keeps_bind; [by apply keeps_send | intros _; apply IH].
Qed.

Lemma inotify_well_formed fd size events d d' :
  turn (InotifyReady fd size events) d = Next tt d' -> well_formed d -> well_formed d'.
Proof.
  cbn [Daemon.turn]. unfold handle_inotify. dstep. intros H Hw.
  destruct (d_communication_socket d) as [s|] eqn:E; [|done]. cbn in H.
  by apply (keeps_inotify_event events None size s d tt d' H Hw), (wf_socket d Hw).
Qed.

Lemma signal_well_formed fd pid wstatus d d' :
  turn (SignalReady fd (Some (pid, wstatus))) d = Next tt d' -> well_formed d -> well_formed d'.
Proof.
  cbn [Daemon.turn]. unfold handle_signalfd_event, handle_SIGCHLD. dstep.
  destruct (exit_status wstatus) as [code|]; [|done]. unfold set_table. cbn.
  destruct (untrack pid (d_table d)) as [t|] eqn:E; [|done]. cbn.
  destruct (d_communication_socket d) as [s|] eqn:Es; [|done]. cbn.
  unfold send_message. destruct (decide _); [done|]. intros [= <-] Hw.
  apply untrack_shape in E as [Hl Hn].
  pose proof (well_formed_send s d (ProcessTerminated pid (to_uint32 code)) t Hw
    (or_introl (wf_socket d Hw s Es)) ltac:(by rewrite Hl; apply Hw) ltac:(rewrite Hn, (wf_count d Hw); lia)) as H.
  exact H.
Qed.

Lemma execve_well_formed fd pid path n d d' :
  turn (ExecveReady fd pid path n) d = Next tt d' -> well_formed d -> well_formed d'.
Proof.
  cbn [Daemon.turn]. unfold handle_execve. dstep. intros H Hw.
  destruct (if 0 <? n then _ else _) as [success|]; [|done]. cbn in H.
  destruct (d_communication_socket d) as [s|] eqn:E; [|done]. cbn in H.
  assert (keeps s (_ ← send_message s (ExecveTerminated pid path success); epoll_del fd)) as Hk
    by (apply keeps_bind; [by apply keeps_send | intros _; apply keeps_epoll_del]).
  by apply (Hk d tt d' H Hw), (wf_socket d Hw).
Qed.

Lemma connexion_well_formed fd accepted taken d d' :
  turn (ConnexionReady fd accepted taken) d = Next tt d' -> well_formed d -> well_formed d'.
Proof.
  cbn [Daemon.turn]. unfold handle_connexion. destruct (accepted <? 0); [done|]. destruct taken; [cbn [negb]|done].
  dstep. unfold send_message. destruct (decide _); [done|]. intros [= <-] Hw.
  assert (greets accepted (accepted, TCPSocketListening (to_uint16 destPort))) as Hg by by eexists.
  pose proof (well_formed_send accepted d (TCPSocketListening (to_uint16 destPort)) (d_table d) Hw
    (or_intror Hg) ltac:(apply Hw) ltac:(rewrite (wf_count d Hw); lia)) as [].
  assert (greeted accepted (d_sent d ++ [(accepted, TCPSocketListening (to_uint16 destPort))])) as Ha
    by (apply Exists_app; right; by constructor).
  constructor; cbn in *; try done.
  - intros fd' [?|H%list_elem_of_singleton]%elem_of_app; [by auto|]. by injection H as ->.
  - intros s [= <-]. done.
Qed.

Lemma detector_well_formed i nl_sock dump d d' :
  turn (DetectorTurn i nl_sock dump) d = Next tt d' -> well_formed d -> well_formed d'.
Proof.
  intros H Hw. destruct (d_detectors d !! i) as [dt|] eqn:Hi.
  - assert (keeps (dt_socket dt) (search_TCP_connection i dt nl_sock dump)) as Hk.
    { unfold search_TCP_connection, search_round, report_search. destruct (dt_phase dt); [case_match| |]; auto with keeps.
      repeat (apply keeps_bind; [auto with keeps | intros ?]). case_match;
        repeat (apply keeps_bind; [auto with keeps; by apply keeps_send | intros ?]); auto with keeps. }
    cbn [Daemon.turn] in H. unfold detector_thread in H. revert H. dstep. rewrite Hi. unfold mbind, dm_bind.
    destruct (search_TCP_connection i dt nl_sock dump d) as [[] d1|] eqn:E; [|done].
    destruct (Hk d tt d1 E Hw) as [Hw1 _].
    { apply (wf_detectors d Hw). by eapply list_elem_of_lookup_2. }
    destruct (dt_phase dt); [by intros [= <-].. | done].
  - cbn [Daemon.turn] in H. unfold detector_thread in H. revert H. dstep. rewrite Hi. by intros [= <-].
Qed.

Lemma turn_well_formed n d d' :
  pending n d -> turn n d = Next tt d' -> well_formed d -> well_formed d'.
Proof.
  destruct n as [fd size events|fd [[pid ws]|]|fd size_bytes body k|fd accepted taken|fd pid path r| |i nl dump|];
    intros Hp H Hw.
  - by eapply inotify_well_formed.
  - by eapply signal_well_formed.
  - by injection H as <-.
  - by apply (keeps_message fd size_bytes body k d tt d' H Hw), (wf_messages d Hw).
  - by eapply connexion_well_formed.
  - by eapply execve_well_formed.
  - done.
  - by eapply detector_well_formed.
  - injection H as <-. by destruct Hw.
Qed.

Lemma start_well_formed junk server_fd sfd : well_formed (started inotifyFd junk server_fd sfd).
Proof.
  constructor; cbn -[MAX_PROCESS seq]; try done.
  - by intros [] ? ? ? ?.
  - intros fd. rewrite !elem_of_cons, elem_of_nil. intros [[=]|[[=]|[[=]|[]]]].
  - intros dt. by rewrite elem_of_nil.
Qed.

(** ** The kills of a turn, also of the last one *)
Definition no_kill {A} (m : dm A) : Prop :=
  forall d, match m d with Next _ d' | Halt _ d' => d_kills d' = d_kills d end.

Lemma no_kill_bind {A B} (m : dm A) (f : A -> dm B) : no_kill m -> (forall a, no_kill (f a)) -> no_kill (m ≫= f).
Proof.
  intros Hm Hf d. specialize (Hm d). unfold mbind, dm_bind. destruct (m d) as [a d1|]; [|done].
  specialize (Hf a d1). destruct (f a d1); congruence.
Qed.
Lemma no_kill_ret {A} (a : A) : no_kill (mret a).
Proof. done. Qed.
Lemma no_kill_send socket r : no_kill (send_message socket r).
Proof. intros d. unfold send_message. by destruct (decide _). Qed.
Lemma no_kill_table t : no_kill (set_table t).
Proof. intros d. by destruct t. Qed.
Lemma no_kill_initialised {A} (v : option A) : no_kill (initialised v).
Proof. intros d. by destruct v. Qed.
Lemma no_kill_event k e : no_kill (add_event k e).
Proof. intros d. unfold add_event. by destruct (epoll_takes _ _). Qed.
Lemma no_kill_detect created port socket : no_kill (detect_socket created port socket).
Proof. intros d. by destruct created. Qed.
Lemma no_kill_each {A} (l : list A) body i : (forall i a, no_kill (body i a)) -> no_kill (each l body i).
Proof.
  intros Hb. revert i. induction l as [|a l IH]; intros i; cbn [each]; [apply no_kill_ret|].
  apply no_kill_bind; [apply Hb | intros _; apply IH].
Qed.

Ltac no_kill_steps :=
  repeat first
    [ apply no_kill_ret | apply no_kill_send | apply no_kill_table | apply no_kill_initialised
    | apply no_kill_event | apply no_kill_detect | (apply no_kill_bind; [|intros ?])
    | progress cbv zeta | case_match | by intros ? ].

Lemma no_kill_command fd com k : no_kill (handle_command inotifyFd fd com k).
Proof.
  destruct com as [com|]; [|done]. unfold handle_command. apply no_kill_bind; [|intros _].
  - unfold process_command_request, extract_clone_parameters, launch_process. no_kill_steps.
  - apply no_kill_each. intros i s. unfold process_surveillance. no_kill_steps.
Qed.

Lemma no_kill_inotify events prev size s : no_kill (handle_inotify_event events prev size s).
Proof. revert prev. induction events as [|e events IH]; intros prev; cbn [handle_inotify_event]; no_kill_steps. apply IH. Qed.

Lemma no_kill_detector i nl_sock dump : no_kill (detector_thread i nl_sock dump).
Proof. unfold detector_thread, search_TCP_connection, search_round, report_search. no_kill_steps. Qed.

(** One request makes one kill, of a process or of the daemon's own group. *)
Lemma turn_kills n d : match turn n d with
  | Next _ d' => d_kills d' = d_kills d \/ exists pid, 0 < pid /\ d_kills d' = d_kills d ++ [(pid, SIGKILL)]
  | Halt h d' => d_kills d' = d_kills d \/ h = Killed SIGTERM /\ exists fd size_bytes body k,
      n = MessageReady fd size_bytes body k /\ d_kills d' = d_kills d ++ [(- k_getpgrp k, SIGTERM)]
  end.
Proof.
  assert (no_kill (turn n) \/ exists fd size_bytes body k, n = MessageReady fd size_bytes body k) as [H|H].
  { destruct n as [fd size events|fd r|fd size_bytes body k|fd accepted taken|fd pid path r| |i nl dump|]; cbn [Daemon.turn];
      [left|left|right; eauto|left..].
    - unfold handle_inotify. no_kill_steps. apply no_kill_inotify.
    - unfold handle_signalfd_event, handle_SIGCHLD. no_kill_steps.
    - unfold handle_connexion. no_kill_steps.
    - unfold handle_execve. no_kill_steps.
    - by intros d'.
    - apply no_kill_detector.
    - by intros d'. }
  { specialize (H d). destruct (turn n d); by left. }
  destruct H as (fd & size_bytes & body & k & ->). cbn [Daemon.turn]. unfold handle_message.
  destruct (read_socket_message size_bytes body) as [[buffer size]|]; [|by left].
  destruct (size =? 0); [by left|]. destruct (rm buffer size); try by left.
  - pose proof (no_kill_command fd (rc buffer size) k d) as H. destruct (handle_command _ _ _ _ _); by left.
  - destruct (rk buffer size) as [pid|]; [|by left].
    unfold handle_kill. destruct (0 <? pid) eqn:E.
    + right. exists pid. split; [lia | done].
    + destruct (_ =? 0); [|by left]. dstep. destruct (free_manager _ _); [|by left].
      right. split; [done|]. by exists fd, size_bytes, body, k.
Qed.

(** C12. Well-formedness of every reachable state.  The table has its 256 slots, and
    its counter is the number of children alive or dead and not reaped; every
    entry of the epoll set for messages, the communication socket and the socket of
    every thread are connections the daemon has greeted; on each connection the
    greeting is the first report; and every kill the daemon asked for is by
    SIGKILL, of one process.  The one signal it sends to a group, its own, is in the
    turn that ends it. *)
Theorem reachable_well_formed junk server_fd sfd w :
  wsteps rm rc rk destPort inotifyFd (start inotifyFd junk server_fd sfd) w ->
  well_formed (w_daemon w) /\
  nb_process (d_table (w_daemon w)) = Z.of_nat (length (w_living w) + length (w_zombies w)) /\
  (forall n h d', turn n (w_daemon w) = Halt h d' ->
     Forall (fun k => 0 < k.1 /\ k.2 = SIGKILL) (d_kills d') \/
     h = Killed SIGTERM /\ exists fd size_bytes body k, n = MessageReady fd size_bytes body k /\
       d_kills d' = d_kills (w_daemon w) ++ [(- k_getpgrp k, SIGTERM)]).
Proof.
  intros H.
  assert (well_formed (w_daemon w) /\ accounted w) as [Hw Ha].
  { remember (start inotifyFd junk server_fd sfd) as w0 eqn:E.
    assert (well_formed (w_daemon w0) /\ accounted w0) as H0.
    { subst. split; [apply start_well_formed | split_and!; [done | constructor | done]]. }
    clear E. induction H as [|w1 w2 w3 H12 _ IH]; [done|]. apply IH. destruct H0 as [Hw Ha].
    split; [|by eapply wstep_accounted].
    destruct H12; cbn [w_daemon] in *;
      [done | eapply turn_well_formed; eassumption | eapply turn_well_formed; eassumption | by destruct Hw]. }
  split; [exact Hw|]. split; [|intros n h d' E; pose proof (turn_kills n (w_daemon w)) as Hk; rewrite E in Hk;
    destruct Hk as [->|Hk]; [left; apply Hw | by right]]. rewrite (wf_count _ Hw). unfold outstanding. destruct Ha as (HP & _ & _).
  rewrite HP, !length_app. lia.
Qed.
End turns.

(** ** At a concrete input *)
Lemma reachable_well_formed_witness :
  well_formed (w_daemon demo_world) /\
  nb_process (d_table (w_daemon demo_world)) =
    Z.of_nat (length (w_living demo_world) + length (w_zombies demo_world)).
Proof.
  destruct (reachable_well_formed demo_rm demo_rc demo_rk 9090 4 junk 3 6 demo_world demo_reachable) as (H1 & H2 & _).
  split; [exact H1 | exact H2].
Defined.
