(* ===== verification/EndToEnd.v ===== *)
(** * A client session with the C daemon

    The sessions of [tests_python/test_demon.py] run against what the turns of the
    daemon send: the command a session writes is the one the daemon serves, and
    the verdict of the session is that of the process. *)
From S2P Require Import Prelude Bytes Utf8 FlatBuffers FlatBuffersRef FlatBuffersRefLaws.
From S2P Require Import Enums Tables Data Send Receive BuilderLogic SendFacts CommandFacts.
From S2P Require Import ReadFacts ReceiveFacts PeerCommand PeerMessages Wire TestCommands.
From S2P Require Import Socket Clients ClientFacts Sessions ProcessManager Daemon DaemonFacts.

(** ** A command as the daemon holds it *)

(** [strdup(s->c_str())]: up to the first NUL. *)
Fixpoint c_str (bs : bytes) : bytes :=
  match bs with
  | [] => []
  | b :: bs => if Byte.to_N b =? 0 then [] else b :: c_str bs
  end%N.

Definition c_text (s : pystr) : bytes := c_str (enc s).

Definition c_surveillance (w : watched) : surveillance :=
  match w with
  | WatchInotify p => SInotify (c_text (ip_root_paths p)) (ip_mask p) (ip_size p)
  | WatchSocket p => SSocket (destport p)
  end.

(** [receive_command] of [serialize.cpp]: strings are copied up to their first NUL. *)
Definition c_view (cmd : peer_command) : s_command :=
  mkSCommand (c_text (peer_path cmd)) (c_text <$> peer_args cmd) (c_text <$> peer_envp cmd)
    (peer_flags cmd) (peer_stack_size cmd) (c_surveillance <$> peer_watched cmd).

(** ** Reports on the wire *)
Definition report_event (r : report) : Event :=
  match r with
  | TCPSocketListening _ => TCP_SOCKET_LISTENING
  | ProcessLaunched _ => PROCESS_LAUNCHED
  | ChildCreationError _ => CHILD_CREATION_ERROR
  | ProcessTerminated _ _ => PROCESS_TERMINATED
  | ExecveTerminated _ _ _ => EXECVE_TERMINATED
  | PathUpdated _ _ _ _ => INOTIFY_PATH_UPDATED
  | WatchListUpdated _ => INOTIFY_WATCH_LIST_UPDATED
  | SocketWatched _ => SOCKET_WATCHED
  | SocketWatchTerminated _ _ => SOCKET_WATCH_TERMINATED
  end.

Section wire.
Context {FB : FlatBuffers} {FBL : FlatBuffersLaws FB}.

(** The bytes [msg] carry the report [r]: they show its table. *)
Definition encodes (r : report) (msg : bytes) : Prop :=
  match r with
  | TCPSocketListening port => shows_port port msg
  | ProcessLaunched pid => shows_launched pid msg
  | ChildCreationError code => shows_creation_error code msg
  | ProcessTerminated pid code => shows_terminated pid code msg
  | ExecveTerminated pid name success => exists s, enc s = name /\ shows_execve pid s success msg
  | PathUpdated path event size limit =>
      exists s, enc s = path /\ shows_update s (InotifyEvent_value event) size limit msg
  | WatchListUpdated path => exists s, enc s = path /\ shows_watch_list s msg
  | SocketWatched port => shows_watched port msg
  | SocketWatchTerminated port state => shows_watch_end port (SocketState_value state) msg
  end.

(** What the client's dispatcher says of a report. *)
Lemma encodes_seen r msg :
  encodes r msg -> forall event, sees event msg = bool_decide (report_event r = event).
Proof.
  destruct r; cbn [encodes report_event]; intros H;
    try (destruct H as (s & _ & H));
    first [ eapply shows_seen; [exact (proj2 H) | done] | eapply shows_seen; [exact H | done] ].
Qed.

(** A history of reports is a transcript for the session that awaits the last. *)
Lemma reports_transcript event reports final l msgs l' :
  Forall (fun r => report_event r <> event) reports -> report_event final = event ->
  Forall2 encodes (reports ++ [final]) msgs -> carries l msgs l' ->
  exists before msg, msgs = before ++ [msg] /\ encodes final msg /\
    length before = length reports /\ transcript event l before msg l'.
Proof.
  intros HF Hfin HE Hc. apply Forall2_app_inv_l in HE as (before & last & HB & HL & ->).
  apply Forall2_cons_inv_l in HL as (msg & [|] & Hmsg & HL & ->); [|by inversion HL].
  exists before, msg. split; [done|]. split; [done|].
  split; [symmetry; apply (Forall2_length _ _ _ HB)|]. split; [exact Hc|]. clear Hc HL. induction HB as [|r m reports before Hr _ IH]; [constructor|].
  inversion HF as [|? ? Hne HF']; subst. constructor; [|by apply IH].
  rewrite (encodes_seen _ _ Hr). by apply bool_decide_eq_false.
Qed.
End wire.

(** ** A session, from the command to the verdict *)

(** Below this size the default limits of the verifiers of the native libraries (a
    million tables) cannot be reached. *)
Definition verifier_limit : Z := 2 ^ 22.

Section session.
Context {FB : FlatBuffers} {FBL : FlatBuffersLaws FB}.
Context (rm : bytes -> Z -> Event) (rc : bytes -> Z -> option s_command) (rk : bytes -> Z -> option Z).
Context (destPort inotifyFd : Z).

(** What the daemon relies on of the functions of [serialize.cpp] that read a
    request: a command sent by the client is recognised, and read. *)
Definition reads_commands : Prop := forall cmd bi,
  command_ok cmd = true -> send_command_to_demon cmd = Ok bi -> blen (bi_buffer bi) <= verifier_limit ->
  rm (bi_buffer bi) (bi_size bi) = RUN_COMMAND /\
  rc (bi_buffer bi) (bi_size bi) = Some (c_view (peer_view cmd)).

(** The turns from the connection to the outcome of the execve. *)
Definition launch_life (server fd : Z) (buf : bytes) (k : kernel) (c : info_child) (path : bytes)
    (n : Z) : list notification :=
  [ConnexionReady server fd true; MessageReady fd (to_le 4 (blen buf)) buf k;
   ExecveReady (ic_pipe c) (ic_child_id c) path n].

(** The life of a process that ends well or not: its launch, the outcome of its
    execve, its end. *)
Definition one_life (server sfd fd : Z) (buf : bytes) (k : kernel) (c : info_child) (path : bytes)
    (n wstatus : Z) : list notification :=
  launch_life server fd buf k c path n ++ [SignalReady sfd (Some (ic_child_id c, wstatus))].

(** The life of a process that its client kills: the request comes after the
    outcome of the execve, and before the end. *)
Definition killed_life (server sfd fd : Z) (buf kill_buf : bytes) (k k' : kernel) (c : info_child)
    (path : bytes) (wstatus : Z) : list notification :=
  launch_life server fd buf k c path 0 ++
  [MessageReady fd (to_le 4 (blen kill_buf)) kill_buf k'; SignalReady sfd (Some (ic_child_id c, wstatus))].

(** The reports of that life, in the order they are sent. *)
Definition first_reports (cmd : Command) (c : info_child) (path : bytes) (success : bool) : list report :=
  TCPSocketListening (to_uint16 destPort) :: ProcessLaunched (ic_child_id c) ::
  (acknowledgement <$> c_to_watch (c_view (peer_view cmd))) ++
  [ExecveTerminated (ic_child_id c) path success].

Lemma first_reports_kind cmd c path success :
  Forall (fun r => report_event r <> PROCESS_TERMINATED) (first_reports cmd c path success).
Proof.
  unfold first_reports. do 2 (constructor; [done|]). apply Forall_app. split; [|by repeat constructor].
  apply Forall_fmap, Forall_true. by intros [].
Qed.

Lemma command_bytes cmd cb :
  command_ok cmd = true -> send_command_to_demon cmd = Ok cb ->
  bi_size cb = blen (bi_buffer cb) /\ 0 < blen (bi_buffer cb).
Proof.
  intros Hok Hcb. destruct (send_command_message cmd Hok) as (cb' & Hcb' & h & slots & (Hsz & Hlen & _) & _).
  rewrite Hcb in Hcb'. injection Hcb' as <-. split; [done | lia].
Qed.

Lemma turns_app ns ns' d d1 :
  turns rm rc rk destPort inotifyFd ns d = Next tt d1 ->
  turns rm rc rk destPort inotifyFd (ns ++ ns') d = turns rm rc rk destPort inotifyFd ns' d1.
Proof.
  revert d. induction ns as [|n ns IH]; intros d H; [by injection H as <-|]. cbn [turns app] in *.
  unfold mbind, dm_bind in *. destruct (turn rm rc rk destPort inotifyFd n d) as [[] d0|]; [by apply IH | done].
Qed.

Lemma launch_life_served cmd cb server fd k c path success d t :
  command_ok cmd = true -> cmd_args cmd <> [] -> reads_commands -> send_command_to_demon cmd = Ok cb ->
  blen (bi_buffer cb) <= verifier_limit -> 0 <= fd -> fd ∉ d_gone d -> launched_child k = Some c ->
  track (ic_child_id c) (ic_stack_p c) (err_file_of k) (d_table d) = Some t ->
  exists d', turns rm rc rk destPort inotifyFd
      (launch_life server fd (bi_buffer cb) k c path (if success : bool then 0 else 4)) d = Next tt d' /\
    d_sent d' = d_sent d ++ ((fun r => (fd, r)) <$> first_reports cmd c path success) /\
    d_table d' = t /\ d_communication_socket d' = Some fd /\ d_kills d' = d_kills d /\ d_gone d' = d_gone d.
Proof.
  intros Hok Hargs Hreads Hcb Hlt Hfd Hg Hc Ht.
  destruct (command_bytes cmd cb Hok Hcb) as [Hsz Hpos]. destruct (Hreads cmd cb Hok Hcb Hlt) as [Hrm Hrc].
  rewrite Hsz in *. unfold verifier_limit in Hlt.
  assert (exists arg args, c_args (c_view (peer_view cmd)) = arg :: args) as (arg & args & Ha)
    by (cbn; destruct (cmd_args cmd); [done | cbn; eauto]).
  unfold launch_life. cbn [turns].
  destruct (connexion_accepted rm rc rk destPort inotifyFd server fd d Hfd Hg)
    as (d1 & E1 & S1 & C1 & T1 & G1 & K1 & _).
  rewrite (dm_bind_next _ _ _ _ _ E1). rewrite <- G1 in Hg. rewrite <- T1 in Ht.
  destruct (launch_served inotifyFd fd (c_view (peer_view cmd)) k d1 arg args c t Hg Ha Hc Ht) as (d2 & E2 & []).
  rewrite (dm_bind_next (turn rm rc rk destPort inotifyFd (MessageReady fd _ _ k)) _ d1 tt d2)
    by (cbn [turn]; rewrite (command_message rm rc rk inotifyFd fd _ (c_view (peer_view cmd))); [done | lia | done | done]).
  cbn [turn]. unfold handle_execve. dstep.
  replace (if 0 <? (if success then 0 else 4) then Some false
           else if (if success then 0 else 4) =? 0 then Some true else None) with (Some success)
    by by destruct success.
  cbn. rewrite sv_socket, C1. cbn. rewrite send_message_next by congruence.
  eexists. split; [reflexivity|]. cbn. split_and!; [|done | congruence | congruence | congruence].
  rewrite sv_sent, S1. unfold first_reports.
  cbn [fmap list_fmap]. rewrite !fmap_app, <- !app_assoc. cbn. by rewrite <- (list_fmap_compose acknowledgement (fun r => (fd, r))).
Qed.

(** A command without arguments stops the daemon, which has greeted and said nothing
    else. *)
Lemma no_argument_served cmd cb server fd k d :
  command_ok cmd = true -> cmd_args cmd = [] -> reads_commands -> send_command_to_demon cmd = Ok cb ->
  blen (bi_buffer cb) <= verifier_limit -> 0 <= fd -> fd ∉ d_gone d ->
  exists d', turns rm rc rk destPort inotifyFd
      [ConnexionReady server fd true; MessageReady fd (to_le 4 (blen (bi_buffer cb))) (bi_buffer cb) k] d =
      Halt (Undefined OutOfBounds) d' /\
    d_sent d' = d_sent d ++ [(fd, TCPSocketListening (to_uint16 destPort))].
Proof.
  intros Hok Hargs Hreads Hcb Hlt Hfd Hg.
  destruct (command_bytes cmd cb Hok Hcb) as [Hsz Hpos]. destruct (Hreads cmd cb Hok Hcb Hlt) as [Hrm Hrc].
  rewrite Hsz in *. unfold verifier_limit in Hlt.
  assert (0 < blen (bi_buffer cb) < 2 ^ 31) as Hrange by lia.
  destruct (connexion_accepted rm rc rk destPort inotifyFd server fd d Hfd Hg) as (d1 & E1 & S1 & _).
  exists d1. cbn [turns]. rewrite (dm_bind_next _ _ _ _ _ E1), S1. split; [|done].
  unfold mbind, dm_bind. cbn [turn]. rewrite (command_message rm rc rk inotifyFd fd _ _ k _ Hrange Hrm Hrc).
  unfold handle_command, process_command_request, extract_clone_parameters.
  replace (c_args (c_view (peer_view cmd))) with (@nil bytes) by (cbn; by rewrite Hargs). done.
Qed.

Lemma last_end_served sfd fd pid wstatus status d t' :
  d_communication_socket d = Some fd -> fd ∉ d_gone d -> untrack pid (d_table d) = Some t' ->
  exit_status wstatus = Some status ->
  exists d', turns rm rc rk destPort inotifyFd [SignalReady sfd (Some (pid, wstatus))] d = Next tt d' /\
    d_sent d' = d_sent d ++ [(fd, ProcessTerminated pid status)] /\ d_kills d' = d_kills d.
Proof.
  intros Hs Hg Hu Hst.
  destruct (end_served rm rc rk destPort inotifyFd sfd fd pid wstatus status d t' Hs Hg Hu Hst)
    as (d' & E & S & _ & _ & K).
  exists d'. by rewrite turn_alone.
Qed.

Lemma one_life_served cmd cb server sfd fd k c path success wstatus status d t t' :
  command_ok cmd = true -> cmd_args cmd <> [] -> reads_commands -> send_command_to_demon cmd = Ok cb ->
  blen (bi_buffer cb) <= verifier_limit -> 0 <= fd -> fd ∉ d_gone d -> launched_child k = Some c ->
  track (ic_child_id c) (ic_stack_p c) (err_file_of k) (d_table d) = Some t ->
  untrack (ic_child_id c) t = Some t' -> exit_status wstatus = Some status ->
  exists d', turns rm rc rk destPort inotifyFd
      (one_life server sfd fd (bi_buffer cb) k c path (if success : bool then 0 else 4) wstatus) d = Next tt d' /\
    d_sent d' = d_sent d ++ ((fun r => (fd, r)) <$>
      (first_reports cmd c path success ++ [ProcessTerminated (ic_child_id c) status])).
Proof.
  intros Hok Hargs Hreads Hcb Hlt Hfd Hg Hc Ht Hu Hst.
  destruct (launch_life_served cmd cb server fd k c path success d t Hok Hargs Hreads Hcb Hlt Hfd Hg Hc Ht)
    as (d1 & E1 & S1 & T1 & C1 & _ & G1). rewrite <- T1 in Hu. rewrite <- G1 in Hg.
  destruct (last_end_served sfd fd _ _ _ d1 t' C1 Hg Hu Hst) as (d2 & E2 & S2 & _).
  exists d2. unfold one_life. rewrite (turns_app _ _ _ _ E1), S2, S1, fmap_app, app_assoc. done.
Qed.

(** What the daemon relies on for a request to kill. *)
Definition reads_kills : Prop := forall pid bi,
  in_range SInt32 pid = true -> send_kill_to_demon pid = Ok bi ->
  rm (bi_buffer bi) (bi_size bi) = KILL_PROCESS /\ rk (bi_buffer bi) (bi_size bi) = Some pid.

Lemma kill_bytes pid kb :
  in_range SInt32 pid = true -> send_kill_to_demon pid = Ok kb ->
  bi_size kb = blen (bi_buffer kb) /\ 0 < blen (bi_buffer kb).
Proof.
  intros Hp Hkb. destruct (send_kill_message pid Hp) as (kb' & Hkb' & h & Hsz & Hlen & _).
  rewrite Hkb in Hkb'. injection Hkb' as <-. split; [done | lia].
Qed.

Lemma kill_served fd pid kb k d :
  in_range SInt32 pid = true -> 0 < pid -> reads_kills -> send_kill_to_demon pid = Ok kb ->
  blen (bi_buffer kb) < 2 ^ 31 ->
  turn rm rc rk destPort inotifyFd (MessageReady fd (to_le 4 (blen (bi_buffer kb))) (bi_buffer kb) k) d =
  kill pid SIGKILL d.
Proof.
  intros Hp Hpos Hreads Hkb Hlt. destruct (kill_bytes pid kb Hp Hkb) as [Hsz Hb].
  destruct (Hreads pid kb Hp Hkb) as [Hm Hk]. rewrite Hsz in Hm, Hk.
  cbn [turn]. unfold Daemon.handle_message. rewrite read_framed by lia.
  rewrite (proj2 (Z.eqb_neq (blen (bi_buffer kb)) 0)) by lia. rewrite Hm, Hk.
  unfold handle_kill. by rewrite (proj2 (Z.ltb_lt 0 pid)).
Qed.

Lemma killed_life_served cmd cb kb server sfd fd k k' c path wstatus status d t t' :
  command_ok cmd = true -> cmd_args cmd <> [] -> reads_commands -> reads_kills ->
  send_command_to_demon cmd = Ok cb -> send_kill_to_demon (ic_child_id c) = Ok kb ->
  blen (bi_buffer cb) <= verifier_limit -> blen (bi_buffer kb) < 2 ^ 31 ->
  0 <= fd -> fd ∉ d_gone d -> launched_child k = Some c -> 0 < ic_child_id c < 2 ^ 31 ->
  track (ic_child_id c) (ic_stack_p c) (err_file_of k) (d_table d) = Some t ->
  untrack (ic_child_id c) t = Some t' -> exit_status wstatus = Some status ->
  exists d', turns rm rc rk destPort inotifyFd
      (killed_life server sfd fd (bi_buffer cb) (bi_buffer kb) k k' c path wstatus) d = Next tt d' /\
    d_kills d' = d_kills d ++ [(ic_child_id c, SIGKILL)] /\
    d_sent d' = d_sent d ++ ((fun r => (fd, r)) <$>
      (first_reports cmd c path true ++ [ProcessTerminated (ic_child_id c) status])).
Proof.
  intros Hok Hargs Hreads Hkills Hcb Hkb Hlt Hklt Hfd Hg Hc Hpid Ht Hu Hst.
  assert (in_range SInt32 (ic_child_id c) = true) as Hrange by (unfold in_range; cbn; lia).
  destruct (launch_life_served cmd cb server fd k c path true d t Hok Hargs Hreads Hcb Hlt Hfd Hg Hc Ht)
    as (d1 & E1 & S1 & T1 & C1 & K1 & G1). rewrite <- G1 in Hg.
  set (d2 := with_kill d1 (ic_child_id c, SIGKILL)).
  assert (untrack (ic_child_id c) (d_table d2) = Some t') as Hu2 by (cbn; by rewrite T1).
  destruct (last_end_served sfd fd _ _ _ d2 t' C1 Hg Hu2 Hst) as (d3 & E3 & S3 & K3).
  exists d3. unfold killed_life. rewrite (turns_app _ _ _ _ E1). split.
  - cbn [turns]. rewrite (dm_bind_next _ _ d1 tt d2); [exact E3|].
    by rewrite (kill_served fd (ic_child_id c) kb k' d1) by (done || lia).
  - rewrite K3, S3. cbn [d_kills d_sent with_kill d2]. rewrite K1, S1, fmap_app, app_assoc. done.
Qed.

(** C4. From the command to the verdict: the bytes a session writes, read by the
    daemon, make it launch the process; while the client is there, what the daemon then sends to the
    session's connection, on the wire in segments that cut no length and no message, makes
    the session conclude 1 when the process exited with status 0, and -1
    otherwise, with nothing else written and the connection closed. *)
Theorem command_to_verdict fuel cmd server sfd fd k c path success wstatus status d t t' msgs l l' :
  command_ok cmd = true -> cmd_args cmd <> [] -> reads_commands -> 0 <= fd -> fd ∉ d_gone d ->
  launched_child k = Some c -> 0 < ic_child_id c < 2 ^ 31 ->
  track (ic_child_id c) (ic_stack_p c) (err_file_of k) (d_table d) = Some t ->
  untrack (ic_child_id c) t = Some t' -> exit_status wstatus = Some status ->
  exists cb, send_command_to_demon cmd = Ok cb /\
    (blen (bi_buffer cb) <= verifier_limit ->
     let reports := first_reports cmd c path success ++ [ProcessTerminated (ic_child_id c) status] in
     exists d', turns rm rc rk destPort inotifyFd
         (one_life server sfd fd (bi_buffer cb) k c path (if success : bool then 0 else 4) wstatus) d
         = Next tt d' /\
       d_sent d' = d_sent d ++ ((fun r => (fd, r)) <$> reports) /\
       (Forall2 encodes reports msgs -> carries l msgs l' -> (length msgs <= fuel)%nat ->
        concludes (process_terminated fuel (Connected l Writable) cmd fresh_sock)
          (Some (if status =? 0 then 1 else -1)) l' (frame (bi_buffer cb)))).
Proof.
  intros Hok Hargs Hreads Hfd Hg Hc Hpid Ht Hu Hst.
  destruct (send_command_message cmd Hok) as (cb & Hcb & _). exists cb. split; [exact Hcb|]. intros Hlt.
  destruct (one_life_served cmd cb server sfd fd k c path success wstatus status d t t'
              Hok Hargs Hreads Hcb Hlt Hfd Hg Hc Ht Hu Hst) as (d' & E & Hs).
  exists d'. split; [exact E|]. split; [exact Hs|]. intros HE Hl Hfuel.
  destruct (reports_transcript PROCESS_TERMINATED _ (ProcessTerminated (ic_child_id c) status) l msgs l'
              (first_reports_kind cmd c path success) eq_refl HE Hl)
    as (before & msg & -> & Hs' & Hlen & Htr).
  rewrite length_app in Hfuel. cbn in Hfuel.
  destruct (process_terminated_verdict fuel cmd _ _ l before msg l' Hok Hs' Htr ltac:(lia))
    as (cb' & Hcb' & Hv).
  rewrite Hcb in Hcb'. injection Hcb' as <-.
  rewrite (proj2 (Z.leb_le 0 (ic_child_id c))) in Hv by lia. exact Hv.
Qed.

(** A history with one execve, as the killing session takes it. *)
Lemma reports_killing cmd c path final msgs l l' :
  Forall2 encodes (first_reports cmd c path true ++ [final]) msgs -> carries l msgs l' ->
  exists before exec fin, carries l (before ++ exec :: [] ++ [fin]) l' /\ Forall ClientFacts.quiet before /\
    encodes (ExecveTerminated (ic_child_id c) path true) exec /\ encodes final fin /\
    length msgs = (length before + 2)%nat.
Proof.
  unfold first_reports. rewrite app_comm_cons, app_comm_cons, <- app_assoc. intros HE Hc.
  apply Forall2_app_inv_l in HE as (before & rest & HB & HR & ->).
  apply Forall2_cons_inv_l in HR as (exec & rest' & Hexec & HR & ->).
  apply Forall2_cons_inv_l in HR as (fin & rest'' & Hfin & HR & ->).
  inversion HR; subst. exists before, exec, fin. split; [exact Hc|]. split; [|split_and!; [done..|]].
  - clear Hc HR Hexec Hfin.
    assert (Forall (fun r => report_event r <> PROCESS_TERMINATED /\ report_event r <> EXECVE_TERMINATED)
      (TCPSocketListening (to_uint16 destPort) :: ProcessLaunched (ic_child_id c) ::
       (acknowledgement <$> c_to_watch (c_view (peer_view cmd))))) as HF.
    { do 2 (constructor; [done|]). apply Forall_fmap, Forall_true. by intros []. }
    revert HF. induction HB as [|r m rs before Hr _ IH]; [constructor|].
    intros [[H1 H2] HF]%Forall_cons. constructor; [|by apply IH].
    split; rewrite (encodes_seen _ _ Hr); by apply bool_decide_eq_false_2.
  - rewrite length_app. cbn. lia.
Qed.

(** C5. The killing session, from the command to the verdict, on a connection whose
    client is there.  The bytes it writes,
    its command and one request, read by the daemon, make it launch the process
    and send it one SIGKILL; what the daemon sends back in the meantime makes the
    session write that request, for the pid of the process and for it only, and
    conclude 1 when the process ended with a signal or a non-zero status in time. *)
Theorem kill_to_verdict fuel in_time cmd server sfd fd k k' c path wstatus status d t t' msgs l l' :
  command_ok cmd = true -> cmd_args cmd <> [] -> reads_commands -> reads_kills -> 0 <= fd -> fd ∉ d_gone d ->
  launched_child k = Some c -> 0 < ic_child_id c < 2 ^ 31 ->
  track (ic_child_id c) (ic_stack_p c) (err_file_of k) (d_table d) = Some t ->
  untrack (ic_child_id c) t = Some t' -> exit_status wstatus = Some status ->
  exists cb kb, send_command_to_demon cmd = Ok cb /\ send_kill_to_demon (ic_child_id c) = Ok kb /\
    (blen (bi_buffer cb) <= verifier_limit -> blen (bi_buffer kb) < 2 ^ 31 ->
     let reports := first_reports cmd c path true ++ [ProcessTerminated (ic_child_id c) status] in
     exists d', turns rm rc rk destPort inotifyFd
         (killed_life server sfd fd (bi_buffer cb) (bi_buffer kb) k k' c path wstatus) d = Next tt d' /\
       d_kills d' = d_kills d ++ [(ic_child_id c, SIGKILL)] /\
       d_sent d' = d_sent d ++ ((fun r => (fd, r)) <$> reports) /\
       (Forall2 encodes reports msgs -> carries l msgs l' -> (length msgs <= fuel)%nat ->
        concludes (kill_process fuel in_time (Connected l Writable) cmd fresh_sock)
          (Some (if (0 <? status) && in_time then 1 else -1)) l'
          (frame (bi_buffer cb) ++ frame (bi_buffer kb)))).
Proof.
  intros Hok Hargs Hreads Hkills Hfd Hg Hc Hpid Ht Hu Hst.
  assert (in_range SInt32 (ic_child_id c) = true) as Hrange by (unfold in_range; cbn; lia).
  destruct (send_command_message cmd Hok) as (cb & Hcb & _).
  destruct (send_kill_message _ Hrange) as (kb & Hkb & _).
  exists cb, kb. split; [exact Hcb|]. split; [exact Hkb|]. intros Hlt Hklt.
  destruct (killed_life_served cmd cb kb server sfd fd k k' c path wstatus status d t t'
              Hok Hargs Hreads Hkills Hcb Hkb Hlt Hklt Hfd Hg Hc Hpid Ht Hu Hst) as (d' & E & Hk & Hs).
  exists d'. split; [exact E|]. split; [exact Hk|]. split; [exact Hs|]. intros HE Hl Hfuel.
  destruct (reports_killing cmd c path _ msgs l l' HE Hl)
    as (before & exec & fin & Hcar & Hq & (name & _ & Hexec) & Hfin & Hlen).
  destruct (kill_process_verdict fuel in_time cmd (ic_child_id c) name (ic_child_id c) status l before exec []
              fin l' Hok Hexec Hfin Hcar Hq (Forall_nil_2 _) ltac:(cbn; lia))
    as (cb' & kb' & Hcb' & Hkb' & _ & Hv).
  rewrite Hcb in Hcb'. injection Hcb' as <-. rewrite Hkb in Hkb'. injection Hkb' as <-.
  rewrite (proj2 (Z.ltb_lt 0 (ic_child_id c))) in Hv by lia. exact Hv.
Qed.
End session.

(** ** The readers of the client's side

    The functions of [serialize.cpp] through the generated accessors satisfy what
    the theorem asks of them. *)
Section readers.
Context {FB : FlatBuffers} {FBL : FlatBuffersLaws FB}.

Definition generated_rm (buf : bytes) (size : Z) : Event :=
  match receive_message_from_user buf size with RObj e => e | _ => NONE end.
Definition generated_rc (buf : bytes) (size : Z) : option s_command :=
  match peer_read buf with Ok cmd => Some (c_view cmd) | Err _ => None end.

Lemma generated_reads_commands : reads_commands generated_rm generated_rc.
Proof.
  intros cmd bi Hok Hb _. destruct (send_command_message cmd Hok) as (bi' & Hb' & h & slots & Hm & Hc).
  rewrite Hb in Hb'. injection Hb' as <-. unfold generated_rm, generated_rc.
  rewrite (receive_message_from_user_read _ _ _ _ _ Hm), (peer_read_ok _ _ _ _ Hm Hc Hok). done.
Qed.

Definition generated_rk (buf : bytes) (size : Z) : option Z := Some (receive_kill buf size).

Lemma generated_reads_kills : reads_kills generated_rm generated_rk.
Proof.
  intros pid bi Hp Hb. destruct (send_kill_message pid Hp) as (bi' & Hb' & h & Hm).
  rewrite Hb in Hb'. injection Hb' as <-. unfold generated_rm, generated_rk.
  rewrite (receive_message_from_user_read _ _ _ _ _ Hm). split; [done|].
  f_equal. eapply receive_kill_read; [done | slot_lookup].
Qed.
End readers.

(** ** At a concrete input *)

(** A message of a Python builder carries its report. *)
Ltac notified := eexists; split; [vm_compute; reflexivity | vm_compute; reflexivity].
Ltac encoded :=
  first [ apply notifies_port; [reflexivity | notified]
        | apply notifies_launched; [reflexivity | notified]
        | apply notifies_terminated; [reflexivity | reflexivity | notified]
        | exists (str "/bin/ls"); split; [reflexivity|];
          apply notifies_execve; [reflexivity | by apply text_ok_bool | notified] ].

Section witnesses.
#[local] Existing Instance ref_runtime.
#[local] Existing Instance ref_laws.

Definition ls_kernel : kernel :=
  mkKernel 5 (Some 8192) (Some 8) (Some 4242) 0 (fun _ => 9) (fun _ => true) (fun _ => true) 60.

(** What the daemon says of [ls], on the wire. *)
Definition ls_messages : list bytes := [greeting; launched; executed true; ended 0].

Lemma ls_encoded :
  Forall2 encodes [TCPSocketListening 8080; ProcessLaunched 4242;
    ExecveTerminated 4242 (enc (str "/bin/ls")) true; ProcessTerminated 4242 0] ls_messages.
Proof. repeat (apply Forall2_cons_2; [encoded|]). constructor. Qed.

Lemma ls_carried : carries (one_segment ls_messages) ls_messages [].
Proof. apply (carries_segment ls_messages []); [done | repeat constructor; vm_compute; done]. Qed.

Lemma ls_small cb : send_command_to_demon ls_command = Ok cb -> blen (bi_buffer cb) <= verifier_limit.
Proof. intros H. vm_compute in H. injection H as <-. by vm_compute. Qed.

Lemma command_to_verdict_witness :
  exists cb, send_command_to_demon ls_command = Ok cb /\
    (exists d', turns generated_rm generated_rc generated_rk 8080 4
         (one_life 3 6 7 (bi_buffer cb) ls_kernel (mkInfoChild 8192 4242 8) (enc (str "/bin/ls")) 0 0) demo0
         = Next tt d' /\
       concludes (process_terminated 9 (Connected (one_segment ls_messages) Writable) ls_command fresh_sock)
         (Some 1) [] (frame (bi_buffer cb))).
Proof.
  destruct (track 4242 8192 5 (d_table demo0)) as [t|] eqn:Ht; [|vm_compute in Ht; discriminate].
  destruct (untrack 4242 t) as [t'|] eqn:Hu;
    [|vm_compute in Ht; injection Ht as <-; vm_compute in Hu; discriminate].
  destruct (command_to_verdict generated_rm generated_rc generated_rk 8080 4 9 ls_command 3 6 7
              ls_kernel (mkInfoChild 8192 4242 8) (enc (str "/bin/ls")) true 0 0 demo0 t t'
              ls_messages (one_segment ls_messages) [])
    as (cb & Hcb & H); [reflexivity | discriminate | exact generated_reads_commands | lia | by apply not_elem_of_nil | reflexivity
                       | cbn; lia | exact Ht | exact Hu | reflexivity |].
  exists cb. split; [exact Hcb|]. destruct (H (ls_small cb Hcb)) as (d' & E & _ & Hv).
  exists d'. split; [exact E | exact (Hv ls_encoded ls_carried ltac:(cbn; lia))].
Defined.

(** [ls] killed before its end: 9 is what [waitpid] stores. *)
Definition killed_messages : list bytes := [greeting; launched; executed true; ended 9].

Lemma killed_encoded :
  Forall2 encodes [TCPSocketListening 8080; ProcessLaunched 4242;
    ExecveTerminated 4242 (enc (str "/bin/ls")) true; ProcessTerminated 4242 9] killed_messages.
Proof. repeat (apply Forall2_cons_2; [encoded|]). constructor. Qed.

Lemma killed_carried : carries (one_segment killed_messages) killed_messages [].
Proof. apply (carries_segment killed_messages []); [done | repeat constructor; vm_compute; done]. Qed.

Lemma kill_small kb : send_kill_to_demon 4242 = Ok kb -> blen (bi_buffer kb) < 2 ^ 31.
Proof. intros H. vm_compute in H. injection H as <-. reflexivity. Qed.

Lemma kill_to_verdict_witness :
  exists cb kb, send_command_to_demon ls_command = Ok cb /\ send_kill_to_demon 4242 = Ok kb /\
    (exists d', turns generated_rm generated_rc generated_rk 8080 4
         (killed_life 3 6 7 (bi_buffer cb) (bi_buffer kb) ls_kernel ls_kernel (mkInfoChild 8192 4242 8)
            (enc (str "/bin/ls")) 9) demo0 = Next tt d' /\
       d_kills d' = [(4242, SIGKILL)] /\
       concludes (kill_process 9 true (Connected (one_segment killed_messages) Writable) ls_command fresh_sock)
         (Some 1) [] (frame (bi_buffer cb) ++ frame (bi_buffer kb))).
Proof.
  destruct (track 4242 8192 5 (d_table demo0)) as [t|] eqn:Ht; [|vm_compute in Ht; discriminate].
  destruct (untrack 4242 t) as [t'|] eqn:Hu;
    [|vm_compute in Ht; injection Ht as <-; vm_compute in Hu; discriminate].
  destruct (kill_to_verdict generated_rm generated_rc generated_rk 8080 4 9 true ls_command 3 6 7
              ls_kernel ls_kernel (mkInfoChild 8192 4242 8) (enc (str "/bin/ls")) 9 9 demo0 t t'
              killed_messages (one_segment killed_messages) [])
    as (cb & kb & Hcb & Hkb & H); [reflexivity | discriminate | exact generated_reads_commands
      | exact generated_reads_kills | lia | by apply not_elem_of_nil | reflexivity | cbn; lia | exact Ht | exact Hu | reflexivity |].
  exists cb, kb. split; [exact Hcb|]. split; [exact Hkb|].
  destruct (H (ls_small cb Hcb) (kill_small kb Hkb)) as (d' & E & Hk & _ & Hv).
  exists d'. split; [exact E|]. split; [exact Hk | exact (Hv killed_encoded killed_carried ltac:(cbn; lia))].
Defined.
End witnesses.
