(* ===== verification/CppSend.v ===== *)
(** * What the C++ code sends ([serialize.cpp], [serialize_wrapper.cpp])

    The functions that build a message, over the interface of the C++ library
    (NativeBuilder) and the code generated for it (NativeTables): the nine
    notifications of the C daemon, and the two requests of a C client.  A [char *]
    is the bytes it points to, of which [CreateString] takes those before the
    first NUL.  Every report of the daemon is proved to be on the wire what the
    client reads ([encodes]). *)
From S2P Require Import Prelude Bytes Utf8 FlatBuffers FlatBuffersRef FlatBuffersRefLaws.
From S2P Require Import Enums Tables Data Send Receive BuilderLogic SendFacts CommandFacts.
From S2P Require Import ReadFacts ReceiveFacts PeerCommand PeerMessages Wire NativeBuilder NativeTables NativeCommand.
From S2P Require Import TestCommands ProcessManager Daemon DaemonFacts EndToEnd.

Section cpp.
Context {NB : NativeBuilder}.

(** [builder->CreateString(s)] for a [const char *]. *)
Definition CreateCString (s : bytes) : st nbuilder Z := create_string (c_str s).

(** The frame of the senders: a builder, and a copy of the finished buffer, whose
    [size] is an [int]. *)
Definition copy_buffer (buf : bytes) : BufferInfo := mkBufferInfo buf (to_int (blen buf)).
Definition with_builder (m : st nbuilder bytes) : res BufferInfo :=
  copy_buffer <$> run m (new_builder 1024).

(** *** To the daemon *)
Definition serialize_surveillance (w : surveillance) : st nbuilder Z :=
  match w with
  | SInotify root_paths mask size =>
      root_paths ← CreateCString root_paths;
      event_data ← CreateInotify (Some root_paths) mask size;
      CreateSurveillanceEvent Surveillance.Inotify (Some event_data)
  | SSocket destport =>
      event_data ← CreateTCPSocket destport;
      CreateSurveillanceEvent Surveillance.TCPSocket (Some event_data)
  end.

Definition serialize_command (cmd : s_command) : st nbuilder unit :=
  args_refs ← mapM CreateCString (c_args cmd);
  envp_refs ← mapM CreateCString (c_envp cmd);
  path ← CreateCString (c_path cmd);
  args ← create_vector args_refs;
  envp ← create_vector envp_refs;
  surveillances ← mapM serialize_surveillance (c_to_watch cmd);
  surveillance_vector ← create_vector surveillances;
  run_command ← CreateRunCommand (Some path) (Some args) (Some envp) (c_flags cmd) (c_stack_size cmd)
                  (Some surveillance_vector);
  message ← CreateMessage Event.RunCommand (Some run_command);
  finish message.

Definition send_command_to_demon (cmd : s_command) : res BufferInfo :=
  with_builder (_ ← serialize_command cmd; finished_data).

Definition send_kill_to_demon (pid : Z) : res BufferInfo :=
  with_builder (
    kill_process ← CreateKillProcess pid;
    event ← CreateMessage Event.KillProcess (Some kill_process);
    finish_buffer event).

(** *** To the user *)
Definition send_execveterminated_to_user (pid : Z) (command_name : bytes) (success : bool) : res BufferInfo :=
  with_builder (
    command_name ← CreateCString command_name;
    execve_terminated ← CreateExecveTerminated pid (Some command_name) success;
    event ← CreateMessage Event.ExecveTerminated (Some execve_terminated);
    finish_buffer event).

Definition send_processlaunched_to_user (pid : Z) : res BufferInfo :=
  with_builder (
    process_launched ← CreateProcessLaunched pid;
    event ← CreateMessage Event.ProcessLaunched (Some process_launched);
    finish_buffer event).

Definition send_childcreationerror_to_user (error_code : Z) : res BufferInfo :=
  with_builder (
    child_creation_error ← CreateChildCreationError error_code;
    event ← CreateMessage Event.ChildCreationError (Some child_creation_error);
    finish_buffer event).

Definition send_processterminated_to_user (pid error_code : Z) : res BufferInfo :=
  with_builder (
    process_terminated ← CreateProcessTerminated pid error_code;
    event ← CreateMessage Event.ProcessTerminated (Some process_terminated);
    finish_buffer event).

Definition send_tcpsocketlistening_to_user (port : Z) : res BufferInfo :=
  with_builder (
    tcp_socket ← CreateTCPSocketListening port;
    event ← CreateMessage Event.TCPSocketListening (Some tcp_socket);
    finish_buffer event).

(** The casts of the enumerations keep their numbers. *)
Definition send_inotifypathupdated_to_user (path : bytes) (event : InotifyEvent) (size size_limit : Z)
    : res BufferInfo :=
  with_builder (
    path_str ← CreateCString path;
    inotify_path_updated ← CreateInotifyPathUpdated (Some path_str) (InotifyEvent_value event) size size_limit;
    event ← CreateMessage Event.InotifyPathUpdated (Some inotify_path_updated);
    finish_buffer event).

Definition send_inotifywatchlistupdated_to_user (path : bytes) : res BufferInfo :=
  with_builder (
    path_str ← CreateCString path;
    inotify_watch_list_updated ← CreateInotifyWatchListUpdated (Some path_str);
    event ← CreateMessage Event.InotifyWatchListUpdated (Some inotify_watch_list_updated);
    finish_buffer event).

Definition send_socketwatched_to_user (port : Z) : res BufferInfo :=
  with_builder (
    socket_watched ← CreateSocketWatched port;
    event ← CreateMessage Event.SocketWatched (Some socket_watched);
    finish_buffer event).

Definition send_socketwatchterminated_to_user (port : Z) (state : SocketState) : res BufferInfo :=
  with_builder (
    socket_watch_terminated ← CreateSocketWatchTerminated port (SocketState_value state);
    event ← CreateMessage Event.SocketWatchTerminated (Some socket_watch_terminated);
    finish_buffer event).

(** *** [serialize_wrapper.cpp]: [try { return ...; } catch (...) { return nullptr; }] *)
Definition or_nullptr (r : res BufferInfo) : option BufferInfo := catch_all (Some <$> r) None.

(** The call of the C daemon for each of its reports. *)
Definition send_report_c (r : report) : option BufferInfo :=
  or_nullptr
    match r with
    | TCPSocketListening port => send_tcpsocketlistening_to_user port
    | ProcessLaunched pid => send_processlaunched_to_user pid
    | ChildCreationError code => send_childcreationerror_to_user code
    | ProcessTerminated pid code => send_processterminated_to_user pid code
    | ExecveTerminated pid name success => send_execveterminated_to_user pid name success
    | PathUpdated path event size limit => send_inotifypathupdated_to_user path event size limit
    | WatchListUpdated path => send_inotifywatchlistupdated_to_user path
    | SocketWatched port => send_socketwatched_to_user port
    | SocketWatchTerminated port state => send_socketwatchterminated_to_user port state
    end.
End cpp.

(** ** Strings cut at their first NUL *)
Fixpoint cut (s : pystr) : pystr :=
  match s with
  | [] => []
  | c :: s => if c =? 0 then [] else c :: cut s
  end.

Lemma c_str_app bs bs' : Forall (fun b => Byte.to_N b <> 0%N) bs -> c_str (bs ++ bs') = bs ++ c_str bs'.
Proof.
  induction 1 as [|b bs Hb _ IH]; [done|]. cbn [app c_str]. rewrite (proj2 (N.eqb_neq _ _)) by done.
  by rewrite IH.
Qed.

Lemma c_str_idem bs : c_str (c_str bs) = c_str bs.
Proof.
  induction bs as [|b bs IH]; [done|]. cbn [c_str]. destruct (N.eqb_spec (Byte.to_N b) 0); [done|].
  cbn [c_str]. rewrite (proj2 (N.eqb_neq _ _)) by done. by rewrite IH.
Qed.

Lemma byte_of_nonzero z : z mod 256 <> 0 -> Byte.to_N (byte_of z) <> 0%N.
Proof.
  intros Hz E. apply Hz. rewrite <- byte_val_of. unfold byte_val. by rewrite E.
Qed.

(** Only the code point 0 is encoded with a NUL. *)
Lemma encode_point_nonzero c bs :
  encode_point c = Some bs -> c <> 0 -> Forall (fun b => Byte.to_N b <> 0%N) bs.
Proof.
  intros E Hc. unfold encode_point in E.
  assert (forall k x, 128 <= k < 256 -> 0 <= x < 256 - k -> (k + x) mod 256 <> 0) as Hk.
  { intros k x Hk Hx. rewrite Z.mod_small; lia. }
  assert (forall x, Byte.to_N (cont x) <> 0%N) as Hcont.
  { intros x. apply byte_of_nonzero. pose proof (Z.mod_pos_bound x 64 ltac:(lia)). apply Hk; lia. }
  repeat case_match; simplify_eq; repeat (constructor; [try apply Hcont|]); try constructor;
    apply byte_of_nonzero.
  - rewrite Z.mod_small; lia.
  - apply Hk; [lia|]. pose proof (Z.div_lt_upper_bound c 64 32). pose proof (Z.div_pos c 64). lia.
  - apply Hk; [lia|]. pose proof (Z.div_lt_upper_bound c 4096 16). pose proof (Z.div_pos c 4096). lia.
  - apply Hk; [lia|]. pose proof (Z.div_lt_upper_bound c 262144 8). pose proof (Z.div_pos c 262144). lia.
Qed.

Lemma encodable_cons c s :
  encodable (c :: s) = true -> exists bs, encode_point c = Some bs /\ enc (c :: s) = bs ++ enc s /\ encodable s = true.
Proof.
  intros H. pose proof (encodable_enc _ H) as E. cbn [utf8_encode] in E.
  assert (encodable s = true) as Hs by by apply andb_true_iff in H as [_ ?].
  rewrite (encodable_enc s Hs) in E. destruct (encode_point c) as [bs|]; [|done].
  exists bs. by injection E as <-.
Qed.

Lemma cut_encodable s : encodable s = true -> encodable (cut s) = true.
Proof.
  induction s as [|c s IH]; [done|]. cbn [cut]. intros [Hc Hs]%andb_true_iff.
  destruct (c =? 0); [done|]. apply andb_true_iff. auto.
Qed.

Lemma c_text_cut s : encodable s = true -> c_text s = enc (cut s).
Proof.
  unfold c_text. induction s as [|c s IH]; [done|]. intros H.
  destruct (encodable_cons c s H) as (bs & Hbs & -> & Hs). cbn [cut].
  destruct (Z.eqb_spec c 0) as [->|Hne]; [by injection Hbs as <-|].
  rewrite c_str_app by (by eapply encode_point_nonzero). rewrite (IH Hs).
  assert (encodable (c :: cut s) = true) as H'.
  { apply andb_true_iff in H as [Hc _]. apply andb_true_iff. split; [done | by apply cut_encodable]. }
  destruct (encodable_cons c (cut s) H') as (bs' & Hbs' & -> & _). by simplify_eq.
Qed.

Lemma cut_length s : (length (cut s) <= length s)%nat.
Proof. induction s as [|c s IH]; [done|]. cbn [cut]. destruct (c =? 0); cbn [length]; lia. Qed.

(** A command with its strings cut. *)
Definition cut_watched (w : watched) : watched :=
  match w with
  | WatchInotify p => WatchInotify (mkInotifyParameters (cut (ip_root_paths p)) (ip_mask p) (ip_size p))
  | WatchSocket p => WatchSocket p
  end.

Definition cut_peer (pc : peer_command) : peer_command :=
  mkPeer (cut (peer_path pc)) (cut <$> peer_args pc) (cut <$> peer_envp pc) (peer_flags pc)
    (peer_stack_size pc) (cut_watched <$> peer_watched pc).

Lemma total_fmap_le {A B} (f : A -> B) (g : B -> Z) (w : A -> Z) l :
  (forall x, g (f x) <= w x) -> total g (f <$> l) <= total w l.
Proof.
  intros H. induction l as [|x l IH]; [done|]. rewrite fmap_cons, !total_cons. specialize (H x). lia.
Qed.

Lemma forallb_fmap_impl {A B} (f : A -> B) (p : B -> bool) (q : A -> bool) l :
  (forall x, q x = true -> p (f x) = true) -> forallb q l = true -> forallb p (f <$> l) = true.
Proof.
  intros H. rewrite !forallb_Forall, Forall_fmap. intros Hl. eapply Forall_impl; [exact Hl | exact H].
Qed.

Lemma peer_ok_intro pc :
  encodable (peer_path pc) = true -> forallb encodable (peer_args pc) = true ->
  forallb encodable (peer_envp pc) = true -> in_range SUint32 (peer_flags pc) = true ->
  in_range SUint32 (peer_stack_size pc) = true -> forallb watched_ok (peer_watched pc) = true ->
  native_weight pc <= native_max -> peer_ok pc = true.
Proof.
  intros H1 H2 H3 H4 H5 H6 H7. unfold peer_ok, command_representable, as_command.
  cbn [cmd_path cmd_args cmd_envp cmd_flags cmd_stack_size cmd_to_watch].
  rewrite H1, H2, H3, H4, H5, (proj2 (Z.leb_le _ _) H7).
  by rewrite (forallb_fmap_impl asking _ watched_ok).
Qed.

Lemma peer_ok_cut pc : peer_ok pc = true -> peer_ok (cut_peer pc) = true.
Proof.
  intros (H1 & H2 & H3 & H4 & H5 & H6 & H7)%peer_ok_parts.
  assert (forall s, string_weight (cut s) <= string_weight s) as Hw.
  { intros s. unfold string_weight. pose proof (cut_length s). lia. }
  assert (forall w, watched_weight (cut_watched w) <= watched_weight w) as Hww.
  { intros [p|p]; unfold watched_weight; cbn [cut_watched ip_root_paths]; [|lia].
    pose proof (cut_length (ip_root_paths p)). lia. }
  apply peer_ok_intro; cbn [cut_peer peer_path peer_args peer_envp peer_flags peer_stack_size peer_watched]; try done.
  - by apply cut_encodable.
  - by apply (forallb_fmap_impl cut _ encodable); [apply cut_encodable|].
  - by apply (forallb_fmap_impl cut _ encodable); [apply cut_encodable|].
  - apply (forallb_fmap_impl cut_watched _ watched_ok); [|done].
    intros [p|p]; [|done]. unfold watched_ok, surveillance_ok. cbn. rewrite !andb_true_iff.
    intros [[??]?]. split_and!; [by apply cut_encodable | done..].
  - unfold native_weight in *. cbn [peer_path peer_args peer_envp peer_watched cut_peer].
    pose proof (total_fmap_le cut string_weight string_weight (peer_args pc) Hw).
    pose proof (total_fmap_le cut string_weight string_weight (peer_envp pc) Hw).
    pose proof (total_fmap_le cut_watched watched_weight watched_weight (peer_watched pc) Hww).
    pose proof (Hw (peer_path pc)). lia.
Qed.

(** ** What is sent *)
Section facts.
Context {FB : FlatBuffers} {FBL : FlatBuffersLaws FB} {NB : NativeBuilder} {NL : NativeLaws FB NB}.

Lemma to_int_length buf : blen buf <= native_max -> to_int (blen buf) = blen buf.
Proof.
  intros H. pose proof (blen_nonneg buf). unfold to_int, native_max in *.
  rewrite Z.mod_small; lia.
Qed.

Lemma with_builder_sends (m : st nbuilder bytes) P :
  sends_image m P -> exists buf, with_builder m = Ok (sized buf) /\ built buf /\ P buf.
Proof.
  intros H. destruct (runs_new 1024 m _ H) as (buf & v & E & [Hlen Hb] & HP). exists buf. split; [|done].
  unfold with_builder. rewrite E. cbn. unfold copy_buffer, sized. by rewrite to_int_length.
Qed.

(** What the C daemon can put on the wire: values of the width of their field (they
    have its type), and text that is UTF-8 without a NUL and fits a buffer. *)
Definition c_sendable (bs : bytes) : Prop := c_str bs = bs /\ exists s, sendable bs s.

Definition report_ok (r : report) : Prop :=
  match r with
  | TCPSocketListening port => in_range SUint16 port = true
  | ProcessLaunched pid => in_range SInt32 pid = true
  | ChildCreationError code => in_range SUint32 code = true
  | ProcessTerminated pid code => in_range SInt32 pid = true /\ in_range SUint32 code = true
  | ExecveTerminated pid name _ => in_range SInt32 pid = true /\ c_sendable name
  | PathUpdated path _ size limit =>
      (in_range SUint32 size = true /\ in_range SUint32 limit = true) /\ c_sendable path
  | WatchListUpdated path => c_sendable path
  | SocketWatched port | SocketWatchTerminated port _ => in_range SInt32 port = true
  end.

(** Each notification of the C daemon is a buffer that carries its report. *)
Lemma report_sent_c r :
  report_ok r -> exists msg, send_report_c r = Some (sized msg) /\ built msg /\ encodes r msg.
Proof.
  assert (forall e, in_range SInt8 (InotifyEvent_value e) = true) as Hev by by intros [].
  assert (forall e, in_range SInt8 (SocketState_value e) = true) as Hst by by intros [].
  assert (forall m P, sends_image m P ->
            exists msg, or_nullptr (with_builder m) = Some (sized msg) /\ built msg /\ P msg) as Hsend.
  { intros m P H. destruct (with_builder_sends m P H) as (msg & -> & HP). by exists msg. }
  destruct r; cbn [report_ok encodes]; unfold send_report_c; intros H.
  - by apply Hsend, sends_port.
  - by apply Hsend, sends_launched.
  - by apply Hsend, sends_creation_error.
  - destruct H. by apply Hsend, sends_terminated.
  - destruct H as (H & Hc & s & Hs). unfold send_execveterminated_to_user, CreateCString. rewrite Hc.
    destruct (Hsend _ _ (sends_execve_cpp _ s pid success Hs H)) as (msg & E & Hb & Hm).
    exists msg. split; [exact E|]. split; [exact Hb|]. exists s. by destruct Hs as (_ & ? & _).
  - destruct H as ((H1 & H2) & Hc & s & Hs). unfold send_inotifypathupdated_to_user, CreateCString. rewrite Hc.
    destruct (Hsend _ _ (sends_update _ s _ _ _ Hs (Hev event) H1 H2)) as (msg & E & Hb & Hm).
    exists msg. split; [exact E|]. split; [exact Hb|]. exists s. by destruct Hs as (_ & ? & _).
  - destruct H as (Hc & s & Hs). unfold send_inotifywatchlistupdated_to_user, CreateCString. rewrite Hc.
    destruct (Hsend _ _ (sends_watch_list _ s Hs)) as (msg & E & Hb & Hm).
    exists msg. split; [exact E|]. split; [exact Hb|]. exists s. by destruct Hs as (_ & ? & _).
  - by apply Hsend, sends_watched.
  - by apply Hsend, sends_watch_end.
Qed.
Lemma create_c_text s : encodable s = true -> CreateCString (c_text s) = create_string (enc (cut s)).
Proof. intros Hs. unfold CreateCString. rewrite <- c_text_cut by done. unfold c_text. by rewrite c_str_idem. Qed.

Lemma mapM_same {S A B C} (f : A -> st S C) (g : B -> st S C) l l' :
  Forall2 (fun x y => f x = g y) l l' -> mapM f l = mapM g l'.
Proof. induction 1 as [|x y l l' E _ IH]; [done|]. cbn [mapM]. by rewrite E, IH. Qed.

Lemma create_c_texts ss :
  forallb encodable ss = true -> mapM CreateCString (c_text <$> ss) = mapM create_string (enc <$> (cut <$> ss)).
Proof.
  intros H. apply mapM_same. apply forallb_Forall in H.
  induction H as [|s ss Hs _ IH]; constructor; [by apply create_c_text | exact IH].
Qed.

Lemma serialize_c_watches ws :
  forallb watched_ok ws = true ->
  mapM serialize_surveillance (c_surveillance <$> ws) = mapM native_watch (cut_watched <$> ws).
Proof.
  intros H. apply mapM_same. apply forallb_Forall in H.
  induction H as [|w ws Hw _ IH]; constructor; [|exact IH].
  destruct w as [p|p]; [|done]. cbn [c_surveillance cut_watched serialize_surveillance native_watch ip_root_paths].
  rewrite create_c_text; [done|]. unfold watched_ok, surveillance_ok in Hw. cbn in Hw.
  by rewrite !andb_true_iff in Hw; destruct Hw as [[? _] _].
Qed.

(** The strings of a command, then what is common to the native languages. *)
Lemma runs_serialize_command pc :
  peer_ok pc = true ->
  sends_image (_ ← serialize_command (c_view pc); finished_data) (shows_command (cut_peer pc)).
Proof.
  intros Hok. pose proof (peer_ok_parts _ Hok) as (H1 & H2 & H3 & _ & _ & H6 & _).
  destruct (peer_ok_parts _ (peer_ok_cut _ Hok)) as (G1 & G2 & G3 & G4 & G5 & G6 & G7).
  unfold sends_image, serialize_command. cbn [c_view c_args c_envp c_path c_flags c_stack_size c_to_watch].
  rewrite (create_c_texts _ H2), (create_c_texts _ H3), (create_c_text _ H1), (serialize_c_watches _ H6).
  unfold native_weight in G7. cbn [cut_peer peer_path peer_args peer_envp peer_watched] in *.
  pose proof (blen_enc _ G1) as Hp. pose proof (total_length string_weight 32 (cut <$> peer_args pc) string_weight_pos).
  pose proof (total_length string_weight 32 (cut <$> peer_envp pc) string_weight_pos).
  pose proof (total_length watched_weight 320 (cut_watched <$> peer_watched pc) watched_weight_pos).
  assert (string_weight (cut (peer_path pc)) = 4 * Z.of_nat (length (cut (peer_path pc))) + 32) as Hpw by reflexivity.
  nassoc. eapply runs_bind; [apply runs_native_strings; [done | lia]|].
  intros args_offs ? (h1 & sz1 & -> & Hh1 & Hsz1 & HA).
  nassoc. eapply runs_bind; [apply runs_native_strings; [done | lia]|].
  intros envp_offs ? (h2 & sz2 & -> & Hh2 & Hsz2 & HE).
  pose proof (Forall2_length _ _ _ HA). pose proof (Forall2_length _ _ _ HE).
  assert (Forall2 (string_at h2) args_offs (cut <$> peer_args pc)) as HA2 by eauto with heap.
  nstep 0.
  assert (Forall2 (string_at h) args_offs (cut <$> peer_args pc)) as HA3 by eauto with heap.
  assert (Forall2 (string_at h) envp_offs (cut <$> peer_envp pc)) as HE3 by eauto with heap.
  nassoc. eapply runs_bind; [apply runs_create_vector; [by eauto with heap | unfold vector_cost, op_cost in *; lia]|].
  bpost.
  nassoc. eapply runs_bind; [apply runs_create_vector; [by eauto with heap | unfold vector_cost, op_cost in *; lia]|].
  bpost. unfold vector_cost, op_cost in *.
  nassoc. eapply runs_bind; [apply runs_native_watches; [done | lia]|].
  intros watch_offs ? (h4 & sz4 & -> & Hh4 & Hsz4 & HW). pose proof (Forall2_length _ _ _ HW).
  assert (h ⊆ h4) by by repeat (etrans; [eassumption|]). heap_mono Hh4.
  eapply runs_ext; [|apply (runs_native_request (cut_peer pc) h4 sz4 off off0 off1 args_offs envp_offs watch_offs);
    eauto with heap; lia].
  intros b. unfold finish_buffer, mbind, st_bind. cbn [peer_flags peer_stack_size cut_peer].
  by destruct (create_vector watch_offs b) as [[? ?]|]; [destruct (CreateRunCommand _ _ _ _ _ _ _) as [[? ?]|];
    [destruct (CreateMessage _ _ _) as [[? ?]|]|]|].
Qed.

Lemma command_sent_c pc :
  peer_ok pc = true ->
  exists msg, send_command_to_demon (c_view pc) = Ok (sized msg) /\ built msg /\ shows_command (cut_peer pc) msg.
Proof. intros Hok. by apply with_builder_sends, runs_serialize_command. Qed.

Lemma kill_sent_c pid :
  in_range SInt32 pid = true ->
  exists msg, send_kill_to_demon pid = Ok (sized msg) /\ built msg /\
    shows msg Event.KillProcess 1 (fun _ slots => slots !! 0 = scalar_slot SInt32 pid).
Proof.
  intros Hp. apply with_builder_sends. unfold sends_image. nrun 1.
  eapply runs_conseq; [eapply runs_create_message; nside|].
  intros buf v [Hlen (h' & _ & Hm)]. split; [exact Hlen|]. eexists _, _. split; [exact Hm | slot_lookup].
Qed.
End facts.
