(* ===== verification/TestDemon.v ===== *)
(** * The tests of [tests_python/test_demon.py]

    One Definition per test function, over what its fixture gives: a session, on
    the command of the test, and the assertion on its verdict.  What a test
    concludes is then a function of the reports of the daemon, whatever the
    daemon: [judged], the specification of the suite. *)
From S2P Require Import Prelude Bytes Utf8 FlatBuffers FlatBuffersRef FlatBuffersRefLaws.
From S2P Require Import Enums Tables Data Send Receive BuilderLogic SendFacts CommandFacts.
From S2P Require Import ReadFacts ReceiveFacts PeerCommand PeerMessages Wire TestCommands.
From S2P Require Import Socket Clients ClientFacts Sessions Daemon EndToEnd.

(** ** The tests *)

(** The fixture [daemon]: what [connect] finds, the port of the daemon; whether
    the time a session measures is within its bound; the fuel of its loop. *)
Record fixture : Type := mkFixture {
  fx_net : network;
  fx_port : Z;
  fx_in_time : bool;
  fx_fuel : nat
}.

(** A test that is still in the loop of its session is stopped by its timeout. *)
Inductive result : Type := Passed | Failed | Running.
#[global] Instance result_eq_dec : EqDecision result.
Proof. solve_decision. Defined.

Definition asserts (o : outcome (option Z)) : result :=
  match o with
  | Done v _ => if bool_decide (v = Some (-1)) then Failed else Passed
  | Raised _ _ => Failed
  | OutOfFuel => Running
  end.

Definition failed_command : Command :=
  mkCommand (str "/bin/OIHDOEJ") [str "lss"; str "-la"] [str "badenvp"] 0 (1024 * 1024) [].
Definition response_command : Command :=
  mkCommand (str "/bin/sleep") [str "sleep"; str "3"] [] 0 stack_size [].
Definition inotify_params : InotifyParameters :=
  mkInotifyParameters (str "./test.txt") (Z.lor IN_MODIFY IN_CREATE) 4096.
Definition inotify_result_command : Command :=
  echo_command [mkSurveillance (EvType INOTIFY) (PInotify inotify_params)].
Definition inotify_event_command : Command := echo_command [inotify_surveillance].

Section tests.
Context {FB : FlatBuffers}.

Definition test_daemon_connection (daemon : fixture) : result :=
  asserts (connect_to_daemon (fx_net daemon) (fx_port daemon) fresh_sock).
Definition test_receiving_launch_process (daemon : fixture) : result :=
  asserts (Clients.launch_process (fx_fuel daemon) (fx_net daemon) ls_command fresh_sock).
Definition test_receiving_failed_launch_process (daemon : fixture) : result :=
  asserts (fail_launch_process (fx_fuel daemon) (fx_net daemon) failed_command fresh_sock).
Definition test_receiving_process_terminated (daemon : fixture) : result :=
  asserts (process_terminated (fx_fuel daemon) (fx_net daemon) ls_command fresh_sock).
Definition test_echo (daemon : fixture) : result :=
  asserts (process_terminated (fx_fuel daemon) (fx_net daemon) (echo_command []) fresh_sock).
Definition test_response_time (daemon : fixture) : result :=
  asserts (response_time (fx_fuel daemon) (fx_in_time daemon) (fx_net daemon) response_command fresh_sock).
Definition test_execve_terminated (daemon : fixture) : result :=
  asserts (execve_executed (fx_fuel daemon) (fx_net daemon) (echo_command []) fresh_sock).
Definition test_socket_listening (daemon : fixture) : result :=
  asserts (socket_listening (fx_fuel daemon) (fx_net daemon) (socket_command (fx_port daemon)) fresh_sock).
Definition test_watching_socket (daemon : fixture) : result :=
  asserts (watching_socket (fx_fuel daemon) (fx_net daemon) (socket_command (fx_port daemon)) fresh_sock).
Definition test_inotify_result (daemon : fixture) : result :=
  asserts (inotify_watchlist_updated (fx_fuel daemon) (fx_net daemon) inotify_result_command fresh_sock).
Definition test_inotify_event (daemon : fixture) : result :=
  asserts (Clients.inotify_event (fx_fuel daemon) (fx_net daemon) inotify_event_command fresh_sock).
Definition test_kill_process (daemon : fixture) : result :=
  asserts (kill_process (fx_fuel daemon) (fx_in_time daemon) (fx_net daemon) sleep_command fresh_sock).
End tests.

(** The suite, by the names of its functions, and the command each sends. *)
Inductive test : Type :=
  | daemon_connection | receiving_launch_process | receiving_failed_launch_process
  | receiving_process_terminated | echo | response_time_ | execve_terminated
  | socket_listening_ | watching_socket_ | inotify_result | inotify_event_ | kill_process_.

#[global] Instance test_eq_dec : EqDecision test.
Proof. solve_decision. Defined.

Definition suite : list test :=
  [daemon_connection; receiving_launch_process; receiving_failed_launch_process;
   receiving_process_terminated; echo; response_time_; execve_terminated;
   socket_listening_; watching_socket_; inotify_result; inotify_event_; kill_process_].

Definition run {FB : FlatBuffers} (t : test) : fixture -> result :=
  match t with
  | daemon_connection => test_daemon_connection
  | receiving_launch_process => test_receiving_launch_process
  | receiving_failed_launch_process => test_receiving_failed_launch_process
  | receiving_process_terminated => test_receiving_process_terminated
  | echo => test_echo
  | response_time_ => test_response_time
  | execve_terminated => test_execve_terminated
  | socket_listening_ => test_socket_listening
  | watching_socket_ => test_watching_socket
  | inotify_result => test_inotify_result
  | inotify_event_ => test_inotify_event
  | kill_process_ => test_kill_process
  end.

Definition command_of (t : test) (port : Z) : option Command :=
  match t with
  | daemon_connection => None
  | receiving_launch_process | receiving_process_terminated => Some ls_command
  | receiving_failed_launch_process => Some failed_command
  | echo | execve_terminated => Some (echo_command [])
  | response_time_ => Some response_command
  | socket_listening_ | watching_socket_ => Some (socket_command port)
  | inotify_result => Some inotify_result_command
  | inotify_event_ => Some inotify_event_command
  | kill_process_ => Some sleep_command
  end.

Lemma commands_ok t port cmd :
  0 <= port < 2 ^ 16 -> command_of t port = Some cmd -> command_ok cmd = true.
Proof.
  intros Hport. assert (in_range SUint32 port = true) as H by (unfold in_range; cbn; lia).
  destruct t; intros [= <-]; try reflexivity;
    cbv -[in_range Z.leb max_buffer_size]; by rewrite H.
Qed.

(** ** The specification: a test judges the first report of its kind *)
Definition result_of (b : bool) : result := if b then Passed else Failed.

Definition first_report (event : Event) (reports : list report) : option report :=
  List.find (fun r => bool_decide (report_event r = event)) reports.

Definition judged_by (event : Event) (judge : report -> bool) (reports : list report) : result :=
  match first_report event reports with
  | Some r => result_of (judge r)
  | None => Running
  end.

Definition judged (t : test) (port : Z) (in_time : bool) (reports : list report) : result :=
  match t with
  | daemon_connection =>
      judged_by TCP_SOCKET_LISTENING
        (fun r => match r with TCPSocketListening p => p =? port | _ => false end) reports
  | receiving_launch_process =>
      judged_by PROCESS_LAUNCHED (fun r => match r with ProcessLaunched pid => 0 <=? pid | _ => false end) reports
  | receiving_failed_launch_process =>
      judged_by EXECVE_TERMINATED
        (fun r => match r with ExecveTerminated pid _ success => negb success && (0 <? pid) | _ => false end) reports
  | receiving_process_terminated | echo =>
      judged_by PROCESS_TERMINATED
        (fun r => match r with ProcessTerminated pid code => (0 <=? pid) && (code =? 0) | _ => false end) reports
  | response_time_ =>
      judged_by PROCESS_TERMINATED
        (fun r => match r with ProcessTerminated pid code => (0 <? pid) && (code =? 0) && in_time | _ => false end)
        reports
  | execve_terminated =>
      judged_by EXECVE_TERMINATED
        (fun r => match r with ExecveTerminated pid _ success => success && (0 <? pid) | _ => false end) reports
  | socket_listening_ =>
      judged_by SOCKET_WATCH_TERMINATED
        (fun r => match r with SocketWatchTerminated p _ => 0 <? p | _ => false end) reports
  | watching_socket_ =>
      judged_by SOCKET_WATCHED (fun r => match r with SocketWatched p => 0 <? p | _ => false end) reports
  | inotify_result => judged_by INOTIFY_WATCH_LIST_UPDATED (fun _ => true) reports
  | inotify_event_ => judged_by INOTIFY_PATH_UPDATED (fun _ => true) reports
  | kill_process_ =>
      judged_by PROCESS_TERMINATED
        (fun r => match r with ProcessTerminated pid code => (0 <? pid) && (0 <? code) && in_time | _ => false end)
        reports
  end.

Lemma first_report_split event reports :
  match first_report event reports with
  | Some r => report_event r = event /\ exists before after,
      reports = before ++ r :: after /\ Forall (fun r => report_event r <> event) before
  | None => Forall (fun r => report_event r <> event) reports
  end.
Proof.
  induction reports as [|r reports IH]; cbn; [done|]. case_bool_decide as He.
  - split; [done|]. by exists [], reports.
  - destruct (first_report event reports) as [r'|] eqn:E; unfold first_report in E; rewrite E.
    + destruct IH as (? & before & after & -> & HF). split; [done|].
      exists (r :: before), after. split; [done|]. by constructor.
    + by constructor.
Qed.

Section judging.
Context {FB : FlatBuffers} {FBL : FlatBuffersLaws FB}.

Lemma unseen event reports msgs :
  Forall2 encodes reports msgs -> Forall (fun r => report_event r <> event) reports ->
  Forall (fun m => sees event m = false) msgs.
Proof.
  induction 1 as [|r m reports msgs Hr _ IH]; intros HF; [constructor|].
  apply Forall_cons in HF as [Hne HF]. constructor; [|by apply IH].
  rewrite (encodes_seen _ _ Hr). by apply bool_decide_eq_false_2.
Qed.

(** What a session finds in the messages of a list of reports. *)
Lemma first_delivered event reports msgs l :
  Forall2 encodes reports msgs -> carries l msgs [] ->
  match first_report event reports with
  | Some r => report_event r = event /\ exists before msg l',
      encodes r msg /\ transcript event l before msg l' /\ (length before < length msgs)%nat
  | None => Forall (fun m => sees event m = false) msgs
  end.
Proof.
  intros HE Hc. pose proof (first_report_split event reports) as H.
  destruct (first_report event reports) as [r|]; [|by eapply unseen].
  destruct H as (He & before & after & -> & HF). split; [done|].
  apply Forall2_app_inv_l in HE as (mb & rest & HB & HR & ->).
  apply Forall2_cons_inv_l in HR as (msg & ma & Hr & _ & ->).
  rewrite cons_middle, app_assoc in Hc.
  apply carries_app_inv in Hc as (l' & Hc & _).
  exists mb, msg, l'. split; [exact Hr|]. split; [split; [exact Hc | by eapply unseen]|].
  rewrite length_app. cbn. lia.
Qed.

Lemma concludes_asserts o v l out :
  concludes o v l out -> asserts o = result_of (negb (bool_decide (v = Some (-1)))).
Proof. intros ->. cbn. by case_bool_decide. Qed.

(** A session that has its transcript, one that has none. *)
Lemma judged_verdict event (judge : report -> bool) reports msgs l (o : outcome (option Z)) :
  Forall2 encodes reports msgs -> carries l msgs [] ->
  (forall r before msg l', report_event r = event -> encodes r msg -> transcript event l before msg l' ->
     (length before < length msgs)%nat -> asserts o = result_of (judge r)) ->
  (Forall (fun m => sees event m = false) msgs -> o = OutOfFuel) ->
  asserts o = judged_by event judge reports.
Proof.
  intros HE Hc Hone Hnone. unfold judged_by. pose proof (first_delivered event reports msgs l HE Hc) as H.
  destruct (first_report event reports) as [r|]; [|by rewrite Hnone].
  destruct H as (He & before & msg & l' & Hr & Ht & Hlt). by eapply Hone.
Qed.

Lemma asserts_verdict (b : bool) : negb (bool_decide (Some (if b then 1 else -1) = Some (-1))) = b.
Proof. by destruct b. Qed.

(** ** The loop that kills *)
Lemma killing_reports reports msgs l fuel out :
  Forall2 encodes reports msgs -> carries l msgs [] -> (length msgs < fuel)%nat ->
  match first_report PROCESS_TERMINATED reports with
  | Some r => exists msg l' out', encodes r msg /\
      then_kill fuel (mkSock l out Writable false) = Done (msg, blen msg) (mkSock l' out' Writable false)
  | None => then_kill fuel (mkSock l out Writable false) = OutOfFuel
  end.
Proof.
  intros HE. revert l fuel out. induction HE as [|r m reports msgs Hr _ IH]; intros l fuel out Hc Hf;
    inversion Hc as [|? ? l1 ? ? Hn Hc']; subst; unfold then_kill.
  - cbn. rewrite (io_bind_done _ _ _ _ _ (recv_message_eof out Writable false)). apply killing_eof.
  - cbn [first_report List.find]. cbn [length] in Hf. destruct fuel as [|fuel]; [lia|].
    rewrite (io_bind_done _ _ _ _ _ (Hn out Writable false)).
    pose proof (encodes_seen _ _ Hr PROCESS_TERMINATED) as H1. pose proof (encodes_seen _ _ Hr EXECVE_TERMINATED) as H2.
    destruct (decide (report_event r = PROCESS_TERMINATED)) as [Hpt|Hpt];
      [rewrite bool_decide_eq_true_2 in * by done | rewrite bool_decide_eq_false_2 in * by done].
    + exists m, l1, out. split; [exact Hr|]. cbn [await_killing fst snd]. unfold sees in H1. by rewrite H1.
    + destruct (decide (report_event r = EXECVE_TERMINATED)) as [Hex|Hex];
        [rewrite bool_decide_eq_true_2 in H2 by done | rewrite bool_decide_eq_false_2 in H2 by done].
      * destruct r as [| | | |pid name success| | | |]; try discriminate Hex.
        destruct Hr as (s & _ & Hs).
        destruct (killing_execve fuel m (mkExecveInfo pid s success) l1 out false H1 H2) as (kb & _ & _ & ->).
        { by apply execve_decoded. }
        { exact (proj1 Hs). }
        apply IH; [exact Hc' | lia].
      * rewrite killing_quiet by done. apply IH; [exact Hc' | lia].
Qed.
End judging.

(** ** The tests *)
Section reports.
Context {FB : FlatBuffers} {FBL : FlatBuffersLaws FB}.
(** The reports of a connection: the greeting first. *)
Context (port : Z) (in_time : bool) (fuel : nat).
Context (rest : list report) (msgs : list bytes) (l : list arrival).
Hypothesis Hport : 0 <= port < 2 ^ 16.
Hypothesis Hfuel : (length msgs <= fuel)%nat.
Hypothesis Hencodes : Forall2 encodes (TCPSocketListening port :: rest) msgs.
Hypothesis Hcarries : carries l msgs [].

Let reports := TCPSocketListening port :: rest.
Let daemon := mkFixture (Connected l Writable) port in_time fuel.

(** A test whose session looks for one report: what is left is its verdict on
    that report. *)
Ltac judge_test t r before msg l' Hok Hr Ht Hlt :=
  unfold run, judged, daemon, reports; cbn [fx_fuel fx_net fx_port fx_in_time];
  match eval cbn [command_of] in (command_of t port) with
  | Some ?cmd => assert (command_ok cmd = true) as Hok by (by apply (commands_ok t port))
  end;
  eapply judged_verdict;
    [ exact Hencodes | exact Hcarries
    | intros r before msg l' He Hr Ht Hlt; destruct r; try discriminate He; clear He
    | intros HF; apply errors_fuel, io_bind_fuel;
      eapply session_never; [exact Hok | done | exact Hcarries | exact HF] ].

Ltac judged_as Hv :=
  rewrite (concludes_asserts _ _ _ _ Hv), ?asserts_verdict.

Lemma launch_judged : run receiving_launch_process daemon = judged receiving_launch_process port in_time reports.
Proof.
  unfold run, test_receiving_launch_process.
  judge_test receiving_launch_process r before msg l' Hok Hr Ht Hlt.
  destruct (launch_process_verdict fuel _ _ l before msg l' Hok Hr Ht ltac:(lia)) as (bi & _ & Hv).
  judged_as Hv. rewrite Z.leb_antisym. by destruct (_ <? 0).
Qed.

Lemma terminated_judged cmd t :
  command_of t port = Some cmd -> asserts (process_terminated fuel (Connected l Writable) cmd fresh_sock) =
  judged receiving_process_terminated port in_time reports.
Proof.
  intros Hcmd. assert (command_ok cmd = true) as Hok by by eapply commands_ok.
  unfold judged, reports. eapply judged_verdict; [exact Hencodes | exact Hcarries | |].
  - intros r before msg l' He Hr Ht Hlt. destruct r; try discriminate He.
    destruct (process_terminated_verdict fuel _ _ _ l before msg l' Hok Hr Ht ltac:(lia)) as (bi & _ & Hv).
    by judged_as Hv.
  - intros HF. by apply errors_fuel, io_bind_fuel, (session_never fuel cmd _ l msgs).
Qed.

Lemma execve_judged cmd t :
  command_of t port = Some cmd ->
  asserts (execve_executed fuel (Connected l Writable) cmd fresh_sock) = judged execve_terminated port in_time reports /\
  asserts (fail_launch_process fuel (Connected l Writable) cmd fresh_sock) =
    judged receiving_failed_launch_process port in_time reports.
Proof.
  intros Hcmd. assert (command_ok cmd = true) as Hok by by eapply commands_ok.
  unfold judged, reports. split; (eapply judged_verdict; [exact Hencodes | exact Hcarries | |]).
  1,3: intros r before msg l' He Hr Ht Hlt; destruct r; try discriminate He;
    destruct Hr as (s & _ & Hs);
    destruct (execve_verdicts fuel cmd _ s success l before msg l' Hok Hs Ht ltac:(lia)) as (bi & _ & Hv & Hv').
  - by judged_as Hv.
  - judged_as Hv'. by destruct (negb success && (0 <? pid)).
  - intros HF. by apply errors_fuel, io_bind_fuel, (session_never fuel cmd _ l msgs).
  - intros HF. by apply errors_fuel, io_bind_fuel, (session_never fuel cmd _ l msgs).
Qed.

Lemma inotify_judged :
  run inotify_result daemon = judged inotify_result port in_time reports /\
  run inotify_event_ daemon = judged inotify_event_ port in_time reports.
Proof.
  split; unfold run, test_inotify_result, test_inotify_event.
  - judge_test inotify_result r before msg l' Hok Hr Ht Hlt. destruct Hr as (s & _ & Hs).
    destruct (inotify_verdicts fuel _ s l before msg l' Hok ltac:(lia)) as (bi & _ & Hv & _).
    by judged_as (Hv Hs Ht).
  - judge_test inotify_event_ r before msg l' Hok Hr Ht Hlt. destruct Hr as (s & _ & Hs).
    destruct (inotify_verdicts fuel _ s l before msg l' Hok ltac:(lia)) as (bi & _ & _ & Hv).
    rewrite (Hv (InotifyEvent_value event) _ _ Hs Ht). by destruct event.
Qed.

Lemma sockets_judged :
  run watching_socket_ daemon = judged watching_socket_ port in_time reports /\
  run socket_listening_ daemon = judged socket_listening_ port in_time reports.
Proof.
  split; unfold run, test_watching_socket, test_socket_listening.
  - judge_test watching_socket_ r before msg l' Hok Hr Ht Hlt.
    destruct (socket_verdicts fuel _ port0 l before msg l' Hok ltac:(lia)) as (bi & _ & Hv & _).
    by judged_as (Hv Hr Ht).
  - judge_test socket_listening_ r before msg l' Hok Hr Ht Hlt.
    destruct (socket_verdicts fuel _ port0 l before msg l' Hok ltac:(lia)) as (bi & _ & _ & Hv).
    rewrite (Hv (SocketState_value state) Hr Ht). destruct state; cbn; by destruct (0 <? _).
Qed.
Lemma connection_judged : run daemon_connection daemon = judged daemon_connection port in_time reports.
Proof.
  unfold run, test_daemon_connection, judged, daemon, reports, judged_by, first_report.
  cbn [fx_net fx_port List.find report_event]. rewrite bool_decide_eq_true_2 by done.
  apply Forall2_cons_inv_l in Hencodes as (m & msgs' & Hs & _ & ->).
  change (m :: msgs') with ([m] ++ msgs') in Hcarries.
  apply carries_app_inv in Hcarries as (l1 & Hc & _).
  by judged_as (greeting_verdict port port l m l1 Hs Hc).
Qed.

Lemma response_judged : run response_time_ daemon = judged response_time_ port in_time reports.
Proof.
  unfold run, test_response_time, judged, daemon, reports, judged_by.
  cbn [fx_fuel fx_in_time fx_net]. change (first_report PROCESS_TERMINATED (TCPSocketListening port :: rest))
    with (first_report PROCESS_TERMINATED rest).
  apply Forall2_cons_inv_l in Hencodes as (m & msgs' & _ & HE & ->).
  inversion Hcarries as [|? ? l1 ? ? Hn Hc]; subst.
  destruct (send_command_frame response_command l1 [] false eq_refl) as (cb & _ & Hsend).
  pose proof (first_delivered PROCESS_TERMINATED rest msgs' l1 HE Hc) as H.
  unfold response_time. unfold socket_errors_give.
  rewrite (io_bind_done _ _ _ tt (mkSock l [] Writable false)) by reflexivity.
  rewrite (io_bind_done _ _ _ _ _ (Hn _ _ _)), (io_bind_done _ _ _ _ _ Hsend).
  destruct (first_report PROCESS_TERMINATED rest) as [r|].
  - destruct H as (He & before & msg & l' & Hr & [Hcar HF] & Hlt). cbn in Hfuel.
    destruct r; try discriminate He. pose proof (terminated_decoded _ _ _ Hr) as Hd.
    pose proof (first_then_await fuel PROCESS_TERMINATED l1 before msg l' ([] ++ frame (bi_buffer cb)) Writable false
      Hcar HF (eq_trans (encodes_seen _ _ Hr _) eq_refl) ltac:(lia)) as Hawait.
    revert Hawait. unfold mbind, io_bind. destruct (recv_message _) as [first s1| |]; [|done..].
    intros ->. cbn [fst snd]. rewrite Hd. cbn. by destruct ((0 <? pid) && _ && in_time).
  - pose proof (first_then_await_never fuel PROCESS_TERMINATED l1 msgs' ([] ++ frame (bi_buffer cb)) Writable false
      ltac:(done) Hc H) as Hawait.
    revert Hawait. unfold mbind, io_bind. destruct (recv_message _) as [first s1| |]; [|done..]. by intros ->.
Qed.

Lemma kill_judged : (length msgs < fuel)%nat -> run kill_process_ daemon = judged kill_process_ port in_time reports.
Proof.
  intros Hf. unfold run, test_kill_process, judged, daemon, judged_by.
  cbn [fx_fuel fx_in_time fx_net].
  destruct (send_command_frame sleep_command l [] false eq_refl) as (cb & _ & Hsend).
  pose proof (killing_reports reports msgs l fuel ([] ++ frame (bi_buffer cb)) Hencodes Hcarries Hf) as H.
  unfold kill_process, socket_errors_give.
  rewrite (io_bind_done _ _ _ tt (mkSock l [] Writable false)) by reflexivity.
  rewrite (io_bind_done _ _ _ _ _ Hsend).
  pose proof (first_report_split PROCESS_TERMINATED reports) as Hsplit.
  destruct (first_report PROCESS_TERMINATED reports) as [r|].
  - destruct H as (msg & l' & out' & Hr & Hk). destruct Hsplit as [He _].
    destruct r; try discriminate He. pose proof (terminated_decoded _ _ _ Hr) as Hd.
    revert Hk. unfold then_kill, mbind, io_bind. destruct (recv_message _) as [first s1| |]; [|done..].
    intros ->. cbn [fst snd]. rewrite Hd. cbn. by destruct ((0 <? pid) && _ && in_time).
  - revert H. unfold then_kill, mbind, io_bind. destruct (recv_message _) as [first s1| |]; [|done..].
    by intros ->.
Qed.
End reports.

Lemma tests_judged {FB : FlatBuffers} {FBL : FlatBuffersLaws FB} port in_time fuel rest msgs l t :
  0 <= port < 2 ^ 16 -> (length msgs < fuel)%nat ->
  Forall2 encodes (TCPSocketListening port :: rest) msgs -> carries l msgs [] ->
  run t (mkFixture (Connected l Writable) port in_time fuel) =
    judged t port in_time (TCPSocketListening port :: rest).
Proof.
  intros Hport Hf HE Hc. assert (length msgs <= fuel)%nat by lia.
  destruct t.
  - exact (connection_judged port in_time fuel rest msgs l H HE Hc).
  - exact (launch_judged port in_time fuel rest msgs l Hport H HE Hc).
  - exact (proj2 (execve_judged port in_time fuel rest msgs l Hport H HE Hc failed_command receiving_failed_launch_process eq_refl)).
  - exact (terminated_judged port in_time fuel rest msgs l Hport H HE Hc ls_command receiving_process_terminated eq_refl).
  - exact (terminated_judged port in_time fuel rest msgs l Hport H HE Hc (echo_command []) echo eq_refl).
  - exact (response_judged port in_time fuel rest msgs l H HE Hc).
  - exact (proj1 (execve_judged port in_time fuel rest msgs l Hport H HE Hc (echo_command []) execve_terminated eq_refl)).
  - exact (proj2 (sockets_judged port in_time fuel rest msgs l Hport H HE Hc)).
  - exact (proj1 (sockets_judged port in_time fuel rest msgs l Hport H HE Hc)).
  - exact (proj1 (inotify_judged port in_time fuel rest msgs l Hport H HE Hc)).
  - exact (proj2 (inotify_judged port in_time fuel rest msgs l Hport H HE Hc)).
  - exact (kill_judged port in_time fuel rest msgs l HE Hc Hf).
Qed.

(** C6. The suite is a function of the reports of the daemon.  On a connection that
    brings their messages, each read whole, whichever daemon sends them and in
    whatever segments that cut no length and no message, each test judges the first
    report of its kind, and no other, and is still running when there is none.
    When no daemon answers all the tests fail but the two about sockets, which
    pass. *)
Theorem suite_judges_reports {FB : FlatBuffers} {FBL : FlatBuffersLaws FB} port in_time fuel rest msgs l t :
  0 <= port < 2 ^ 16 -> (length msgs < fuel)%nat ->
  Forall2 encodes (TCPSocketListening port :: rest) msgs -> carries l msgs [] ->
  run t (mkFixture (Connected l Writable) port in_time fuel) =
    judged t port in_time (TCPSocketListening port :: rest) /\
  List.filter (fun t => bool_decide (run t (mkFixture Refused port in_time fuel) = Passed)) suite =
    [socket_listening_; watching_socket_].
Proof. intros. split; [by apply (tests_judged port in_time fuel rest msgs l) | done]. Qed.

(** ** At a concrete input *)
Section witnesses.
#[local] Existing Instance ref_runtime.
#[local] Existing Instance ref_laws.

Lemma suite_judges_reports_witness :
  run receiving_process_terminated (mkFixture (Connected (one_segment ls_messages) Writable) 8080 true 9) =
    judged receiving_process_terminated 8080 true
      [TCPSocketListening 8080; ProcessLaunched 4242; ExecveTerminated 4242 (enc (str "/bin/ls")) true;
       ProcessTerminated 4242 0] /\
  List.filter (fun t => bool_decide (run t (mkFixture Refused 8080 true 9) = Passed)) suite =
    [socket_listening_; watching_socket_].
Proof.
  apply (suite_judges_reports 8080 true 9
           [ProcessLaunched 4242; ExecveTerminated 4242 (enc (str "/bin/ls")) true; ProcessTerminated 4242 0]
           ls_messages (one_segment ls_messages) receiving_process_terminated).
  - lia.
  - cbn. lia.
  - exact ls_encoded.
  - exact ls_carried.
Defined.
End witnesses.
