(* ===== verification/Fixture.v ===== *)
(** * The fixture [daemon] of [test_demon.py] and [test_overhead.py]

    Starting a daemon before a test, and stopping it after, over the processes of
    the machine: their groups, the ports they hold, and the first lines of [main] of
    both daemons.  What the processes do while a test runs is a parameter: they may
    end, as the C daemon does when its client leaves, and fork.  What each test of a
    run then finds behind its port, and what is left after it. *)
From S2P Require Import Prelude Bytes Utf8 FlatBuffers Text FlatBuffersRef FlatBuffersRefLaws.
From S2P Require Import Enums Tables Data Send Receive BuilderLogic SendFacts CommandFacts.
From S2P Require Import ReadFacts ReceiveFacts PeerCommand PeerMessages Wire TestCommands.
From S2P Require Import Socket Clients ClientFacts Sessions ProcessManager Daemon EndToEnd TestDemon.

(** ** The machine

    What POSIX says of processes, as far as the fixture and the daemons use it. *)
Record process : Type := mkProcess {
  pr_group : Z;     (* its process group *)
  pr_alive : bool   (* false once it has ended *)
}.

Inductive stdio : Type := PIPE | DEVNULL.

(** The calls of the fixture, as they are made. *)
Inductive os_call : Type :=
  | Popen (argv : list pystr) (cwd : pystr) (out : stdio) (pid : Z)
  | Sleep (seconds : Z)
  | Killpg (group signal : Z)
  | Wait (pid timeout : Z).

Record machine : Type := mkMachine {
  procs : gmap Z process;
  listening : gmap Z Z;    (* port to the process that is bound to it *)
  next_pid : Z;
  calls : list os_call
}.

(** A computation on the machine, which keeps what was done before an exception. *)
Definition os (A : Type) : Type := machine -> res A * machine.
#[global] Instance os_ret : MRet os := fun A a m => (Ok a, m).
#[global] Instance os_bind : MBind os := fun A B f c m =>
  match c m with (Ok a, m') => f a m' | (Err e, m') => (Err e, m') end.
#[global] Instance os_fmap : FMap os := fun A B f c m =>
  match c m with (Ok a, m') => (Ok (f a), m') | (Err e, m') => (Err e, m') end.
Definition os_raise {A} (e : exn) : os A := fun m => (Err e, m).

Lemma os_bind_ok {A B} (c : os A) (f : A -> os B) m a m' : c m = (Ok a, m') -> (c ≫= f) m = f a m'.
Proof. intros H. unfold mbind, os_bind. by rewrite H. Qed.

Definition set_procs (ps : gmap Z process) (m : machine) : machine :=
  mkMachine ps (listening m) (next_pid m) (calls m).
Definition log (c : os_call) (m : machine) : machine :=
  mkMachine (procs m) (listening m) (next_pid m) (calls m ++ [c]).

(** A new process, in a group: its pid is larger than all that were given. *)
Definition spawn (group : Z -> Z) (m : machine) : Z * machine :=
  let pid := next_pid m in
  (pid, mkMachine (<[pid := mkProcess (group pid) true]> (procs m)) (listening m) (pid + 1) (calls m)).

(** The end of some processes, with the sockets they had. *)
Definition end_all (ends : Z -> process -> bool) (m : machine) : machine :=
  mkMachine (map_imap (fun pid p => Some (if ends pid p then mkProcess (pr_group p) false else p)) (procs m))
    (filter (fun x : Z * Z => from_option (fun p => negb (ends x.2 p)) true (procs m !! x.2) = true) (listening m))
    (next_pid m) (calls m).
Definition exits (pid : Z) : machine -> machine := end_all (fun pid' _ => pid' =? pid).

(** [bind], on a port that is free or not, and [listen]. *)
Definition binds (pid port : Z) (m : machine) : option machine :=
  match listening m !! port with
  | Some _ => None
  | None => Some (mkMachine (procs m) (<[port := pid]> (listening m)) (next_pid m) (calls m))
  end.

(** ** The start of the daemons, in a process [pid] *)

(** [daemon-core.c], up to the server: [daemon(0, 0)] forks, the parent exits, and the
    child goes on in a session, so a group, of its own; [establish_connection] exits
    when the port is not free.  Of an argument that is no [int] nothing is claimed. *)
Definition c_main (argv : list pystr) (pid : Z) (m : machine) : machine :=
  match argv with
  | _ :: arg :: _ =>
      match atoi arg with
      | Some destPort =>
          let '(child, m) := spawn (fun child => child) m in
          let m := exits pid m in
          default (exits child m) (binds child (to_uint16 destPort) m)
      | None => m
      end
  | _ => exits pid m
  end.

(** [main.rs]: it stays in its process, and ends when its argument is no port or
    the port is not free. *)
Definition rust_main (argv : list pystr) (pid : Z) (m : machine) : machine :=
  match argv with
  | [_; arg] =>
      match parse_u16 arg with
      | Some port => default (exits pid m) (binds pid port m)
      | None => exits pid m
      end
  | _ => exits pid m
  end.

Inductive program : Type := CDaemon | RustDaemon.
Definition starts (p : program) : list pystr -> Z -> machine -> machine :=
  match p with CDaemon => c_main | RustDaemon => rust_main end.

(** ** The fixture *)
Section fixture.

(** What a command line runs in a directory, with the arguments that the program
    is given: the executables that meson and cargo have built, and [cargo run]. *)
Context (resolve : pystr -> list pystr -> option (program * list pystr)).
(** [__file__] and the working directory. *)
Context (file cwd : pystr).

Definition RUST_PROJECT_DIR : pystr := abspath cwd (path_join (dirname file) (str "../rust")).
Definition C_PROJECT_DIR : pystr := abspath cwd (path_join (dirname file) (str "../c/builddir")).

Definition DAEMON_PORTS : gmap string Z := {["rust" := 8080; "c" := 9090]}.
Definition params : list string := ["rust"; "c"].

(** [subprocess.Popen(argv, cwd=..., stdout=out, stderr=out, text=True,
    preexec_fn=os.setsid)]: the new process leads a group. *)
Definition popen (argv : list pystr) (dir : pystr) (out : stdio) : os Z := fun m =>
  match resolve dir argv with
  | Some (p, args) =>
      let '(pid, m) := spawn (fun pid => pid) m in
      (Ok pid, starts p args pid (log (Popen argv dir out pid) m))
  | None => (Err OSError, m)
  end.

Definition sleep (seconds : Z) : os unit := fun m => (Ok tt, log (Sleep seconds) m).

(** An ended process keeps its group until it is waited for. *)
Definition getpgid (pid : Z) : os Z := fun m =>
  (match procs m !! pid with Some p => Ok (pr_group p) | None => Err OSError end, m).

(** [SIGTERM] ends the processes of the group, which may have ended: neither daemon
    handles it. *)
Definition killpg (group signal : Z) : os unit := fun m =>
  if bool_decide (Exists (fun '(_, p) => pr_group p = group) (map_to_list (procs m)))
  then (Ok tt, log (Killpg group signal) (end_all (fun _ p => pr_group p =? group) m))
  else (Err OSError, m).

Definition wait (pid timeout : Z) : os unit := fun m =>
  match procs m !! pid with
  | Some p => if pr_alive p then (Err TimeoutExpired, log (Wait pid timeout) m)
              else (Ok tt, log (Wait pid timeout) (set_procs (delete pid (procs m)) m))
  | None => (Ok tt, m)
  end.

Definition SIGTERM : Z := 15.

(** Up to its [yield]; in [test_demon.py] with [out = PIPE]. *)
Definition daemon_setup (out : stdio) (request_param : string) : os (Z * string * Z) :=
  let daemon_type := request_param in
  port ← match DAEMON_PORTS !! daemon_type with Some port => mret port | None => os_raise KeyError end;
  process ← (if String.eqb daemon_type "rust" then
               Some <$> popen [str "cargo"; str "run"; str "--bin"; str "run_demon"; str "--"; py_str port]
                          RUST_PROJECT_DIR out
             else if String.eqb daemon_type "c" then
               Some <$> popen [str "./daemon"; py_str port] C_PROJECT_DIR out
             else mret None);
  _ ← sleep 1;
  match process with
  | Some process => mret (process, daemon_type, port)
  | None => os_raise UnboundLocalError
  end.

(** After it. *)
Definition daemon_teardown (process : Z) : os unit :=
  pgid ← getpgid process;
  _ ← killpg pgid SIGTERM;
  wait process 5.

(** The fixture of [test_overhead.py] is the same text, without the pipes. *)
Definition overhead_daemon_setup : string -> os (Z * string * Z) := daemon_setup DEVNULL.
Definition overhead_daemon_teardown : Z -> os unit := daemon_teardown.
End fixture.

(** ** A run of the suite *)
Inductive item_report : Type :=
  | Errored                                (* the fixture raised before its [yield] *)
  | Ran (r : result) (teardown : res unit).

(** A machine on which processes hold ports while they are alive; [signalled]: the
    groups that were ended, whose processes are. *)
Definition started (cs : list os_call) : list Z :=
  omap (fun c => match c with Popen _ _ _ pid => Some pid | _ => None end) cs.
Definition signalled (cs : list os_call) : list Z :=
  omap (fun c => match c with Killpg group _ => Some group | _ => None end) cs.

Record sane (m : machine) : Prop := {
  sa_pids pid pr : procs m !! pid = Some pr -> pid < next_pid m /\ pr_group pr < next_pid m;
  sa_ports port pid : listening m !! port = Some pid ->
    exists pr, procs m !! pid = Some pr /\ pr_alive pr = true;
  sa_signalled : Forall (fun group => group < next_pid m) (signalled (calls m));
  sa_gone pid pr : procs m !! pid = Some pr -> pr_alive pr = true -> pr_group pr ∉ signalled (calls m)
}.

(** What the processes of a machine may do while a test runs, of which [p] is not
    waited for: end, and fork in their group; a child has the sockets of its
    parent, and keeps a port when its parent ends.  None is brought back, none
    leaves its group, none takes a new port. *)
Record lives (m m' : machine) (p : Z) : Prop := {
  li_calls : calls m' = calls m;
  li_next : next_pid m <= next_pid m';
  li_started pr : procs m !! p = Some pr -> exists a, procs m' !! p = Some (mkProcess (pr_group pr) a);
  li_old pid pr' : procs m' !! pid = Some pr' -> pid < next_pid m ->
    exists pr, procs m !! pid = Some pr /\ pr_group pr' = pr_group pr /\
      (pr_alive pr' = true -> pr_alive pr = true);
  li_new pid pr' : procs m' !! pid = Some pr' -> next_pid m <= pid ->
    pid < next_pid m' /\
    exists q pr, procs m !! q = Some pr /\ pr_alive pr = true /\ pr_group pr' = pr_group pr;
  li_ports port pid : listening m' !! port = Some pid ->
    exists pr' q pr, procs m' !! pid = Some pr' /\ pr_alive pr' = true /\
      listening m !! port = Some q /\ procs m !! q = Some pr /\ pr_group pr' = pr_group pr /\
      (pid = q \/ next_pid m <= pid)
}.

Section run.
Context {FB : FlatBuffers}.
Context (resolve : pystr -> list pystr -> option (program * list pystr)) (file cwd : pystr) (out : stdio).

(** What a test finds when it connects, by the process behind its port; what
    happens to the processes while it runs, which may well end the daemon. *)
Context (net : test -> option Z -> network) (in_time : bool) (fuel : nat).
Context (meanwhile : test -> Z * string * Z -> machine -> machine).

(** The test runner, given the two parts of a fixture and a test. *)
Context (pytest : os (Z * string * Z) -> (Z -> os unit) -> (Z * string * Z -> os result) -> os item_report).

Definition test_body (t : test) : Z * string * Z -> os result := fun daemon m =>
  (Ok (run t (mkFixture (net t (listening m !! daemon.2)) daemon.2 in_time fuel)), meanwhile t daemon m).

Definition run_item (item : test * string) : os item_report :=
  pytest (daemon_setup resolve file cwd out item.2) daemon_teardown (test_body item.1).

Definition run_items : list (test * string) -> os (list item_report) := mapM run_item.

(** ** What is expected of it *)
Definition ran (t : test) (listener port : Z) : item_report :=
  Ran (run t (mkFixture (net t (Some listener)) port in_time fuel)) (Ok tt).

(** The items of a run, the processes that were started for them, what holds the
    port of the C daemon before, the reports, and what holds it after.  A test of
    the Rust daemon has its own, in the process that was started; a test of the C
    daemon has what holds its port, and the child of the process that was started
    only when nothing does.  What holds the port after a test is what held it, a
    later process that has its sockets, or nothing. *)
Definition kept (p : Z) (before after : option Z) : Prop :=
  match after with Some q => before = Some q \/ (p < q /\ is_Some before) | None => True end.

Inductive told : list (test * string) -> list Z -> option Z -> list item_report -> option Z -> Prop :=
  | told_end c : told [] [] c [] c
  | told_rust t items p pids c c1 reports c' :
      kept p c c1 -> told items pids c1 reports c' ->
      told ((t, "rust"%string) :: items) (p :: pids) c (ran t p 8080 :: reports) c'
  | told_c t items p pids c c1 reports c' :
      let listener := default (p + 1) c in
      kept p (Some listener) c1 -> told items pids c1 reports c' ->
      told ((t, "c"%string) :: items) (p :: pids) c (ran t listener 9090 :: reports) c'.

(** When nothing holds the port of the C daemon after its tests: a daemon for each
    test. *)
Definition own_report (item : test * string) (p : Z) : item_report :=
  if String.eqb item.2 "rust" then ran item.1 p 8080 else ran item.1 (p + 1) 9090.

(** Between two tests: what holds the port of the C daemon, when something does. *)
Record between (m : machine) : Prop := {
  bt_sane : sane m;
  bt_port port pid : listening m !! port = Some pid -> port = 9090
}.

(** After the fixture has started [p]. *)
Record during (m : machine) (p : Z) : Prop := {
  du_sane : sane m;
  du_process : exists a, procs m !! p = Some (mkProcess p a);
  du_ports port pid pr : listening m !! port = Some pid -> procs m !! pid = Some pr ->
    port = 9090 \/ pr_group pr = p
}.

Lemma end_all_lookup ends m pid :
  procs (end_all ends m) !! pid =
  (fun p => if ends pid p then mkProcess (pr_group p) false else p) <$> procs m !! pid.
Proof. unfold end_all. cbn. rewrite map_lookup_imap. by destruct (procs m !! pid). Qed.

Lemma signalled_app cs cs' : signalled (cs ++ cs') = signalled cs ++ signalled cs'.
Proof. apply omap_app. Qed.

(** *** The operations keep the machine sane *)
Lemma sane_spawn m : sane m -> sane (spawn (fun pid => pid) m).2.
Proof.
  intros [Hpids Hports Hs Hg]. split; cbn [spawn snd procs listening next_pid calls].
  - intros pid pr [[<- <-]|[_ H]]%lookup_insert_Some; [cbn; lia|]. specialize (Hpids pid pr H). lia.
  - intros port pid H. destruct (Hports port pid H) as (pr & Hp & Ha). exists pr. split; [|done].
    rewrite lookup_insert_ne; [done|]. specialize (Hpids pid pr Hp). lia.
  - eapply Forall_impl; [exact Hs|]. cbn. lia.
  - intros pid pr [[<- <-]|[_ H]]%lookup_insert_Some Ha; [|by apply (Hg pid)]. cbn. intros Hin.
    rewrite Forall_forall in Hs. specialize (Hs _ Hin). lia.
Qed.

Lemma sane_log c m : sane m -> signalled [c] = [] -> sane (log c m).
Proof.
  intros [Hpids Hports Hs Hg] Hc. split; cbn [log procs listening next_pid calls];
    rewrite ?signalled_app, ?Hc, ?app_nil_r; done.
Qed.

Lemma end_all_listening ends m port pid :
  listening (end_all ends m) !! port = Some pid <->
  listening m !! port = Some pid /\ from_option (fun p => negb (ends pid p)) true (procs m !! pid) = true.
Proof. unfold end_all. cbn [listening]. by rewrite map_lookup_filter_Some. Qed.

Lemma sane_end_all ends m : sane m -> sane (end_all ends m).
Proof.
  intros [Hpids Hports Hs Hg]. split; [| |done|].
  - intros pid pr H. rewrite end_all_lookup in H. apply fmap_Some in H as (pr0 & H & ->).
    specialize (Hpids pid pr0 H). cbn. by destruct (ends pid pr0).
  - intros port pid [Hl He]%end_all_listening. destruct (Hports port pid Hl) as (pr & Hp & Ha).
    exists pr. split; [|done]. rewrite end_all_lookup, Hp in *. cbn in *. by destruct (ends pid pr).
  - intros pid pr H Ha. rewrite end_all_lookup in H. apply fmap_Some in H as (pr0 & H & ->).
    destruct (ends pid pr0); [done|]. by apply (Hg pid).
Qed.

Lemma sane_binds pid port m m' a :
  sane m -> procs m !! pid = Some (mkProcess a true) -> binds pid port m = Some m' -> sane m'.
Proof.
  intros [Hpids Hports Hs Hg] Hp. unfold binds. destruct (listening m !! port) eqn:E; [done|]. intros [= <-].
  split; [done| |done..]. cbn. intros port' pid' [[<- <-]|[_ H]]%lookup_insert_Some; [by eexists | by apply (Hports port')].
Qed.

Lemma lives_sane m m' p : sane m -> lives m m' p -> sane m'.
Proof.
  intros [Hpids Hports Hs Hg] [Hc Hn _ Hold Hnew Hp]. split.
  - intros pid pr' H. destruct (decide (pid < next_pid m)) as [Hlt|Hge].
    + destruct (Hold pid pr' H Hlt) as (pr & Hpr & -> & _). specialize (Hpids pid pr Hpr). lia.
    + destruct (Hnew pid pr' H) as (Hlt & q & pr & Hq & _ & ->); [lia|]. specialize (Hpids q pr Hq). lia.
  - intros port pid H. destruct (Hp port pid H) as (pr' & _ & _ & Hpr & Ha & _). by exists pr'.
  - rewrite Hc. eapply Forall_impl; [exact Hs|]. cbn. lia.
  - rewrite Hc. intros pid pr' H Ha. destruct (decide (pid < next_pid m)) as [Hlt|Hge].
    + destruct (Hold pid pr' H Hlt) as (pr & Hpr & -> & Ha'). by apply (Hg pid), Ha'.
    + destruct (Hnew pid pr' H) as (_ & q & pr & Hq & Ha' & ->); [lia|]. by apply (Hg q).
Qed.

Lemma lives_during m m' p : during m p -> lives m m' p -> during m' p.
Proof.
  intros [Hs (a & Hp) Hports] Hl. split.
  - by apply (lives_sane m m' p).
  - by apply (li_started _ _ _ Hl _ Hp).
  - intros port pid pr H Hpr. destruct (li_ports _ _ _ Hl port pid H) as (pr' & q & prq & Hpr' & _ & Hq & Hprq & Hgrp & _).
    rewrite Hpr in Hpr'. injection Hpr' as <-. rewrite Hgrp. by apply (Hports port q).
Qed.

Lemma lives_kept m m' p port : p < next_pid m -> lives m m' p -> kept p (listening m !! port) (listening m' !! port).
Proof.
  intros Hp Hl. unfold kept. destruct (listening m' !! port) as [pid|] eqn:E; [|done].
  destruct (li_ports _ _ _ Hl port pid E) as (_ & q & _ & _ & _ & -> & _ & _ & [->|H]); [by left|].
  right. split; [lia | done].
Qed.

Lemma kept_ended p before after after' :
  kept p before after -> (forall q, after' = Some q -> after = Some q) -> kept p before after'.
Proof. intros H Ha. unfold kept in *. destruct after' as [q|]; [|done]. by rewrite (Ha q eq_refl) in H. Qed.

Lemma teardown_ends m p :
  during m p -> exists m', daemon_teardown p m = (Ok tt, m') /\ between m' /\
    next_pid m' = next_pid m /\ calls m' = calls m ++ [Killpg p SIGTERM; Wait p 5] /\
    (forall port pid, listening m' !! port = Some pid -> listening m !! port = Some pid).
Proof.
  intros [Hsane (a & Hp) Hports].
  set (m0 := end_all (fun _ pr => pr_group pr =? p) m). set (m1 := log (Killpg p SIGTERM) m0).
  assert (procs m1 !! p = Some (mkProcess p false)) as Hp1.
  { unfold m1, m0, log. cbn [procs]. rewrite end_all_lookup, Hp. cbn. by rewrite Z.eqb_refl. }
  pose proof (sane_end_all (fun _ pr => pr_group pr =? p) m Hsane) as [Hpids0 Hports0 Hs0 Hg0].
  exists (log (Wait p 5) (set_procs (delete p (procs m1)) m1)). split_and!.
  - unfold daemon_teardown, getpgid. unfold mbind, os_bind at 1. rewrite Hp. cbn [pr_group].
    unfold os_bind, killpg. rewrite bool_decide_eq_true_2.
    + fold m0 m1. unfold wait. by rewrite Hp1.
    + apply Exists_exists. exists (p, mkProcess p a). split; [by apply elem_of_map_to_list | done].
  - assert (p < next_pid m) as Hlt by by destruct (sa_pids _ Hsane p _ Hp).
    split; [split|]; cbn [log set_procs procs listening next_pid calls m1].
    + intros pid pr [_ H]%lookup_delete_Some. by apply Hpids0.
    + intros port pid H. destruct (Hports0 port pid H) as (pr & Hpr & Ha). exists pr. split; [|done].
      rewrite lookup_delete_ne; [done|]. intros <-. fold m0 in Hpr. cbn [m1 log procs] in Hp1.
      rewrite Hp1 in Hpr. by injection Hpr as <-.
    + rewrite !signalled_app. cbn. rewrite app_nil_r. apply Forall_app. split; [exact Hs0 | by constructor].
    + intros pid pr [_ H]%lookup_delete_Some Ha. rewrite !signalled_app. cbn. rewrite app_nil_r.
      intros [Hin|Hin%list_elem_of_singleton]%elem_of_app; [by apply (Hg0 pid pr H Ha)|].
      unfold m0 in H. rewrite end_all_lookup in H. apply fmap_Some in H as (pr0 & _ & ->).
      destruct (pr_group pr0 =? p) eqn:E; [done|]. by apply Z.eqb_neq in E.
    + intros port pid [H He]%end_all_listening. destruct (sa_ports _ Hsane port pid H) as (pr & Hpr & _).
      rewrite Hpr in He. cbn in He. destruct (Hports port pid pr H Hpr) as [|E]; [done|].
      by rewrite E, Z.eqb_refl in He.
  - done.
  - cbn. by rewrite <- app_assoc.
  - intros port pid H. cbn [log set_procs listening m1] in H. by apply end_all_listening in H as [H _].
Qed.

(** *** What is installed: cargo and the executable of meson, by their documentation *)
Definition installed : Prop :=
  (forall args, exists exe, resolve (RUST_PROJECT_DIR file cwd)
     (str "cargo" :: str "run" :: str "--bin" :: str "run_demon" :: str "--" :: args) = Some (RustDaemon, exe :: args)) /\
  (forall args, resolve (C_PROJECT_DIR file cwd) (str "./daemon" :: args) = Some (CDaemon, str "./daemon" :: args)).

(** The process, the port, what listens on it, what holds the port of the C daemon
    and the calls, of a setup that succeeds. *)
Definition sets_up (daemon_type : string) (port listener : Z) (m : machine) (c : option Z) : Prop :=
  exists m1, daemon_setup resolve file cwd out daemon_type m = (Ok (next_pid m, daemon_type, port), m1) /\
    during m1 (next_pid m) /\ listening m1 !! port = Some listener /\ listening m1 !! 9090 = c /\
    (exists argv dir, calls m1 = calls m ++ [Popen argv dir out (next_pid m); Sleep 1]) /\
    next_pid m < next_pid m1.

Definition rust_argv : list pystr := [str "cargo"; str "run"; str "--bin"; str "run_demon"; str "--"; py_str 8080].
Definition c_argv : list pystr := [str "./daemon"; py_str 9090].

(** The rest of the setup after [Popen]. *)
Definition set_up (daemon_type : string) (port : Z) (r : res Z * machine) : res (Z * string * Z) * machine :=
  match r with (Ok pid, m) => (Ok (pid, daemon_type, port), log (Sleep 1) m) | (Err e, m) => (Err e, m) end.

Lemma setup_rust m : daemon_setup resolve file cwd out "rust" m =
  set_up "rust" 8080 (popen resolve rust_argv (RUST_PROJECT_DIR file cwd) out m).
Proof.
  unfold daemon_setup, mbind, os_bind, set_up. change (DAEMON_PORTS !! "rust"%string) with (Some 8080).
  cbv beta iota delta [mret os_ret]. change (String.eqb "rust" "rust") with true. cbv iota. fold rust_argv.
  unfold fmap, os_fmap. by destruct (popen _ _ _ _ m) as [[pid|e] m1].
Qed.

Lemma setup_c m : daemon_setup resolve file cwd out "c" m =
  set_up "c" 9090 (popen resolve c_argv (C_PROJECT_DIR file cwd) out m).
Proof.
  unfold daemon_setup, mbind, os_bind, set_up. change (DAEMON_PORTS !! "c"%string) with (Some 9090).
  cbv beta iota delta [mret os_ret]. change (String.eqb "c" "rust") with false.
  change (String.eqb "c" "c") with true. cbv iota. fold c_argv.
  unfold fmap, os_fmap. by destruct (popen _ _ _ _ m) as [[pid|e] m1].
Qed.

Lemma popen_starts argv dir p args m : resolve dir argv = Some (p, args) ->
  popen resolve argv dir out m =
    (Ok (next_pid m), starts p args (next_pid m) (log (Popen argv dir out (next_pid m)) (spawn (fun pid => pid) m).2)).
Proof. intros H. unfold popen. by rewrite H. Qed.

(** The process of [Popen], before its program runs. *)
Definition opened (argv : list pystr) (dir : pystr) (m : machine) : machine :=
  log (Popen argv dir out (next_pid m)) (spawn (fun pid => pid) m).2.

Lemma sane_opened argv dir m : sane m -> sane (opened argv dir m).
Proof. intros H. by apply sane_log, eq_refl; apply sane_spawn. Qed.

Lemma rust_sets_up m : between m -> installed ->
  sets_up "rust" 8080 (next_pid m) m (listening m !! 9090).
Proof.
  intros [Hsane Hport] [Hrust _]. destruct (Hrust [py_str 8080]) as [exe Hexe]. fold rust_argv in Hexe.
  assert (listening m !! 8080 = None) as Hfree.
  { destruct (listening m !! 8080) eqn:E; [|done]. by apply Hport in E. }
  set (m0 := opened rust_argv (RUST_PROJECT_DIR file cwd) m).
  assert (exists m1, binds (next_pid m) 8080 m0 = Some m1) as [m1 Hm1].
  { unfold binds, m0. cbn [opened log spawn snd listening]. rewrite Hfree. by eexists. }
  assert (procs m0 !! next_pid m = Some (mkProcess (next_pid m) true)) as Hp0.
  { unfold m0. cbn [opened log spawn snd procs]. by rewrite lookup_insert_eq. }
  pose proof (sane_binds _ _ _ _ _ (sane_opened _ _ _ Hsane) Hp0 Hm1) as Hs1.
  exists (log (Sleep 1) m1). unfold binds, m0 in Hm1. cbn [opened log spawn snd listening procs next_pid calls] in Hm1.
  rewrite Hfree in Hm1. split_and!.
  - rewrite setup_rust, (popen_starts _ _ _ _ m Hexe). cbn [set_up starts rust_main].
    rewrite (parse_u16_str 8080) by lia. fold (opened rust_argv (RUST_PROJECT_DIR file cwd) m). fold m0.
    unfold binds, m0. cbn [opened log spawn snd listening procs next_pid calls]. rewrite Hfree. cbn [default].
    by injection Hm1 as <-.
  - split; [by apply sane_log | |]; injection Hm1 as <-; cbn [log procs listening].
    + exists true. by rewrite lookup_insert_eq.
    + intros port pid pr [[<- <-]|[_ H]]%lookup_insert_Some Hpr; [|left; by apply (Hport port pid)].
      right. rewrite lookup_insert_eq in Hpr. by injection Hpr as <-.
  - injection Hm1 as <-. cbn. by rewrite lookup_insert_eq.
  - injection Hm1 as <-. cbn. by rewrite lookup_insert_ne.
  - exists rust_argv, (RUST_PROJECT_DIR file cwd). injection Hm1 as <-. cbn. by rewrite <- app_assoc.
  - injection Hm1 as <-. cbn. lia.
Qed.

(** [daemon(0, 0)]: the process that was started has ended, and its child leads a
    group. *)
Definition forked (m : machine) : machine :=
  exits (next_pid m) (spawn (fun child => child) (opened c_argv (C_PROJECT_DIR file cwd) m)).2.

Lemma forked_sane m : sane m -> sane (forked m).
Proof. intros H. by apply sane_end_all, sane_spawn, sane_opened. Qed.

Lemma forked_procs m :
  procs (forked m) !! next_pid m = Some (mkProcess (next_pid m) false) /\
  procs (forked m) !! (next_pid m + 1) = Some (mkProcess (next_pid m + 1) true).
Proof.
  unfold forked, exits. rewrite !end_all_lookup. cbn [opened spawn log snd procs next_pid].
  rewrite lookup_insert_ne, !lookup_insert_eq by lia. cbn. rewrite Z.eqb_refl.
  by rewrite (proj2 (Z.eqb_neq (next_pid m + 1) _)) by lia.
Qed.

(** An end that spares what listens. *)
Lemma exits_listening pid m port q :
  listening m !! port = Some q -> q <> pid -> listening (exits pid m) !! port = Some q.
Proof.
  intros H Hne. apply end_all_listening. split; [done|]. destruct (procs m !! q); [|done]. cbn.
  by rewrite (proj2 (Z.eqb_neq q pid)).
Qed.

Lemma forked_listening m port : sane m -> listening (forked m) !! port = listening m !! port.
Proof.
  intros Hs. destruct (listening m !! port) as [q|] eqn:E.
  - destruct (sa_ports _ Hs port q E) as (pr & Hpr & _). pose proof (sa_pids _ Hs q pr Hpr).
    apply exits_listening; [done | lia].
  - destruct (listening (forked m) !! port) eqn:E'; [|done].
    apply end_all_listening in E' as [E' _]. cbn [opened spawn log snd listening] in E'. congruence.
Qed.

Lemma c_setup_runs m : installed ->
  daemon_setup resolve file cwd out "c" m =
  (Ok (next_pid m, "c"%string, 9090),
   log (Sleep 1) (default (exits (next_pid m + 1) (forked m)) (binds (next_pid m + 1) 9090 (forked m)))).
Proof.
  intros [_ Hc]. specialize (Hc [py_str 9090]).
  change (resolve (C_PROJECT_DIR file cwd) c_argv = Some (CDaemon, [str "./daemon"; py_str 9090])) in Hc.
  rewrite setup_c, (popen_starts _ _ _ _ m Hc). cbn [set_up starts]. unfold c_main. by rewrite (atoi_str 9090) by lia.
Qed.

Lemma c_sets_up m : between m -> installed ->
  let q := default (next_pid m + 1) (listening m !! 9090) in sets_up "c" 9090 q m (Some q).
Proof.
  intros [Hsane Hport] Hi. destruct (forked_procs m) as [Hp Hch].
  pose proof (forked_sane m Hsane) as Hf. pose proof (c_setup_runs m Hi) as E.
  pose proof (forked_listening m) as Hl. unfold binds in E. rewrite (Hl 9090 Hsane) in E.
  assert (calls (forked m) = calls m ++ [Popen c_argv (C_PROJECT_DIR file cwd) out (next_pid m)]) as Hcalls by done.
  assert (next_pid (forked m) = next_pid m + 2) as Hn by (cbn; lia).
  destruct (listening m !! 9090) as [q|] eqn:E9; cbn [default] in *; unfold id in *;
    eexists; (split; [exact E|]); (split; [split|]); cbn [log procs listening calls next_pid].
  - by apply sane_log, eq_refl; apply sane_end_all.
  - exists false. unfold exits. rewrite end_all_lookup, Hp. cbn. by rewrite (proj2 (Z.eqb_neq (next_pid m) _)) by lia.
  - intros port pid pr [H _]%end_all_listening _. left. rewrite Hl in H by done. by apply (Hport port pid).
  - assert (listening (exits (next_pid m + 1) (forked m)) !! 9090 = Some q) as ->.
    { apply exits_listening; [by rewrite Hl|]. destruct (sa_ports _ Hsane 9090 q E9) as (pr & Hpr & _).
      pose proof (sa_pids _ Hsane q pr Hpr). lia. }
    split_and!; [done..| |].
    + do 2 eexists. change (calls (exits (next_pid m + 1) (forked m))) with (calls (forked m)).
      rewrite Hcalls. by rewrite <- app_assoc.
    + change (next_pid m < next_pid (forked m)). lia.
  - apply sane_log, eq_refl. apply (sane_binds (next_pid m + 1) 9090 (forked m) _ (next_pid m + 1)); [done..|].
    unfold binds. by rewrite Hl, E9 by done.
  - by exists false.
  - intros port pid pr [[<- _]|[_ H]]%lookup_insert_Some _; left; [done|]. rewrite Hl in H by done. by apply (Hport port pid).
  - rewrite lookup_insert_eq. split_and!; [done..| |].
    + do 2 eexists. rewrite Hcalls. by rewrite <- app_assoc.
    + lia.
Qed.

(** *** The runner: a fixture that yields *)

(** What the runner does with a fixture that yields: the test after the setup, with
    its value, and the teardown after the test, whatever its result; neither of
    them when the setup raises. *)
Definition yields : Prop := forall setup teardown body m,
  pytest setup teardown body m =
  match setup m with
  | (Err _, m1) => (Ok Errored, m1)
  | (Ok fx, m1) =>
      match body fx m1 with
      | (Err e, m2) => (Err e, m2)
      | (Ok r, m2) => let '(t, m3) := teardown fx.1.1 m2 in (Ok (Ran r t), m3)
      end
  end.

(** What happens to the processes during the tests: anything that processes may do;
    and, when the daemon that a client leaves ends, as the C daemon does when it
    reads from the closed connection ([DaemonFacts.daemon_stopped_by_client]), and
    so have the commands it has launched, nothing holds its port. *)
Definition lives_on : Prop := forall t daemon m, sane m -> lives m (meanwhile t daemon m) daemon.1.1.
Definition closing_ends : Prop := forall t p m, sane m -> listening (meanwhile t (p, "c"%string, 9090) m) !! 9090 = None.

Lemma item_runs t daemon_type port listener m c :
  yields -> lives_on -> sets_up daemon_type port listener m c ->
  exists m' m1, run_item (t, daemon_type) m = (Ok (ran t listener port), m') /\ between m' /\
    kept (next_pid m) c (listening m' !! 9090) /\
    started (calls m') = started (calls m) ++ [next_pid m] /\
    signalled (calls m') = signalled (calls m) ++ [next_pid m] /\
    sane m1 /\ (forall pid, listening m' !! 9090 = Some pid ->
       listening (meanwhile t (next_pid m, daemon_type, port) m1) !! 9090 = Some pid).
Proof.
  intros Hy Hlv (m1 & E & Hd & Hl & Hc & (argv & dir & Hcalls) & Hn).
  pose proof (Hlv t (next_pid m, daemon_type, port) m1 (du_sane _ _ Hd)) as Hlives. cbn [fst] in Hlives.
  pose proof (lives_during _ _ _ Hd Hlives) as Hd1.
  destruct (teardown_ends _ _ Hd1) as (m2 & Et & Hb & Hn2 & Hc2 & Hsub). exists m2, m1. split_and!.
  - unfold run_item. rewrite Hy. cbn [fst snd]. rewrite E. unfold test_body. cbn [fst snd]. rewrite Hl.
    by rewrite Et.
  - done.
  - eapply kept_ended; [rewrite <- Hc; by apply lives_kept, Hlives|]. intros q H. by apply Hsub.
  - rewrite Hc2, (li_calls _ _ _ Hlives), Hcalls. unfold started. rewrite !omap_app. cbn. by rewrite app_nil_r.
  - rewrite Hc2, (li_calls _ _ _ Hlives), Hcalls, !signalled_app. cbn. by rewrite app_nil_r.
  - by apply du_sane in Hd.
  - intros pid H. by apply Hsub.
Qed.

Lemma item_told t daemon_type m :
  yields -> lives_on -> installed -> daemon_type ∈ params -> between m ->
  exists m' report, run_item (t, daemon_type) m = (Ok report, m') /\ between m' /\
    started (calls m') = started (calls m) ++ [next_pid m] /\
    signalled (calls m') = signalled (calls m) ++ [next_pid m] /\
    (closing_ends -> listening m !! 9090 = None ->
       listening m' !! 9090 = None /\ report = own_report (t, daemon_type) (next_pid m)) /\
    forall items pids reports c', told items pids (listening m' !! 9090) reports c' ->
      told ((t, daemon_type) :: items) (next_pid m :: pids) (listening m !! 9090) (report :: reports) c'.
Proof.
  intros Hy Hlv Hi Hp Hb. apply elem_of_cons in Hp as [->|Hp%list_elem_of_singleton]; [|subst].
  - destruct (item_runs t _ _ _ m _ Hy Hlv (rust_sets_up m Hb Hi)) as (m' & m1 & E & Hb' & Hk & Hs & Hg & _).
    eexists m', _. split_and!; [exact E | done..| |]; [|intros; by eapply told_rust].
    intros _ Hnone. split; [|done]. unfold kept in Hk. rewrite Hnone in Hk.
    destruct (listening m' !! 9090); [|done]. by destruct Hk as [|[_ []%is_Some_None]].
  - destruct (item_runs t _ _ _ m _ Hy Hlv (c_sets_up m Hb Hi)) as (m' & m1 & E & Hb' & Hk & Hs & Hg & Hs1 & Hsub).
    eexists m', _. split_and!; [exact E | done..| |]; [|intros; by eapply told_c].
    intros He Hnone. rewrite Hnone. split; [|done]. destruct (listening m' !! 9090) as [q|]; [|done].
    specialize (Hsub q eq_refl). by rewrite He in Hsub.
Qed.

Lemma items_run items : yields -> lives_on -> installed -> Forall (fun item => item.2 ∈ params) items ->
  forall m, between m ->
  exists m' pids reports, run_items items m = (Ok reports, m') /\ between m' /\
    told items pids (listening m !! 9090) reports (listening m' !! 9090) /\
    started (calls m') = started (calls m) ++ pids /\ signalled (calls m') = signalled (calls m) ++ pids /\
    (closing_ends -> listening m !! 9090 = None ->
       listening m' !! 9090 = None /\ reports = zip_with own_report items pids).
Proof.
  intros Hy Hlv Hi. induction 1 as [|[t daemon_type] items Hp _ IH]; intros m Hb.
  - exists m, [], []. rewrite !app_nil_r. split_and!; [done..|constructor|done|done|done].
  - destruct (item_told t daemon_type m Hy Hlv Hi Hp Hb) as (m1 & r & E1 & Hb1 & Hs1 & Hg1 & Hf1 & Ht).
    destruct (IH m1 Hb1) as (m2 & pids & reports & E2 & Hb2 & Htold & Hs2 & Hg2 & Hf2).
    exists m2, (next_pid m :: pids), (r :: reports). split_and!.
    + unfold run_items in *. cbn [mapM]. by rewrite (os_bind_ok _ _ _ _ _ E1), (os_bind_ok _ _ _ _ _ E2).
    + done.
    + by apply Ht.
    + by rewrite Hs2, Hs1, <- app_assoc.
    + by rewrite Hg2, Hg1, <- app_assoc.
    + intros He Hnone. destruct (Hf1 He Hnone) as [H1 ->]. by destruct (Hf2 He H1) as [? ->].
Qed.

Lemma between_free m : between m -> listening m !! 9090 = None -> listening m = ∅.
Proof.
  intros [_ Hport] Hn. apply map_empty. intros port. destruct (listening m !! port) eqn:E; [|done].
  rewrite (Hport _ _ E) in E. congruence.
Qed.

Definition built_at (root : list pystr) : Prop :=
  (forall args, exists exe, resolve (absolute (root ++ [str "rust"]))
     (str "cargo" :: str "run" :: str "--bin" :: str "run_demon" :: str "--" :: args) = Some (RustDaemon, exe :: args)) /\
  (forall args, resolve (absolute (root ++ [str "c"; str "builddir"])) (str "./daemon" :: args) =
     Some (CDaemon, str "./daemon" :: args)).

Lemma project_dirs root name :
  Forall (fun w => plain w = true) root -> slash ∉ name -> file = absolute (root ++ [str "tests_python"; name]) ->
  RUST_PROJECT_DIR file cwd = absolute (root ++ [str "rust"]) /\
  C_PROJECT_DIR file cwd = absolute (root ++ [str "c"; str "builddir"]).
Proof.
  intros Hroot Hname ->.
  assert (Forall (fun w => plain w = true) (root ++ [str "tests_python"])) as H
    by (apply Forall_app; split; [done | by constructor]).
  split.
  - apply (sibling_dir cwd root (str "tests_python") name [str "rust"]); try done. by repeat constructor.
  - apply (sibling_dir cwd root (str "tests_python") name [str "c"; str "builddir"]); try done. by repeat constructor.
Qed.

End run.

(** ** At a concrete input *)
Section witness.
#[local] Existing Instance ref_runtime.
#[local] Existing Instance ref_laws.

Definition example_resolve (dir : pystr) (argv : list pystr) : option (program * list pystr) :=
  match argv with
  | a :: args =>
      if bool_decide (a = str "./daemon") then Some (CDaemon, argv)
      else if bool_decide (a = str "cargo") then Some (RustDaemon, drop 4 argv) else None
  | [] => None
  end.

Definition example_pytest (setup : os (Z * string * Z)) (teardown : Z -> os unit)
    (body : Z * string * Z -> os result) : os item_report := fun m =>
  match setup m with
  | (Err _, m1) => (Ok Errored, m1)
  | (Ok fx, m1) =>
      match body fx m1 with
      | (Err e, m2) => (Err e, m2)
      | (Ok r, m2) => let '(t, m3) := teardown fx.1.1 m2 in (Ok (Ran r t), m3)
      end
  end.

(** A machine without daemons, on which the next process is 100. *)
Definition empty_machine : machine := mkMachine ∅ ∅ 100 [].

(** Behind each port a daemon that reports the run of [ls], when there is one. *)
Definition example_net (t : test) (listener : option Z) : network :=
  match listener with Some _ => Connected (one_segment ls_messages) Writable | None => Refused end.

(** The C daemon ends with its session. *)
Definition example_meanwhile (t : test) (daemon : Z * string * Z) (m : machine) : machine :=
  if String.eqb daemon.1.2 "c" then
    match listening m !! 9090 with Some q => exits q m | None => m end
  else m.

Lemma exits_lives q m p : sane m -> lives m (exits q m) p.
Proof.
  intros Hs. split; [done | cbn; lia | | | |].
  - intros pr Hp. unfold exits. rewrite end_all_lookup, Hp. destruct pr as [g a]. cbn.
    destruct (p =? q); by eexists.
  - intros pid pr' H _. unfold exits in H. rewrite end_all_lookup in H. apply fmap_Some in H as (pr & H & ->).
    exists pr. split; [done|]. by destruct (pid =? q).
  - intros pid pr' H Hge. unfold exits in H. rewrite end_all_lookup in H. apply fmap_Some in H as (pr & H & _).
    pose proof (sa_pids _ Hs pid pr H). lia.
  - intros port pid [H He]%end_all_listening. destruct (sa_ports _ Hs port pid H) as (pr & Hpr & Ha).
    rewrite Hpr in He. cbn in He. exists pr, pid, pr. split_and!; [|done..|by left].
    unfold exits. rewrite end_all_lookup, Hpr. cbn. by destruct (pid =? q).
Qed.

Lemma same_lives m p : sane m -> lives m m p.
Proof.
  intros Hs. split; [done | done | | | |].
  - intros [g a] H. by exists a.
  - intros pid pr' H _. by exists pr'.
  - intros pid pr' H Hge. pose proof (sa_pids _ Hs pid pr' H). lia.
  - intros port pid H. destruct (sa_ports _ Hs port pid H) as (pr & Hpr & Ha). exists pr, pid, pr.
    split_and!; [done..|by left].
Qed.

Lemma example_lives : lives_on example_meanwhile.
Proof.
  intros t daemon m Hs. unfold example_meanwhile. destruct (String.eqb _ _); [|by apply same_lives].
  destruct (listening m !! 9090); [by apply exits_lives | by apply same_lives].
Qed.

Lemma example_ends : closing_ends example_meanwhile.
Proof.
  intros t p m Hs. unfold example_meanwhile. cbn [fst snd]. change (String.eqb "c" "c") with true. cbv iota.
  destruct (listening m !! 9090) as [q|] eqn:E; [|done].
  destruct (listening (exits q m) !! 9090) as [q'|] eqn:E'; [|done].
  apply end_all_listening in E' as [Hl He]. rewrite E in Hl. injection Hl as <-.
  destruct (sa_ports _ Hs 9090 q E) as (pr & Hpr & _). rewrite Hpr in He. cbn in He. by rewrite Z.eqb_refl in He.
Qed.

Lemma empty_between : between empty_machine.
Proof. split; [split|]; cbn; try done; by constructor. Qed.

Definition example_items : list (test * string) :=
  [(receiving_process_terminated, "rust"%string); (receiving_process_terminated, "c"%string);
   (execve_terminated, "rust"%string); (execve_terminated, "c"%string)].

End witness.
