(* ===== verification/TestC.v ===== *)
(** * The test suite with the C daemon

    Each test of TestDemon against the reports of the turns of Daemon. *)
From S2P Require Import Prelude Bytes Utf8 FlatBuffers FlatBuffersRef FlatBuffersRefLaws.
From S2P Require Import Enums Tables Data Send Receive BuilderLogic SendFacts CommandFacts.
From S2P Require Import ReadFacts ReceiveFacts PeerCommand PeerMessages Wire TestCommands.
From S2P Require Import Socket Clients ClientFacts Sessions ProcessManager Daemon DaemonFacts EndToEnd TestDemon.

(** What the suite concludes of the life of a process, by the outcome of its execve,
    what happens to the watched files before its end, and its status. *)
Definition c_result (t : test) (success : bool) (files : list inotify_event) (status : Z) (in_time : bool)
    : result :=
  match t with
  | daemon_connection | receiving_launch_process | inotify_result => Passed
  | receiving_failed_launch_process => result_of (negb success)
  | receiving_process_terminated | echo => result_of (status =? 0)
  | response_time_ => result_of ((status =? 0) && in_time)
  | execve_terminated => result_of success
  | kill_process_ => result_of ((0 <? status) && in_time)
  | inotify_event_ => match files with [] => Running | _ => Passed end
  | socket_listening_ | watching_socket_ => Running
  end.

(** An event of a kind that the commands of the tests watch, and its report. *)
Definition sees_file (e : inotify_event) : bool :=
  has_mask e IN_ACCESS || has_mask e IN_CREATE || has_mask e IN_DELETE || has_mask e IN_MODIFY.

Definition file_report (size : Z) (e : inotify_event) : report :=
  let info := process_Event e None size in
  PathUpdated (i_name e) (default MODIFIED info.1) info.2 (to_uint32 size).

Lemma process_Event_seen e prev size :
  sees_file e = true ->
  process_Event e prev size = process_Event e None size /\
  (process_Event e None size).1 = Some (default MODIFIED (process_Event e None size).1).
Proof.
  unfold sees_file, process_Event.
  destruct (has_mask e IN_ACCESS), (has_mask e IN_CREATE), (has_mask e IN_DELETE), (has_mask e IN_MODIFY);
    try done; intros _; by repeat case_match.
Qed.

Lemma files_handled files prev size fd d :
  Forall (fun e => sees_file e = true) files -> fd ∉ d_gone d ->
  exists d', handle_inotify_event files prev size fd d = Next tt d' /\
    d_sent d' = d_sent d ++ ((fun r => (fd, r)) <$> (file_report size <$> files)) /\
    d_table d' = d_table d /\ d_communication_socket d' = d_communication_socket d /\ d_gone d' = d_gone d.
Proof.
  intros H. revert prev d. induction H as [|e files He _ IH]; intros prev d Hg.
  - exists d. cbn. by rewrite app_nil_r.
  - destruct (process_Event_seen e prev size He) as [E1 E2]. cbn [handle_inotify_event].
    rewrite E1, E2. cbn [initialised]. dstep. rewrite send_message_next by done.
    edestruct IH as (d' & -> & Hs & Ht & Hc & Hg'); [|exists d'; split; [done|]]; [exact Hg|].
    rewrite Hs, Ht, Hc, Hg'. cbn [d_sent d_table d_communication_socket with_sent]. by rewrite <- app_assoc.
Qed.

(** The turn in which they are read, if there are any. *)
Definition file_turn (ifd size : Z) (files : list inotify_event) : list notification :=
  match files with [] => [] | _ => [InotifyReady ifd size files] end.

Lemma first_report_app event rs rs' :
  first_report event (rs ++ rs') =
    match first_report event rs with Some r => Some r | None => first_report event rs' end.
Proof.
  unfold first_report. induction rs as [|r rs IH]; [done|]. cbn. by destruct (bool_decide _).
Qed.

Lemma first_report_files event size files :
  first_report event (file_report size <$> files) =
    if bool_decide (event = INOTIFY_PATH_UPDATED) then file_report size <$> head files else None.
Proof.
  unfold first_report. induction files as [|e files IH]; [by case_bool_decide|].
  rewrite fmap_cons. cbn [List.find report_event file_report]. cbv zeta. cbn [report_event].
  repeat case_bool_decide; try congruence; done.
Qed.

Section suite.
Context {FB : FlatBuffers} {FBL : FlatBuffersLaws FB}.
Context (rm : bytes -> Z -> Event) (rc : bytes -> Z -> option s_command) (rk : bytes -> Z -> option Z).
Context (port inotifyFd : Z).

Lemma watched_life_served cmd cb server sfd fd ifd size files k c path success wstatus status d t t' :
  command_ok cmd = true -> cmd_args cmd <> [] -> reads_commands rm rc -> send_command_to_demon cmd = Ok cb ->
  blen (bi_buffer cb) <= verifier_limit -> 0 <= fd -> fd ∉ d_gone d -> launched_child k = Some c ->
  track (ic_child_id c) (ic_stack_p c) (err_file_of k) (d_table d) = Some t ->
  untrack (ic_child_id c) t = Some t' -> exit_status wstatus = Some status ->
  Forall (fun e => sees_file e = true) files ->
  exists d', turns rm rc rk port inotifyFd
      (launch_life server fd (bi_buffer cb) k c path (if success : bool then 0 else 4) ++
       file_turn ifd size files ++ [SignalReady sfd (Some (ic_child_id c, wstatus))]) d = Next tt d' /\
    d_sent d' = d_sent d ++ ((fun r => (fd, r)) <$>
      (first_reports port cmd c path success ++ (file_report size <$> files) ++
       [ProcessTerminated (ic_child_id c) status])).
Proof.
  intros Hok Hargs Hreads Hcb Hlt Hfd Hg Hc Ht Hu Hst Hfiles.
  destruct (launch_life_served rm rc rk port inotifyFd cmd cb server fd k c path success d t Hok Hargs Hreads
              Hcb Hlt Hfd Hg Hc Ht) as (d1 & E1 & S1 & T1 & C1 & _ & G1). rewrite <- G1 in Hg.
  assert (exists d2, turns rm rc rk port inotifyFd (file_turn ifd size files) d1 = Next tt d2 /\
    d_sent d2 = d_sent d1 ++ ((fun r => (fd, r)) <$> (file_report size <$> files)) /\
    d_table d2 = d_table d1 /\ d_communication_socket d2 = d_communication_socket d1 /\
    d_gone d2 = d_gone d1) as (d2 & E2 & S2 & T2 & C2 & G2).
  { destruct (files_handled files None size fd d1 Hfiles Hg) as (d2 & E & Hd2). exists d2. split; [|done].
    destruct files as [|e files]; [by cbn in *; simplify_eq|]. unfold file_turn. cbn [turns turn].
    rewrite (dm_bind_next _ _ d1 tt d2); [done|]. unfold handle_inotify.
    rewrite (dm_bind_next _ _ d1 (d_communication_socket d1) d1), C1 by done.
    by rewrite (dm_bind_next _ _ d1 fd d1). }
  rewrite <- T1, <- T2 in Hu. rewrite C1 in C2. rewrite <- G2 in Hg.
  destruct (last_end_served rm rc rk port inotifyFd sfd fd _ _ _ d2 t' C2 Hg Hu Hst) as (d3 & E3 & S3 & _).
  exists d3. rewrite (turns_app _ _ _ _ _ _ _ _ _ E1), (turns_app _ _ _ _ _ _ _ _ _ E2). split; [done|].
  rewrite S3, S2, S1, !fmap_app, <- !app_assoc. done.
Qed.

Lemma c_judged t cmd c path success size files status in_time :
  0 <= port < 2 ^ 16 -> 0 < ic_child_id c < 2 ^ 31 -> command_of t port = Some cmd -> cmd_args cmd <> [] ->
  judged t port in_time (first_reports port cmd c path success ++ (file_report size <$> files) ++
    [ProcessTerminated (ic_child_id c) status]) = c_result t success files status in_time.
Proof.
  intros Hport Hpid Hcmd Hargs. unfold first_reports.
  destruct t; try discriminate Hcmd; injection Hcmd as <-; try done; cbn [c_to_watch c_view peer_view peer_watched].
  all: unfold judged, judged_by; rewrite !first_report_app, first_report_files; unfold first_report; cbn;
    repeat first [rewrite bool_decide_eq_true_2 by done | rewrite bool_decide_eq_false_2 by done]; cbn;
    rewrite ?(proj2 (Z.ltb_lt 0 (ic_child_id c))), ?(proj2 (Z.leb_le 0 (ic_child_id c))) by lia.
  all: try done. all: first [by destruct success | by destruct files].
Qed.

(** C8. The suite with the C daemon, on a connection whose client is there.  The bytes
    of a test with arguments make the daemon launch its program, and what it reports
    of the process makes the test conclude by the outcome of the execve, the exit
    status, what happened to the watched files and, for the test that kills, the
    signal it had sent.  The two tests about sockets send a command without arguments: the daemon reads past the end of them and reports nothing
    of the watch. *)
Theorem suite_with_c t in_time fuel cmd server sfd fd ifd size files k k' c path success wstatus status d tb tb' msgs l :
  0 <= port < 2 ^ 16 -> command_of t port = Some cmd -> reads_commands rm rc -> reads_kills rm rk ->
  0 <= fd -> fd ∉ d_gone d -> launched_child k = Some c -> 0 < ic_child_id c < 2 ^ 31 ->
  track (ic_child_id c) (ic_stack_p c) (err_file_of k) (d_table d) = Some tb ->
  untrack (ic_child_id c) tb = Some tb' -> exit_status wstatus = Some status ->
  Forall (fun e => sees_file e = true) files -> (t = kill_process_ -> files = []) ->
  exists cb kb, send_command_to_demon cmd = Ok cb /\ send_kill_to_demon (ic_child_id c) = Ok kb /\
    (blen (bi_buffer cb) <= verifier_limit -> blen (bi_buffer kb) < 2 ^ 31 ->
     let turns := turns rm rc rk port inotifyFd in
     let life :=
       if decide (t = kill_process_)
       then killed_life server sfd fd (bi_buffer cb) (bi_buffer kb) k k' c path wstatus
       else launch_life server fd (bi_buffer cb) k c path (if success : bool then 0 else 4) ++
            file_turn ifd size files ++ [SignalReady sfd (Some (ic_child_id c, wstatus))] in
     let outcome := if decide (t = kill_process_) then true else success in
     let reports := first_reports port cmd c path outcome ++ (file_report size <$> files) ++
                    [ProcessTerminated (ic_child_id c) status] in
     (t <> socket_listening_ -> t <> watching_socket_ ->
      exists d', turns life d = Next tt d' /\
        d_sent d' = d_sent d ++ ((fun r => (fd, r)) <$> reports) /\
        (Forall2 encodes reports msgs -> carries l msgs [] -> (length msgs < fuel)%nat ->
         run t (mkFixture (Connected l Writable) port in_time fuel) = c_result t outcome files status in_time)) /\
     (t = socket_listening_ \/ t = watching_socket_ ->
      exists d', turns [ConnexionReady server fd true; MessageReady fd (to_le 4 (blen (bi_buffer cb))) (bi_buffer cb) k] d =
          Halt (Undefined OutOfBounds) d' /\
        d_sent d' = d_sent d ++ [(fd, TCPSocketListening port)])).
Proof.
  intros Hport Hcmd Hreads Hkills Hfd Hg Hc Hpid Ht Hu Hst Hfiles Hnofile.
  pose proof (commands_ok t port cmd Hport Hcmd) as Hok.
  assert (in_range SInt32 (ic_child_id c) = true) as Hrange by (unfold in_range; cbn; lia).
  assert (to_uint16 port = port) as E16 by (apply Z.mod_small; lia).
  destruct (send_command_message cmd Hok) as (cb & Hcb & _).
  destruct (send_kill_message _ Hrange) as (kb & Hkb & _).
  exists cb, kb. split; [exact Hcb|]. split; [exact Hkb|]. intros Hlt Hklt. cbv zeta. split.
  - intros Hns1 Hns2.
    assert (cmd_args cmd <> []) as Hargs by (destruct t; try discriminate Hcmd; injection Hcmd as <-; done).
    set (outcome := if decide (t = kill_process_) then true else success).
    set (reports := first_reports port cmd c path outcome ++ (file_report size <$> files) ++
      [ProcessTerminated (ic_child_id c) status]).
    assert (exists rest, reports = TCPSocketListening port :: rest) as [rest Hrest].
    { unfold reports, first_reports. rewrite E16. by eexists. }
    assert (exists d', turns rm rc rk port inotifyFd
      (if decide (t = kill_process_)
       then killed_life server sfd fd (bi_buffer cb) (bi_buffer kb) k k' c path wstatus
       else launch_life server fd (bi_buffer cb) k c path (if success then 0 else 4) ++
            file_turn ifd size files ++ [SignalReady sfd (Some (ic_child_id c, wstatus))]) d = Next tt d' /\
      d_sent d' = d_sent d ++ ((fun r => (fd, r)) <$> reports)) as (d' & E & Hs).
    { unfold reports, outcome. destruct (decide (t = kill_process_)) as [Hkill|].
      - rewrite (Hnofile Hkill). cbn [fmap list_fmap app]. destruct (killed_life_served rm rc rk port inotifyFd cmd cb kb server sfd fd k k' c path wstatus status d tb tb')
          as (d' & E & _ & Hs); try done. by exists d'.
      - by apply (watched_life_served cmd cb server sfd fd ifd size files k c path success wstatus status d tb tb'). }
    exists d'. split; [exact E|]. split; [exact Hs|]. intros HE Hl Hf.
    fold outcome reports in HE. rewrite Hrest in HE. rewrite (tests_judged port in_time fuel rest msgs l t Hport Hf HE Hl), <- Hrest.
    by apply (c_judged t cmd c path outcome size files status in_time).
  - intros Hsock.
    destruct (no_argument_served rm rc rk port inotifyFd cmd cb server fd k d) as (d' & E & S); try done.
    { by destruct Hsock as [-> | ->]; injection Hcmd as <-. }
    exists d'. by rewrite E16 in S.
Qed.
End suite.

(** ** At a concrete input *)
Section witnesses.
#[local] Existing Instance ref_runtime.
#[local] Existing Instance ref_laws.

(** A file of the watched directory is read, while [echo] runs. *)
Definition file_read_event : inotify_event := mkInotifyEvent IN_ACCESS (enc (str "ls")) None.

Definition inotify_messages : list bytes :=
  [greeting; launched; message_of (send_inotifywatchlistupdated_to_user (str "/bin/")); executed true;
   message_of (peer_inotifypathupdated (str "ls") 4 128 128); ended 0].

Lemma inotify_encoded :
  Forall2 encodes [TCPSocketListening 8080; ProcessLaunched 4242; WatchListUpdated (enc (str "/bin/"));
    ExecveTerminated 4242 (enc (str "/bin/ls")) true; PathUpdated (enc (str "ls")) ACCESSED 128 128;
    ProcessTerminated 4242 0] inotify_messages.
Proof.
  do 2 (apply Forall2_cons_2; [encoded|]). apply Forall2_cons_2.
  { exists (str "/bin/"). split; [reflexivity|]. apply notifies_watch_list; [by apply text_ok_bool | notified]. }
  apply Forall2_cons_2; [encoded|]. apply Forall2_cons_2.
  { exists (str "ls"). split; [reflexivity|]. apply notifies_update; [by apply text_ok_bool | done..| notified]. }
  apply Forall2_cons_2; [encoded | constructor].
Qed.

Lemma inotify_carried : carries (one_segment inotify_messages) inotify_messages [].
Proof. apply (carries_segment inotify_messages []); [done | repeat constructor; vm_compute; done]. Qed.

Lemma suite_with_c_witness :
  exists cb, send_command_to_demon inotify_event_command = Ok cb /\
    (exists d', turns generated_rm generated_rc generated_rk 8080 4
         (launch_life 3 7 (bi_buffer cb) ls_kernel (mkInfoChild 8192 4242 8) (enc (str "/bin/ls")) 0 ++
          [InotifyReady 9 128 [file_read_event]; SignalReady 6 (Some (4242, 0))]) demo0 = Next tt d') /\
    run inotify_event_ (mkFixture (Connected (one_segment inotify_messages) Writable) 8080 true 9) = Passed.
Proof.
  destruct (track 4242 8192 5 (d_table demo0)) as [t|] eqn:Ht; [|vm_compute in Ht; discriminate].
  destruct (untrack 4242 t) as [t'|] eqn:Hu;
    [|vm_compute in Ht; injection Ht as <-; vm_compute in Hu; discriminate].
  destruct (suite_with_c generated_rm generated_rc generated_rk 8080 4 inotify_event_ true 9
              inotify_event_command 3 6 7 9 128 [file_read_event] ls_kernel ls_kernel (mkInfoChild 8192 4242 8)
              (enc (str "/bin/ls")) true 0 0 demo0 t t' inotify_messages (one_segment inotify_messages))
    as (cb & kb & Hcb & Hkb & H); [lia | reflexivity | exact generated_reads_commands | exact generated_reads_kills
       | lia | by apply not_elem_of_nil | reflexivity | cbn; lia | exact Ht | exact Hu | reflexivity | by repeat constructor | done |].
  exists cb. split; [exact Hcb|].
  assert (blen (bi_buffer cb) <= verifier_limit) as Hsmall
    by (clear - Hcb; vm_compute in Hcb; injection Hcb as <-; by vm_compute).
  destruct (H Hsmall (kill_small kb Hkb)) as [Hlife _].
  destruct (Hlife ltac:(discriminate) ltac:(discriminate)) as (d' & E & _ & Hv).
  split; [exists d'; exact E | exact (Hv inotify_encoded inotify_carried ltac:(cbn; lia))].
Defined.
End witnesses.
