(* ===== verification/CppReceive.v ===== *)
(** * How the C daemon reads a request ([serialize.cpp], [serialize_wrapper.cpp])

    [receive_message_from_user], [receive_command] and [receive_kill].  The
    verifier and the accessors of the C++ FlatBuffers library and of the generated
    header are parameters: a verified message is seen through what its accessors
    return, a null pointer where a field is absent ([None]).  These functions are
    the parameters of the loop in Daemon; that they read what the client sends is
    proved here from what is relied on of the library. *)
From S2P Require Import Prelude Bytes Utf8 FlatBuffers FlatBuffersRef FlatBuffersRefLaws.
From S2P Require Import Enums Tables Data Send Receive BuilderLogic SendFacts CommandFacts.
From S2P Require Import ReadFacts ReceiveFacts PeerCommand TestCommands.
From S2P Require Import ProcessManager Daemon DaemonFacts EndToEnd.

(** ** Messages, as the accessors of [demon_generated.h] give them *)
Record cpp_inotify : Type := mkCppInotify {
  ci_root_paths : option bytes;
  ci_mask : Z;                                  (* [int32_t] *)
  ci_size : Z                                   (* [uint32_t] *)
}.

Inductive cpp_surveillance : Type :=
  | CSInotify (event : option cpp_inotify)
  | CSTCPSocket (destport : option Z)
  | CSOther.

Record cpp_command : Type := mkCppCommand {
  cc_path : option bytes;
  cc_args : option (list bytes);
  cc_envp : option (list bytes);
  cc_flags : Z;
  cc_stack_size : Z;
  cc_to_watch : option (list cpp_surveillance)
}.

Record cpp_execve : Type :=
  mkCppExecve { ce_pid : Z; ce_command_name : option bytes; ce_success : bool }.

Record cpp_update : Type :=
  mkCppUpdate { cu_path : option bytes; cu_trigger_events : Z; cu_size : Z; cu_size_limit : Z }.

Inductive cpp_message : Type :=
  | CMRunCommand (command : option cpp_command)
  | CMKillProcess (pid : option Z)
  | CMExecveTerminated (event : option cpp_execve)
  | CMProcessLaunched (pid : option Z)
  | CMChildCreationError (error_code : option Z)
  | CMProcessTerminated (event : option ProcessTerminatedInfo)
  | CMTCPSocketListening (port : option Z)
  | CMInotifyPathUpdated (event : option cpp_update)
  | CMInotifyWatchListUpdated (event : option (option bytes))    (* its path *)
  | CMSocketWatched (port : option Z)
  | CMSocketWatchTerminated (event : option (Z * Z))             (* its port and its state *)
  | CMOther.

(** ** Functions that may dereference a null pointer *)
Inductive deref (A : Type) : Type :=
  | Returns (a : A)
  | NullPointer.
Arguments Returns {A} _.
Arguments NullPointer {A}.

#[global] Instance deref_ret : MRet deref := @Returns.
#[global] Instance deref_bind : MBind deref := fun A B f m =>
  match m with Returns a => f a | NullPointer => NullPointer end.
Definition at_pointer {A} (p : option A) : deref A :=
  match p with Some a => Returns a | None => NullPointer end.

Section receive.
Context (VerifyMessageBuffer : bytes -> Z -> bool) (GetMessage : bytes -> cpp_message).

(** An entry of [to_watch]; the [default] of the switch leaves the new entry
    uninitialised ([None]). *)
Definition receive_watch (surveillance_event : cpp_surveillance) : deref (option surveillance) :=
  match surveillance_event with
  | CSInotify event =>
      inotify_event ← at_pointer event;
      root_paths ← at_pointer (ci_root_paths inotify_event);
      mret (Some (SInotify (c_str root_paths) (ci_mask inotify_event) (ci_size inotify_event)))
  | CSTCPSocket event =>
      destport ← at_pointer event;
      mret (Some (SSocket destport))
  | CSOther => mret None
  end.

(** The command, but for its entries; and the entries. *)
Definition receive_command (buffer : bytes) (size : Z)
    : deref (option (s_command * list (option surveillance))) :=
  if size <=? 0 then mret None
  else if negb (VerifyMessageBuffer buffer size) then mret None
  else
    match GetMessage buffer with
    | CMRunCommand event =>
        run_command ← at_pointer event;
        path ← at_pointer (cc_path run_command);
        args ← at_pointer (cc_args run_command);
        envp ← at_pointer (cc_envp run_command);
        let surveillances := default [] (cc_to_watch run_command) in
        to_watch ← mapM receive_watch surveillances;
        mret (Some (mkSCommand (c_str path) (c_str <$> args) (c_str <$> envp) (cc_flags run_command)
                      (cc_stack_size run_command) [], to_watch))
    | _ => mret None
    end.

Definition receive_kill (buffer : bytes) (size : Z) : deref Z :=
  if size <=? 0 then mret (-1)
  else if negb (VerifyMessageBuffer buffer size) then mret (-1)
  else
    match GetMessage buffer with
    | CMKillProcess event => at_pointer event
    | _ => mret (-1)
    end.

Definition receive_message_from_user (buffer : bytes) (size : Z) : Event :=
  if size <=? 0 then NONE
  else if negb (VerifyMessageBuffer buffer size) then NONE
  else
    match GetMessage buffer with
    | CMRunCommand _ => RUN_COMMAND
    | CMKillProcess _ => KILL_PROCESS
    | _ => NONE
    end.

(** As the parameters of the loop.  [None] is a request the loop cannot go on
    with: no command (it dereferences the result), a null pointer already met, or
    an entry it would read uninitialised. *)
Definition receive_command_c (buffer : bytes) (size : Z) : option s_command :=
  match receive_command buffer size with
  | Returns (Some (com, to_watch)) =>
      ws ← mapM (fun w => w) to_watch;
      Some (mkSCommand (c_path com) (c_args com) (c_envp com) (c_flags com) (c_stack_size com) ws)
  | _ => None
  end.
Definition receive_kill_c (buffer : bytes) (size : Z) : option Z :=
  match receive_kill buffer size with Returns pid => Some pid | NullPointer => None end.

(** ** What the client sends is read *)
Context {FB : FlatBuffers} {FBL : FlatBuffersLaws FB}.

Definition cpp_watched (w : watched) : cpp_surveillance :=
  match w with
  | WatchInotify p => CSInotify (Some (mkCppInotify (Some (enc (ip_root_paths p))) (ip_mask p) (ip_size p)))
  | WatchSocket p => CSTCPSocket (Some (destport p))
  end.

Definition cpp_view (cmd : peer_command) : cpp_command :=
  mkCppCommand (Some (enc (peer_path cmd))) (Some (enc <$> peer_args cmd)) (Some (enc <$> peer_envp cmd))
    (peer_flags cmd) (peer_stack_size cmd) (Some (cpp_watched <$> peer_watched cmd)).

(** What is relied on of the library: the messages of the client are verified, and
    their accessors give what was put in. *)
Definition library_reads : Prop :=
  (forall cmd bi, command_ok cmd = true -> send_command_to_demon cmd = Ok bi ->
     blen (bi_buffer bi) <= verifier_limit ->
     VerifyMessageBuffer (bi_buffer bi) (bi_size bi) = true /\
     GetMessage (bi_buffer bi) = CMRunCommand (Some (cpp_view (peer_view cmd)))) /\
  (forall pid bi, in_range SInt32 pid = true -> send_kill_to_demon pid = Ok bi ->
     VerifyMessageBuffer (bi_buffer bi) (bi_size bi) = true /\
     GetMessage (bi_buffer bi) = CMKillProcess (Some pid)).

Lemma receive_watches ws :
  mapM receive_watch (cpp_watched <$> ws) = Returns (Some <$> (c_surveillance <$> ws)).
Proof.
  induction ws as [|w ws IH]; [done|]. cbn. unfold mbind, deref_bind in *.
  destruct w; cbn; by rewrite IH.
Qed.

Lemma mapM_some {A} (l : list A) : mapM (fun o => o) (Some <$> l) = Some l.
Proof. induction l as [|a l IH]; [done|]. cbn. by rewrite IH. Qed.

Lemma command_received cmd buffer size :
  0 < size -> VerifyMessageBuffer buffer size = true ->
  GetMessage buffer = CMRunCommand (Some (cpp_view cmd)) ->
  receive_message_from_user buffer size = RUN_COMMAND /\
  receive_command_c buffer size = Some (c_view cmd).
Proof.
  intros Hs Hv Hg. unfold receive_message_from_user, receive_command_c, receive_command.
  rewrite (proj2 (Z.leb_gt size 0)), Hv, Hg by done. cbn [negb]. split; [done|].
  cbn [cpp_view at_pointer cc_path cc_args cc_envp cc_flags cc_stack_size cc_to_watch default from_option
       mbind deref_bind mret deref_ret].
  unfold id. rewrite receive_watches. cbn [mbind deref_bind mret deref_ret]. cbv beta iota. rewrite mapM_some. cbn. unfold c_view, c_text.
  by rewrite <- !list_fmap_compose.
Qed.

(** What the functions return where there is no request of theirs. *)
Definition is_command (m : cpp_message) : bool := match m with CMRunCommand _ => true | _ => false end.
Definition is_kill (m : cpp_message) : bool := match m with CMKillProcess _ => true | _ => false end.

Lemma no_request buffer size :
  size <= 0 \/ VerifyMessageBuffer buffer size = false ->
  receive_message_from_user buffer size = NONE /\ receive_command buffer size = Returns None /\
  receive_kill buffer size = Returns (-1).
Proof.
  intros H. unfold receive_message_from_user, receive_command, receive_kill.
  destruct (size <=? 0) eqn:E; [done|]. destruct H as [H | ->]; [lia | done].
Qed.

Lemma kind_of_request buffer size :
  0 < size -> VerifyMessageBuffer buffer size = true ->
  receive_message_from_user buffer size =
    (if is_command (GetMessage buffer) then RUN_COMMAND
     else if is_kill (GetMessage buffer) then KILL_PROCESS else NONE) /\
  (is_command (GetMessage buffer) = false -> receive_command buffer size = Returns None) /\
  (is_kill (GetMessage buffer) = false -> receive_kill buffer size = Returns (-1)).
Proof.
  intros Hs Hv. unfold receive_message_from_user, receive_command, receive_kill.
  rewrite (proj2 (Z.leb_gt size 0)), Hv by done. cbn [negb]. by destruct (GetMessage buffer).
Qed.

(** A request whose accessors give a null pointer. *)
Lemma null_request buffer size :
  0 < size -> VerifyMessageBuffer buffer size = true ->
  (forall event, GetMessage buffer = CMRunCommand event ->
     from_option (fun c => cc_path c = None \/ cc_args c = None \/ cc_envp c = None) True event ->
     receive_command buffer size = NullPointer) /\
  (GetMessage buffer = CMKillProcess None -> receive_kill buffer size = NullPointer).
Proof.
  intros Hs Hv. split; [intros [c|] Hg Hnull | intros Hg]; unfold receive_command, receive_kill;
    rewrite (proj2 (Z.leb_gt size 0)), Hv, Hg by done; [|done..].
  cbn in *. destruct (cc_path c); [|done]. cbn. destruct (cc_args c); [|done]. cbn.
  destruct (cc_envp c); [|done]. by destruct Hnull as [|[|]].
Qed.

(** C25. The functions that read the requests of the daemon, on what the verifier and
    the accessors give.  What the client sends is recognised and read, commands
    with their strings up to the first NUL: they satisfy what the loop relies on.
    A buffer without bytes, one that is not verified and a message of another kind
    get the error value of each function, and the last two leave the daemon as it
    was.  But a verified request may lack its body, or a request for a process its
    path, its arguments or its environment, which no reader checks: reading it
    dereferences a null pointer, and the daemon, which any client can send it to,
    ends. *)
Theorem requests_received :
  (library_reads ->
     reads_commands receive_message_from_user receive_command_c /\
     reads_kills receive_message_from_user receive_kill_c) /\
  (forall buffer size, size <= 0 \/ VerifyMessageBuffer buffer size = false ->
     receive_message_from_user buffer size = NONE /\ receive_command buffer size = Returns None /\
     receive_kill buffer size = Returns (-1)) /\
  forall inotifyFd fd buf k d, 0 < blen buf < 2 ^ 31 ->
    let size := blen buf in
    let handled := handle_message receive_message_from_user receive_command_c receive_kill_c
                     inotifyFd fd (to_le 4 size) buf k d in
    let crashes := handled = Halt (Undefined NullDereference) d in
    (VerifyMessageBuffer buf size = false -> handled = Next tt d) /\
    (VerifyMessageBuffer buf size = true ->
       (is_command (GetMessage buf) = false -> receive_command buf size = Returns None) /\
       (is_kill (GetMessage buf) = false -> receive_kill buf size = Returns (-1)) /\
       match GetMessage buf with
       | CMRunCommand event =>
           receive_message_from_user buf size = RUN_COMMAND /\
           (from_option (fun c => cc_path c = None \/ cc_args c = None \/ cc_envp c = None) True event ->
              receive_command buf size = NullPointer /\ crashes)
       | CMKillProcess event =>
           receive_message_from_user buf size = KILL_PROCESS /\
           match event with
           | Some pid => receive_kill buf size = Returns pid
           | None => receive_kill buf size = NullPointer /\ crashes
           end
       | _ => receive_message_from_user buf size = NONE /\ handled = Next tt d
       end).
Proof.
  split; [|split; [apply no_request|]].
  - intros [Hc Hk]. split.
    + intros cmd bi Hok Hb Hlim. destruct (Hc cmd bi Hok Hb Hlim) as [Hv Hg].
      apply command_received; [|done..]. destruct (command_bytes cmd bi Hok Hb). lia.
    + intros pid bi Hp Hb. destruct (Hk pid bi Hp Hb) as [Hv Hg]. destruct (kill_bytes pid bi Hp Hb) as [Hs Hpos].
      unfold receive_message_from_user, receive_kill_c, receive_kill.
      rewrite (proj2 (Z.leb_gt (bi_size bi) 0)), Hv, Hg by lia. done.
  - intros inotifyFd fd buf k d Hb. cbv zeta. unfold Daemon.handle_message.
    rewrite read_framed, (proj2 (Z.eqb_neq (blen buf) 0)) by lia. split.
    + intros Hv. by destruct (no_request buf (blen buf) (or_intror Hv)) as [-> _].
    + intros Hv. destruct (kind_of_request buf (blen buf) ltac:(lia) Hv) as (Hm & Hnc & Hnk).
      destruct (null_request buf (blen buf) ltac:(lia) Hv) as [Hn1 Hn2].
      split; [exact Hnc|]. split; [exact Hnk|]. rewrite Hm. destruct (GetMessage buf) as [event|event| | | | | | | | | |] eqn:Hg;
        cbn [is_command is_kill]; try done.
      * split; [done|]. intros H. specialize (Hn1 event eq_refl H). split; [done|].
        unfold receive_command_c. by rewrite Hn1.
      * split; [done|]. destruct event as [pid|].
        -- unfold receive_kill. rewrite (proj2 (Z.leb_gt (blen buf) 0)), Hv, Hg by lia. done.
        -- specialize (Hn2 eq_refl). split; [done|]. unfold receive_kill_c. by rewrite Hn2.
Qed.
End receive.

(** ** At a concrete input

    A library that reads the messages of the client, and one message without a
    path. *)
Section witnesses.
#[local] Existing Instance ref_runtime.
#[local] Existing Instance ref_laws.

Definition no_path : cpp_command := mkCppCommand None (Some []) (Some []) 0 0 None.
Definition generated_get (buf : bytes) : cpp_message :=
  match generated_rm buf (blen buf) with
  | RUN_COMMAND => match peer_read buf with
                   | Ok cmd => CMRunCommand (Some (cpp_view cmd))
                   | Err _ => CMRunCommand (Some no_path)
                   end
  | KILL_PROCESS => CMKillProcess (generated_rk buf (blen buf))
  | _ => match buf with [Byte.x00] => CMRunCommand (Some no_path) | _ => CMOther end
  end.

Lemma generated_library_reads : library_reads (fun _ _ => true) generated_get.
Proof.
  split; intros x bi Hok Hb; [intros Hlim|]; (split; [done|]); unfold generated_get.
  - destruct (generated_reads_commands x bi Hok Hb Hlim) as [Hm _].
    destruct (send_command_message x Hok) as (bi' & Hb' & h & slots & Hmsg & Hc).
    rewrite Hb in Hb'. injection Hb' as <-. rewrite <- (proj1 Hmsg), Hm.
    by rewrite (peer_read_ok _ _ _ _ Hmsg Hc Hok).
  - destruct (generated_reads_kills x bi Hok Hb) as [Hm Hk].
    destruct (send_kill_message x Hok) as (bi' & Hb' & h & Hmsg).
    rewrite Hb in Hb'. injection Hb' as <-. by rewrite <- (proj1 Hmsg), Hm, Hk.
Qed.

Lemma requests_received_witness :
  reads_commands (receive_message_from_user (fun _ _ => true) generated_get)
    (receive_command_c (fun _ _ => true) generated_get) /\
  handle_message (receive_message_from_user (fun _ _ => true) generated_get)
    (receive_command_c (fun _ _ => true) generated_get) (receive_kill_c (fun _ _ => true) generated_get)
    4 7 (to_le 4 1) [Byte.x00] ls_kernel demo0 = Halt (Undefined NullDereference) demo0.
Proof.
  destruct (requests_received (fun _ _ => true) generated_get) as (H1 & _ & H2). split.
  - apply H1. exact generated_library_reads.
  - destruct (H2 4 7 [Byte.x00] ls_kernel demo0 ltac:(split; reflexivity)) as [_ H3].
    destruct (H3 eq_refl) as (_ & _ & H4).
    assert (generated_get [Byte.x00] = CMRunCommand (Some no_path)) as E by (vm_compute; reflexivity).
    rewrite E in H4. destruct H4 as [_ H4]. apply H4. by left.
Defined.
End witnesses.
