(* ===== verification/CppUser.v ===== *)
(** * The user's side of [serialize.cpp]

    The functions with which a C client reads the reports of a daemon, on what the
    verifier and the accessors of CppReceive give; and the round trip of the
    module: what one side sends is what the other receives. *)
From S2P Require Import Prelude Bytes Utf8 FlatBuffers FlatBuffersRef FlatBuffersRefLaws.
From S2P Require Import Enums Tables Data Send Receive BuilderLogic SendFacts CommandFacts.
From S2P Require Import ReadFacts ReceiveFacts PeerCommand PeerMessages Wire NativeBuilder NativeTables NativeCommand.
From S2P Require Import TestCommands ProcessManager Daemon DaemonFacts EndToEnd CppSend CppReceive.

Section user.
Context (VerifyMessageBuffer : bytes -> Z -> bool) (GetMessage : bytes -> cpp_message).

(** The guards every function starts with, and its value when they fail. *)
Definition verified {A} (buffer : bytes) (size : Z) (failed : A) (read : cpp_message -> deref A) : deref A :=
  if size <=? 0 then mret failed
  else if negb (VerifyMessageBuffer buffer size) then mret failed
  else read (GetMessage buffer).

Definition receive_execveterminated (buffer : bytes) (size : Z) : deref (option (Z * bytes * bool)) :=
  verified buffer size None (fun message =>
    match message with
    | CMExecveTerminated event =>
        execve_terminated ← at_pointer event;
        command_name ← at_pointer (ce_command_name execve_terminated);
        mret (Some (ce_pid execve_terminated, c_str command_name, ce_success execve_terminated))
    | _ => mret None
    end).

Definition receive_processlaunched (buffer : bytes) (size : Z) : deref Z :=
  verified buffer size (-1) (fun message =>
    match message with CMProcessLaunched event => at_pointer event | _ => mret (-1) end).

(** A [uint32_t] returned as an [int32_t]. *)
Definition receive_childcreationerror (buffer : bytes) (size : Z) : deref Z :=
  verified buffer size (-1) (fun message =>
    match message with
    | CMChildCreationError event => error_code ← at_pointer event; mret (to_int error_code)
    | _ => mret (-1)
    end).

Definition receive_processterminated (buffer : bytes) (size : Z) : deref (option ProcessTerminatedInfo) :=
  verified buffer size None (fun message =>
    match message with
    | CMProcessTerminated event => process_terminated ← at_pointer event; mret (Some process_terminated)
    | _ => mret None
    end).

Definition receive_TCPSocketListening (buffer : bytes) (size : Z) : deref Z :=
  verified buffer size 0 (fun message =>
    match message with CMTCPSocketListening event => at_pointer event | _ => mret 0 end).

(** The path, and the numbers of the event, of the size and of its limit. *)
Definition receive_inotifypathupdated (buffer : bytes) (size : Z) : deref (option (bytes * Z * Z * Z)) :=
  verified buffer size None (fun message =>
    match message with
    | CMInotifyPathUpdated event =>
        inotify_path_updated ← at_pointer event;
        path ← at_pointer (cu_path inotify_path_updated);
        mret (Some (c_str path, cu_trigger_events inotify_path_updated, cu_size inotify_path_updated,
                    cu_size_limit inotify_path_updated))
    | _ => mret None
    end).

Definition receive_inotifywatchlistupdated (buffer : bytes) (size : Z) : deref (option bytes) :=
  verified buffer size None (fun message =>
    match message with
    | CMInotifyWatchListUpdated event =>
        inotify_watch_list_updated ← at_pointer event;
        path ← at_pointer inotify_watch_list_updated;
        mret (Some (c_str path))
    | _ => mret None
    end).

Definition receive_socketwatched (buffer : bytes) (size : Z) : deref Z :=
  verified buffer size (-1) (fun message =>
    match message with CMSocketWatched event => at_pointer event | _ => mret (-1) end).

(** The port, and the number of the state. *)
Definition receive_socketwatchterminated (buffer : bytes) (size : Z) : deref (option (Z * Z)) :=
  verified buffer size None (fun message =>
    match message with
    | CMSocketWatchTerminated event => socket_watch_terminated ← at_pointer event; mret (Some socket_watch_terminated)
    | _ => mret None
    end).

Definition receive_message_from_demon (buffer : bytes) (size : Z) : Event :=
  if size <=? 0 then NONE
  else if negb (VerifyMessageBuffer buffer size) then NONE
  else
    match GetMessage buffer with
    | CMProcessLaunched _ => PROCESS_LAUNCHED
    | CMChildCreationError _ => CHILD_CREATION_ERROR
    | CMProcessTerminated _ => PROCESS_TERMINATED
    | CMTCPSocketListening _ => TCP_SOCKET_LISTENING
    | CMInotifyPathUpdated _ => INOTIFY_PATH_UPDATED
    | CMInotifyWatchListUpdated _ => INOTIFY_WATCH_LIST_UPDATED
    | CMSocketWatched _ => SOCKET_WATCHED
    | CMSocketWatchTerminated _ => SOCKET_WATCH_TERMINATED
    | CMExecveTerminated _ => EXECVE_TERMINATED
    | _ => NONE
    end.

(** ** The round trip *)
Context {FB : FlatBuffers} {FBL : FlatBuffersLaws FB} {NB : NativeBuilder} {NL : NativeLaws FB NB}.

(** A report, as the accessors give it. *)
Definition cpp_report (r : report) : cpp_message :=
  match r with
  | TCPSocketListening port => CMTCPSocketListening (Some port)
  | ProcessLaunched pid => CMProcessLaunched (Some pid)
  | ChildCreationError code => CMChildCreationError (Some code)
  | ProcessTerminated pid code => CMProcessTerminated (Some (mkProcessTerminatedInfo pid code))
  | ExecveTerminated pid name success => CMExecveTerminated (Some (mkCppExecve pid (Some name) success))
  | PathUpdated path event size limit =>
      CMInotifyPathUpdated (Some (mkCppUpdate (Some path) (InotifyEvent_value event) size limit))
  | WatchListUpdated path => CMInotifyWatchListUpdated (Some (Some path))
  | SocketWatched port => CMSocketWatched (Some port)
  | SocketWatchTerminated port state => CMSocketWatchTerminated (Some (port, SocketState_value state))
  end.

(** What is relied on of the library: below the limits of the verifier the buffers
    its builder finishes are verified, and the accessors give what they show. *)
Record cpp_library : Prop := {
  cl_verified buf : built buf -> blen buf <= verifier_limit -> VerifyMessageBuffer buf (blen buf) = true;
  cl_command buf pc : built buf -> peer_ok pc = true -> shows_command pc buf ->
    GetMessage buf = CMRunCommand (Some (cpp_view pc));
  cl_kill buf pid : built buf ->
    shows buf Event.KillProcess 1 (fun _ slots => slots !! 0 = scalar_slot SInt32 pid) ->
    GetMessage buf = CMKillProcess (Some pid);
  cl_report buf r : built buf -> encodes r buf -> GetMessage buf = cpp_report r
}.
Hypothesis library : cpp_library.

Definition received (r : report) (msg : bytes) : Prop :=
  receive_message_from_demon msg (blen msg) = report_event r /\
  match r with
  | TCPSocketListening port => receive_TCPSocketListening msg (blen msg) = Returns port
  | ProcessLaunched pid => receive_processlaunched msg (blen msg) = Returns pid
  | ChildCreationError code => receive_childcreationerror msg (blen msg) = Returns (to_int code)
  | ProcessTerminated pid code =>
      receive_processterminated msg (blen msg) = Returns (Some (mkProcessTerminatedInfo pid code))
  | ExecveTerminated pid name success =>
      receive_execveterminated msg (blen msg) = Returns (Some (pid, name, success))
  | PathUpdated path event size limit =>
      receive_inotifypathupdated msg (blen msg) = Returns (Some (path, InotifyEvent_value event, size, limit))
  | WatchListUpdated path => receive_inotifywatchlistupdated msg (blen msg) = Returns (Some path)
  | SocketWatched port => receive_socketwatched msg (blen msg) = Returns port
  | SocketWatchTerminated port state =>
      receive_socketwatchterminated msg (blen msg) = Returns (Some (port, SocketState_value state))
  end.

Lemma verified_reads {A} buf (failed : A) read :
  0 < blen buf -> built buf -> blen buf <= verifier_limit ->
  verified buf (blen buf) failed read = read (GetMessage buf).
Proof.
  intros Hpos Hb Hlim. unfold verified. rewrite (proj2 (Z.leb_gt _ _)) by done.
  by rewrite (cl_verified library buf Hb Hlim).
Qed.

Lemma built_nonempty buf : built buf -> 0 < blen buf.
Proof.
  intros (b & b' & h & root & sz & Hv & E). destruct (law_finished_data b h sz root Hv) as (buf' & b2 & E' & _ & Hl & _).
  rewrite E in E'. injection E' as <- _. lia.
Qed.

Lemma report_received r msg :
  report_ok r -> built msg -> blen msg <= verifier_limit -> encodes r msg -> received r msg.
Proof.
  intros Hr Hb Hlim He. pose proof (built_nonempty _ Hb) as Hpos. pose proof (cl_report library msg r Hb He) as Hg.
  split.
  - unfold receive_message_from_demon. rewrite (proj2 (Z.leb_gt _ _)) by done.
    rewrite (cl_verified library msg Hb Hlim), Hg. by destruct r.
  - destruct r; cbn [cpp_report report_ok] in *;
      unfold receive_TCPSocketListening, receive_processlaunched, receive_childcreationerror,
        receive_processterminated, receive_execveterminated, receive_inotifypathupdated,
        receive_inotifywatchlistupdated, receive_socketwatched, receive_socketwatchterminated;
      rewrite verified_reads, Hg by done; cbn; try done.
    + destruct Hr as (_ & -> & _). done.
    + destruct Hr as (_ & -> & _). done.
    + destruct Hr as (-> & _). done.
Qed.
Lemma cut_idem s : cut (cut s) = cut s.
Proof.
  induction s as [|c s IH]; [done|]. cbn [cut]. destruct (c =? 0) eqn:E; [done|]. cbn [cut]. by rewrite E, IH.
Qed.

Lemma c_text_of_cut s : encodable s = true -> c_text (cut s) = c_text s.
Proof. intros H. rewrite !c_text_cut by auto using cut_encodable. by rewrite cut_idem. Qed.

Lemma c_texts_of_cut ss : forallb encodable ss = true -> c_text <$> (cut <$> ss) = c_text <$> ss.
Proof.
  rewrite forallb_Forall. intros H. induction H as [|s ss Hs _ IH]; [done|].
  by rewrite !fmap_cons, IH, c_text_of_cut.
Qed.

Lemma c_view_cut pc : peer_ok pc = true -> c_view (cut_peer pc) = c_view pc.
Proof.
  intros (H1 & H2 & H3 & _ & _ & H6 & _)%peer_ok_parts. unfold c_view.
  cbn [cut_peer peer_path peer_args peer_envp peer_flags peer_stack_size peer_watched].
  rewrite (c_text_of_cut _ H1), (c_texts_of_cut _ H2), (c_texts_of_cut _ H3). f_equal.
  apply forallb_Forall in H6. induction H6 as [|w ws Hw _ IH]; [done|]. rewrite !fmap_cons, IH. f_equal.
  destruct w as [p|p]; [|done]. cbn [cut_watched c_surveillance ip_root_paths ip_mask ip_size]. f_equal.
  apply c_text_of_cut. unfold watched_ok, surveillance_ok in Hw. cbn in Hw.
  by apply andb_true_iff in Hw as [[? _]%andb_true_iff _].
Qed.

(** C11. What one side of the C++ module sends, the other receives, whatever the
    library does besides verifying and reading the buffers its builder finished:
    each report of the daemon is recognised by a C client and decoded field by
    field (an error code as the [int32_t] it is returned as); a command and a
    request to kill are recognised by the daemon, and the command it is given is
    the one that was sent, strings up to their first NUL and watches included. *)
Theorem cpp_roundtrip :
  (forall r, report_ok r -> exists msg, send_report_c r = Some (sized msg) /\
     (blen msg <= verifier_limit -> received r msg)) /\
  (forall pc, peer_ok pc = true -> exists msg, CppSend.send_command_to_demon (c_view pc) = Ok (sized msg) /\
     (blen msg <= verifier_limit ->
      CppReceive.receive_message_from_user VerifyMessageBuffer GetMessage msg (blen msg) = RUN_COMMAND /\
      receive_command_c VerifyMessageBuffer GetMessage msg (blen msg) = Some (c_view pc))) /\
  (forall pid, in_range SInt32 pid = true -> exists msg, CppSend.send_kill_to_demon pid = Ok (sized msg) /\
     (blen msg <= verifier_limit ->
      CppReceive.receive_message_from_user VerifyMessageBuffer GetMessage msg (blen msg) = KILL_PROCESS /\
      receive_kill_c VerifyMessageBuffer GetMessage msg (blen msg) = Some pid)).
Proof.
  split_and!.
  - intros r Hr. destruct (report_sent_c r Hr) as (msg & E & Hb & He). exists msg. split; [exact E|].
    intros Hlim. by apply report_received.
  - intros pc Hok. destruct (command_sent_c pc Hok) as (msg & E & Hb & Hs). exists msg. split; [exact E|].
    intros Hlim. pose proof (built_nonempty _ Hb). rewrite <- (c_view_cut pc Hok).
    apply CppReceive.command_received; [done | by apply (cl_verified library) |].
    by apply (cl_command library); [|apply peer_ok_cut|].
  - intros pid Hp. destruct (kill_sent_c pid Hp) as (msg & E & Hb & Hs). exists msg. split; [exact E|].
    intros Hlim. pose proof (built_nonempty _ Hb).
    unfold CppReceive.receive_message_from_user, receive_kill_c, CppReceive.receive_kill.
    rewrite (proj2 (Z.leb_gt _ _)), (cl_verified library msg Hb Hlim), (cl_kill library msg pid Hb Hs) by done.
    done.
Qed.
End user.

(** ** A library that satisfies the hypothesis

    The accessors of the Python side. *)
Section accessors.
Context {FB : FlatBuffers} {FBL : FlatBuffersLaws FB} {NB : NativeBuilder} {NL : NativeLaws FB NB}.

Definition python_get (buf : bytes) : cpp_message :=
  let n := blen buf in
  match event_type buf n with
  | Some ty =>
      if ty =? Event.RunCommand then
        match peer_read buf with Ok cmd => CMRunCommand (Some (cpp_view cmd)) | Err _ => CMOther end
      else if ty =? Event.KillProcess then CMKillProcess (Some (Receive.receive_kill buf n))
      else if ty =? Event.ProcessLaunched then CMProcessLaunched (Some (Receive.receive_processlaunched buf n))
      else if ty =? Event.ChildCreationError then
        CMChildCreationError (Some (Receive.receive_childcreationerror buf n))
      else if ty =? Event.TCPSocketListening then
        CMTCPSocketListening (Some (Receive.receive_TCPSocketListening buf n))
      else if ty =? Event.SocketWatched then CMSocketWatched (Some (Receive.receive_socketwatched buf n))
      else if ty =? Event.ProcessTerminated then
        CMProcessTerminated (match Receive.receive_processterminated buf n with RObj i => Some i | _ => None end)
      else if ty =? Event.ExecveTerminated then
        CMExecveTerminated ((fun i => mkCppExecve (ei_pid i) (Some (enc (ei_command_name i))) (ei_success i)) <$>
          Receive.receive_execveterminated buf n)
      else if ty =? Event.InotifyPathUpdated then
        CMInotifyPathUpdated ((fun i => mkCppUpdate (Some (enc (pu_path i))) (InotifyEvent_value (pu_event i))
            (pu_size i) (pu_size_limit i)) <$> Receive.receive_inotifypathupdated buf n)
      else if ty =? Event.InotifyWatchListUpdated then
        CMInotifyWatchListUpdated (Some (enc <$> Receive.receive_inotifywatchlistupdated buf n))
      else CMSocketWatchTerminated ((fun i => (sw_port i, SocketState_value (sw_state i))) <$>
        Receive.receive_socketwatchterminated buf n)
  | None => CMOther
  end.

Lemma shows_event_type msg tag n P : shows msg tag n P -> event_type msg (blen msg) = Some tag.
Proof.
  intros (h & slots & Hm & _). destruct (is_message_read _ _ _ _ _ Hm) as [Hin (m & pos & p & [Hroot Htype _ _ _])].
  unfold event_type. cbn in Hin. rewrite Hin. cbn in Hroot. rewrite Hroot, res_bind_ok, Htype. done.
Qed.

Lemma python_get_report buf r : encodes r buf -> python_get buf = cpp_report r.
Proof.
  unfold python_get. destruct r; cbn [encodes cpp_report]; intros Hs.
  - rewrite (shows_event_type _ _ _ _ (proj2 Hs)). cbn. by rewrite (port_decoded _ _ Hs).
  - rewrite (shows_event_type _ _ _ _ (proj2 Hs)). cbn. by rewrite (launched_decoded _ _ Hs).
  - rewrite (shows_event_type _ _ _ _ (proj2 Hs)). cbn. by rewrite (creation_error_decoded _ _ Hs).
  - rewrite (shows_event_type _ _ _ _ (proj2 Hs)). cbn. by rewrite (terminated_decoded _ _ _ Hs).
  - destruct Hs as (s & <- & Hs). rewrite (shows_event_type _ _ _ _ (proj2 Hs)). cbn.
    by rewrite (execve_decoded _ _ _ _ Hs).
  - destruct Hs as (s & <- & Hs). rewrite (shows_event_type _ _ _ _ (proj2 Hs)). cbn.
    rewrite (update_decoded _ _ _ _ _ Hs). by destruct event.
  - destruct Hs as (s & <- & Hs). rewrite (shows_event_type _ _ _ _ Hs). cbn.
    by rewrite (watch_list_decoded _ _ Hs).
  - rewrite (shows_event_type _ _ _ _ (proj2 Hs)). cbn. by rewrite (watched_decoded _ _ Hs).
  - rewrite (shows_event_type _ _ _ _ (proj2 Hs)). cbn. rewrite (watch_end_decoded _ _ _ Hs). by destruct state.
Qed.
Lemma python_library : cpp_library (fun _ _ => true) python_get.
Proof.
  split; [done | | |]; intros buf x Hb; [unfold python_get..|].
  - intros Hok Hs. rewrite (shows_event_type _ _ _ _ Hs). cbn.
    by rewrite (proj2 (NativeCommand.native_command_received _ _ Hok Hs)).
  - intros Hs. rewrite (shows_event_type _ _ _ _ Hs). cbn. destruct Hs as (h & slots & Hm & H0).
    do 2 f_equal. apply (receive_kill_read (sized buf) _ _ _ Hm H0).
  - by apply python_get_report.
Qed.
End accessors.

Section witness.
#[local] Existing Instance ref_runtime.
#[local] Existing Instance ref_laws.
#[local] Existing Instance ref_native.
#[local] Existing Instance ref_native_laws.

(** [ls -l] with one variable of the environment and a port to watch. *)
Definition ls_request : peer_command :=
  mkPeer (str "/bin/ls") [str "ls"; str "-l"] [str "LANG=C"] 0 1024 [WatchSocket (mkTCPSocket 8080)].

Lemma cpp_roundtrip_witness :
  (exists msg, send_report_c (ProcessTerminated 4242 9) = Some (sized msg) /\
     received (fun _ _ => true) python_get (ProcessTerminated 4242 9) msg) /\
  (exists msg, CppSend.send_command_to_demon (c_view ls_request) = Ok (sized msg) /\
     receive_command_c (fun _ _ => true) python_get msg (blen msg) = Some (c_view ls_request)) /\
  (exists msg, CppSend.send_kill_to_demon 4242 = Ok (sized msg) /\
     receive_kill_c (fun _ _ => true) python_get msg (blen msg) = Some 4242).
Proof.
  destruct (cpp_roundtrip _ _ python_library) as (Hr & Hc & Hk). split_and!.
  - destruct (Hr (ProcessTerminated 4242 9) ltac:(split; reflexivity)) as (msg & E & H).
    exists msg. split; [exact E|]. apply H. vm_compute in E. injection E as <-. by vm_compute.
  - destruct (Hc ls_request ltac:(vm_compute; reflexivity)) as (msg & E & H).
    exists msg. split; [exact E|]. apply H. vm_compute in E. injection E as <-. by vm_compute.
  - destruct (Hk 4242 eq_refl) as (msg & E & H).
    exists msg. split; [exact E|]. apply H. vm_compute in E. injection E as <-. by vm_compute.
Defined.
End witness.
