(* ===== verification/Regression.v ===== *)
(** * The regression tests in C ([test/Regression_test.c])

    A client written in C, over the functions of [serialize.cpp]: the connection, a
    process, its end, and a benchmark.  A length over the buffer of a [recv] is
    taken for an access out of its bounds; [connect] is taken to succeed, and [send]
    to write everything; the clock and the output are left out. *)
From S2P Require Import Prelude Bytes Utf8 FlatBuffers FlatBuffersRef FlatBuffersRefLaws.
From S2P Require Import Enums Tables Data Send Receive BuilderLogic SendFacts CommandFacts.
From S2P Require Import ReadFacts ReceiveFacts PeerCommand PeerMessages Wire NativeBuilder NativeTables NativeCommand.
From S2P Require Import TestCommands ClientFacts ProcessManager Daemon DaemonFacts EndToEnd CppSend CppReceive CppUser.

(** ** The client's end of the connection *)
Record wire : Type := mkWire {
  w_in : bytes;      (* what has come and is not read *)
  w_out : bytes      (* what was sent *)
}.

(** A computation goes on, has ended (the daemon's [halt]), or waits for bytes. *)
Inductive progress (A : Type) : Type :=
  | Goes (a : A) (w : wire)
  | Ends (h : halt) (w : wire)
  | Waits (w : wire).
Arguments Goes {A} _ _.
Arguments Ends {A} _ _.
Arguments Waits {A} _.

Definition ct (A : Type) : Type := wire -> progress A.
#[global] Instance ct_ret : MRet ct := fun A a w => Goes a w.
#[global] Instance ct_bind : MBind ct := fun A B f m w =>
  match m w with Goes a w' => f a w' | Ends h w' => Ends h w' | Waits w' => Waits w' end.

Lemma ct_bind_goes {A B} (m : ct A) (f : A -> ct B) w a w' : m w = Goes a w' -> (m ≫= f) w = f a w'.
Proof. intros H. unfold mbind, ct_bind. by rewrite H. Qed.

Definition ends {A} (h : halt) : ct A := fun w => Ends h w.
Definition SIGABRT : Z := 6.
Definition assert_ (b : bool) : ct unit := if b then mret tt else ends (Killed SIGABRT).

(** What a function of [serialize.cpp] gives, on this side. *)
Definition of_deref {A} (r : deref A) : ct A :=
  match r with Returns a => mret a | NullPointer => ends (Undefined NullDereference) end.

Definition send (bs : bytes) : ct unit := fun w => Goes tt (mkWire (w_in w) (w_out w ++ bs)).

Section client.
(** Whether the daemon has closed the connection. *)
Context (closed : bool).

(** [read(sock, &size, sizeof(int))], which is only tested for -1: at the end of the
    connection [size] is indeterminate. *)
Definition read_size : ct Z := fun w =>
  if 4 <=? blen (w_in w)
  then Goes (to_int (from_le (take 4 (w_in w)))) (mkWire (drop 4 (w_in w)) (w_out w))
  else if closed then Ends (Undefined Uninitialised) w else Waits w.

(** [if (recv(sock, buf, size, MSG_WAITALL) != size) exit(1);], for [room] bytes. *)
Definition recv_all (room size : Z) : ct bytes := fun w =>
  if (size <? 0) || (room <? size) then Ends (Undefined OutOfBounds) w
  else if size <=? blen (w_in w)
  then Goes (take (Z.to_nat size) (w_in w)) (mkWire (drop (Z.to_nat size) (w_in w)) (w_out w))
  else if closed then Ends (Exited 1) w else Waits w.

Context {NB : NativeBuilder} (VerifyMessageBuffer : bytes -> Z -> bool) (GetMessage : bytes -> cpp_message).

(** ** The tests *)

(** [htons(port)==serv_addr.sin_port], which is [htons] of the argument. *)
Definition try_connecting_to_daemon (arg : Z) : ct Z :=
  size ← read_size;
  buffer ← recv_all 512 size;
  port ← of_deref (receive_TCPSocketListening VerifyMessageBuffer GetMessage buffer size);
  mret (if to_uint16 port =? to_uint16 arg then 0 else -1).

(** [send_command_to_demon_c], whose result is not tested, and the frame. *)
Definition framed_command (com : s_command) : ct bytes :=
  match or_nullptr (send_command_to_demon com) with
  | Some info => mret (to_le 4 (bi_size info) ++ bi_buffer info)
  | None => ends (Undefined NullDereference)
  end.

Definition try_launching_process (com : s_command) : ct Z :=
  temp_buffer ← framed_command com;
  _ ← send temp_buffer;
  size ← read_size;
  buf ← recv_all 128 size;
  pid ← of_deref (receive_processlaunched VerifyMessageBuffer GetMessage buf size);
  mret (if pid <? 0 then -1 else 0).

(** [info->pid] is printed without a test of [info]. *)
Definition receiving_process_terminated : ct Z :=
  size ← read_size;
  buf ← recv_all 128 size;
  info ← of_deref (receive_processterminated VerifyMessageBuffer GetMessage buf size);
  match info with
  | Some info => mret 0
  | None => ends (Undefined NullDereference)
  end.

Fixpoint benchmark_rounds (n : nat) (temp_buffer : bytes) : ct Z :=
  match n with
  | O => mret 0
  | S n =>
      _ ← send temp_buffer;
      size ← read_size;
      buf ← recv_all 128 size;
      pid ← of_deref (receive_processlaunched VerifyMessageBuffer GetMessage buf size);
      if pid <? 0 then mret (-1)
      else
        size ← read_size;
        buf ← recv_all 128 size;
        info ← of_deref (receive_processterminated VerifyMessageBuffer GetMessage buf size);
        benchmark_rounds n temp_buffer
  end.

Definition benchmark (com : s_command) : ct Z :=
  temp_buffer ← framed_command com; benchmark_rounds 100 temp_buffer.

Definition regression_command : s_command :=
  mkSCommand (enc (str "/bin/ls")) [enc (str "ls"); enc (str "-l")] [] 0 (512 * 512) [].

(** [main], once the daemon is there; the result of the benchmark is dropped. *)
Definition first_tests (arg : Z) : ct unit :=
  r ← try_connecting_to_daemon arg;
  _ ← assert_ (r =? 0);
  r ← try_launching_process regression_command;
  assert_ (r =? 0).
Definition third_test : ct unit :=
  r ← receiving_process_terminated; assert_ (r =? 0).
Definition main (arg : Z) : ct unit :=
  _ ← first_tests arg;
  _ ← third_test;
  _ ← benchmark regression_command;
  mret tt.
End client.

(** ** What the tests conclude *)
Section facts.
Context {FB : FlatBuffers} {FBL : FlatBuffersLaws FB} {NB : NativeBuilder} {NL : NativeLaws FB NB}.
Context (closed : bool) (VerifyMessageBuffer : bytes -> Z -> bool) (GetMessage : bytes -> cpp_message).
Hypothesis library : cpp_library VerifyMessageBuffer GetMessage.

Lemma read_size_frame msg rest out :
  blen msg < 2 ^ 31 ->
  read_size closed (mkWire (frame msg ++ rest) out) = Goes (blen msg) (mkWire (msg ++ rest) out).
Proof.
  intros Hm. pose proof (blen_nonneg msg). unfold read_size, frame. cbn [w_in w_out].
  assert (length (to_le 4 (blen msg)) = 4%nat) as Hlen by (pose proof (blen_to_le 4 (blen msg)); unfold blen in *; lia).
  rewrite <- app_assoc, blen_app, blen_to_le. pose proof (blen_nonneg (msg ++ rest)).
  rewrite (proj2 (Z.leb_le _ _)) by lia. rewrite take_app_length', drop_app_length' by done.
  rewrite from_to_le_small by (split; [lia|]; change (256 ^ Z.of_nat 4) with (2 ^ 32); lia).
  by rewrite to_int_small by lia.
Qed.

Lemma recv_all_message room msg rest out :
  blen msg <= room -> recv_all closed room (blen msg) (mkWire (msg ++ rest) out) = Goes msg (mkWire rest out).
Proof.
  intros Hroom. pose proof (blen_nonneg msg). pose proof (blen_nonneg rest). unfold recv_all. cbn [w_in w_out].
  rewrite (proj2 (Z.ltb_ge _ _)), (proj2 (Z.ltb_ge _ _)) by lia. cbn [orb]. rewrite blen_app.
  rewrite (proj2 (Z.leb_le _ _)) by lia. unfold blen. rewrite Nat2Z.id. by rewrite take_app_length, drop_app_length.
Qed.

(** A report of the daemon that fits its buffer is read whole, as what it is. *)
Definition report_bytes (r : report) (room : Z) (msg : bytes) : Prop :=
  report_ok r /\ send_report_c r = Some (sized msg) /\ blen msg <= room.

Lemma report_message r room msg : room <= verifier_limit -> report_bytes r room msg ->
  0 < blen msg <= verifier_limit /\ GetMessage msg = cpp_report r /\
  forall {A} (failed : A) read, verified VerifyMessageBuffer GetMessage msg (blen msg) failed read = read (cpp_report r).
Proof.
  intros Hroom (Hr & E & Hl). destruct (report_sent_c r Hr) as (msg' & E' & Hb & He).
  rewrite E in E'. injection E' as <-. pose proof (built_nonempty msg Hb) as Hpos.
  assert (GetMessage msg = cpp_report r) as Hg by by apply (cl_report _ _ library).
  split; [lia|]. split; [done|]. intros A failed read.
  rewrite (verified_reads _ _ library); [by rewrite Hg | done..| lia].
Qed.

Lemma command_framed : exists cb, send_command_to_demon regression_command = Ok (sized cb) /\
  forall w, framed_command regression_command w = Goes (frame cb) w.
Proof.
  destruct (command_sent_c (mkPeer (str "/bin/ls") [str "ls"; str "-l"] [] 0 (512 * 512) []) ltac:(vm_compute; reflexivity))
    as (cb & E & _). exists cb. change (c_view _) with regression_command in E. split; [exact E|].
  intros w. unfold framed_command. rewrite E. done.
Qed.

(** The two reads together. *)
Lemma whole_message_read {A} room (f : Z -> bytes -> ct A) msg rest out :
  room <= verifier_limit -> blen msg <= room ->
  (read_size closed ≫= fun size => recv_all closed room size ≫= f size) (mkWire (frame msg ++ rest) out) =
    f (blen msg) msg (mkWire rest out).
Proof.
  intros Hlim Hroom. unfold verifier_limit in Hlim.
  rewrite (ct_bind_goes _ _ _ _ _ (read_size_frame msg rest out ltac:(lia))).
  by rewrite (ct_bind_goes _ _ _ _ _ (recv_all_message room msg rest out Hroom)).
Qed.

Lemma first_tests_pass port pid g l rest :
  0 < pid < 2 ^ 31 -> report_bytes (TCPSocketListening port) 512 g -> report_bytes (ProcessLaunched pid) 128 l ->
  exists cb, send_command_to_demon regression_command = Ok (sized cb) /\
    first_tests closed VerifyMessageBuffer GetMessage port (mkWire (frame g ++ frame l ++ rest) []) =
      Goes tt (mkWire rest (frame cb)).
Proof.
  intros Hpid Hg Hl. destruct command_framed as (cb & Hcb & Hframed). exists cb. split; [exact Hcb|].
  destruct (report_message _ 512 g ltac:(by vm_compute) Hg) as (Hg1 & _ & Hg2).
  destruct (report_message _ 128 l ltac:(by vm_compute) Hl) as (Hl1 & _ & Hl2).
  assert (blen g <= 512) by apply Hg. assert (blen l <= 128) by apply Hl.
  unfold first_tests.
  erewrite (ct_bind_goes (try_connecting_to_daemon closed _ _ port)).
  2: { unfold try_connecting_to_daemon. rewrite (whole_message_read 512) by done. unfold receive_TCPSocketListening.
       rewrite Hg2. cbn [cpp_report at_pointer of_deref]. rewrite (ct_bind_goes _ _ _ port _ eq_refl).
       by rewrite Z.eqb_refl. }
  rewrite (ct_bind_goes (assert_ (0 =? 0)) _ _ tt _ eq_refl).
  erewrite (ct_bind_goes (try_launching_process closed _ _ _)).
  2: { unfold try_launching_process. rewrite (ct_bind_goes _ _ _ _ _ (Hframed _)).
       rewrite (ct_bind_goes (send (frame cb)) _ _ tt _ eq_refl). cbn [w_in w_out app].
       rewrite (whole_message_read 128) by done. unfold receive_processlaunched. rewrite Hl2.
       cbn [cpp_report at_pointer of_deref]. rewrite (ct_bind_goes _ _ _ pid _ eq_refl).
       by rewrite (proj2 (Z.ltb_ge pid 0)) by lia. }
  done.
Qed.

(** C34. The regression tests with the C daemon.  Its greeting and the launch make the
    first two tests pass, after the framed command; but the report that follows a
    launch is the outcome of the execve, which the third test takes for the end of
    the process: the reader gives a null pointer, and the test follows it, so that
    neither it nor the benchmark ever ends.  With the end in its place it would
    pass. *)
Theorem regression_tests_end port pid code name success g l e rest :
  0 < pid < 2 ^ 31 -> report_bytes (TCPSocketListening port) 512 g -> report_bytes (ProcessLaunched pid) 128 l ->
  exists cb, send_command_to_demon regression_command = Ok (sized cb) /\
    (report_bytes (ExecveTerminated pid name success) 128 e ->
     main closed VerifyMessageBuffer GetMessage port (mkWire (frame g ++ frame l ++ frame e ++ rest) []) =
       Ends (Undefined NullDereference) (mkWire rest (frame cb))) /\
    (report_bytes (ProcessTerminated pid code) 128 e ->
     (first_tests closed VerifyMessageBuffer GetMessage port ≫= fun _ =>
        third_test closed VerifyMessageBuffer GetMessage) (mkWire (frame g ++ frame l ++ frame e ++ rest) []) =
       Goes tt (mkWire rest (frame cb))).
Proof.
  intros Hpid Hg Hl. destruct (first_tests_pass port pid g l (frame e ++ rest) Hpid Hg Hl) as (cb & Hcb & E).
  exists cb. split; [exact Hcb|]. split; intros He;
    destruct (report_message _ 128 e ltac:(by vm_compute) He) as (He1 & _ & He2);
    assert (blen e <= 128) by apply He.
  - unfold main. rewrite (ct_bind_goes _ _ _ _ _ E). unfold mbind at 1, ct_bind at 1.
    assert (third_test closed VerifyMessageBuffer GetMessage (mkWire (frame e ++ rest) (frame cb)) =
            Ends (Undefined NullDereference) (mkWire rest (frame cb))) as ->; [|done].
    unfold third_test, receiving_process_terminated. unfold mbind at 1, ct_bind at 1.
    rewrite (whole_message_read 128) by done. unfold receive_processterminated. by rewrite He2.
  - rewrite (ct_bind_goes _ _ _ _ _ E). unfold third_test. erewrite (ct_bind_goes (receiving_process_terminated closed _ _)).
    2: { unfold receiving_process_terminated. rewrite (whole_message_read 128) by done. unfold receive_processterminated. by rewrite He2. }
    done.
Qed.
End facts.

Section witness.
#[local] Existing Instance ref_runtime.
#[local] Existing Instance ref_laws.
#[local] Existing Instance ref_native.
#[local] Existing Instance ref_native_laws.

(** What the daemon sends for a report. *)
Definition sent_bytes (r : report) : bytes :=
  match send_report_c r with Some info => bi_buffer info | None => [] end.

Definition ls_executed : report := ExecveTerminated 4242 (enc (str "/bin/ls")) true.

Lemma regression_tests_end_witness :
  exists cb, send_command_to_demon regression_command = Ok (sized cb) /\
    main false (fun _ _ => true) python_get 9090
      (mkWire (frame (sent_bytes (TCPSocketListening 9090)) ++ frame (sent_bytes (ProcessLaunched 4242)) ++
               frame (sent_bytes ls_executed) ++ []) []) =
    Ends (Undefined NullDereference) (mkWire [] (frame cb)).
Proof.
  destruct (regression_tests_end false (fun _ _ => true) python_get python_library 9090 4242 0 (enc (str "/bin/ls"))
              true (sent_bytes (TCPSocketListening 9090)) (sent_bytes (ProcessLaunched 4242)) (sent_bytes ls_executed) [])
    as (cb & Hcb & H & _).
  - lia.
  - split; [reflexivity|]. split; [by vm_compute | by vm_compute].
  - split; [reflexivity|]. split; [by vm_compute | by vm_compute].
  - exists cb. split; [exact Hcb|]. apply H. split; [|split; [by vm_compute | by vm_compute]].
    split; [reflexivity|]. split; [reflexivity|]. exists (str "/bin/ls"). split_and!; [reflexivity | reflexivity | by vm_compute].
Defined.
End witness.
