(* ===== verification/RustSend.v ===== *)
(** * What the Rust code sends ([rust/src/proto/serialisation.rs])

    The functions that build a message, over the interface of the Rust crate
    (NativeBuilder) and the code generated for it (NativeTables): what the Rust
    daemon reports with, and the request of a Rust client.  A [String] or a [&str]
    is its bytes, which are UTF-8. *)
From S2P Require Import Prelude Bytes Utf8 FlatBuffers FlatBuffersRef FlatBuffersRefLaws.
From S2P Require Import Enums Tables Data Send Receive BuilderLogic SendFacts CommandFacts.
From S2P Require Import ReadFacts ReceiveFacts PeerCommand PeerMessages Wire NativeBuilder NativeTables NativeCommand.
From S2P Require Import TestCommands ProcessManager Daemon DaemonFacts EndToEnd.

Section rust.
Context {NB : NativeBuilder}.

(** [let mut builder = FlatBufferBuilder::new();] and the rest of a function. *)
Definition serialized (m : st nbuilder bytes) : res bytes := run m (new_builder 0).

Definition serialize_execve_terminated (pid : Z) (command_name : bytes) (success : bool) : res bytes :=
  serialized (
    command_name_str ← create_string command_name;
    execve ← ExecveTerminated_create pid (Some command_name_str) success;
    mess ← CreateMessage Event.ExecveTerminated (Some execve);
    finish_buffer mess).

Definition serialize_tcp_socket_listenning (port : Z) : res bytes :=
  serialized (
    tcp_socket ← CreateTCPSocketListening port;
    mess ← CreateMessage Event.TCPSocketListening (Some tcp_socket);
    finish_buffer mess).

Definition serialize_process_launched (pid : Z) : res bytes :=
  serialized (
    process_launched ← CreateProcessLaunched pid;
    mess ← CreateMessage Event.ProcessLaunched (Some process_launched);
    finish_buffer mess).

Definition serialize_child_creation_error (error_code : Z) : res bytes :=
  serialized (
    child_error ← CreateChildCreationError error_code;
    mess ← CreateMessage Event.ChildCreationError (Some child_error);
    finish_buffer mess).

Definition serialize_process_terminated (pid error_code : Z) : res bytes :=
  serialized (
    terminated ← CreateProcessTerminated pid error_code;
    message ← CreateMessage Event.ProcessTerminated (Some terminated);
    finish_buffer message).

(** On the builder of the caller, which has the watched resources in it. *)
Definition serialize_run_command (path_command : bytes) (args_tab args_envs : list bytes) (flags stack_size : Z)
    (to_watch : list Z) : st nbuilder bytes :=
  args_offsets ← mapM create_string args_tab;
  envs_offsets ← mapM create_string args_envs;
  args_vector ← create_vector args_offsets;
  envs_vector ← create_vector envs_offsets;
  path ← create_string path_command;
  to_watch ← create_vector to_watch;
  object_run_command ← CreateRunCommand (Some path) (Some args_vector) (Some envs_vector) flags stack_size
                         (Some to_watch);
  mess ← CreateMessage Event.RunCommand (Some object_run_command);
  finish_buffer mess.

(** Nothing calls it: an [Inotify] table under the type of a path update. *)
Definition serialize_inotify (path : bytes) (mask size : Z) : res bytes :=
  serialized (
    _ ← reset;
    root_paths ← create_string path;
    object_inotify ← CreateInotify (Some root_paths) mask size;
    mess ← CreateMessage Event.InotifyPathUpdated (Some object_inotify);
    finish_buffer mess).

Definition serialize_inotify_path_update (path : bytes) (trigger : InotifyEvent) (size size_limit : Z)
    : res bytes :=
  serialized (
    path_offset ← create_string path;
    inotify_update ← CreateInotifyPathUpdated (Some path_offset) (InotifyEvent_value trigger) size size_limit;
    message ← CreateMessage Event.InotifyPathUpdated (Some inotify_update);
    finish_buffer message).

Definition serialize_socket_watched (port : Z) : res bytes :=
  serialized (
    socket_watched ← CreateSocketWatched port;
    mess ← CreateMessage Event.SocketWatched (Some socket_watched);
    finish_buffer mess).

Definition serialize_socket_watch_terminated (port : Z) (state : SocketState) : res bytes :=
  serialized (
    socket_watch_terminated ← CreateSocketWatchTerminated port (SocketState_value state);
    mess ← CreateMessage Event.SocketWatchTerminated (Some socket_watch_terminated);
    finish_buffer mess).

(** The call of the Rust daemon for each of its reports; it has none for a list of
    watched files. *)
Definition serialize_report (r : report) : option (res bytes) :=
  match r with
  | TCPSocketListening port => Some (serialize_tcp_socket_listenning port)
  | ProcessLaunched pid => Some (serialize_process_launched pid)
  | ChildCreationError code => Some (serialize_child_creation_error code)
  | ProcessTerminated pid code => Some (serialize_process_terminated pid code)
  | ExecveTerminated pid name success => Some (serialize_execve_terminated pid name success)
  | PathUpdated path event size limit => Some (serialize_inotify_path_update path event size limit)
  | WatchListUpdated _ => None
  | SocketWatched port => Some (serialize_socket_watched port)
  | SocketWatchTerminated port state => Some (serialize_socket_watch_terminated port state)
  end.
End rust.

(** ** What is sent *)
Section facts.
Context {FB : FlatBuffers} {FBL : FlatBuffersLaws FB} {NB : NativeBuilder} {NL : NativeLaws FB NB}.

Lemma serialized_sends (m : st nbuilder bytes) P :
  sends_image m P -> exists buf, serialized m = Ok buf /\ built buf /\ P buf.
Proof. intros H. destruct (runs_new 0 m _ H) as (buf & v & E & [_ Hb] & HP). by exists buf. Qed.

(** What the Rust daemon can put on the wire: values of the width of their field,
    and text that fits a buffer. *)
Definition rust_report_ok (r : report) : Prop :=
  match r with
  | TCPSocketListening port => in_range SUint16 port = true
  | ProcessLaunched pid => in_range SInt32 pid = true
  | ChildCreationError code => in_range SUint32 code = true
  | ProcessTerminated pid code => in_range SInt32 pid = true /\ in_range SUint32 code = true
  | ExecveTerminated pid name _ => in_range SInt32 pid = true /\ exists s, sendable name s
  | PathUpdated path _ size limit =>
      (in_range SUint32 size = true /\ in_range SUint32 limit = true) /\ exists s, sendable path s
  | WatchListUpdated path => False
  | SocketWatched port | SocketWatchTerminated port _ => in_range SInt32 port = true
  end.

(** Each notification of the Rust daemon is a buffer that carries its report. *)
Lemma report_sent_rust r :
  rust_report_ok r -> exists msg, serialize_report r = Some (Ok msg) /\ built msg /\ encodes r msg.
Proof.
  assert (forall e, in_range SInt8 (InotifyEvent_value e) = true) as Hev by by intros [].
  assert (forall e, in_range SInt8 (SocketState_value e) = true) as Hst by by intros [].
  assert (forall m P, sends_image m P -> exists msg, Some (serialized m) = Some (Ok msg) /\ built msg /\ P msg) as Hsend.
  { intros m P H. destruct (serialized_sends m P H) as (msg & -> & HP). by exists msg. }
  destruct r; cbn [rust_report_ok encodes]; unfold serialize_report; intros H.
  - by apply Hsend, sends_port.
  - by apply Hsend, sends_launched.
  - by apply Hsend, sends_creation_error.
  - destruct H. by apply Hsend, sends_terminated.
  - destruct H as (H & s & Hs).
    destruct (Hsend _ _ (sends_execve_rust _ s pid success Hs H)) as (msg & E & Hb & Hm).
    exists msg. split; [exact E|]. split; [exact Hb|]. exists s. by destruct Hs as (_ & ? & _).
  - destruct H as ((H1 & H2) & s & Hs).
    destruct (Hsend _ _ (sends_update _ s _ _ _ Hs (Hev event) H1 H2)) as (msg & E & Hb & Hm).
    exists msg. split; [exact E|]. split; [exact Hb|]. exists s. by destruct Hs as (_ & ? & _).
  - done.
  - by apply Hsend, sends_watched.
  - by apply Hsend, sends_watch_end.
Qed.

(** A request, on a builder that has the tables of its watches in it. *)
Lemma runs_serialize_run_command pc h sz watch_offs :
  encodable (peer_path pc) = true -> forallb encodable (peer_args pc) = true ->
  forallb encodable (peer_envp pc) = true -> in_range SUint32 (peer_flags pc) = true ->
  in_range SUint32 (peer_stack_size pc) = true -> Forall2 (watched_at h) watch_offs (peer_watched pc) ->
  sz + total string_weight (peer_args pc) + total string_weight (peer_envp pc) + string_weight (peer_path pc) +
    16 * Z.of_nat (length watch_offs) + 640 <= native_max ->
  runs (serialize_run_command (enc (peer_path pc)) (enc <$> peer_args pc) (enc <$> peer_envp pc)
          (peer_flags pc) (peer_stack_size pc) watch_offs) (mkView h Idle sz)
    (fun buf _ => (blen buf <= native_max /\ built buf) /\ shows_command pc buf).
Proof.
  intros G1 G2 G3 G4 G5 HW Hle. unfold serialize_run_command.
  pose proof (blen_enc _ G1) as Hp. pose proof (total_length string_weight 32 (peer_args pc) string_weight_pos).
  pose proof (total_length string_weight 32 (peer_envp pc) string_weight_pos).
  assert (string_weight (peer_path pc) = 4 * Z.of_nat (length (peer_path pc)) + 32) as Hpw by reflexivity.
  eapply runs_bind; [apply runs_native_strings; [done | lia]|].
  intros args_offs ? (h1 & sz1 & -> & Hh1 & Hsz1 & HA).
  eapply runs_bind; [apply runs_native_strings; [done | lia]|].
  intros envp_offs ? (h2 & sz2 & -> & Hh2 & Hsz2 & HE).
  pose proof (Forall2_length _ _ _ HA). pose proof (Forall2_length _ _ _ HE).
  assert (Forall2 (string_at h2) args_offs (peer_args pc)) as HA2 by eauto with heap.
  eapply runs_bind; [apply runs_create_vector; [by eauto with heap | unfold vector_cost, op_cost in *; lia]|].
  bpost.
  eapply runs_bind; [apply runs_create_vector; [by eauto with heap | unfold vector_cost, op_cost in *; lia]|].
  bpost. unfold vector_cost, op_cost in *.
  nstep 0. unfold op_cost in *.
  assert (h ⊆ h4) as Hh by by repeat (etrans; [eassumption|]).
  eapply (runs_native_request pc _ _ off1 off off0 args_offs envp_offs watch_offs); eauto with heap; lia.
Qed.
End facts.
