(* ===== verification/NativeReports.v ===== *)
(** * The reports of the native daemons, read by the Python client

    What CppSend and RustSend put on the wire, given to the dispatcher and the
    decoders of [serialization.py]: the reports of both daemons arrive. *)
From S2P Require Import Prelude Bytes Utf8 FlatBuffers FlatBuffersRef FlatBuffersRefLaws.
From S2P Require Import Enums Tables Data Send Receive BuilderLogic SendFacts CommandFacts.
From S2P Require Import ReadFacts ReceiveFacts PeerCommand PeerMessages Wire NativeBuilder NativeTables NativeCommand.
From S2P Require Import TestCommands ProcessManager Daemon DaemonFacts EndToEnd CppSend RustSend.

Section reports.
Context {FB : FlatBuffers}.

(** What the client makes of the bytes of a report: its event, and its fields; a
    name or a path is the text its bytes encode. *)
Definition decoded (r : report) (msg : bytes) : Prop :=
  let len := blen msg in
  receive_message_from_demon msg len = RObj (report_event r) /\
  match r with
  | TCPSocketListening port => receive_TCPSocketListening msg len = port
  | ProcessLaunched pid => receive_processlaunched msg len = pid
  | ChildCreationError code => receive_childcreationerror msg len = code
  | ProcessTerminated pid code => receive_processterminated msg len = RObj (mkProcessTerminatedInfo pid code)
  | ExecveTerminated pid name success =>
      exists s, enc s = name /\ receive_execveterminated msg len = Some (mkExecveInfo pid s success)
  | PathUpdated path event size limit =>
      exists s, enc s = path /\
        receive_inotifypathupdated msg len = Some (mkInotifyPathUpdated s event size limit)
  | WatchListUpdated path => exists s, enc s = path /\ receive_inotifywatchlistupdated msg len = Some s
  | SocketWatched port => receive_socketwatched msg len = port
  | SocketWatchTerminated port state =>
      receive_socketwatchterminated msg len = Some (mkSocketWatchInfo port state)
  end.

Context {FBL : FlatBuffersLaws FB}.

Lemma encodes_decoded r msg : encodes r msg -> decoded r msg.
Proof.
  destruct r; cbn [encodes decoded report_event]; intros H;
    try match type of H with ex _ => destruct H as (s & He & H) end;
    (split; [first [ rewrite (shows_dispatched _ _ _ _ (proj2 H)); reflexivity
                   | rewrite (shows_dispatched _ _ _ _ H); reflexivity ]|]).
  - by apply port_decoded.
  - by apply launched_decoded.
  - by apply creation_error_decoded.
  - by apply terminated_decoded.
  - exists s. split; [done | by apply execve_decoded].
  - exists s. split; [done|]. rewrite (update_decoded _ _ _ _ _ H). by destruct event.
  - exists s. split; [done | by apply watch_list_decoded].
  - by apply watched_decoded.
  - rewrite (watch_end_decoded _ _ _ H). by destruct state.
Qed.

Context {NB : NativeBuilder} {NL : NativeLaws FB NB}.

(** C10. Every report of the native daemons arrives: what the senders of the C
    daemon build for it is a buffer of the size they state, and what those of the
    Rust daemon build for it (it has none for a list of watched files) succeeds;
    both are the image of the report that the sessions of the client await, and
    its dispatcher and its decoder give back the event and every field.  A history
    of reports is a sequence of such messages. *)
Theorem native_reports_decoded :
  (forall r, report_ok r -> exists msg,
     send_report_c r = Some (sized msg) /\ encodes r msg /\ decoded r msg) /\
  (forall r, rust_report_ok r -> exists msg,
     serialize_report r = Some (Ok msg) /\ encodes r msg /\ decoded r msg) /\
  (forall rs, Forall report_ok rs -> exists msgs,
     Forall2 (fun r msg => send_report_c r = Some (sized msg)) rs msgs /\ Forall2 encodes rs msgs).
Proof.
  split_and!.
  - intros r Hr. destruct (report_sent_c r Hr) as (msg & E & _ & He). eauto using encodes_decoded.
  - intros r Hr. destruct (report_sent_rust r Hr) as (msg & E & _ & He). eauto using encodes_decoded.
  - induction 1 as [|r rs Hr _ (msgs & IH1 & IH2)]; [by exists []|].
    destruct (report_sent_c r Hr) as (msg & E & _ & He). exists (msg :: msgs). split; by constructor.
Qed.
End reports.

Section witness.
#[local] Existing Instance ref_runtime.
#[local] Existing Instance ref_laws.
#[local] Existing Instance ref_native.
#[local] Existing Instance ref_native_laws.

(** The life of a process, from both daemons. *)
Definition ls_reports : list report :=
  [TCPSocketListening 8080; ProcessLaunched 4242; SocketWatched 22;
   ExecveTerminated 4242 (enc (str "/bin/ls")) true; ProcessTerminated 4242 9].

Lemma ls_sendable : sendable (enc (str "/bin/ls")) (str "/bin/ls").
Proof. split_and!; [reflexivity | reflexivity | by vm_compute]. Qed.

Lemma native_reports_decoded_witness :
  (exists msg, send_report_c (ExecveTerminated 4242 (enc (str "/bin/ls")) true) = Some (sized msg) /\
     decoded (ExecveTerminated 4242 (enc (str "/bin/ls")) true) msg) /\
  (exists msg, serialize_report (ProcessTerminated 4242 9) = Some (Ok msg) /\
     decoded (ProcessTerminated 4242 9) msg) /\
  (exists msgs, Forall2 (fun r msg => send_report_c r = Some (sized msg)) ls_reports msgs /\
     Forall2 encodes ls_reports msgs).
Proof.
  assert (c_sendable (enc (str "/bin/ls"))) as Hls.
  { split; [reflexivity|]. exists (str "/bin/ls"). exact ls_sendable. }
  destruct native_reports_decoded as (Hc & Hr & Hl). split_and!.
  - destruct (Hc (ExecveTerminated 4242 (enc (str "/bin/ls")) true) (conj eq_refl Hls)) as (msg & E & _ & Hd).
    eauto.
  - destruct (Hr (ProcessTerminated 4242 9) (conj eq_refl eq_refl)) as (msg & E & _ & Hd). eauto.
  - apply Hl. repeat (constructor; [first [reflexivity | split; [reflexivity|]; first [reflexivity | exact Hls]]|]).
    constructor.
Defined.
End witness.
