(* ===== verification/RustDaemon.v ===== *)
(** * The Rust daemon ([src/rust])

    One Definition per function of [bin/main.rs], [monitoring_tools/command.rs],
    [monitoring_tools/inotify_tool.rs], [monitoring_tools/network.rs] and
    [monitoring_tools/signal_tool.rs] that the daemon calls.  A connection is
    served by a task of its own, which reads a request, handles it to its end, and
    only then reads the next: an [await] suspends the task, so its code is
    sequential and the answers of the kernel are arguments.  A task may wait for
    an answer that has not come ([Waiting]), or panic, which ends the task and not
    the daemon.  Messages are what the generated Rust code decodes and encodes;
    [socket.write] is taken to write the whole message.  Console output is left
    out. *)
From S2P Require Import Prelude Bytes Utf8 Data Daemon.

(** ** Requests ([proto/demon_generated.rs]), as their accessors give them *)
Record rust_inotify : Type := mkRustInotify {
  ri_root_paths : option bytes;
  ri_mask : Z;                                  (* [i32] *)
  ri_size : Z                                   (* [u32] *)
}.

Inductive surveillance_event : Type :=
  | REInotify (event : option rust_inotify)
  | RETCPSocket (destport : option Z)           (* [u32] *)
  | REOther.

Record rust_command : Type := mkRustCommand {
  r_path : option bytes;
  r_args : option (list bytes);
  r_envp : option (list bytes);
  r_to_watch : option (list surveillance_event)
}.

Inductive rust_message : Type :=
  | RMKillProcess (pid : option Z)              (* [i32] *)
  | RMRunCommand (command : option rust_command)
  | RMOther.

(** [std::process::Command]: the program, its arguments after the first, and the
    variables set over the environment of the daemon. *)
Record command : Type := mkCommandLine {
  program : bytes;
  arguments : list bytes;
  env : list (bytes * bytes)
}.

(** ** Tasks *)
Record task : Type := mkTask {
  t_sent : list report;
  t_kills : list (Z * Z);                       (* [kill(pid, signal)] *)
  t_spawned : list command
}.

Inductive progress (A : Type) : Type :=
  | Ready (a : A) (t : task)
  | Waiting (t : task)
  | Panicked (t : task).
Arguments Ready {A} _ _.
Arguments Waiting {A} _.
Arguments Panicked {A} _.

Definition tm (A : Type) : Type := task -> progress A.

#[global] Instance tm_ret : MRet tm := fun A a t => Ready a t.
#[global] Instance tm_bind : MBind tm := fun A B f m t =>
  match m t with Ready a t' => f a t' | Waiting t' => Waiting t' | Panicked t' => Panicked t' end.

Definition panic {A} : tm A := fun t => Panicked t.
Definition await {A} (answer : option A) : tm A := fun t =>
  match answer with Some a => Ready a t | None => Waiting t end.
(** [v.expect(..)] *)
Definition expect {A} (v : option A) : tm A := fun t =>
  match v with Some a => Ready a t | None => Panicked t end.

Definition send_on_socket (r : report) : tm unit := fun t =>
  Ready tt (mkTask (t_sent t ++ [r]) (t_kills t) (t_spawned t)).
Definition sent_kill (pid signal : Z) : tm unit := fun t =>
  Ready tt (mkTask (t_sent t) (t_kills t ++ [(pid, signal)]) (t_spawned t)).
Definition spawn (c : command) : tm unit := fun t =>
  Ready tt (mkTask (t_sent t) (t_kills t) (t_spawned t ++ [c])).

(** ** The answers of the kernel to a request *)
Inductive spawned : Type :=
  | Spawned (pid : Z)
  | NotFound                                    (* [ErrorKind::NotFound] *)
  | SpawnFailed (raw_os_error : option Z).

(** [child.wait().await]; [code] is [ExitStatus::code()]. *)
Inductive waited : Type :=
  | WExit (code : option Z)
  | WFailed (raw_os_error : option Z).

(** An event of an inotify instance: its mask and name, whether the watched path
    is a directory and the size of a file when it is handled. *)
Record file_event : Type := mkFileEvent {
  f_mask : Z;
  f_name : option bytes;
  f_is_dir : bool;
  f_size : bytes -> option Z
}.

Inductive file_read : Type :=
  | EpollFailed
  | ReadFailed (raw_os_error : option Z)
  | Read (events : list file_event).

(** [setup]: the instance, its watch and the epoll set could be made. *)
Record file_watch : Type := mkFileWatch { w_setup : bool; w_read : option file_read }.

Inductive TcpState : Type := TcpListen | TcpEstablished | TcpUnknown | TcpOther.
#[global] Instance TcpState_eq_dec : EqDecision TcpState.
Proof. solve_decision. Defined.

(** The sockets as [get_sockets_info] gives them, if it does: local port, state. *)
Definition sockets : Type := option (list (Z * TcpState)).

Record answers : Type := mkAnswers {
  a_process_id : Z;                             (* [std::process::id()] *)
  a_spawn : spawned;
  a_wait : option waited;
  a_file : nat -> file_watch;                   (* by index of the watch *)
  a_port : nat -> list (sockets * sockets * sockets);
  a_kill : option Z                             (* the error of [kill] *)
}.

#[global] Instance byte_eq_dec : EqDecision Byte.byte := Byte.byte_eq_dec.

(** ** [command.rs] *)
Definition slash : Byte.byte := Byte.x2f.
Definition dot : Byte.byte := Byte.x2e.
Definition equals : Byte.byte := Byte.x3d.

Fixpoint components_from (acc : bytes) (path : bytes) : list bytes :=
  match path with
  | [] => [acc]
  | b :: path => if bool_decide (b = slash) then acc :: components_from [] path
                 else components_from (acc ++ [b]) path
  end.
(** [Path::components]: empty and [.] components are normalised away. *)
Definition components (path : bytes) : list bytes :=
  List.filter (fun c => negb (bool_decide (c = [] \/ c = [dot]))) (components_from [] path).
(** [Path::file_name]: the last component, if it is not [..]. *)
Definition file_name (path : bytes) : option bytes :=
  match last (components path) with
  | Some c => if bool_decide (c = [dot; dot]) then None else Some c
  | None => None
  end.

(** [pair.find('=')], and the two slices. *)
Fixpoint split_pair (key : bytes) (assignment : bytes) : option (bytes * bytes) :=
  match assignment with
  | [] => None
  | b :: value =>
      if bool_decide (b = equals) then Some (key, value) else split_pair (key ++ [b]) value
  end.

Definition exec_command (run_cmd : rust_command) : tm command :=
  path ← expect (r_path run_cmd);
  let args := default [] (r_args run_cmd) in
  let envp := default [] (r_envp run_cmd) in
  let args :=
    match args with
    | first_arg :: rest =>
        let path_basename := default [] (file_name path) in
        if bool_decide (first_arg = path) || bool_decide (first_arg = path_basename) then rest else args
    | [] => args
    end in
  mret (mkCommandLine path args (omap (split_pair []) envp)).

(** ** [inotify_tool.rs] *)
Definition IN_CLOSE_WRITE : Z := 0x8.
Definition IN_CLOSE_NOWRITE : Z := 0x10.
Definition IN_ISDIR : Z := 0x40000000.

(** [event_mask.contains(mask)] *)
Definition contains (event_mask mask : Z) : bool := Z.land event_mask mask =? mask.

(** One round of the loop over the events of a read: whether it breaks, or [None]
    if it panics.  Only the output depends on which condition breaks. *)
Definition file_event_breaks (path : bytes) (vec : list Z) (reach_size : Z) (e : file_event)
    : option bool :=
  name_file ← match f_name e with
              | Some name => if is_ok (decode name) then Some name else None
              | None => Some path
              end;
  let file_path := if f_is_dir e then path ++ [slash] ++ name_file else name_file in
  size ← f_size e file_path;
  let file_size := to_uint32 size in
  let named := negb (bool_decide (name_file = [])) in
  Some (existsb (contains (f_mask e)) vec &&
    ((contains (f_mask e) IN_CLOSE_WRITE || contains (f_mask e) IN_CLOSE_NOWRITE)
       && (reach_size <? file_size)
     || contains (f_mask e) IN_CREATE && named || contains (f_mask e) IN_ACCESS && named
     || contains (f_mask e) IN_DELETE && named || contains (f_mask e) IN_MODIFY && named)).

(** [for event in events]: [None] if a round panics. *)
Fixpoint for_events (path : bytes) (vec : list Z) (reach_size : Z) (events : list file_event) : option unit :=
  match events with
  | [] => Some tt
  | e :: events =>
      breaks ← file_event_breaks path vec reach_size e;
      if (breaks : bool) then Some tt else for_events path vec reach_size events
  end.

(** The errno of a failure, or the pid of the daemon.  A panic of the spawned
    task is a panic of this one ([handle.await.expect]). *)
Definition UnknownErrno : Z := 0.
Definition read_events_inotify (process_id : Z) (w : file_watch) (path : bytes) (vec : list Z)
    (reach_size : Z) : tm (Z + Z * Z) :=
  if negb (w_setup w) then panic
  else
    r ← await (w_read w);
    match r with
    | EpollFailed => mret (inr (process_id, UnknownErrno))
    | ReadFailed raw_os_error => mret (inr (process_id, default 0 raw_os_error))
    | Read events => _ ← expect (for_events path vec reach_size events); mret (inl process_id)
    end.

(** ** [network.rs] *)
Definition is_port_event (info : sockets) (port : Z) (state : TcpState) : option bool :=
  match info with
  | None => None
  | Some info => Some (existsb (fun s => (s.1 =? port) && bool_decide (s.2 = state)) info)
  end.

(** The loop of the spawned task, one round for each triple of listings:
    [Some None] if it panics, [None] if it is still polling. *)
Fixpoint poll_port (port : Z) (rounds : list (sockets * sockets * sockets)) : option (option TcpState) :=
  match rounds with
  | [] => None
  | (s1, s2, s3) :: rounds =>
      match is_port_event s1 port TcpListen with
      | None => Some None
      | Some true => Some (Some TcpListen)
      | Some false =>
          match is_port_event s2 port TcpUnknown with
          | None => Some None
          | Some true => Some (Some TcpUnknown)
          | Some false =>
              match is_port_event s3 port TcpEstablished with
              | None => Some None
              | Some true => Some (Some TcpEstablished)
              | Some false => poll_port port rounds
              end
          end
      end
  end.

Definition read_events_port_tokio (process_id port : Z) (rounds : list (sockets * sockets * sockets))
    : tm (TcpState + Z * Z) :=
  handle ← await (poll_port port rounds);
  match handle with
  | Some state => mret (inl state)
  | None => mret (inr (process_id, UnknownErrno))
  end.

(** ** [signal_tool.rs] *)
Definition send_sigkill (k : answers) (pid : Z) : tm (Z + Z * Z) :=
  _ ← sent_kill pid SIGKILL;
  match a_kill k with
  | Some e => mret (inr (a_process_id k, e))
  | None => mret (inl (a_process_id k))
  end.

(** ** [main.rs] *)

(** The members of the generated enumeration, as the member the client has for
    their value: [unknown] 0, [created] 1, [listeing] 2. *)
Definition SocketState_listeing : SocketState := SOCKET_CREATED.
Definition SocketState_created : SocketState := SOCKET_LISTENING.
Definition SocketState_unknown : SocketState := SOCKET_UNKNOWN.

Definition has_bits (mask bits : Z) : bool := negb (Z.land mask bits =? 0).

(** [trig_events] and [trigger]. *)
Definition triggers (mask : Z) : list Z * InotifyEvent :=
  let acc := ([], ACCESSED) in
  let acc := if has_bits mask IN_ACCESS then (acc.1 ++ [IN_ACCESS], acc.2) else acc in
  let acc := if has_bits mask IN_CREATE then (acc.1 ++ [IN_CREATE; IN_ISDIR], CREATED) else acc in
  let acc := if has_bits mask IN_DELETE then (acc.1 ++ [IN_DELETE], DELETED) else acc in
  let acc := if has_bits mask IN_MODIFY then (acc.1 ++ [IN_MODIFY], MODIFIED) else acc in
  if has_bits mask (Z.lor IN_CLOSE_NOWRITE IN_CLOSE_WRITE)
  then (acc.1 ++ [IN_CLOSE_NOWRITE; IN_CLOSE_WRITE], SIZE_REACHED) else acc.

Definition handle_surveillance_event (k : answers) (i : nat) (msg : surveillance_event) : tm unit :=
  match msg with
  | REInotify event =>
      inotify_evt ← expect event;
      let path := default [] (ri_root_paths inotify_evt) in
      let mask := to_uint32 (ri_mask inotify_evt) in
      let reach_size := ri_size inotify_evt in
      let trig := triggers mask in
      _ ← send_on_socket (PathUpdated path trig.2 0 reach_size);
      res ← read_events_inotify (a_process_id k) (a_file k i) path trig.1 reach_size;
      match res with
      | inl pid => send_on_socket (ProcessTerminated (to_int pid) 0)
      | inr (pid, errno) => send_on_socket (ProcessTerminated (to_int pid) (to_uint32 errno))
      end
  | RETCPSocket destport =>
      port ← expect destport;
      _ ← send_on_socket (SocketWatched (to_int port));
      res ← read_events_port_tokio (a_process_id k) (to_uint16 port) (a_port k i);
      match res with
      | inl state =>
          let to_send :=
            match state with
            | TcpListen => SocketState_listeing
            | TcpEstablished => SocketState_created
            | _ => SocketState_unknown
            end in
          send_on_socket (SocketWatchTerminated (to_int port) to_send)
      | inr (pid, errno) => send_on_socket (ProcessTerminated (to_int pid) (to_uint32 errno))
      end
  | REOther => panic
  end.

Fixpoint watch_each (k : answers) (i : nat) (to_watch : list surveillance_event) : tm unit :=
  match to_watch with
  | [] => mret tt
  | event :: to_watch => _ ← handle_surveillance_event k i event; watch_each k (S i) to_watch
  end.

(** The launch: [pid] and [res] of the handler.  [pid] stays 0 when no process is
    made, the one of the inner block being another variable. *)
Definition launch (k : answers) (c : command) (command_exec : bytes) : tm (Z * waited) :=
  _ ← spawn c;
  match a_spawn k with
  | Spawned pid =>
      _ ← send_on_socket (ProcessLaunched (to_int pid));
      _ ← send_on_socket (ExecveTerminated (to_int pid) command_exec true);
      res ← await (a_wait k);
      mret (pid, res)
  | NotFound =>
      let pid := to_int (a_process_id k) in
      _ ← send_on_socket (ProcessLaunched pid);
      _ ← send_on_socket (ExecveTerminated pid command_exec false);
      mret (0, WFailed None)
  | SpawnFailed raw_os_error =>
      let pid := to_int (a_process_id k) in
      _ ← send_on_socket (ProcessLaunched pid);
      _ ← send_on_socket (ChildCreationError (to_uint32 (default 1 raw_os_error)));
      mret (0, WFailed raw_os_error)
  end.

Definition ENODATA : Z := 61.

Definition handle_message (k : answers) (msg : option rust_message) : tm unit :=
  msg ← expect msg;
  match msg with
  | RMKillProcess pid =>
      pid_kill ← expect pid;
      res ← send_sigkill k pid_kill;
      match res with
      | inl pid => send_on_socket (ProcessLaunched (to_int pid))
      | inr (pid, errno) => send_on_socket (ProcessTerminated (to_int pid) (to_uint32 errno))
      end
  | RMRunCommand c =>
      from_mess ← expect c;
      command ← exec_command from_mess;
      command_exec ← expect (r_path from_mess);
      to_watch ← expect (r_to_watch from_mess);
      res ← launch k command command_exec;
      _ ← watch_each k 0 to_watch;
      match res.2 with
      | WExit code => send_on_socket (ProcessTerminated (to_int res.1) (to_uint32 (default 1 code)))
      | WFailed raw_os_error =>
          send_on_socket (ProcessTerminated (to_int res.1) (to_uint32 (default 1 raw_os_error)))
      end
  | RMOther => send_on_socket (ChildCreationError (to_uint32 ENODATA))
  end.

(** [socket.read_exact]: the bytes that have come, and whether more can. *)
Inductive exact : Type :=
  | Got (data rest : bytes)
  | NotYet
  | Disconnected.

Definition read_exact (n : Z) (inbox : bytes) (closed : bool) : exact :=
  if n <=? blen inbox then Got (take (Z.to_nat n) inbox) (drop (Z.to_nat n) inbox)
  else if closed then Disconnected else NotYet.

(** How a connection stands: its task has ended, is waiting for bytes, is waiting
    in the handler of a request, has panicked. *)
Inductive standing : Type := Ended | WaitingBytes | WaitingKernel | TaskPanicked | NoFuel.

Section connection.
(** [root_as_message], and the answers to each request of the connection. *)
Context (root_as_message : bytes -> option rust_message) (ks : nat -> answers).

Fixpoint serve (fuel : nat) (i : nat) (inbox : bytes) (closed : bool) (t : task) : standing * task :=
  match fuel with
  | O => (NoFuel, t)
  | S fuel =>
      match read_exact 4 inbox closed with
      | Disconnected => (Ended, t)
      | NotYet => (WaitingBytes, t)
      | Got len_buf rest =>
          match read_exact (from_le len_buf) rest closed with
          | Disconnected => (Ended, t)
          | NotYet => (WaitingBytes, t)
          | Got buf rest =>
              match handle_message (ks i) (root_as_message buf) t with
              | Ready _ t' => serve fuel (S i) rest closed t'
              | Waiting t' => (WaitingKernel, t')
              | Panicked t' => (TaskPanicked, t')
              end
          end
      end
  end.

(** A connection from [accept] on: each round takes four bytes at least. *)
Definition connection (port : Z) (inbox : bytes) (closed : bool) : standing * task :=
  serve (S (length inbox)) 0 inbox closed (mkTask [TCPSocketListening port] [] []).
End connection.
