(* ===== verification/RustFacts.v ===== *)
(** * What the Rust daemon does

    The command line a request becomes, the reports of a request on every branch,
    the requests it does not read, the watches, and the invariants of a
    connection. *)
From S2P Require Import Prelude Bytes Utf8 Data ClientFacts Daemon RustDaemon.

(** ** Evaluation of tasks *)
Lemma tm_bind_ready {A B} (m : tm A) (f : A -> tm B) t a t' : m t = Ready a t' -> (m ≫= f) t = f a t'.
Proof. intros H. unfold mbind, tm_bind. by rewrite H. Qed.

(** Take a step whose result is known by computation. *)
Ltac tstep := erewrite tm_bind_ready by reflexivity; cbv beta iota.

(** The task a computation leaves, and whether it came to its end. *)
Definition task_of {A} (p : progress A) : task :=
  match p with Ready _ t | Waiting t | Panicked t => t end.
Definition is_ready {A} (p : progress A) : bool := match p with Ready _ _ => true | _ => false end.

(** [p] adds reports that satisfy [P], and nothing else. *)
Definition only_reports (P : report -> Prop) (t : task) (t' : task) : Prop :=
  exists rs, t_sent t' = t_sent t ++ rs /\ Forall P rs /\ t_kills t' = t_kills t /\ t_spawned t' = t_spawned t.

Lemma only_reports_refl P t : only_reports P t t.
Proof. exists []. by rewrite app_nil_r. Qed.

Lemma only_reports_trans P t1 t2 t3 :
  only_reports P t1 t2 -> only_reports P t2 t3 -> only_reports P t1 t3.
Proof.
  intros (r1 & E1 & F1 & K1 & S1) (r2 & E2 & F2 & K2 & S2). exists (r1 ++ r2).
  rewrite E2, E1, app_assoc. split_and!; [done | by apply Forall_app | congruence..].
Qed.

(** Computations all of whose outcomes add such reports. *)
Definition reporting {A} (P : report -> Prop) (m : tm A) : Prop := forall t, only_reports P t (task_of (m t)).

Create HintDb tasks.

Section reporting.
Context (P : report -> Prop).

Lemma reporting_ret {A} (a : A) : reporting P (mret a).
Proof. intros t. apply only_reports_refl. Qed.
Lemma reporting_panic {A} : reporting P (@panic A).
Proof. intros t. apply only_reports_refl. Qed.
Lemma reporting_expect {A} (v : option A) : reporting P (expect v).
Proof. intros t. destruct v; apply only_reports_refl. Qed.
Lemma reporting_await {A} (v : option A) : reporting P (await v).
Proof. intros t. destruct v; apply only_reports_refl. Qed.
Lemma reporting_send r : P r -> reporting P (send_on_socket r).
Proof. intros H t. exists [r]. by split_and!; [|constructor|..]. Qed.
Lemma reporting_bind {A B} (m : tm A) (f : A -> tm B) :
  reporting P m -> (forall a, reporting P (f a)) -> reporting P (m ≫= f).
Proof.
  intros Hm Hf t. specialize (Hm t). unfold mbind, tm_bind. destruct (m t) as [a t'|t'|t']; [|done..].
  by eapply only_reports_trans; [|apply Hf].
Qed.
End reporting.
#[export] Hint Resolve reporting_ret reporting_panic reporting_expect reporting_await reporting_send
  reporting_bind : tasks.

Ltac reports := repeat first [progress eauto with tasks | case_match | apply reporting_bind; intros].

(** ** Watches *)

(** The reports of the watches of a request. *)
Definition from_watch (process_id : Z) (r : report) : Prop :=
  match r with
  | PathUpdated _ _ _ _ | SocketWatched _ | SocketWatchTerminated _ _ => True
  | ProcessTerminated pid _ => pid = to_int process_id
  | _ => False
  end.

Ltac tsteps := unfold mbind, tm_bind, expect, await, send_on_socket, panic, mret, tm_ret; cbn.
Ltac watch_reports :=
  eexists; split; [rewrite <- ?app_assoc; reflexivity | by split_and!; [repeat constructor|..]].

Lemma watch_reporting k i e : reporting (from_watch (a_process_id k)) (handle_surveillance_event k i e).
Proof.
  intros t. destruct e as [event|destport|]; [| |apply only_reports_refl].
  - destruct event as [ev|]; [|apply only_reports_refl]. unfold handle_surveillance_event, read_events_inotify.
    tsteps. destruct (w_setup _); cbn [negb]; tsteps; [|watch_reports].
    destruct (w_read _) as [[|e|evs]|]; tsteps; [watch_reports..| |watch_reports].
    destruct (for_events _ _ _ evs); tsteps; watch_reports.
  - destruct destport as [port|]; [|apply only_reports_refl].
    unfold handle_surveillance_event, read_events_port_tokio. tsteps.
    destruct (poll_port _ _) as [[state|]|]; tsteps; watch_reports.
Qed.

Lemma watches_reporting k i ws : reporting (from_watch (a_process_id k)) (watch_each k i ws).
Proof.
  revert i. induction ws as [|w ws IH]; intros i; cbn [watch_each]; [apply reporting_ret|].
  apply reporting_bind; [apply watch_reporting | intros; apply IH].
Qed.

(** ** The command line *)
Lemma exec_command_ready c path t :
  r_path c = Some path -> exists cmd, exec_command c t = Ready cmd t /\ program cmd = path.
Proof. intros Hp. unfold exec_command. rewrite Hp. eexists. split; reflexivity. Qed.

Lemma split_pair_spec key s k v :
  split_pair key s = Some (k, v) <-> exists k', k = key ++ k' /\ s = k' ++ equals :: v /\ equals ∉ k'.
Proof.
  revert key. induction s as [|b s IH]; intros key; cbn.
  - split; [done|]. intros (k' & _ & H & _). by destruct k'.
  - case_bool_decide as Hb.
    + subst b. split.
      * intros H. injection H as <- <-. exists []. rewrite app_nil_r. by split_and!; [..|apply not_elem_of_nil].
      * intros (k' & -> & H & Hn). destruct k' as [|c k']; cbn in H.
        { rewrite app_nil_r. injection H as ->. done. }
        injection H as <- _. destruct Hn. by left.
    + rewrite IH. split.
      * intros (k' & -> & -> & Hn). exists (b :: k'). rewrite <- app_assoc. split_and!; [done..|].
        rewrite not_elem_of_cons. by split; [congruence|].
      * intros (k' & -> & H & Hn). destruct k' as [|c k']; cbn in H; [injection H as ->; done|].
        injection H as <- ->. exists k'. rewrite <- app_assoc. split_and!; [done..|]. by apply not_elem_of_cons in Hn as [_ ?].
Qed.

Lemma split_pair_none key s : split_pair key s = None <-> equals ∉ s.
Proof.
  revert key. induction s as [|b s IH]; intros key; cbn; [by split; [intros _; apply not_elem_of_nil|]|].
  rewrite not_elem_of_cons. case_bool_decide as Hb.
  - split; [done|]. intros [H _]. by destruct H.
  - rewrite IH. split; [by split; [congruence|] | by intros [_ ?]].
Qed.

(** An assignment of the environment, as a process receives it. *)
Definition assignment (kv : bytes * bytes) : bytes := kv.1 ++ equals :: kv.2.

(** The reading of a command. *)
Lemma exec_command_reads c path args envp t :
  r_path c = Some path -> r_args c = Some args -> r_envp c = Some envp ->
  exists cmd, exec_command c t = Ready cmd t /\ program cmd = path /\
    (forall a0 rest, args = a0 :: rest ->
       program cmd :: arguments cmd =
         if decide (a0 = path \/ a0 = default [] (file_name path)) then path :: rest else path :: args) /\
    (args = [] -> arguments cmd = []) /\
    assignment <$> env cmd = List.filter (fun e => bool_decide (equals ∈ e)) envp /\
    Forall (fun kv => equals ∉ kv.1) (env cmd).
Proof.
  intros Hp Ha He. unfold exec_command. rewrite Hp, Ha, He. cbn [default from_option].
  eexists. split; [reflexivity|]. cbn [program arguments env].
  split; [done|]. split; [|split; [by intros ->|]].
  - intros a0 rest ->. unfold id. case_decide as Hd; repeat case_bool_decide; cbn; tauto || done.
  - unfold id. clear. induction envp as [|e envp [IH1 IH2]]; [done|]. cbn [omap list_omap List.filter].
    destruct (split_pair [] e) as [[k v]|] eqn:E.
    + apply split_pair_spec in E as (k' & -> & -> & Hn). cbn [app].
      rewrite bool_decide_eq_true_2 by (apply elem_of_app; right; by left).
      split; [cbn; f_equal; exact IH1 | by constructor].
    + apply split_pair_none in E. by rewrite bool_decide_eq_false_2.
Qed.

(** C29. The command line of a request: the program is its path, as the first
    argument of the process too.  The first argument of the request is dropped
    when it is the path or its last component, and is otherwise an argument more:
    the process then has one argument more than the request asks for.  The
    variables set are the entries with an equals sign, in order, cut at the first
    one, nothing of them being lost; the others are ignored. *)
Theorem exec_command_line c path args envp t :
  r_path c = Some path -> r_args c = Some args -> r_envp c = Some envp ->
  exists cmd, exec_command c t = Ready cmd t /\ program cmd = path /\
    (forall a0 rest, args = a0 :: rest ->
       program cmd :: arguments cmd =
         if decide (a0 = path \/ a0 = default [] (file_name path)) then path :: rest else path :: args) /\
    (args = [] -> arguments cmd = []) /\
    assignment <$> env cmd = List.filter (fun e => bool_decide (equals ∈ e)) envp /\
    Forall (fun kv => equals ∉ kv.1) (env cmd).
Proof. apply exec_command_reads. Qed.

(** ** A request for a process *)

(** What the daemon reports of the launch. *)
Definition launch_reports (k : answers) (path : bytes) : list report :=
  match a_spawn k with
  | Spawned pid => [ProcessLaunched (to_int pid); ExecveTerminated (to_int pid) path true]
  | NotFound => [ProcessLaunched (to_int (a_process_id k));
                 ExecveTerminated (to_int (a_process_id k)) path false]
  | SpawnFailed e => [ProcessLaunched (to_int (a_process_id k));
                      ChildCreationError (to_uint32 (default 1 e))]
  end.

(** What it reports of the end, once there is one. *)
Definition end_report (k : answers) : option report :=
  match a_spawn k with
  | Spawned pid =>
      match a_wait k with
      | Some (WExit code) => Some (ProcessTerminated (to_int pid) (to_uint32 (default 1 code)))
      | Some (WFailed e) => Some (ProcessTerminated (to_int pid) (to_uint32 (default 1 e)))
      | None => None
      end
  | NotFound => Some (ProcessTerminated 0 1)
  | SpawnFailed e => Some (ProcessTerminated 0 (to_uint32 (default 1 e)))
  end.

(** The task after the launch, and what the rest of the handler does from it. *)
Definition launched_task (k : answers) (c : command) (path : bytes) (t : task) : task :=
  mkTask (t_sent t ++ launch_reports k path) (t_kills t) (t_spawned t ++ [c]).

Lemma launch_outcome k c path t :
  match end_report k with
  | None => launch k c path t = Waiting (launched_task k c path t)
  | Some r => exists res, launch k c path t = Ready res (launched_task k c path t) /\
      r = match res.2 with
          | WExit code => ProcessTerminated (to_int res.1) (to_uint32 (default 1 code))
          | WFailed e => ProcessTerminated (to_int res.1) (to_uint32 (default 1 e))
          end
  end.
Proof.
  unfold end_report, launch, launched_task, launch_reports, spawn.
  destruct (a_spawn k) as [pid| |e]; tsteps; [destruct (a_wait k) as [[code|e]|]| |]; tsteps;
    rewrite <- ?app_assoc; eauto.
Qed.

Lemma command_handled k c path ws t :
  r_path c = Some path -> r_to_watch c = Some ws ->
  exists cmd, exec_command c t = Ready cmd t /\ program cmd = path /\
    handle_message k (Some (RMRunCommand (Some c))) t =
      match end_report k with
      | None => Waiting (launched_task k cmd path t)
      | Some r => (watch_each k 0 ws ≫= fun _ => send_on_socket r) (launched_task k cmd path t)
      end.
Proof.
  intros Hp Hw. destruct (exec_command_ready c path t Hp) as (cmd & E & Hprog).
  exists cmd. split; [exact E|]. split; [exact Hprog|]. unfold handle_message.
  do 2 tstep.
  erewrite tm_bind_ready by exact E. rewrite Hp, Hw.
  do 2 tstep.
  pose proof (launch_outcome k cmd path t) as H. destruct (end_report k) as [r|].
  - destruct H as (res & H & ->). erewrite tm_bind_ready by exact H.
    unfold mbind, tm_bind. destruct (watch_each k 0 ws _); [by destruct (res.2) | done..].
  - unfold mbind at 1, tm_bind at 1. by rewrite H.
Qed.

(** C22. A request for a process, on every branch of the launch and of the watches.
    While the process runs nothing more is reported, and no watch is made: the
    handler waits.  Once it has ended, or could not be made, the reports are in
    the order launch, watches, end; the end is reported only if every watch comes
    to an end, and then it is the last report.  One process at most is launched,
    with the command line of the request, and none is killed. *)
Theorem rust_command_served k c path ws t :
  r_path c = Some path -> r_to_watch c = Some ws ->
  let p := handle_message k (Some (RMRunCommand (Some c))) t in
  (exists cmd, exec_command c t = Ready cmd t /\ t_spawned (task_of p) = t_spawned t ++ [cmd]) /\
  t_kills (task_of p) = t_kills t /\
  match end_report k with
  | None => p = Waiting (task_of p) /\ t_sent (task_of p) = t_sent t ++ launch_reports k path
  | Some r =>
      exists rs, Forall (from_watch (a_process_id k)) rs /\ (ws = [] -> is_ready p = true /\ rs = []) /\
        t_sent (task_of p) =
          t_sent t ++ launch_reports k path ++ rs ++ (if is_ready p then [r] else [])
  end.
Proof.
  intros Hp Hw p. destruct (command_handled k c path ws t Hp Hw) as (cmd & E & Hprog & Hh).
  subst p. rewrite Hh. destruct (end_report k) as [r|]; [|split_and!; eauto].
  destruct (watches_reporting k 0 ws (launched_task k cmd path t)) as (rs & Hs & HF & Hk & Hsp).
  assert (ws = [] -> watch_each k 0 ws (launched_task k cmd path t) = Ready tt (launched_task k cmd path t))
    as Hnil by (intros ->; done).
  unfold mbind, tm_bind. destruct (watch_each k 0 ws _) as [u t1|t1|t1]; cbn in *.
  - split; [by exists cmd; rewrite Hsp|]. split; [done|]. exists rs. split; [done|].
    split; [|by rewrite Hs, <- !app_assoc].
    intros Hws. injection (Hnil Hws) as _ ->. split; [done|].
    cbn in Hs. rewrite <- (app_nil_r (t_sent t ++ launch_reports k path)) in Hs at 1.
    by apply app_inv_head in Hs.
  - split; [by exists cmd; rewrite Hsp|]. split; [done|]. exists rs. split; [done|].
    split; [by intros Hws; specialize (Hnil Hws)|]. by rewrite Hs, app_nil_r, <- !app_assoc.
  - split; [by exists cmd; rewrite Hsp|]. split; [done|]. exists rs. split; [done|].
    split; [by intros Hws; specialize (Hnil Hws)|]. by rewrite Hs, app_nil_r, <- !app_assoc.
Qed.

(** ** Reading requests *)
Section serving.
Context (root_as_message : bytes -> option rust_message) (ks : nat -> answers).

Lemma read_exact_app n a b closed : blen a = n -> read_exact n (a ++ b) closed = Got a b.
Proof.
  intros <-. unfold read_exact. rewrite blen_app. pose proof (blen_nonneg b).
  rewrite (proj2 (Z.leb_le _ _)) by lia. unfold blen. rewrite Nat2Z.id.
  by rewrite take_app_length, drop_app_length.
Qed.

Lemma serve_frame fuel i m rest closed t :
  blen m < 2 ^ 32 ->
  serve root_as_message ks (S fuel) i (frame m ++ rest) closed t =
    match handle_message (ks i) (root_as_message m) t with
    | Ready _ t' => serve root_as_message ks fuel (S i) rest closed t'
    | Waiting t' => (WaitingKernel, t')
    | Panicked t' => (TaskPanicked, t')
    end.
Proof.
  intros Hm. pose proof (blen_nonneg m). unfold frame. rewrite <- app_assoc. cbn [serve].
  rewrite (read_exact_app 4) by (by rewrite blen_to_le).
  rewrite from_to_le, Z.mod_small by (cbn; lia). by rewrite read_exact_app.
Qed.


(** ** Invariants of a connection *)

(** What serving may add: reports of requests, and kills by SIGKILL. *)
Definition of_request (r : report) : Prop :=
  match r with TCPSocketListening _ | WatchListUpdated _ => False | _ => True end.
Definition extends (t t' : task) : Prop :=
  (exists rs, t_sent t' = t_sent t ++ rs /\ Forall of_request rs) /\
  (exists ps, t_kills t' = t_kills t ++ ps /\ Forall (fun p => p.2 = SIGKILL) ps) /\
  (exists cs, t_spawned t' = t_spawned t ++ cs).

Lemma extends_refl t : extends t t.
Proof. split; [|split]; exists []; by rewrite app_nil_r. Qed.

Lemma extends_trans t1 t2 t3 : extends t1 t2 -> extends t2 t3 -> extends t1 t3.
Proof.
  intros ((r1 & E1 & F1) & (p1 & K1 & G1) & c1 & S1) ((r2 & E2 & F2) & (p2 & K2 & G2) & c2 & S2).
  split; [|split].
  - exists (r1 ++ r2). rewrite E2, E1, app_assoc. split; [done | by apply Forall_app].
  - exists (p1 ++ p2). rewrite K2, K1, app_assoc. split; [done | by apply Forall_app].
  - exists (c1 ++ c2). by rewrite S2, S1, app_assoc.
Qed.

Lemma from_watch_of_request pid r : from_watch pid r -> of_request r.
Proof. by destruct r. Qed.

Lemma launch_reports_of_request k path : Forall of_request (launch_reports k path).
Proof. unfold launch_reports. destruct (a_spawn k); by repeat constructor. Qed.

Lemma command_extends k c t : extends t (task_of (handle_message k (Some (RMRunCommand (Some c))) t)).
Proof.
  destruct (r_path c) as [path|] eqn:Hp;
    [|unfold handle_message, mbind, tm_bind, exec_command; cbn; rewrite Hp; apply extends_refl].
  destruct (exec_command_ready c path t Hp) as (cmd & E & _).
  destruct (r_to_watch c) as [ws|] eqn:Hw.
  - destruct (command_handled k c path ws t Hp Hw) as (cmd' & _ & _ & ->).
    assert (extends t (launched_task k cmd' path t)) as H0.
    { split; [|split]; [exists (launch_reports k path) | exists [] | exists [cmd']]; cbn.
      - split; [done | apply launch_reports_of_request].
      - by rewrite app_nil_r.
      - done. }
    destruct (end_report k) as [r|] eqn:Hr; [|exact H0]. eapply extends_trans; [exact H0|].
    assert (reporting of_request (watch_each k 0 ws ≫= fun _ => send_on_socket r)) as Hrep.
    { apply reporting_bind.
      - intros t0. destruct (watches_reporting k 0 ws t0) as (rs & ? & HF & ?). exists rs.
        split; [done|]. split; [|done]. eapply Forall_impl; [exact HF | apply from_watch_of_request].
      - intros _. apply reporting_send. unfold end_report in Hr.
        destruct (a_spawn k); [destruct (a_wait k) as [[]|]| |]; inversion Hr; exact I. }
    destruct (Hrep (launched_task k cmd' path t)) as (rs & H1 & H2 & H3 & H4).
    split; [by exists rs | split; exists []; by rewrite app_nil_r].
  - unfold handle_message. do 2 tstep. erewrite tm_bind_ready by exact E. rewrite Hp, Hw. apply extends_refl.
Qed.

Lemma message_extends k msg t : extends t (task_of (handle_message k msg t)).
Proof.
  destruct msg as [[[pid|]|[c|]|]|]; try apply extends_refl; [|apply command_extends|].
  - unfold handle_message, send_sigkill. tsteps.
    destruct (a_kill k); cbn; (split; [|split]); cbn.
    1,4: eexists; split; [done | by repeat constructor].
    1,3: exists [(pid, SIGKILL)]; split; [done | by repeat constructor].
    1,2: exists []; by rewrite app_nil_r.
  - split; [|split; exists []; by rewrite app_nil_r]. eexists. split; [done|]. by repeat constructor.
Qed.

Lemma read_exact_shrinks n inbox closed data rest :
  0 <= n -> read_exact n inbox closed = Got data rest ->
  (length rest + Z.to_nat n = length inbox)%nat.
Proof.
  unfold read_exact. intros Hn. destruct (Z.leb_spec n (blen inbox)) as [Hle|]; [|by destruct closed].
  intros [= <- <-]. rewrite length_drop. unfold blen in Hle. lia.
Qed.

Lemma serve_safe fuel i inbox closed t st t' :
  (length inbox < fuel)%nat -> serve root_as_message ks fuel i inbox closed t = (st, t') ->
  st <> NoFuel /\ (st = Ended -> closed = true) /\ (st = WaitingBytes -> closed = false) /\ extends t t'.
Proof.
  revert i inbox t. induction fuel as [|fuel IH]; intros i inbox t Hf H; [lia|]. cbn [serve] in H.
  assert (forall n, (read_exact n inbox closed = Disconnected -> closed = true) /\
            (read_exact n inbox closed = NotYet -> closed = false)) as Hre.
  { intros n. unfold read_exact. destruct (n <=? _), closed; by split. }
  destruct (read_exact 4 inbox closed) as [len rest| |] eqn:E1.
  2-3: injection H as <- <-; split_and!; try done; try apply extends_refl; intros _; by apply (Hre 4).
  apply read_exact_shrinks in E1; [|lia].
  assert (forall n, (read_exact n rest closed = Disconnected -> closed = true) /\
            (read_exact n rest closed = NotYet -> closed = false)) as Hre'.
  { intros n. unfold read_exact. destruct (n <=? _), closed; by split. }
  pose proof (from_le_range len) as Hlen.
  destruct (read_exact (from_le len) rest closed) as [buf rest'| |] eqn:E2.
  2-3: injection H as <- <-; split_and!; first [discriminate | apply extends_refl | intros _; by apply (Hre' (from_le len))].
  apply read_exact_shrinks in E2; [|lia].
  pose proof (message_extends (ks i) (root_as_message buf) t) as Hx.
  destruct (handle_message (ks i) (root_as_message buf) t) as [u t1|t1|t1]; cbn in Hx.
  - destruct (IH (S i) rest' t1 ltac:(lia) H) as (? & ? & ? & ?). split_and!; try done. by eapply extends_trans.
  - by injection H as <- <-.
  - by injection H as <- <-.
Qed.
End serving.

(** C28. The invariants of a connection, whatever bytes come, whatever they decode
    to, whatever the kernel answers.  Serving ends with the bytes: it stops when
    the client has left, waits for bytes only if it has not, or is stuck or dead
    in the handler of a request.  The first report is the greeting, the others
    are never it, nor the acknowledgement of a list of watched files; every kill
    is by SIGKILL. *)
Theorem rust_connection_safe root_as_message ks port inbox closed st t :
  connection root_as_message ks port inbox closed = (st, t) ->
  st <> NoFuel /\ (st = Ended -> closed = true) /\ (st = WaitingBytes -> closed = false) /\
  (exists rs, t_sent t = TCPSocketListening port :: rs /\ Forall of_request rs) /\
  Forall (fun p => p.2 = SIGKILL) (t_kills t).
Proof.
  intros H. destruct (serve_safe _ _ _ _ _ _ _ _ _ (Nat.lt_succ_diag_r _) H) as (H1 & H2 & H3 & Hs & Hk & _).
  split_and!; [done..| |].
  - destruct Hs as (rs & -> & HF). by exists rs.
  - destruct Hk as (ps & -> & HF). done.
Qed.

(** ** Watched files *)

(** The file whose size is read for an event, when its name is UTF-8. *)
Definition event_file (path : bytes) (e : file_event) : option bytes :=
  match f_name e with
  | None => Some (if f_is_dir e then path ++ [slash] ++ path else path)
  | Some name =>
      if is_ok (decode name) then Some (if f_is_dir e then path ++ [slash] ++ name else name) else None
  end.

Definition measurable (path : bytes) (e : file_event) : bool :=
  match event_file path e with Some f => bool_decide (is_Some (f_size e f)) | None => false end.

Lemma event_measurable path vec reach_size e :
  is_Some (file_event_breaks path vec reach_size e) <-> measurable path e = true.
Proof.
  unfold file_event_breaks, measurable, event_file.
  destruct (f_name e) as [name|]; [destruct (is_ok (decode name))|]; cbn;
    [destruct (f_size e _); cbn | | destruct (f_size e _); cbn].
  all: split; intros H; first [done | by destruct H | by eexists].
Qed.

Lemma for_events_measurable path vec reach_size events :
  Forall (fun e => measurable path e = true) events -> for_events path vec reach_size events = Some tt.
Proof.
  induction 1 as [|e events He _ IH]; [done|]. cbn.
  apply (event_measurable path vec reach_size) in He as [b ->]. cbn. by destruct b.
Qed.

Lemma for_events_lost path vec reach_size e events :
  measurable path e = false -> for_events path vec reach_size (e :: events) = None.
Proof.
  intros He. cbn. destruct (file_event_breaks path vec reach_size e) as [b|] eqn:E; [|done].
  assert (measurable path e = true) as H; [|congruence].
  apply (event_measurable path vec reach_size). by eexists.
Qed.

(** C33. A watched file.  The update is reported at once, before anything happened
    to the file, with the size 0.  Then the first read of the kernel ends the
    watch, whatever its events are and whichever were asked for: two masks differ
    in the event they report, never in what the watch waits for.  The end is
    reported as the end of a process, the daemon.  And when the first event is on
    a file whose size cannot be read, as when a file of a watched directory has
    been deleted, the task panics: the client hears nothing more. *)
Theorem rust_inotify_watch k i ev path events t :
  ri_root_paths ev = Some path -> w_setup (a_file k i) = true ->
  w_read (a_file k i) = Some (Read events) ->
  let updated := PathUpdated path (triggers (to_uint32 (ri_mask ev))).2 0 (ri_size ev) in
  (Forall (fun e => measurable path e = true) events ->
     handle_surveillance_event k i (REInotify (Some ev)) t =
       Ready tt (mkTask (t_sent t ++ [updated; ProcessTerminated (to_int (a_process_id k)) 0])
                   (t_kills t) (t_spawned t))) /\
  (forall e events', events = e :: events' -> measurable path e = false ->
     handle_surveillance_event k i (REInotify (Some ev)) t =
       Panicked (mkTask (t_sent t ++ [updated]) (t_kills t) (t_spawned t))).
Proof.
  intros Hp Hs Hr updated. unfold handle_surveillance_event, read_events_inotify.
  split.
  - intros HF. tsteps. rewrite Hp, Hs, Hr. cbn. rewrite (for_events_measurable _ _ _ _ HF). tsteps. rewrite <- app_assoc. done.
  - intros e events' -> He. tsteps. rewrite Hp, Hs, Hr. cbn -[for_events]. rewrite (for_events_lost _ _ _ _ _ He). done.
Qed.


(** ** At concrete inputs *)
Definition demo_path : bytes := [slash; Byte.x62; Byte.x2f; Byte.x65].              (* /b/e *)
Definition demo_run : rust_command :=
  mkRustCommand (Some demo_path) (Some [[Byte.x65]; [Byte.x68]])                     (* e h *)
    (Some [[Byte.x6b; equals; equals]; [Byte.x76]])                                  (* k== v *)
    (Some [RETCPSocket (Some 80)]).

(** A daemon of pid 7, a child of pid 42 that runs or has exited with 3, and a
    port that is listening on the second round. *)
Definition demo_answers (ended : bool) : answers :=
  mkAnswers 7 (Spawned 42) (if ended then Some (WExit (Some 3)) else None)
    (fun _ => mkFileWatch true (Some (Read [mkFileEvent IN_DELETE (Some [Byte.x61]) true (fun _ => None)])))
    (fun _ => [(Some [], Some [], Some []); (Some [(80, TcpListen)], None, None)]) None.

Definition empty_task : task := mkTask [] [] [].

Lemma exec_command_line_witness :
  exists cmd, exec_command demo_run empty_task = Ready cmd empty_task /\
    program cmd :: arguments cmd = [demo_path; [Byte.x68]] /\
    assignment <$> env cmd = [[Byte.x6b; equals; equals]].
Proof.
  destruct (exec_command_line demo_run demo_path _ _ empty_task eq_refl eq_refl eq_refl)
    as (cmd & E & _ & Hargs & _ & Henv & _).
  exists cmd. split; [exact E|]. split; [|exact Henv]. rewrite (Hargs _ _ eq_refl). reflexivity.
Defined.

(** The order of the reports, with a watch. *)
Lemma rust_command_served_witness :
  exists rs, t_sent (task_of (handle_message (demo_answers true) (Some (RMRunCommand (Some demo_run))) empty_task)) =
    [ProcessLaunched 42; ExecveTerminated 42 demo_path true] ++ rs ++ [ProcessTerminated 42 3].
Proof.
  destruct (rust_command_served (demo_answers true) demo_run demo_path _ empty_task eq_refl eq_refl)
    as (_ & _ & rs & _ & _ & H).
  exists rs. exact H.
Defined.

(** A kill behind a process that runs: bytes nobody reads. *)
Definition demo_root (m : bytes) : option rust_message :=
  match m with [] => Some (RMRunCommand (Some demo_run)) | _ => Some (RMKillProcess (Some 42)) end.


Lemma rust_connection_safe_witness :
  exists st t, connection demo_root (fun _ => demo_answers true) 8080 (frame [slash] ++ frame []) true = (st, t) /\
    st <> NoFuel /\ Forall (fun p => p.2 = SIGKILL) (t_kills t).
Proof.
  destruct (connection demo_root (fun _ => demo_answers true) 8080 (frame [slash] ++ frame []) true)
    as [st t] eqn:E.
  destruct (rust_connection_safe _ _ _ _ _ _ _ E) as (H1 & _ & _ & _ & H2).
  exists st, t. split; [reflexivity | split; [exact H1 | exact H2]].
Defined.

(** A file deleted in a watched directory. *)
Lemma rust_inotify_watch_witness :
  handle_surveillance_event (demo_answers true) 0
    (REInotify (Some (mkRustInotify (Some demo_path) IN_DELETE 10))) empty_task =
  Panicked (mkTask [PathUpdated demo_path DELETED 0 10] [] []).
Proof.
  destruct (rust_inotify_watch (demo_answers true) 0 (mkRustInotify (Some demo_path) IN_DELETE 10)
              demo_path _ empty_task eq_refl eq_refl eq_refl) as [_ H].
  exact (H _ _ eq_refl eq_refl).
Defined.
