(* ===== verification/RustSessions.v ===== *)
(** * Client sessions with the Rust daemon

    The command a session writes is the one the daemon serves, and what the
    session concludes of its reports; what is the same as with the C daemon, and
    what is not. *)
From S2P Require Import Prelude Bytes Utf8 FlatBuffers FlatBuffersRef FlatBuffersRefLaws.
From S2P Require Import Enums Tables Data Send Receive BuilderLogic SendFacts CommandFacts.
From S2P Require Import ReadFacts ReceiveFacts PeerCommand PeerMessages TestCommands.
From S2P Require Import Socket Clients ClientFacts Sessions ProcessManager Daemon DaemonFacts.
From S2P Require Import EndToEnd RustDaemon RustFacts.

(** ** A command as the daemon reads it *)
Definition rust_watched (w : watched) : surveillance_event :=
  match w with
  | WatchInotify p => REInotify (Some (mkRustInotify (Some (enc (ip_root_paths p))) (ip_mask p) (ip_size p)))
  | WatchSocket p => RETCPSocket (Some (destport p))
  end.

Definition rust_view (cmd : peer_command) : rust_command :=
  mkRustCommand (Some (enc (peer_path cmd))) (Some (enc <$> peer_args cmd)) (Some (enc <$> peer_envp cmd))
    (Some (rust_watched <$> peer_watched cmd)).

(** [ExitStatus::code()] of what [waitpid] stores. *)
Definition exit_code (wstatus : Z) : option Z :=
  if WIFEXITED wstatus then Some (WEXITSTATUS wstatus) else None.

Lemma exit_code_status wstatus status :
  exit_status wstatus = Some status ->
  (WIFEXITED wstatus = true -> exit_code wstatus = Some status) /\
  in_range SUint32 (default 1 (exit_code wstatus)) = true /\
  (default 1 (exit_code wstatus) =? 0) = (status =? 0).
Proof.
  intros H. destruct (exit_status_bounds _ _ H) as [Hb _]. revert H Hb. unfold exit_status, exit_code.
  destruct (WIFEXITED wstatus); [intros [= <-] Hb; cbn|].
  - split_and!; [done | | done]. unfold in_range. cbn. lia.
  - unfold WIFSIGNALED. destruct (0 <? WTERMSIG wstatus) eqn:E; [|done].
    case_match; [|done]. intros [= <-] _. split_and!; [done..|]. cbn. apply Z.ltb_lt in E. symmetry. lia.
Qed.

Section sessions.
Context {FB : FlatBuffers} {FBL : FlatBuffersLaws FB}.
Context (root_as_message : bytes -> option rust_message) (ks : nat -> answers) (port : Z).

(** What is relied on of the generated Rust code: a command sent by the client is
    verified, and read. *)
Definition reads_requests : Prop := forall cmd bi,
  command_ok cmd = true -> send_command_to_demon cmd = Ok bi -> blen (bi_buffer bi) <= verifier_limit ->
  root_as_message (bi_buffer bi) = Some (RMRunCommand (Some (rust_view (peer_view cmd)))).

Lemma command_connection cmd cb closed r :
  command_ok cmd = true -> cmd_to_watch cmd = [] -> reads_requests ->
  send_command_to_demon cmd = Ok cb -> blen (bi_buffer cb) <= verifier_limit ->
  end_report (ks 0%nat) = Some r ->
  exists t, connection root_as_message ks port (frame (bi_buffer cb)) closed =
      (if closed then Ended else WaitingBytes, t) /\
    t_sent t = TCPSocketListening port :: launch_reports (ks 0%nat) (enc (cmd_path cmd)) ++ [r].
Proof.
  intros Hok Hw Hreads Hcb Hlt Hr. pose proof (Hreads cmd cb Hok Hcb Hlt) as Hroot.
  pose proof (serve_frame root_as_message ks (length (frame (bi_buffer cb))) 0 (bi_buffer cb) [] closed
    (mkTask [TCPSocketListening port] [] []) ltac:(unfold verifier_limit in Hlt; lia)) as Hserve.
  rewrite app_nil_r, Hroot in Hserve. unfold connection. rewrite Hserve. clear Hserve.
  destruct (command_handled (ks 0%nat) (rust_view (peer_view cmd)) (enc (cmd_path cmd)) []
              (mkTask [TCPSocketListening port] [] [])) as (line & _ & _ & ->);
    [done | cbn; by rewrite Hw|].
  rewrite Hr. unfold mbind, tm_bind. cbn [watch_each]. unfold mret, tm_ret, send_on_socket.
  eexists (mkTask _ _ _). split; [|reflexivity].
  destruct (length (frame (bi_buffer cb))) eqn:E; [|by destruct closed].
  exfalso. unfold frame in E. rewrite length_app, length_to_le in E. lia.
Qed.

Lemma launch_kind k path event :
  event <> PROCESS_LAUNCHED -> event <> EXECVE_TERMINATED -> event <> CHILD_CREATION_ERROR ->
  Forall (fun r => report_event r <> event) (launch_reports k path).
Proof. intros. unfold launch_reports. destruct (a_spawn k); repeat constructor; cbn; congruence. Qed.

(** The session over the reports of the Rust daemon. *)
Lemma rust_verdict fuel cmd cb closed pid wstatus status msgs l l' :
  command_ok cmd = true -> cmd_to_watch cmd = [] -> reads_requests ->
  send_command_to_demon cmd = Ok cb -> blen (bi_buffer cb) <= verifier_limit ->
  0 < pid < 2 ^ 31 -> a_spawn (ks 0%nat) = Spawned pid ->
  a_wait (ks 0%nat) = Some (WExit (exit_code wstatus)) -> exit_status wstatus = Some status ->
  exists t, connection root_as_message ks port (frame (bi_buffer cb)) closed =
      (if closed then Ended else WaitingBytes, t) /\
    t_sent t = TCPSocketListening port :: launch_reports (ks 0%nat) (enc (cmd_path cmd)) ++
               [ProcessTerminated pid (default 1 (exit_code wstatus))] /\
    (Forall2 encodes (t_sent t) msgs -> carries l msgs l' -> (length msgs <= fuel)%nat ->
     concludes (process_terminated fuel (Connected l Writable) cmd fresh_sock)
       (Some (if status =? 0 then 1 else -1)) l' (frame (bi_buffer cb))).
Proof.
  intros Hok Hw Hreads Hcb Hlt Hpid Hsp Hwait Hst.
  destruct (exit_code_status _ _ Hst) as (_ & Hrange & Hzero).
  assert (to_int pid = pid) as Hint by (by apply to_int_small; lia).
  set (code := default 1 (exit_code wstatus)) in *.
  assert (to_uint32 code = code) as Hcode.
  { unfold to_uint32. apply Z.mod_small. unfold in_range in Hrange. cbn in Hrange. lia. }
  destruct (command_connection cmd cb closed (ProcessTerminated pid code) Hok Hw Hreads Hcb Hlt)
    as (t & E & Hs); [unfold end_report; rewrite Hsp, Hwait, Hint; fold code; by rewrite Hcode|].
  exists t. split; [exact E|]. split; [exact Hs|].
  intros HE Hl Hfuel. rewrite Hs in HE. change (?a :: ?b ++ ?c) with ((a :: b) ++ c) in HE.
  destruct (reports_transcript PROCESS_TERMINATED (TCPSocketListening port :: launch_reports (ks 0%nat) (enc (cmd_path cmd)))
              (ProcessTerminated pid code) l msgs l')
    as (before & msg & -> & Hs' & Hlen & Htr); [|done|exact HE|exact Hl|].
  { constructor; [done|]. by apply launch_kind. }
  rewrite length_app in Hfuel. cbn in Hfuel.
  destruct (process_terminated_verdict fuel cmd _ _ l before msg l' Hok Hs' Htr ltac:(lia))
    as (cb' & Hcb' & Hv).
  rewrite Hcb in Hcb'. injection Hcb' as <-.
  rewrite (proj2 (Z.leb_le 0 pid)) in Hv by lia. cbn [andb] in Hv. by rewrite Hzero in Hv.
Qed.

Section both.
Context (rm : bytes -> Z -> Event) (rc : bytes -> Z -> option s_command) (rk : bytes -> Z -> option Z).
Context (inotifyFd server sfd fd : Z) (k : kernel) (c : info_child) (d : daemon).

(** C9. The two daemons, given the same bytes: the command of a session, without
    watches, on a connection of its own, for a process that the kernel starts and
    that ends with [wstatus].  With arguments, both serve it, and a session with the
    one concludes what it concludes with the other: 1 when the process exited with
    status 0, and -1 otherwise.  When it exited, and its path has no NUL, the reports
    are the same, one by one; after a signal the Rust daemon reports 1 where the C
    daemon reports the number of the signal.  Without arguments the daemons part: the Rust one
    serves the command all the same, and the C one reads past the end of the arguments
    after its greeting. *)
Theorem daemons_agree cmd cb closed wstatus status t t' :
  command_ok cmd = true -> cmd_to_watch cmd = [] -> reads_requests -> reads_commands rm rc ->
  send_command_to_demon cmd = Ok cb -> blen (bi_buffer cb) <= verifier_limit -> 0 <= port < 2 ^ 16 ->
  0 < ic_child_id c < 2 ^ 31 -> exit_status wstatus = Some status ->
  a_spawn (ks 0%nat) = Spawned (ic_child_id c) -> a_wait (ks 0%nat) = Some (WExit (exit_code wstatus)) ->
  0 <= fd -> fd ∉ d_gone d -> launched_child k = Some c ->
  track (ic_child_id c) (ic_stack_p c) (err_file_of k) (d_table d) = Some t ->
  untrack (ic_child_id c) t = Some t' ->
  let path := c_path (c_view (peer_view cmd)) in
  let c_turns := turns rm rc rk port inotifyFd in
  let concluded reports v := forall fuel msgs l l',
    Forall2 encodes reports msgs -> carries l msgs l' -> (length msgs <= fuel)%nat ->
    concludes (process_terminated fuel (Connected l Writable) cmd fresh_sock) v l' (frame (bi_buffer cb)) in
  let v := Some (if status =? 0 then 1 else -1) in
  exists tr, connection root_as_message ks port (frame (bi_buffer cb)) closed =
      (if closed then Ended else WaitingBytes, tr) /\
    concluded (t_sent tr) v /\
    match cmd_args cmd with
    | _ :: _ => exists d' reports,
        c_turns (one_life server sfd fd (bi_buffer cb) k c path 0 wstatus) d = Next tt d' /\
        d_sent d' = d_sent d ++ ((fun r => (fd, r)) <$> reports) /\
        concluded reports v /\
        (WIFEXITED wstatus = true -> path = enc (cmd_path cmd) -> t_sent tr = reports) /\
        (WIFEXITED wstatus = false -> last (t_sent tr) = Some (ProcessTerminated (ic_child_id c) 1) /\
           last reports = Some (ProcessTerminated (ic_child_id c) (WTERMSIG wstatus)))
    | [] => exists d',
        c_turns [ConnexionReady server fd true;
                 MessageReady fd (to_le 4 (blen (bi_buffer cb))) (bi_buffer cb) k] d = Halt (Undefined OutOfBounds) d' /\
        d_sent d' = d_sent d ++ [(fd, TCPSocketListening port)]
    end.
Proof.
  intros Hok Hw Hreads Hcreads Hcb Hlt Hport Hpid Hst Hsp Hwait Hfd Hg Hc Ht Hu path c_turns concluded v.
  assert (to_uint16 port = port) as E16 by (apply Z.mod_small; lia).
  assert (exists tr, connection root_as_message ks port (frame (bi_buffer cb)) closed =
      (if closed then Ended else WaitingBytes, tr) /\
    t_sent tr = TCPSocketListening port :: launch_reports (ks 0%nat) (enc (cmd_path cmd)) ++
               [ProcessTerminated (ic_child_id c) (default 1 (exit_code wstatus))] /\
    concluded (t_sent tr) v) as (tr & E & Hs & Hv).
  { destruct (connection root_as_message ks port (frame (bi_buffer cb)) closed) as [st tr] eqn:E. exists tr.
    pose proof (fun fuel msgs l l' => rust_verdict fuel cmd cb closed (ic_child_id c) wstatus status msgs l l'
      Hok Hw Hreads Hcb Hlt Hpid Hsp Hwait Hst) as H.
    destruct (H 0%nat [] [] []) as (tr' & E' & Hs & _). rewrite E in E'. injection E' as -> <-.
    split; [done|]. split; [exact Hs|]. intros fuel msgs l l'.
    destruct (H fuel msgs l l') as (tr' & E' & _ & Hv). rewrite E in E'. by injection E' as <-. }
  exists tr. split; [exact E|]. split; [exact Hv|]. destruct (cmd_args cmd) as [|arg args] eqn:Ha.
  - destruct (no_argument_served rm rc rk port inotifyFd cmd cb server fd k d) as (d' & E' & Hs'); try done.
    exists d'. by rewrite E16 in Hs'.
  - assert (cmd_args cmd <> []) as Hargs by (by rewrite Ha).
    destruct (one_life_served rm rc rk port inotifyFd cmd cb server sfd fd k c path true wstatus status d t t'
                Hok Hargs Hcreads Hcb Hlt Hfd Hg Hc Ht Hu Hst) as (d' & E' & Hs').
    exists d'. eexists. split; [exact E'|]. split; [exact Hs'|]. split_and!.
    + intros fuel msgs l l' HE Hl Hfuel.
      destruct (command_to_verdict rm rc rk port inotifyFd fuel cmd server sfd fd k c path true wstatus status d t t'
                  msgs l l' Hok Hargs Hcreads Hfd Hg Hc Hpid Ht Hu Hst) as (cb' & Hcb' & H).
      rewrite Hcb in Hcb'. injection Hcb' as <-. destruct (H Hlt) as (_ & _ & _ & Hv'). by apply Hv'.
    + intros Hexit Hpath. rewrite Hs, Hpath. unfold first_reports, launch_reports. rewrite Hsp, to_int_small by lia.
      cbn. rewrite Hw. cbn. rewrite E16. by rewrite (proj1 (exit_code_status _ _ Hst) Hexit).
    + intros Hexit. rewrite Hs, app_comm_cons, !last_snoc. unfold exit_code. rewrite Hexit. split; [done|].
      revert Hst. unfold exit_status. rewrite Hexit. destruct (WIFSIGNALED wstatus); [|done]. by intros [= <-].
Qed.
End both.

(** The session that awaits the acknowledgement of a list of watched files
    never ends with the Rust daemon, whatever the command, the requests read and
    the answers of the kernel: for no history of a connection is there a bound on
    its iterations with which it concludes. *)
Lemma rust_watch_list_never fuel inbox closed st t cmd rs msgs l :
  command_ok cmd = true -> connection root_as_message ks port inbox closed = (st, t) ->
  rs `prefix_of` t_sent t -> Forall2 encodes rs msgs -> carries l msgs [] ->
  inotify_watchlist_updated fuel (Connected l Writable) cmd fresh_sock = OutOfFuel.
Proof.
  intros Hok H Hpre HE Hl.
  destruct (serve_safe _ _ _ _ _ _ _ _ _ (Nat.lt_succ_diag_r _) H) as (_ & _ & _ & (rs' & Hs & HF) & _).
  apply errors_fuel, io_bind_fuel, (session_never fuel cmd INOTIFY_WATCH_LIST_UPDATED l msgs); [done..|].
  assert (Forall (fun r => report_event r <> INOTIFY_WATCH_LIST_UPDATED) rs) as Hrs.
  { destruct Hpre as [rest Hpre]. rewrite Hs in Hpre. cbn in Hpre.
    assert (Forall (fun r => report_event r <> INOTIFY_WATCH_LIST_UPDATED) (TCPSocketListening port :: rs')) as Hall.
    { constructor; [done|]. eapply Forall_impl; [exact HF|]. by intros []. }
    rewrite Hpre in Hall. by apply Forall_app in Hall as [? _]. }
  clear Hl Hpre. induction HE as [|r m rs msgs Hr _ IH]; [constructor|].
  apply Forall_cons in Hrs as [Hne Hrs]. constructor; [|by apply IH].
  rewrite (encodes_seen _ _ Hr). by apply bool_decide_eq_false_2.
Qed.
End sessions.

(** ** The readers of the client's side

    What is relied on of the Rust code holds of the generated accessors. *)
Section readers.
Context {FB : FlatBuffers} {FBL : FlatBuffersLaws FB}.

Definition generated_root (buf : bytes) : option rust_message :=
  match peer_read buf with Ok cmd => Some (RMRunCommand (Some (rust_view cmd))) | Err _ => None end.

Lemma generated_reads_requests : reads_requests generated_root.
Proof.
  intros cmd bi Hok Hb _. destruct (send_command_message cmd Hok) as (bi' & Hb' & h & slots & Hm & Hc).
  rewrite Hb in Hb'. injection Hb' as <-. unfold generated_root.
  by rewrite (peer_read_ok _ _ _ _ Hm Hc Hok).
Qed.
End readers.

(** ** At a concrete input *)
Section witnesses.
#[local] Existing Instance ref_runtime.
#[local] Existing Instance ref_laws.

(** [ls], which exits with status 0. *)
Definition ls_answers : answers :=
  mkAnswers 7 (Spawned 4242) (Some (WExit (Some 0))) (fun _ => mkFileWatch true None) (fun _ => []) None.

Lemma daemons_agree_witness :
  exists cb tr d', send_command_to_demon ls_command = Ok cb /\
    connection generated_root (fun _ => ls_answers) 8080 (frame (bi_buffer cb)) true = (Ended, tr) /\
    turns generated_rm generated_rc generated_rk 8080 4
      (one_life 3 6 7 (bi_buffer cb) ls_kernel (mkInfoChild 8192 4242 8) (enc (str "/bin/ls")) 0 0) demo0 = Next tt d' /\
    d_sent d' = (fun r => (7, r)) <$> t_sent tr /\
    concludes (process_terminated 9 (Connected (one_segment ls_messages) Writable) ls_command fresh_sock)
      (Some 1) [] (frame (bi_buffer cb)).
Proof.
  destruct (send_command_to_demon ls_command) as [cb|] eqn:Hcb; [|vm_compute in Hcb; discriminate].
  assert (blen (bi_buffer cb) <= verifier_limit) as Hlt by exact (ls_small cb Hcb).
  destruct (track 4242 8192 5 (d_table demo0)) as [t|] eqn:Ht; [|vm_compute in Ht; discriminate].
  destruct (untrack 4242 t) as [t'|] eqn:Hu;
    [|vm_compute in Ht; injection Ht as <-; vm_compute in Hu; discriminate].
  destruct (daemons_agree generated_root (fun _ => ls_answers) 8080 generated_rm generated_rc generated_rk 4 3 6 7
              ls_kernel (mkInfoChild 8192 4242 8) demo0 ls_command cb true 0 0 t t')
    as (tr & E & Hv & d' & reports & E' & Hs & _ & Hsame & _);
    [reflexivity | reflexivity | exact generated_reads_requests | exact generated_reads_commands | exact Hcb
    | exact Hlt | lia | cbn; lia | reflexivity | reflexivity | reflexivity | lia | by apply not_elem_of_nil
    | reflexivity | exact Ht | exact Hu |].
  exists cb, tr, d'. split; [reflexivity|]. split; [exact E|]. split; [exact E'|].
  rewrite (Hsame eq_refl eq_refl) in *. split; [exact Hs|].
  refine (Hv 9%nat ls_messages _ [] _ ls_carried ltac:(cbn; lia)).
  assert (reports = [TCPSocketListening 8080; ProcessLaunched 4242;
    ExecveTerminated 4242 (enc (str "/bin/ls")) true; ProcessTerminated 4242 0]) as ->; [|exact ls_encoded].
  vm_compute in Hcb. injection Hcb as <-. rewrite <- (Hsame eq_refl eq_refl).
  vm_compute in E. injection E as <-. vm_compute. reflexivity.
Defined.

(** The greeting, and then silence: the daemon has panicked on a message it does
    not know. *)
Lemma rust_watch_list_never_witness :
  inotify_watchlist_updated 1000 (Connected (one_segment [greeting]) Writable) ls_command fresh_sock = OutOfFuel.
Proof.
  destruct (connection (fun _ => None) (fun _ => ls_answers) 8080 (frame [Byte.x00]) false) as [st t] eqn:E.
  apply (rust_watch_list_never (fun _ => None) (fun _ => ls_answers) 8080 1000 (frame [Byte.x00]) false st t
           ls_command [TCPSocketListening 8080] [greeting]).
  - reflexivity.
  - exact E.
  - vm_compute in E. injection E as _ <-. exists []. reflexivity.
  - apply Forall2_cons_2; [encoded | constructor].
  - apply (carries_segment [greeting] []); [discriminate | repeat constructor; vm_compute; reflexivity].
Defined.
End witnesses.
