(* ===== verification/ProtoClient.v ===== *)
(** * The interactive client ([rust/src/bin/proto_client.rs])

    A line of its standard input is a command; it is sent to the Rust daemon with a
    watch on a port, and the reports are read until one that ends the session.
    What is printed is left out.  A [String] is its code points until it is
    serialized. *)
From S2P Require Import Prelude Bytes Utf8 FlatBuffers Text FlatBuffersRef FlatBuffersRefLaws.
From S2P Require Import Enums Tables Data Send Receive BuilderLogic SendFacts CommandFacts.
From S2P Require Import CppReceive CppUser.
From S2P Require Import ReadFacts ReceiveFacts PeerCommand PeerMessages Wire NativeBuilder NativeTables NativeCommand.
From S2P Require Import TestCommands ClientFacts Sessions ProcessManager Daemon DaemonFacts EndToEnd CppSend RustSend.
From S2P Require Import RustDaemon RustFacts RustSessions.

(** ** The line *)

(** [char::is_whitespace] *)
Definition is_whitespace (c : Z) : bool :=
  (9 <=? c) && (c <=? 13) || (c =? 32) || (c =? 0x85) || (c =? 0xA0) || (c =? 0x1680) ||
  (0x2000 <=? c) && (c <=? 0x200A) || (c =? 0x2028) || (c =? 0x2029) || (c =? 0x202F) ||
  (c =? 0x205F) || (c =? 0x3000).

(** [s.trim()] *)
Definition trim (s : pystr) : pystr := drop_end_while is_whitespace (drop_while is_whitespace s).

(** [s.split_whitespace()]: the words, none of them empty. *)
Fixpoint words_from (acc : pystr) (s : pystr) : list pystr :=
  match s with
  | [] => match acc with [] => [] | _ => [acc] end
  | c :: s =>
      if is_whitespace c
      then match acc with [] => words_from [] s | _ => acc :: words_from [] s end
      else words_from (acc ++ [c]) s
  end.
Definition split_whitespace (s : pystr) : list pystr := words_from [] s.

Definition newline : pystr := [10].
Definition space : pystr := [32].
(** [arg.contains("=")] *)
Definition has_equals (arg : pystr) : bool := bool_decide (61 ∈ arg).

Definition tokens (input_line : pystr) : list pystr :=
  List.filter (fun s => negb (bool_decide (s = newline))) (split_whitespace (trim input_line)).

(** The path, [args_tab] and [args_envs]; [tokens[0]] panics on an empty line. *)
Definition parse_line (input_line : pystr) : option (pystr * list pystr * list pystr) :=
  let tokens := tokens input_line in
  path_command ← head tokens;
  let args_command :=
    join_with space (List.filter (fun arg => negb (bool_decide (arg = path_command)) && negb (has_equals arg)) tokens) in
  let envs_command := join_with space (List.filter has_equals tokens) in
  Some (path_command, split_on 32 args_command, split_on 32 envs_command).

Section request.
Context {NB : NativeBuilder}.

(** The watch and the request, on one builder. *)
Definition client_request (input_line : pystr) : option (res bytes) :=
  '(path_command, args_tab, args_envs) ← parse_line input_line;
  Some (serialized (
    socket_obj ← CreateTCPSocket 8080;
    socket_evt ← CreateSurveillanceEvent Surveillance.TCPSocket (Some socket_obj);
    serialize_run_command (enc path_command) (enc <$> args_tab) (enc <$> args_envs) 0 0 [socket_evt])).
End request.

(** ** The reports, as the accessors give them *)
Inductive report_message : Type :=
  | PMProcessLaunched (pid : option Z)
  | PMTCPSocketListening (port : option Z)
  | PMExecveTerminated (event : option (Z * option bytes * bool))
  | PMChildCreationError (error_code : option Z)
  | PMProcessTerminated (event : option (Z * Z))
  | PMSocketWatched (port : option Z)
  | PMSocketWatchTerminated (event : option (Z * Z))
  | PMInotifyPathUpdated (event : option (option bytes * Z * Z))
  | PMOther.

Inductive ReturnHandleMessage : Type := Continue | End.

Section session.
Context (root_as_message : bytes -> option report_message).

(** [None] if it panics. *)
Definition handle_message (buff : bytes) : option ReturnHandleMessage :=
  msg ← root_as_message buff;
  match msg with
  | PMProcessLaunched from_message => pid ← from_message; Some Continue
  | PMTCPSocketListening from_mess => port ← from_mess; Some Continue
  | PMExecveTerminated from_mess =>
      '(pid, command_name, succed) ← from_mess;
      command ← command_name;
      Some Continue
  | PMChildCreationError from_message => errno ← from_message; Some End
  | PMProcessTerminated from_message => '(pid, errno) ← from_message; Some End
  | PMSocketWatched from_mess => port ← from_mess; Some Continue
  | PMSocketWatchTerminated from_mess => '(port, state) ← from_mess; Some Continue
  | PMInotifyPathUpdated from_mess =>
      '(path, size_limit, trigger) ← from_mess;
      path ← path;
      Some Continue
  | PMOther => Some End
  end.

(** How a session stands: it has ended, is waiting for bytes, has panicked. *)
Inductive client_standing : Type := ClientEnded | ClientWaiting | ClientPanicked | ClientNoFuel.

(** A [read_exact] that finds the end of the connection is noticed and passed over:
    the buffer keeps the bytes that had come, and zeros. *)
Definition read_or_zeros (n : Z) (inbox : bytes) (closed : bool) : option (bytes * bytes) :=
  match read_exact n inbox closed with
  | Got data rest => Some (data, rest)
  | Disconnected => Some (inbox ++ replicate (Z.to_nat n - length inbox) Byte.x00, [])
  | NotYet => None
  end.

(** The loop of [main], with the messages it has handled. *)
Fixpoint client_loop (fuel : nat) (inbox : bytes) (closed : bool) : client_standing * list bytes :=
  match fuel with
  | O => (ClientNoFuel, [])
  | S fuel =>
      match read_or_zeros 4 inbox closed with
      | None => (ClientWaiting, [])
      | Some (len_buf, rest) =>
          match read_or_zeros (from_le len_buf) rest closed with
          | None => (ClientWaiting, [])
          | Some (buf, rest) =>
              match handle_message buf with
              | None => (ClientPanicked, [])
              | Some End => (ClientEnded, [buf])
              | Some Continue => let '(st, handled) := client_loop fuel rest closed in (st, buf :: handled)
              end
          end
      end
  end.
End session.

(** ** The words of a line *)
Definition word (w : pystr) : Prop := w <> [] /\ Forall (fun c => is_whitespace c = false) w.

Lemma words_are_words acc s :
  Forall (fun c => is_whitespace c = false) acc -> Forall word (words_from acc s).
Proof.
  revert acc. induction s as [|c s IH]; intros acc Hacc; cbn [words_from].
  - destruct acc; [constructor | by constructor; [|constructor]].
  - destruct (is_whitespace c) eqn:Hc.
    + destruct acc; [by apply IH|]. constructor; [done | by apply IH].
    + apply IH, Forall_app. by repeat constructor.
Qed.

Lemma words_spaces acc s : Forall (fun c => is_whitespace c = true) s -> words_from acc s = words_from acc [].
Proof.
  intros H. revert acc. induction H as [|c s Hc _ IH]; intros acc; [done|]. cbn [words_from]. rewrite Hc.
  by destruct acc; rewrite IH.
Qed.

Lemma words_app_spaces acc s s' :
  Forall (fun c => is_whitespace c = true) s' -> words_from acc (s ++ s') = words_from acc s.
Proof.
  intros H. revert acc. induction s as [|c s IH]; intros acc; [by apply words_spaces|].
  cbn [app words_from]. destruct (is_whitespace c); [destruct acc|]; by rewrite IH.
Qed.

Lemma drop_while_words s : words_from [] (drop_while is_whitespace s) = words_from [] s.
Proof.
  induction s as [|c s IH]; [done|]. cbn [drop_while words_from]. destruct (is_whitespace c) eqn:Hc; [done|].
  cbn [words_from]. by rewrite Hc.
Qed.

Lemma drop_while_split p s : exists s', s = s' ++ drop_while p s /\ Forall (fun c => p c = true) s'.
Proof.
  induction s as [|c s (s' & E & H)]; [by exists []|]. cbn. destruct (p c) eqn:Hc.
  - exists (c :: s'). cbn. split; [by f_equal | by constructor].
  - by exists [].
Qed.

Lemma drop_end_while_split p s : exists s', s = drop_end_while p s ++ s' /\ Forall (fun c => p c = true) s'.
Proof.
  destruct (drop_while_split p (reverse s)) as (s' & E & H). exists (reverse s').
  split; [|by apply Forall_reverse]. unfold drop_end_while. by rewrite <- reverse_app, <- E, reverse_involutive.
Qed.

(** Neither [trim] nor the filter changes anything. *)
Lemma tokens_words line : tokens line = split_whitespace line.
Proof.
  unfold tokens, trim, split_whitespace.
  destruct (drop_end_while_split is_whitespace (drop_while is_whitespace line)) as (s' & E & H).
  rewrite <- (words_app_spaces [] _ s' H), <- E, drop_while_words.
  pose proof (words_are_words [] line ltac:(constructor)) as Hw.
  induction Hw as [|w ws [_ Hw] _ IH]; [done|]. cbn [List.filter]. rewrite IH.
  rewrite bool_decide_eq_false_2; [done|]. intros ->. by apply Forall_cons in Hw as [? _].
Qed.

(** The arguments and the variables of a line, whose first word is [p]. *)
Definition plain_words (p : pystr) (ws : list pystr) : list pystr :=
  List.filter (fun w => negb (bool_decide (w = p)) && negb (has_equals w)) ws.
Definition or_empty (l : list pystr) : list pystr := match l with [] => [[]] | _ => l end.

Lemma split_joined ws : Forall word ws -> split_on 32 (join_with space ws) = or_empty ws.
Proof.
  intros H. destruct ws as [|w ws]; [done|]. apply (split_join 32); [done|].
  eapply Forall_impl; [exact H|]. intros w' [_ Hw] Hin. rewrite Forall_forall in Hw. by specialize (Hw _ Hin).
Qed.

Lemma filter_words f ws : Forall word ws -> Forall word (List.filter f ws).
Proof. induction 1 as [|w ws Hw _ IH]; [constructor|]. cbn. destruct (f w); [by constructor | done]. Qed.

Lemma parse_line_words line :
  parse_line line =
  match split_whitespace line with
  | [] => None
  | p :: ws => Some (p, or_empty (plain_words p ws), or_empty (List.filter has_equals (p :: ws)))
  end.
Proof.
  unfold parse_line. rewrite tokens_words.
  pose proof (words_are_words [] line ltac:(constructor)) as Hw. fold (split_whitespace line) in Hw.
  destruct (split_whitespace line) as [|p ws]; [done|]. cbn [head]. unfold mbind, option_bind.
  rewrite !split_joined by by apply filter_words.
  cbn [List.filter]. by rewrite bool_decide_eq_true_2.
Qed.

(** ** The request *)
Definition line_request (p : pystr) (ws : list pystr) : peer_command :=
  mkPeer p (or_empty (plain_words p ws)) (or_empty (List.filter has_equals (p :: ws))) 0 0
    [WatchSocket (mkTCPSocket 8080)].

Section sending.
Context {FB : FlatBuffers} {FBL : FlatBuffersLaws FB} {NB : NativeBuilder} {NL : NativeLaws FB NB}.

Lemma client_request_sent line p ws :
  split_whitespace line = p :: ws -> peer_ok (line_request p ws) = true ->
  exists msg, client_request line = Some (Ok msg) /\ shows_command (line_request p ws) msg.
Proof.
  intros Hl Hok. unfold client_request. rewrite parse_line_words, Hl. unfold mbind, option_bind.
  destruct (peer_ok_parts _ Hok) as (H1 & H2 & H3 & H4 & H5 & H6 & H7).
  set (pc := line_request p ws) in *.
  match goal with |- context [serialized ?m] => assert (sends_image m (shows_command pc)) as Hs end.
  2: { destruct (serialized_sends _ _ Hs) as (msg & E & _ & Hm). exists msg. by rewrite E. }
  unfold sends_image, native_weight in *.
  pose proof (watched_weight_pos (WatchSocket (mkTCPSocket 8080))).
  assert (total watched_weight (peer_watched pc) = watched_weight (WatchSocket (mkTCPSocket 8080))) as Hww by (cbn; lia).
  pose proof (total_nonneg string_weight (peer_args pc) ltac:(intros x; unfold string_weight; lia)).
  pose proof (total_nonneg string_weight (peer_envp pc) ltac:(intros x; unfold string_weight; lia)).
  assert (string_weight (peer_path pc) >= 0) by (unfold string_weight; lia).
  eapply (runs_ext (native_watch (WatchSocket (mkTCPSocket 8080)) ≫= fun evt =>
    serialize_run_command (enc (peer_path pc)) (enc <$> peer_args pc) (enc <$> peer_envp pc) 0 0 [evt])).
  { intros b. cbn [native_watch destport]. unfold mbind, st_bind. by destruct (CreateTCPSocket 8080 b) as [[? ?]|]. }
  eapply runs_bind; [apply (runs_native_watch (WatchSocket (mkTCPSocket 8080))); [done | lia]|].
  intros off v (h' & sz' & -> & Hh' & Hsz' & Hw).
  apply (runs_serialize_run_command pc); try done; [by repeat constructor|].
  cbn [length]. unfold native_weight. lia.
Qed.
End sending.

(** ** What the Rust daemon executes *)
Lemma enc_inj s s' : encodable s = true -> encodable s' = true -> enc s = enc s' -> s = s'.
Proof. intros H H' E. pose proof (decode_enc s H) as D. rewrite E, decode_enc in D by done. by injection D. Qed.

Lemma enc_equals w : encodable w = true -> has_equals w = true -> equals ∈ enc w.
Proof.
  unfold has_equals. rewrite bool_decide_eq_true. induction w as [|c w IH]; [by intros _ ?%not_elem_of_nil|].
  intros Hw Hin. destruct (encodable_cons c w Hw) as (bs & Hbs & -> & Hw'). apply elem_of_app.
  apply elem_of_cons in Hin as [<-|Hin]; [left | right; by apply IH]. by injection Hbs as <-; left.
Qed.

(** The arguments after the program: none of the line is one empty argument. *)
Definition line_arguments (p : pystr) (ws : list pystr) : list bytes :=
  let args := enc <$> or_empty (plain_words p ws) in
  if decide (head args = Some (default [] (file_name (enc p)))) then tail args else args.

Lemma line_executed p ws t :
  word p -> peer_ok (line_request p ws) = true ->
  exists cmd, exec_command (rust_view (line_request p ws)) t = Ready cmd t /\ program cmd = enc p /\
    arguments cmd = line_arguments p ws /\
    assignment <$> env cmd = enc <$> List.filter has_equals (p :: ws).
Proof.
  intros [Hp _] (H1 & H2 & H3 & _)%peer_ok_parts. cbn [line_request peer_path peer_args peer_envp] in *.
  destruct (exec_command_reads (rust_view (line_request p ws)) (enc p) (enc <$> or_empty (plain_words p ws))
              (enc <$> or_empty (List.filter has_equals (p :: ws))) t eq_refl eq_refl eq_refl)
    as (cmd & E & Hprog & Hargs & _ & Henv & _).
  exists cmd. split; [exact E|]. split; [exact Hprog|]. split.
  - unfold line_arguments.
    assert (exists a l, or_empty (plain_words p ws) = a :: l /\ a <> p) as (a & l & Ha & Hne).
    { destruct (plain_words p ws) as [|a l] eqn:Ep; [exists [], []; by split; [|intros <-]|]. exists a, l. split; [done|].
      assert (a ∈ plain_words p ws) as Hin by (rewrite Ep; by left).
      apply list_elem_of_In, filter_In in Hin as [_ Hin].
      intros ->. by rewrite bool_decide_eq_true_2 in Hin. }
    rewrite Ha in *. cbn [fmap list_fmap head tail] in *. specialize (Hargs _ _ eq_refl).
    apply andb_true_iff in H2 as [H2 _].
    assert (enc a <> enc p) as Hne' by (intros He; apply Hne; by apply enc_inj).
    destruct (decide (enc a = default [] (file_name (enc p)))) as [Heq|Hneq].
    + rewrite decide_True in Hargs by tauto. rewrite decide_True by by f_equal.
      injection Hargs as _ Hargs. exact Hargs.
    + rewrite decide_False in Hargs by by intros [?|?]. rewrite decide_False by by intros [= ?].
      injection Hargs as _ Hargs. exact Hargs.
  - rewrite Henv. clear - H3. set (es := List.filter has_equals (p :: ws)) in *.
    assert (Forall (fun e => has_equals e = true) es) as He
      by (apply Forall_forall; intros e Hin%list_elem_of_In; by apply filter_In in Hin as [_ ?]).
    destruct es as [|e es]; [done|]. cbn [or_empty] in *. apply forallb_Forall in H3.
    revert H3 He. generalize (e :: es). intros l. induction 1 as [|w l Hw _ IH]; [done|].
    intros [Hq He]%Forall_cons. rewrite fmap_cons. cbn [List.filter].
    rewrite bool_decide_eq_true_2 by by apply enc_equals. by rewrite (IH He).
Qed.

(** ** The session *)
Definition report_view (r : report) : report_message :=
  match r with
  | TCPSocketListening port => PMTCPSocketListening (Some port)
  | ProcessLaunched pid => PMProcessLaunched (Some pid)
  | ChildCreationError code => PMChildCreationError (Some code)
  | ProcessTerminated pid code => PMProcessTerminated (Some (pid, code))
  | ExecveTerminated pid name success => PMExecveTerminated (Some (pid, Some name, success))
  | PathUpdated path event size limit => PMInotifyPathUpdated (Some (Some path, limit, InotifyEvent_value event))
  | WatchListUpdated _ => PMOther
  | SocketWatched port => PMSocketWatched (Some port)
  | SocketWatchTerminated port state => PMSocketWatchTerminated (Some (port, SocketState_value state))
  end.

Definition ends_session (r : report) : bool :=
  match r with ChildCreationError _ | ProcessTerminated _ _ | WatchListUpdated _ => true | _ => false end.

Section facts.
Context {FB : FlatBuffers}.
Context (root_as_message : bytes -> option report_message).

(** What is relied on of the crate: it gives a report what it shows, and refuses a
    buffer of no bytes. *)
Definition reads_reports : Prop :=
  root_as_message [] = None /\
  forall r msg, encodes r msg -> blen msg <= verifier_limit -> root_as_message msg = Some (report_view r).

Lemma report_handled r msg : reads_reports -> encodes r msg -> blen msg <= verifier_limit ->
  handle_message root_as_message msg = Some (if ends_session r then End else Continue).
Proof. intros [_ H] He Hl. unfold handle_message. rewrite (H r msg He Hl). by destruct r. Qed.

Lemma read_or_zeros_app n a b closed : blen a = n -> read_or_zeros n (a ++ b) closed = Some (a, b).
Proof. intros H. unfold read_or_zeros. by rewrite read_exact_app. Qed.

Lemma client_loop_frame fuel msg rest closed r :
  reads_reports -> encodes r msg -> blen msg <= verifier_limit ->
  client_loop root_as_message (S fuel) (frame msg ++ rest) closed =
    if ends_session r then (ClientEnded, [msg])
    else let '(st, handled) := client_loop root_as_message fuel rest closed in (st, msg :: handled).
Proof.
  intros Hr He Hl. pose proof (blen_nonneg msg). unfold frame. rewrite <- app_assoc. cbn [client_loop].
  rewrite (read_or_zeros_app 4) by (by rewrite blen_to_le). unfold verifier_limit in Hl.
  rewrite from_to_le, Z.mod_small by (cbn; lia). rewrite read_or_zeros_app by done.
  rewrite (report_handled r) by done. by destruct (ends_session r).
Qed.

(** Up to the first report that ends it; without one it waits, or panics on the end
    of the connection. *)
Lemma client_loop_reports rs msgs fuel closed rest :
  reads_reports -> Forall2 encodes rs msgs -> Forall (fun m => blen m <= verifier_limit) msgs ->
  (forall before r after, rs = before ++ r :: after -> Forall (fun r => ends_session r = false) before ->
     ends_session r = true -> (length before < fuel)%nat ->
     client_loop root_as_message fuel (frames msgs ++ rest) closed = (ClientEnded, take (S (length before)) msgs)) /\
  (Forall (fun r => ends_session r = false) rs -> (length rs < fuel)%nat -> rest = [] ->
     client_loop root_as_message fuel (frames msgs ++ rest) closed =
       ((if closed then ClientPanicked else ClientWaiting), msgs)).
Proof.
  intros Hroot HE HL. revert fuel. induction HE as [|r msg rs msgs He _ IH]; intros fuel; split.
  - by intros [] ? ?.
  - intros _ Hf ->. destruct fuel as [|fuel]; [lia|]. cbn [frames app client_loop].
    destruct closed; [|done]. change (read_or_zeros 4 (frames [] ++ []) true) with (Some (replicate 4 Byte.x00, @nil Byte.byte)). cbv beta iota.
    change (read_or_zeros (from_le (replicate 4 Byte.x00)) [] true) with (Some (@nil Byte.byte, @nil Byte.byte)).
    cbv beta iota. unfold handle_message, mbind, option_bind. by rewrite (proj1 Hroot).
  - intros before r' after E HF Hend Hf. destruct fuel as [|fuel]; [lia|].
    apply Forall_cons in HL as [Hl HL]. cbn [frames]. change (frames (msg :: msgs)) with (frame msg ++ frames msgs).
    rewrite <- app_assoc, (client_loop_frame _ _ _ _ r) by done.
    destruct before as [|r0 before]; injection E as -> E; [by rewrite Hend|].
    apply Forall_cons in HF as [-> HF]. subst rs. cbn [length] in Hf.
    by rewrite (proj1 (IH HL fuel) before r' after eq_refl HF Hend) by lia.
  - intros [Hr HF]%Forall_cons Hf ->. destruct fuel as [|fuel]; [lia|]. apply Forall_cons in HL as [Hl HL].
    change (frames (msg :: msgs)) with (frame msg ++ frames msgs). cbn [length] in Hf.
    rewrite <- app_assoc, (client_loop_frame _ _ _ _ r), Hr by done.
    by rewrite (proj2 (IH HL fuel)) by (done || lia).
Qed.
End facts.

Lemma first_true {A} (f : A -> bool) l :
  Exists (fun x => f x = true) l ->
  exists before x after, l = before ++ x :: after /\ Forall (fun x => f x = false) before /\ f x = true.
Proof.
  intros H. induction l as [|y l IH]; [by inversion H|]. destruct (f y) eqn:Hy.
  - exists [], y, l. split_and!; [done | constructor | done].
  - apply Exists_cons in H as [?|H]; [congruence|]. destruct (IH H) as (before & x & after & -> & HF & Hx).
    exists (y :: before), x, after. split_and!; [done | by constructor | done].
Qed.

(** ** From a line to the end of the session *)
Section served.
Context {FB : FlatBuffers} {FBL : FlatBuffersLaws FB} {NB : NativeBuilder} {NL : NativeLaws FB NB}.
Context (daemon_root : bytes -> option rust_message) (client_root : bytes -> option report_message).
Context (ks : nat -> answers) (port : Z).

(** What is relied on of the crate on the daemon's side. *)
Definition reads_native_requests : Prop := forall pc msg,
  peer_ok pc = true -> shows_command pc msg -> blen msg <= verifier_limit ->
  daemon_root msg = Some (RMRunCommand (Some (rust_view pc))).

(** A request that is alone on its connection. *)
Lemma request_connection pc msg :
  peer_ok pc = true -> shows_command pc msg -> blen msg <= verifier_limit -> reads_native_requests ->
  exists cmd st t, connection daemon_root ks port (frame msg) false = (st, t) /\
    exec_command (rust_view pc) (mkTask [TCPSocketListening port] [] []) = Ready cmd (mkTask [TCPSocketListening port] [] []) /\
    t_spawned t = [cmd] /\
    match end_report (ks 0%nat) with
    | None => st = WaitingKernel /\ t_sent t = TCPSocketListening port :: launch_reports (ks 0%nat) (enc (peer_path pc))
    | Some r => st = WaitingBytes -> r ∈ t_sent t
    end.
Proof.
  intros Hok Hs Hl Hreads. set (t0 := mkTask [TCPSocketListening port] [] []).
  destruct (command_handled (ks 0%nat) (rust_view pc) (enc (peer_path pc)) _ t0 eq_refl eq_refl) as (cmd & E & _ & Hh).
  pose proof (serve_frame daemon_root ks (length (frame msg)) 0 msg [] false t0
    ltac:(unfold verifier_limit in Hl; lia)) as Hserve.
  rewrite app_nil_r, (Hreads pc msg Hok Hs Hl), Hh in Hserve. unfold connection. fold t0. rewrite Hserve.
  exists cmd. destruct (end_report (ks 0%nat)) as [r|]; [|by eexists _, _].
  set (ws := default [] (r_to_watch (rust_view pc))) in *.
  destruct (watches_reporting (ks 0%nat) 0 ws (launched_task (ks 0%nat) cmd (enc (peer_path pc)) t0))
    as (rs & Hsent & _ & _ & Hsp).
  change (rust_watched <$> peer_watched pc) with ws. unfold mbind, tm_bind.
  destruct (watch_each (ks 0%nat) 0 ws _) as [[] t1|t1|t1]; cbn [task_of] in *.
  - assert (exists n, length (frame msg) = S n) as [n ->]
      by (unfold frame; rewrite length_app; destruct (to_le 4 (blen msg)) eqn:El; [done | eexists; reflexivity]).
    cbn [send_on_socket serve]. change (read_exact 4 [] false) with NotYet.
    eexists _, _. split; [reflexivity|]. split; [exact E|]. cbn [t_spawned t_sent]. split; [by rewrite Hsp|].
    intros _. apply elem_of_app. right. by apply list_elem_of_singleton.
  - eexists _, _. split; [reflexivity|]. split; [exact E|]. split; [by rewrite Hsp | done].
  - eexists _, _. split; [reflexivity|]. split; [exact E|]. split; [by rewrite Hsp | done].
Qed.

(** C23. The interactive client and the Rust daemon.  A line without words makes the
    client panic.  Any other is a request that the daemon reads as the client made
    it; the one process launched for it has the first word as its program, the
    words with an equals sign as its variables, and the others as its arguments, or
    one empty argument when there are none.  When the daemon has handled the request,
    the client has handled its reports up to the first of an end or of an error, that
    one included, and has ended there; it waits as long as the process runs. *)
Theorem rust_client_served line :
  match split_whitespace line with
  | [] => client_request line = None
  | p :: ws =>
      peer_ok (line_request p ws) = true -> reads_native_requests -> reads_reports client_root ->
      exists msg, client_request line = Some (Ok msg) /\ peer_read msg = Ok (line_request p ws) /\
        (blen msg <= verifier_limit ->
         exists cmd st t, connection daemon_root ks port (frame msg) false = (st, t) /\
           t_spawned t = [cmd] /\ program cmd = enc p /\ arguments cmd = line_arguments p ws /\
           assignment <$> env cmd = enc <$> List.filter has_equals (p :: ws) /\
           (forall msgs, Forall2 encodes (t_sent t) msgs -> Forall (fun m => blen m <= verifier_limit) msgs ->
              (st = WaitingBytes -> exists before last after,
                 t_sent t = before ++ last :: after /\
                 Forall (fun r => ends_session r = false) before /\ ends_session last = true /\
                 client_loop client_root (S (length msgs)) (frames msgs) false =
                   (ClientEnded, take (S (length before)) msgs)) /\
              (end_report (ks 0%nat) = None ->
                 client_loop client_root (S (length msgs)) (frames msgs) false = (ClientWaiting, msgs))))
  end.
Proof.
  pose proof (words_are_words [] line ltac:(constructor)) as Hwords. fold (split_whitespace line) in Hwords.
  destruct (split_whitespace line) as [|p ws] eqn:Hl.
  { unfold client_request. by rewrite parse_line_words, Hl. }
  intros Hok Hreads Hreports. apply Forall_cons in Hwords as [Hp _].
  destruct (client_request_sent line p ws Hl Hok) as (msg & Hmsg & Hs).
  exists msg. split; [exact Hmsg|]. split; [by apply native_command_received|]. intros Hlim.
  destruct (request_connection _ msg Hok Hs Hlim Hreads) as (cmd & st & t & Hc & E & Hsp & Hend).
  destruct (line_executed p ws (mkTask [TCPSocketListening port] [] []) Hp Hok) as (cmd' & E' & H1 & H2 & H3).
  rewrite E in E'. injection E' as <-. exists cmd, st, t. do 5 (split; [done|]).
  intros msgs HE HL. pose proof (Forall2_length _ _ _ HE) as Hlen.
  pose proof (client_loop_reports client_root (t_sent t) msgs (S (length msgs)) false [] Hreports HE HL) as [Hyes Hno].
  rewrite app_nil_r in *. split.
  - intros Hst. destruct (end_report (ks 0%nat)) as [r|] eqn:Er; [|by destruct Hend as [-> _]].
    destruct (first_true ends_session (t_sent t)) as (before & x & after & Esplit & HF & Hx).
    { apply Exists_exists. exists r. split; [by apply Hend|]. revert Er. unfold end_report.
      by repeat case_match; intros; simplify_eq. }
    exists before, x, after. do 3 (split; [done|]). apply (Hyes before x after Esplit HF Hx). rewrite <- Hlen, Esplit, length_app. lia.
  - intros Hnone. rewrite Hnone in Hend. destruct Hend as [_ Hsent].
    apply Hno; [|rewrite Hlen; lia | done]. rewrite Hsent. constructor; [done|].
    revert Hnone. unfold end_report, launch_reports. repeat case_match; intros; simplify_eq; by repeat constructor.
Qed.
End served.

(** ** At a concrete input

    The accessors of the client's side, as those of the crate. *)
Section witness.
#[local] Existing Instance ref_runtime.
#[local] Existing Instance ref_laws.
#[local] Existing Instance ref_native.
#[local] Existing Instance ref_native_laws.

Definition as_report_message (m : cpp_message) : report_message :=
  match m with
  | CMProcessLaunched pid => PMProcessLaunched pid
  | CMTCPSocketListening port => PMTCPSocketListening port
  | CMExecveTerminated e => PMExecveTerminated ((fun e => (ce_pid e, ce_command_name e, ce_success e)) <$> e)
  | CMChildCreationError code => PMChildCreationError code
  | CMProcessTerminated e => PMProcessTerminated ((fun e => (pt_pid e, pt_error_code e)) <$> e)
  | CMSocketWatched port => PMSocketWatched port
  | CMSocketWatchTerminated e => PMSocketWatchTerminated e
  | CMInotifyPathUpdated e =>
      PMInotifyPathUpdated ((fun e => (cu_path e, cu_size_limit e, cu_trigger_events e)) <$> e)
  | _ => PMOther
  end.

Definition example_root (buf : bytes) : option report_message :=
  if bool_decide (buf = []) then None else Some (as_report_message (python_get buf)).

Lemma encodes_nonempty r msg : encodes r msg -> msg <> [].
Proof.
  intros He ->. pose proof (encodes_seen r [] He (report_event r)) as H.
  rewrite bool_decide_eq_true_2 in H by done. by destruct r; vm_compute in H.
Qed.

Lemma example_reads_reports : reads_reports example_root.
Proof.
  split; [done|]. intros r msg He _. unfold example_root.
  rewrite bool_decide_eq_false_2 by by eapply encodes_nonempty.
  rewrite (python_get_report msg r He). by destruct r.
Qed.

Lemma example_reads_requests : reads_native_requests generated_root.
Proof.
  intros pc msg Hok Hs _. unfold generated_root. by rewrite (proj2 (NativeCommand.native_command_received pc msg Hok Hs)).
Qed.

(** [/bin/ls -l LANG=C], while it runs. *)
Definition example_line : pystr := str "/bin/ls -l LANG=C" ++ newline.
Definition running_answers : answers :=
  mkAnswers 7 (Spawned 4242) None (fun _ => mkFileWatch true None) (fun _ => []) None.

Lemma rust_client_served_witness :
  exists msg cmd st t, client_request example_line = Some (Ok msg) /\
    connection generated_root (fun _ => running_answers) 8080 (frame msg) false = (st, t) /\
    t_spawned t = [cmd] /\ program cmd = enc (str "/bin/ls") /\ arguments cmd = [enc (str "-l")] /\
    assignment <$> env cmd = [enc (str "LANG=C")] /\
    (forall msgs, Forall2 encodes (t_sent t) msgs -> Forall (fun m => blen m <= verifier_limit) msgs ->
       client_loop example_root (S (length msgs)) (frames msgs) false = (ClientWaiting, msgs)).
Proof.
  pose proof (rust_client_served generated_root example_root (fun _ => running_answers) 8080 example_line) as H.
  change (split_whitespace example_line) with [str "/bin/ls"; str "-l"; str "LANG=C"] in H.
  destruct (H ltac:(vm_compute; reflexivity) example_reads_requests example_reads_reports)
    as (msg & Hmsg & _ & Hserved).
  assert (blen msg <= verifier_limit) as Hl.
  { clear - Hmsg. vm_compute in Hmsg. injection Hmsg as <-. by vm_compute. }
  destruct (Hserved Hl) as (cmd & st & t & Hc & Hsp & H1 & H2 & H3 & H4).
  exists msg, cmd, st, t. split; [exact Hmsg|]. split; [exact Hc|]. split; [exact Hsp|]. split; [exact H1|].
  split; [exact H2|]. split; [exact H3|]. intros msgs HE HL. by apply (H4 msgs HE HL).
Defined.
End witness.
