(* ===== verification/TestRust.v ===== *)
(** * The test suite with the Rust daemon

    Each test of TestDemon against the reports of a connection of RustDaemon: what
    the suite concludes is a function of the answers of the kernel. *)
From S2P Require Import Prelude Bytes Utf8 FlatBuffers FlatBuffersRef FlatBuffersRefLaws.
From S2P Require Import Enums Tables Data Send Receive BuilderLogic SendFacts CommandFacts.
From S2P Require Import ReadFacts ReceiveFacts PeerCommand PeerMessages TestCommands.
From S2P Require Import Socket Clients ClientFacts Sessions Daemon EndToEnd.
From S2P Require Import RustDaemon RustFacts RustSessions TestDemon.

(** ** What the suite concludes *)

(** The end of the process of a request: whether one was made, and the code that
    is reported. *)
Definition exit_of (k : answers) : option (bool * Z) :=
  match a_spawn k with
  | Spawned _ =>
      match a_wait k with
      | Some (WExit code) => Some (true, to_uint32 (default 1 code))
      | Some (WFailed e) => Some (true, to_uint32 (default 1 e))
      | None => None
      end
  | NotFound => Some (false, 1)
  | SpawnFailed e => Some (false, to_uint32 (default 1 e))
  end.

Definition once_ended (k : answers) (conclude : bool -> Z -> result) : result :=
  match exit_of k with Some (made, code) => conclude made code | None => Running end.

Definition rust_result (t : test) (k : answers) (port : Z) (in_time : bool) : result :=
  match t with
  | daemon_connection | receiving_launch_process => Passed
  | receiving_failed_launch_process =>
      match a_spawn k with Spawned _ => Failed | NotFound => Passed | SpawnFailed _ => Running end
  | execve_terminated =>
      match a_spawn k with Spawned _ => Passed | NotFound => Failed | SpawnFailed _ => Running end
  | receiving_process_terminated | echo => once_ended k (fun _ code => result_of (code =? 0))
  | response_time_ => once_ended k (fun made code => result_of (made && (code =? 0) && in_time))
  | kill_process_ => once_ended k (fun made code => result_of (made && (0 <? code) && in_time))
  | inotify_result => Running
  | inotify_event_ => once_ended k (fun _ _ => Passed)
  | watching_socket_ => once_ended k (fun _ _ => result_of (0 <? port))
  | socket_listening_ =>
      once_ended k (fun _ _ =>
        match poll_port port (a_port k 0) with Some (Some _) => result_of (0 <? port) | _ => Running end)
  end.

(** The identifiers of processes. *)
Definition is_pid (pid : Z) : Prop := 0 < pid < 2 ^ 31.
Definition sane (k : answers) : Prop :=
  is_pid (a_process_id k) /\ forall pid, a_spawn k = Spawned pid -> is_pid pid.

Lemma to_int_pid pid : is_pid pid -> to_int pid = pid.
Proof. unfold is_pid, to_int. intros. rewrite Z.mod_small by lia. lia. Qed.

Lemma first_report_skip event before after :
  Forall (fun r => report_event r <> event) before ->
  first_report event (before ++ after) = first_report event after.
Proof.
  induction 1 as [|r before Hr _ IH]; [done|]. unfold first_report in *. cbn.
  by rewrite bool_decide_eq_false_2.
Qed.

(** ** The reports of a connection *)
Section connection.
Context {FB : FlatBuffers} {FBL : FlatBuffersLaws FB}.
Context (root_as_message : bytes -> option rust_message) (ks : nat -> answers) (port : Z).

Definition greeted_task : task := mkTask [TCPSocketListening port] [] [].

(** How the handler of the command stands. *)
Definition handled (cmd : Command) (line : command) : progress unit :=
  let path := enc (cmd_path cmd) in
  let t := launched_task (ks 0%nat) line path greeted_task in
  match end_report (ks 0%nat) with
  | None => Waiting t
  | Some r =>
      (watch_each (ks 0%nat) 0 (rust_watched <$> peer_watched (peer_view cmd)) ≫= fun _ => send_on_socket r) t
  end.

Lemma connection_reports cmd cb more closed st t :
  command_ok cmd = true -> reads_requests root_as_message -> send_command_to_demon cmd = Ok cb ->
  blen (bi_buffer cb) <= verifier_limit ->
  connection root_as_message ks port (frame (bi_buffer cb) ++ more) closed = (st, t) ->
  exists line extra, t_sent t = t_sent (task_of (handled cmd line)) ++ extra /\ Forall of_request extra /\
    (more = [] \/ is_ready (handled cmd line) = false -> extra = []).
Proof.
  intros Hok Hreads Hcb Hlt H. pose proof (Hreads cmd cb Hok Hcb Hlt) as Hroot. unfold connection in H.
  set (fuel := length (frame (bi_buffer cb) ++ more)) in H.
  rewrite (serve_frame root_as_message ks fuel) in H by (unfold verifier_limit in Hlt; lia).
  rewrite Hroot in H.
  destruct (command_handled (ks 0%nat) (rust_view (peer_view cmd)) (enc (cmd_path cmd))
              (rust_watched <$> peer_watched (peer_view cmd)) greeted_task eq_refl eq_refl)
    as (line & _ & _ & E).
  exists line. fold (handled cmd line) in E. fold greeted_task in H. rewrite E in H.
  destruct (handled cmd line) as [[] t1|t1|t1]; cbn [task_of is_ready].
  - destruct (serve_safe root_as_message ks fuel 1 more closed t1 st t) as (_ & _ & _ & (rs & Hs & HF) & _).
    { unfold fuel. unfold frame. rewrite !length_app, length_to_le. lia. }
    { exact H. }
    exists rs. split_and!; [done..|]. intros [->|]; [|done].
    destruct fuel; cbn in H; [|destruct closed]; injection H as <- <-;
      by rewrite <- (app_nil_r (t_sent t1)) in Hs at 1; apply app_inv_head in Hs.
  - injection H as <- <-. exists []. rewrite app_nil_r. by split_and!.
  - injection H as <- <-. exists []. rewrite app_nil_r. by split_and!.
Qed.

Lemma handled_plain cmd line :
  cmd_to_watch cmd = [] ->
  t_sent (task_of (handled cmd line)) =
    TCPSocketListening port :: launch_reports (ks 0%nat) (enc (cmd_path cmd)) ++
      match end_report (ks 0%nat) with Some r => [r] | None => [] end.
Proof.
  intros Hw. unfold handled. cbn [peer_view peer_watched]. rewrite Hw.
  destruct (end_report (ks 0%nat)); cbn; by rewrite ?app_nil_r.
Qed.

(** Find a report in a known list, and compare the verdicts on it. *)
Ltac find_report :=
  unfold judged, judged_by, first_report; cbn;
  repeat first [rewrite bool_decide_eq_true_2 by done | rewrite bool_decide_eq_false_2 by done].
Ltac same_verdict :=
  unfold is_pid in *;
  repeat match goal with
  | |- context [?a <? ?b] => first [rewrite (proj2 (Z.ltb_lt a b)) by lia | rewrite (proj2 (Z.ltb_ge a b)) by lia]
  | |- context [?a <=? ?b] => first [rewrite (proj2 (Z.leb_le a b)) by lia | rewrite (proj2 (Z.leb_gt a b)) by lia]
  end; done.

(** A test of a command without watches. *)
Lemma plain_result t cmd line extra in_time :
  sane (ks 0%nat) -> command_of t port = Some cmd -> cmd_to_watch cmd = [] ->
  (t <> kill_process_ \/ is_ready (handled cmd line) = false -> extra = []) ->
  judged t port in_time (t_sent (task_of (handled cmd line)) ++ extra) = rust_result t (ks 0%nat) port in_time.
Proof.
  intros [Hid Hsp] Hcmd Hw Hextra. rewrite (handled_plain _ _ Hw).
  assert (end_report (ks 0%nat) = None -> extra = []) as Hx.
  { intros E. apply Hextra. right. unfold handled. by rewrite E. }
  assert (t <> kill_process_ -> extra = []) as Ht by auto.
  clear Hextra. pose proof (to_int_pid _ Hid) as Eid. revert Hx.
  unfold rust_result, once_ended, exit_of, end_report, launch_reports.
  destruct (a_spawn (ks 0%nat)) as [pid| |e].
  1: pose proof (Hsp _ eq_refl) as Hpid; rewrite (to_int_pid _ Hpid);
    destruct (a_wait (ks 0%nat)) as [[code|e]|]; intros Hx; [| |rewrite Hx by done]; clear Hx.
  4,5: intros _; rewrite Eid.
  all: destruct t; try discriminate Hcmd; injection Hcmd as <-; try discriminate Hw;
    try rewrite Ht by done; find_report; done || same_verdict.
Qed.

(** The tests that watch: a socket, a file. *)
Lemma handled_watching cmd line w r :
  end_report (ks 0%nat) = Some r -> peer_watched (peer_view cmd) = [w] ->
  handled cmd line =
    (handle_surveillance_event (ks 0%nat) 0 (rust_watched w) ≫= fun _ => send_on_socket r)
      (launched_task (ks 0%nat) line (enc (cmd_path cmd)) greeted_task).
Proof.
  intros Hr Hw. unfold handled. rewrite Hr, Hw. cbn [fmap list_fmap watch_each].
  unfold mbind, tm_bind. by destruct (handle_surveillance_event _ _ _ _).
Qed.

Lemma end_report_exit k :
  match end_report k with
  | Some r => exists made code pid, exit_of k = Some (made, code) /\ r = ProcessTerminated pid code
  | None => exit_of k = None
  end.
Proof.
  unfold end_report, exit_of. destruct (a_spawn k); [destruct (a_wait k) as [[]|]|..]; eauto.
Qed.

Lemma judged_after_launch event judge path tail :
  event <> TCP_SOCKET_LISTENING -> event <> PROCESS_LAUNCHED -> event <> EXECVE_TERMINATED ->
  event <> CHILD_CREATION_ERROR ->
  judged_by event judge (TCPSocketListening port :: launch_reports (ks 0%nat) path ++ tail) =
  judged_by event judge tail.
Proof.
  intros. unfold judged_by. rewrite app_comm_cons, first_report_skip; [done|].
  constructor; [cbn; congruence | by apply launch_kind].
Qed.

Lemma handled_stuck cmd line :
  end_report (ks 0%nat) = None ->
  t_sent (task_of (handled cmd line)) =
    TCPSocketListening port :: launch_reports (ks 0%nat) (enc (cmd_path cmd)) ++ [].
Proof. intros E. unfold handled. rewrite E. by rewrite app_nil_r. Qed.

Lemma socket_result t line in_time :
  0 <= port < 2 ^ 16 -> t = socket_listening_ \/ t = watching_socket_ ->
  judged t port in_time (t_sent (task_of (handled (socket_command port) line))) =
    rust_result t (ks 0%nat) port in_time.
Proof.
  intros Hport Ht. pose proof (end_report_exit (ks 0%nat)) as Hexit.
  assert (to_int port = port /\ to_uint16 port = port) as [E1 E2].
  { unfold to_int, to_uint16. split; rewrite Z.mod_small; lia. }
  destruct (end_report (ks 0%nat)) as [r|] eqn:Hr.
  - destruct Hexit as (made & code & pid & He & ->).
    rewrite (handled_watching _ _ (WatchSocket (mkTCPSocket port)) _ Hr) by done.
    unfold handle_surveillance_event, read_events_port_tokio, rust_result, once_ended. rewrite He.
    tsteps. rewrite E1, E2.
    destruct (poll_port port (a_port (ks 0%nat) 0)) as [[state|]|]; cbn [task_of t_sent];
      cbn [app]; rewrite <- ?app_assoc;
      destruct Ht as [-> | ->]; unfold judged; rewrite judged_after_launch by done; find_report; done.
  - rewrite (handled_stuck _ _ Hr). unfold rust_result, once_ended. rewrite Hexit.
    by destruct Ht as [-> | ->]; unfold judged; rewrite judged_after_launch by done.
Qed.

Lemma file_reported line r :
  end_report (ks 0%nat) = Some r ->
  exists path event size limit rs, t_sent (task_of (handled inotify_event_command line)) =
    TCPSocketListening port :: launch_reports (ks 0%nat) (enc (cmd_path inotify_event_command)) ++
      PathUpdated path event size limit :: rs.
Proof.
  intros Hr. erewrite handled_watching by done.
  unfold rust_watched, handle_surveillance_event, read_events_inotify. do 4 eexists. tsteps.
  destruct (w_setup _); cbn [negb]; tsteps; [|eexists; by rewrite <- ?app_assoc].
  destruct (w_read _) as [[|e|evs]|]; tsteps; try (eexists; cbn [app]; by rewrite <- ?app_assoc).
  destruct (for_events _ _ _ evs); tsteps; eexists; cbn [app]; by rewrite <- ?app_assoc.
Qed.

Lemma file_result line in_time :
  judged inotify_event_ port in_time (t_sent (task_of (handled inotify_event_command line))) =
    rust_result inotify_event_ (ks 0%nat) port in_time.
Proof.
  pose proof (end_report_exit (ks 0%nat)) as Hexit. unfold rust_result, once_ended.
  destruct (end_report (ks 0%nat)) as [r|] eqn:Hr.
  - destruct Hexit as (made & code & pid & -> & ->).
    destruct (file_reported line _ Hr) as (path & event & size & limit & rs & ->).
    unfold judged. rewrite judged_after_launch by done. by find_report.
  - rewrite (handled_stuck _ _ Hr), Hexit. unfold judged. by rewrite judged_after_launch.
Qed.
End connection.

Lemma no_watch_list port in_time rs :
  Forall of_request rs -> judged inotify_result port in_time (TCPSocketListening port :: rs) = Running.
Proof.
  intros HF. unfold judged, judged_by.
  pose proof (first_report_split INOTIFY_WATCH_LIST_UPDATED (TCPSocketListening port :: rs)) as Hsplit.
  destruct (first_report _ _) as [r|] eqn:E; [|done]. exfalso.
  destruct Hsplit as (He & before & after & Hcut & _). destruct r; try discriminate He.
  assert (WatchListUpdated path ∈ TCPSocketListening port :: rs) as Hin by (rewrite Hcut; set_solver).
  apply elem_of_cons in Hin as [?|Hin]; [done|]. rewrite Forall_forall in HF. exact (HF _ Hin).
Qed.

(** C7. The suite with the Rust daemon: what each test that sends a command
    concludes, for all answers of the kernel to its request.  The launch passes
    even when no process could be made; an unknown program is found out; the
    tests of an end follow the code of the process; the watches come after its
    end, so that the test of a path passes with nothing happening to it; the test
    of the list of watched files never ends; and the test that kills concludes by
    how the process ended by itself, whatever the client sent after its command. *)
Theorem suite_with_rust {FB : FlatBuffers} {FBL : FlatBuffersLaws FB} root_as_message ks port in_time fuel
    t cmd cb more closed st tk msgs l :
  0 <= port < 2 ^ 16 -> sane (ks 0%nat) -> reads_requests root_as_message ->
  command_of t port = Some cmd -> send_command_to_demon cmd = Ok cb ->
  blen (bi_buffer cb) <= verifier_limit -> more = [] \/ t = kill_process_ ->
  connection root_as_message ks port (frame (bi_buffer cb) ++ more) closed = (st, tk) ->
  Forall2 encodes (t_sent tk) msgs -> carries l msgs [] -> (length msgs < fuel)%nat ->
  run t (mkFixture (Connected l Writable) port in_time fuel) = rust_result t (ks 0%nat) port in_time.
Proof.
  intros Hport Hsane Hreads Hcmd Hcb Hlt Hmore H HE Hc Hf.
  pose proof (commands_ok t port cmd Hport Hcmd) as Hok.
  destruct (connection_reports root_as_message ks port cmd cb more closed st tk Hok Hreads Hcb Hlt H)
    as (line & extra & Hs & HFx & Hx).
  destruct (serve_safe _ _ _ _ _ _ _ _ _ (Nat.lt_succ_diag_r _) H) as (_ & _ & _ & (rs & Hrs & HF) & _).
  cbn [t_sent app] in Hrs. rewrite Hrs in HE.
  rewrite (tests_judged port in_time fuel rs msgs l t Hport Hf HE Hc), <- Hrs.
  assert (t <> kill_process_ \/ is_ready (handled ks port cmd line) = false -> extra = []) as Hextra by intuition.
  destruct (decide (cmd_to_watch cmd = [])) as [Hw|Hw].
  - rewrite Hs. by apply (plain_result ks port t cmd line extra in_time).
  - destruct t; try discriminate Hcmd; injection Hcmd as <-; try done.
    3: rewrite Hrs; by apply no_watch_list.
    all: rewrite Hs, Hextra, app_nil_r by (by left); first [apply file_result | apply socket_result; auto].
Qed.

(** ** At a concrete input *)
Section witnesses.
#[local] Existing Instance ref_runtime.
#[local] Existing Instance ref_laws.

Lemma suite_with_rust_witness :
  run receiving_process_terminated (mkFixture (Connected (one_segment ls_messages) Writable) 8080 true 9) = Passed.
Proof.
  destruct (send_command_to_demon ls_command) as [cb|] eqn:Hcb; [|vm_compute in Hcb; discriminate].
  assert (blen (bi_buffer cb) <= verifier_limit) as Hlt.
  { vm_compute in Hcb. injection Hcb as <-. vm_compute. discriminate. }
  destruct (connection generated_root (fun _ => ls_answers) 8080 (frame (bi_buffer cb) ++ []) true)
    as [st tk] eqn:H.
  pose proof (suite_with_rust generated_root (fun _ => ls_answers) 8080 true 9 receiving_process_terminated
    ls_command cb [] true st tk ls_messages (one_segment ls_messages)) as Hsuite.
  apply Hsuite; clear Hsuite.
  - lia.
  - split; [unfold is_pid; cbn; lia|]. intros pid [= <-]. unfold is_pid. lia.
  - exact generated_reads_requests.
  - reflexivity.
  - exact Hcb.
  - exact Hlt.
  - left. reflexivity.
  - exact H.
  - destruct (connection_reports generated_root (fun _ => ls_answers) 8080 ls_command cb [] true st tk
      eq_refl generated_reads_requests Hcb Hlt H) as (line & extra & -> & _ & Hx).
    rewrite (handled_plain _ _ ls_command _ eq_refl), (Hx (or_introl eq_refl)), app_nil_r. exact ls_encoded.
  - exact ls_carried.
  - cbn. lia.
Defined.
End witnesses.
